(* ===== verification/_CoqProject ===== *)
-Q . S2P
Prelude.v
Errors.v
Config.v
Logging.v
Types.v
Sql.v
Storage.v
StorageSpec.v
Tracing.v
DbClient.v
Monitoring.v
Fga.v
AuthModel.v
Authorizer.v
Grpc.v
Groups.v
AppAuthz.v
Management.v
Pool.v
Tenants.v
Hooks.v
Concurrent.v
Importer.v
Typing.v
Authn.v
Serve.v
Router.v
Shutdown.v
Cmd.v
Main.v
Mapping.v
Cli.v
Api.v
