(* ===== verification/Prelude.v ===== *)
(** * A verification of the hook service

    The hook service answers Ory Hydra's token hook: for a user who logs in to a
    client it looks up the user's groups, asks OpenFGA whether one of them may use
    the client, asks the tenant service whether the user belongs to the tenant, and
    puts groups and tenant into the tokens.  Beside that it has management APIs for
    groups and for the applications a group may use, a gRPC API that streams
    memberships, an importer of groups from Salesforce, and commands.  This library
    models the Go code under src/ as Rocq functions, state machines and step
    relations, and proves what makes it correct, and where it is not.

    ** Files, in the order they depend on each other

    - [Prelude] (this file): notations, tactics, generic lemmas on lists and strings.
    - [Errors]: Go errors (sentinels, wrapping, [errors.Is]/[errors.As]) and the monad
      [M S A = S → result A * S] in which all stateful code is written.
    - [Config]: internal/config, the environment of the server and its defaults.
    - [Logging]: internal/logging, the two loggers, the events of the security log and
      the request log, over zap.
    - [Types]: internal/types, the data and its JSON encoding.
    - [Sql]: the part of PostgreSQL the program uses: the tables of
      migrations/00001_initial_schema.sql, its keys, cascading foreign keys and sizes of
      columns ([wf]), the statements the storage layer sends ([stmt]) and their meaning ([run]).  The
      class [Engine] is a connection that executes statements; [EngineLaws] says each
      one either does what [run] says or fails and changes nothing.
    - [Storage]: internal/storage, one definition per method, over any [Engine].
    - [StorageSpec]: what the methods do to the set of memberships and of allowed
      applications (refinements), what any sequence of calls leaves alone, round trips.
    - [Tracing]: internal/tracing, the tracer the service gets, or does not get.
    - [DbClient]: internal/db: lazy and explicit transactions, replica routing and the
      lag monitor, the HTTP transaction middleware, the gRPC interceptors, the start and
      the end.  A client in a context is an [Engine] ([client_engine], [DBClient_engine]),
      so the theorems of [StorageSpec] hold through it.
    - [Monitoring]: internal/monitoring, the response-time middleware and the monitor.
    - [Fga]: internal/openfga, the client and its configuration over the SDK ([FgaSdk]).
    - [AuthModel]: authorization_model.v0.openfga as a value ([v0]) of a type of models,
      what such a model means over a set of tuples ([holds]), and auth_model.go.
    - [Authorizer]: internal/authorization.  The class [AuthorizerOps] with
      [AuthorizerLaws] is what the services rely on; [authorizer_laws] discharges it from
      the laws of the OpenFGA server ([AuthzLaws]: its checks are [holds v0], a write or
      deletion answered with an error may have been carried out; [FilterLaws]: what a read
      with the user filter [group:#member] lists is left open, group by group), which
      [TestServer] satisfies whichever way it reads that filter.
    - [Grpc]: statuses (internal/http/types) and the state of a service, a database
      connection paired with an authorizer's store.
    - [Groups], [AppAuthz]: pkg/groups and pkg/authorization, services and handlers.
    - [Management]: the requests of both APIs that change something, behind the
      transaction middleware.
    - [Pool]: internal/pool as a step relation over all interleavings.
    - [Tenants]: internal/tenants.
    - [Hooks]: pkg/hooks, from the request's bytes to the HTTP answer.
    - [Concurrent]: the hook while other requests change both stores between its
      accesses.
    - [Importer]: internal/importer, [Run] and [Sync].
    - [Typing]: what types and tenants the stored groups have, over both management APIs
      and imports; a small logic of postconditions for [M].
    - [Authn]: pkg/authentication, token verification, its entries in the security log,
      and the two guards.
    - [Serve]: cmd/serve.go, what a server is made of, and the guards in front of its
      APIs.
    - [Router]: pkg/web, pkg/status: the whole HTTP handler.
    - [Shutdown]: cmd/serve.go, the three goroutines of a running server as a state
      machine.
    - [Cmd]: the commands users, groups, import, migrate, create-fga-model and version.
    - [Main]: the process of the server, from its environment to its exit code.
    - [Mapping]: gen/hook/groups/v1, the gRPC API from the request to the messages on the
      stream, behind the server's interceptors and over its own database client.
    - [Cli]: main.go and the [init] functions of cmd: the commands, their flags, and the
      program over a command line.
    - [Api]: the management APIs through the whole HTTP handler.

    Definitions keep the names of the Go functions; a method is in a module named after
    its receiver where two receivers share a name ([Service], [GrpcServer], [Client]).
    Each file's [Witnesses] module applies its theorems to concrete inputs.

    ** What the theorems show

    - The hook.  [hook_end_to_end]: through the whole router, 200 is answered only to a
      request with the configured token whose user is, by the committed database, in a
      group that OpenFGA's grants let use the client, and whose tenant was validated,
      unless the pool was shutting down; the database is as it was, and the request was
      counted once.  The grants are those OpenFGA holds, in step with the database or
      not; with authorization disabled, the default, there are none of these theorems and
      everyone is let in.  [hook_sound] is the same of the handler, [hook_sound_interleaved] with other requests in between;
      [hook_decides]: with a working pool and stores, exactly which status is answered;
      [hook_answers]: when it answers at all; [composeTokenResponse_spec]: what the
      tokens hold; [pool_serves_hook] ties the fates of the hook's jobs to the pool.
    - The guards.  [process_guards] (from the environment) and [gateway_guarded]
      (router): with authentication enabled a call without an acceptable token reaches no
      handler of the management APIs and no stream.  Every guard starts a span first, and
      panics without a tracer.
      [VerifyToken_spec], [guards_agree]; [refusals_are_audited]: every refusal leaves a
      CRITICAL line in the security log, whatever the level.
    - The process.  [main_exit_code], [serve_ends]: how it ends and what it reports, the
      panic of a stream in a process without a tracer included;
      [default_environment_refuses], [serve_authorizer_spec], [NewDBClient_starts]: when
      it does not start; [broken_exporter_disables_hook].
    - The pool.  [pool_invariant], [pool_completes]: FIFO order, bounds, each result
      sent once, termination.
    - Two stores kept equal.  [changes_stay_synced]: after every change of the allowed
      applications that succeeds PostgreSQL and OpenFGA agree (the removal of all groups
      of an application as far as OpenFGA lists them), and after one that fails only the
      rights it was about can differ.  [management_end_to_end]: through the whole router,
      an unauthenticated request of either API changes nothing, one that is answered with
      an error leaves the database alone and OpenFGA but for the rights it is about, one
      answered with success is in both stores, unless the commit is lost after OpenFGA was
      written ([commit_lost]).  [Sync_converges], [Run_imports]: what an import leaves in
      the database, with any authorizer; [Sync_grants]: what in OpenFGA.
    - Storage.  [storage_local]: any sequence of calls keeps the constraints of the schema
      and every row that none of them names; [UpdateGroupsForUser_refines],
      [SyncGroupMembers_refines], [DeleteGroup_outcome], ... for the effect of each
      method as an operation on sets, also when it fails half way.
      [management_well_typed]: every stored group is local or external and of the one
      tenant.
    - Transactions.  [TransactionMiddleware_atomic], [UpdateGroupsForUser_atomic]: a
      request that fails leaves the database as it was.
    - OpenFGA.  [CanAccess_iff] and [BatchCanAccess_grants]: what a check means under the
      authorization model; [removal_terminates_and_removes], [tuple_names_faithful].
    - The stream API.  [mapping_end_to_end]: a refused or undecodable call sends nothing;
      otherwise the messages are the rows the database holds for the group or user, in
      order, all of them if the call ends well and a prefix if it does not.
    - Handlers.  [RemoveGroup_handler], [CreateGroup_handler],
      [AddAllowedAppToGroup_handler], [GetUsersInGroup_stream]: each status and effect.
    - Observation.  [ResponseTime_observes], [security_log], [WithContext_WithRequest],
      [request_log_only_debug], [configuration_logged].
    - Commands.  [membership_command_spec], [set_groups_then_list],
      [migrate_command_spec], [check_exit_code], [runImport_needs]: exit codes, output and
      effect.  [command_line_touches]: which command lines may change which store.

    ** What is a parameter

    PostgreSQL's text of UUIDs and its collation ([PgParams]); which of its operational
    errors occur (fault lists of [DbClient], the failing case of [EngineLaws]); the
    OpenFGA SDK and server, the transformer of its language ([Transformer]); Hydra's
    request type ([Hydra]); the tenant RPC and its connection ([GrpcDial]); go-oidc
    ([Oidc]); zap, the Prometheus client, the OpenTelemetry SDK ([Zap], [Prometheus],
    [Otel]); chi's matching of paths, go-chi/cors, the wrapped response writer ([Chi],
    [Cors], [ChiWriter]); promhttp's page and grpc-gateway (handlers that [NewRouter]
    takes, the codes of [GatewayCodes]); envconfig ([Envconfig]); the order of a Go map's iteration ([GoRange]); goose,
    [url.Parse] and [strconv.Quote] in [Cmd]; cobra's parser ([CobraCommandLine]);
    otelhttp ([Otelhttp]); what grpc-gateway decodes and writes ([GrpcGateway]); errgroup ([ErrGroup]); fresh UUIDs
    and the clock, as arguments.  Every class of laws has an instance, in a [Witnesses]
    or test module.

    ** Bounds and fuel

    Integers are [Z]; where a width matters it is written out ([Offset] in 64 bits,
    [replica_max_conns] through binary64 to int32, [Atoi], [serve_pool]).  The fuel of
    [remove_loop], which reads pages of tuples: one more than the number of tuples
    in the store is enough ([enough_fuel], [removal_terminates_and_removes]), since a page
    is never empty while tuples are left.  The fuel of [AuthModel.evaluate] bounds the
    depth of an evaluation, and is used by the examples' server only, which answers with
    an error when it is not enough.

    ** What is not modelled, and why

    Timeouts, except as errors of the call they bound; spans, but for the panic of a
    missing tracer; the logger's other lines (each is the output of one of [Logging]'s
    methods); isolation between database sessions (PostgreSQL's); sockets, net/http and
    grpc; grpc-gateway's decoding of requests; the wire format of protobuf messages; what
    the Prometheus client does with a registered collector; that PostgreSQL clips a text
    too long for its column when only spaces are in excess (the model refuses it).

    ** Defects the proofs met

    A deployed model whose type definitions are deeply equal to the program's stops the
    server, and one that differs passes ([CompareModel_rejects_equal],
    [serve_authorizer_spec]); the removal of an application from all groups removes
    nothing if OpenFGA takes its filter literally ([literal_filter_removes_nothing]); a
    stream that arrives at a process without a tracer ends it ([main_exit_code]); during a shutdown the hook
    skips the tenant check ([shutdown_skips_tenant_check]); a panicking job costs the pool
    a worker for ever ([panic_starves_the_pool]); UpdateGroup erases the group's name
    ([UpdateGroup_erases_name]); another spelling of a UUID makes the two stores disagree
    ([spelling_breaks_sync]); set-groups outside a transaction may lose memberships
    ([UpdateGroupsForUser_not_atomic]); a commit that fails leaves a right in OpenFGA alone
    ([failed_commit_leaves_right]); the hook may serve a user who was entitled at no
    moment ([never_entitled_yet_served]); an exporter that cannot be made disables the
    hook ([broken_exporter_disables_hook]); ids are never replaced in the route label
    ([ids_stay]); the default log level drops the start and the shutdown of the system
    ([default_level_is_silent]); an import with an OpenFGA host always panics
    ([runImport_needs]); "migrate check" in JSON exits 0 with migrations pending
    ([check_exit_code]); streams need a bearer header though authentication is disabled
    ([noop_still_needs_bearer]).

    ** What is left

    Every Go file of the service with state or decisions of its own is modelled.  The
    next step would be interleavings of whole requests on one database client, which need
    a model of PostgreSQL's isolation, code that is not here. *)

From Stdlib Require Ascii String.
From Stdlib Require Export ZArith Lia.
From stdpp Require Export base strings list gmap sorting option.
Export Ascii.AsciiSyntax.
Abbreviation ascii := Ascii.ascii.
Delimit Scope char_scope with char.

#[export] Set Default Goal Selector "!".

(** ** Notations of the development *)

Declare Scope go_scope.
Delimit Scope go_scope with go.

(** ** Automation *)

Create HintDb hook discriminated.
Create Rewrite HintDb hook.
#[export] Hint Constants Opaque : hook.
#[export] Hint Variables Opaque : hook.

(** Split every conjunction, existential and disjunction-free fact. *)
Ltac unpack :=
  repeat match goal with
  | H : _ ∧ _ |- _ => destruct H
  | H : ∃ _, _ |- _ => destruct H
  | H : (_, _) = (_, _) |- _ => apply pair_equal_spec in H as [??]
  end; simplify_eq/=.

(** Case analysis on the innermost [match] of the goal or of a hypothesis. *)
Ltac cases := repeat (case_match; simplify_eq/=; try done).

(** ** Generic lemmas on lists *)

Section lists.
Context {A B : Type}.
Implicit Types l k : list A.

(** Removing duplicates the way the Go code does it: a [seen] set, one pass,
    the first occurrence of each element is kept. *)
Fixpoint dedup_from `{EqDecision A} (seen : list A) (l : list A) : list A :=
  match l with
  | [] => []
  | x :: l => if decide (x ∈ seen) then dedup_from seen l
              else x :: dedup_from (x :: seen) l
  end.

Lemma elem_of_dedup_from `{EqDecision A} seen l x :
  x ∈ dedup_from seen l ↔ x ∈ l ∧ x ∉ seen.
Proof.
  revert seen. induction l as [|y l IH]; intros seen; cbn; [set_solver|].
  case_decide; [rewrite IH; set_solver|].
  rewrite elem_of_cons, IH. destruct (decide (x = y)); set_solver.
Qed.

Lemma NoDup_dedup_from `{EqDecision A} seen l : NoDup (dedup_from seen l).
Proof.
  revert seen. induction l as [|y l IH]; intros seen; cbn; [constructor|].
  case_decide; [apply IH|].
  constructor; [rewrite elem_of_dedup_from; set_solver|apply IH].
Qed.

Lemma dedup_from_NoDup `{EqDecision A} seen l :
  NoDup l → (∀ x, x ∈ l → x ∉ seen) → dedup_from seen l = l.
Proof.
  revert seen. induction l as [|y l IH]; intros seen Hnd Hs; cbn; [done|].
  apply list.NoDup_cons in Hnd as [??].
  rewrite decide_False by (apply Hs; set_solver).
  f_equal. apply IH; set_solver.
Qed.

Lemma filter_true (P : A → Prop) `{∀ x, Decision (P x)} l :
  (∀ x, x ∈ l → P x) → filter P l = l.
Proof.
  induction l as [|x l IH]; intros HP; [done|].
  rewrite filter_cons_True by (apply HP; set_solver).
  f_equal. apply IH. set_solver.
Qed.

Lemma filter_none (P : A → Prop) `{∀ x, Decision (P x)} l :
  (∀ x, x ∈ l → ¬ P x) → filter P l = [].
Proof.
  induction l as [|x l IH]; intros HP; [done|].
  rewrite filter_cons_False by (apply HP; set_solver).
  apply IH. set_solver.
Qed.

Lemma NoDup_fmap_filter (f : A → B) (P : A → Prop) `{∀ x, Decision (P x)} l :
  NoDup (f <$> l) → NoDup (f <$> filter P l).
Proof.
  intros Hnd. eapply sublist_NoDup; [exact Hnd|].
  apply fmap_sublist, sublist_filter.
Qed.

Lemma NoDup_snoc l x : NoDup l → x ∉ l → NoDup (l ++ [x]).
Proof.
  intros Hl Hx. apply list.NoDup_app. split; [done|]. split; [|apply NoDup_singleton].
  intros y Hy Hin. apply list_elem_of_singleton in Hin as ->. done.
Qed.

Lemma NoDup_fmap_inj_on (f : A → B) l x y :
  NoDup (f <$> l) → x ∈ l → y ∈ l → f x = f y → x = y.
Proof.
  induction l as [|z l IH]; intros Hnd Hx Hy Hf; [set_solver|].
  cbn in Hnd. apply list.NoDup_cons in Hnd as [Hz Hnd].
  apply elem_of_cons in Hx as [->|Hx], Hy as [->|Hy]; [done| | |by apply IH].
  - destruct Hz. rewrite Hf. by apply list_elem_of_fmap_2.
  - destruct Hz. rewrite <- Hf. by apply list_elem_of_fmap_2.
Qed.
End lists.

#[export] Hint Resolve NoDup_snoc NoDup_dedup_from NoDup_fmap_filter : hook.

(** ** Lemmas on strings *)

Lemma string_app_cons a s t : String a s +:+ t = String a (s +:+ t).
Proof. done. Qed.
Lemma string_app_nil_l (t : string) : "" +:+ t = t.
Proof. done. Qed.
Lemma string_app_assoc (s t u : string) : (s +:+ t) +:+ u = s +:+ (t +:+ u).
Proof. induction s as [|a s IH]; [done|]. by rewrite !string_app_cons, IH. Qed.
Lemma string_app_nil_r (s : string) : s +:+ "" = s.
Proof. induction s as [|a s IH]; [done|]. by rewrite string_app_cons, IH. Qed.
Lemma string_app_inj_l p (s t : string) : p +:+ s = p +:+ t → s = t.
Proof. induction p as [|a p IH]; [done|]. rewrite !string_app_cons. intros [= ?]; auto. Qed.

#[export] Hint Rewrite string_app_cons string_app_nil_l : hook.

(** [strings.Split] at a one-byte separator. *)
Fixpoint split_from (sep : ascii) (cur s : string) : list string :=
  match s with
  | "" => [cur]
  | String a s' =>
      if decide (a = sep) then cur :: split_from sep "" s'
      else split_from sep (cur +:+ String a "") s'
  end%string.
Definition Split (sep : ascii) (s : string) : list string := split_from sep "" s.

(** [w] does not hold the separator. *)
Definition without (sep : ascii) (w : string) : Prop :=
  sep ∉ String.list_ascii_of_string w.

#[export] Instance without_dec sep w : Decision (without sep w).
Proof. unfold without. apply _. Defined.

Lemma with_sep sep w s : ¬ without sep (w +:+ String sep s).
Proof.
  unfold without. intros Hn. apply Hn. clear Hn. induction w as [|a w IH]; [by left|by right].
Qed.

Lemma split_without sep w cur s :
  without sep w → split_from sep cur (w +:+ s) = split_from sep (cur +:+ w) s.
Proof.
  unfold without. revert cur. induction w as [|a w IH]; intros cur Hw; [by rewrite string_app_nil_r|].
  cbn in Hw. apply not_elem_of_cons in Hw as [Ha Hw].
  rewrite string_app_cons. cbn [split_from]. rewrite decide_False by done.
  rewrite IH by done. f_equal. by rewrite string_app_assoc.
Qed.

Lemma Split_without sep w : without sep w → Split sep w = [w].
Proof.
  intros Hw. unfold Split. rewrite <- (string_app_nil_r w) at 1.
  by rewrite split_without, string_app_nil_l by done.
Qed.

Lemma split_from_sep sep cur s m :
  split_from sep cur (s +:+ String sep m) = split_from sep cur s ++ Split sep m.
Proof.
  revert cur. induction s as [|a s IH]; intros cur.
  - rewrite string_app_nil_l. cbn [split_from]. by rewrite decide_True.
  - rewrite string_app_cons. cbn [split_from]. case_decide; [|apply IH].
    by rewrite (IH ""%string).
Qed.

Lemma Split_sep sep s m : Split sep (s +:+ String sep m) = Split sep s ++ Split sep m.
Proof. apply split_from_sep. Qed.

Lemma split_from_cons sep cur s : ∃ h t, split_from sep cur s = h :: t.
Proof.
  revert cur. induction s as [|a s IH]; intros cur; cbn; [eauto|]. case_decide; eauto.
Qed.

(** ** The order in which a Go map is iterated: any order of its keys *)

Class GoRange := { map_keys : gset string → list string }.
Class GoRangeLaws `{GoRange} := { map_keys_perm X : map_keys X ≡ₚ elements X }.
