(* ===== verification/Errors.v ===== *)
(** * Go errors and the error-state monad

    A Go [error] is a value: a sentinel made by [errors.New] (compared by
    identity), a PostgreSQL error of the driver, text made by [fmt.Errorf]
    without [%w], or a wrapper made by [fmt.Errorf] with [%w], through which
    [errors.Is] and [errors.As] look.  The sentinels are the package variables
    of the repository (and those of the libraries the code tests for); two
    packages that declare an error with the same text declare two sentinels.

    Stateful code that may fail is a function from a state to a result and a
    state, with stdpp's monad notation. *)

From S2P Require Import Prelude.

(** ** Sentinels *)

Inductive sentinel :=
  (* internal/types/group.go *)
  | TypesErrInvalidGroupType | TypesErrInvalidRole
  (* internal/storage/errors.go *)
  | StorageErrNotFound | StorageErrDuplicateKey | StorageErrForeignKeyViolation
  (* database/sql *)
  | SqlErrNoRows | SqlErrTxDone
  (* pkg/groups/errors.go *)
  | GroupsErrGroupNotFound | GroupsErrInvalidGroupName | GroupsErrDuplicateGroup
  | GroupsErrInvalidGroupType | GroupsErrInvalidTenant
  | GroupsErrInternalServerError | GroupsErrUserAlreadyInGroup
  | GroupsErrInvalidGroupID | GroupsErrInvalidUserID
  | GroupsErrStreamInterrupted | GroupsErrUnauthorizedStream
  (* pkg/authorization/errors.go *)
  | AuthzErrGroupNotFound | AuthzErrAppAlreadyExistsInGroup
  | AuthzErrAppDoesNotExistInGroup | AuthzErrAppDoesNotExist
  | AuthzErrInternalServerError | AuthzErrInvalidGroupID
  (* pkg/hooks/service.go, internal/tenants/client.go *)
  | HooksErrTooBusy | HooksErrTenantInternal | TenantsErrNotMember
  (* internal/authorization/authorization.go *)
  | ErrInvalidAuthModel
  (* cmd/serve.go; net/http, grpc, context *)
  | ErrShutdownSignal | HttpErrServerClosed | GrpcErrServerStopped | ContextCanceled.

#[export] Instance sentinel_eq_dec : EqDecision sentinel.
Proof. solve_decision. Defined.

Definition sentinel_text (s : sentinel) : string :=
  match s with
  | TypesErrInvalidGroupType => "invalid group type"
  | TypesErrInvalidRole => "invalid role"
  | StorageErrNotFound => "resource not found"
  | StorageErrDuplicateKey => "duplicate key violation"
  | StorageErrForeignKeyViolation => "foreign key violation"
  | SqlErrNoRows => "sql: no rows in result set"
  | SqlErrTxDone => "sql: transaction has already been committed or rolled back"
  | GroupsErrGroupNotFound => "group not found"
  | GroupsErrInvalidGroupName => "invalid group name"
  | GroupsErrDuplicateGroup => "group already exists"
  | GroupsErrInvalidGroupType => "invalid group type"
  | GroupsErrInvalidTenant => "invalid tenant"
  | GroupsErrInternalServerError => "internal server error"
  | GroupsErrUserAlreadyInGroup => "user already in group"
  | GroupsErrInvalidGroupID => "invalid group id"
  | GroupsErrInvalidUserID => "invalid user id"
  | GroupsErrStreamInterrupted => "stream interrupted"
  | GroupsErrUnauthorizedStream => "unauthorized stream access"
  | AuthzErrGroupNotFound => "group not found"
  | AuthzErrAppAlreadyExistsInGroup => "app already exists in group"
  | AuthzErrAppDoesNotExistInGroup => "app does not exist in group"
  | AuthzErrAppDoesNotExist => "app does not exist"
  | AuthzErrInternalServerError => "internal server error"
  | AuthzErrInvalidGroupID => "invalid group id"
  | HooksErrTooBusy => "worker pool is full"
  | HooksErrTenantInternal => "tenant service internal error"
  | TenantsErrNotMember => "user is not a member of the tenant"
  | ErrInvalidAuthModel => "invalid authorization model schema"
  | ErrShutdownSignal => "shutdown signal received"
  | HttpErrServerClosed => "http: Server closed"
  | GrpcErrServerStopped => "grpc: the server has been stopped"
  | ContextCanceled => "context canceled"
  end.

(** ** Error values *)

Inductive goerr :=
  | ESentinel (s : sentinel)
  (** [*pgconn.PgError]: its SQLSTATE code and its text. *)
  | EPg (code msg : string)
  (** [errors.New] or [fmt.Errorf] without [%w]; errors of other packages. *)
  | EText (msg : string)
  (** Not an error value: a run-time panic that unwinds the caller. *)
  | EPanic (msg : string)
  (** [fmt.Errorf("<before>%w<after>", e)]. *)
  | EWrap (before : string) (e : goerr) (after : string).

#[export] Instance goerr_eq_dec : EqDecision goerr.
Proof. solve_decision. Defined.

Fixpoint Error (e : goerr) : string :=
  match e with
  | ESentinel s => sentinel_text s
  | EPg _ msg => msg
  | EText msg | EPanic msg => msg
  | EWrap b e a => b +:+ Error e +:+ a
  end.

(** [errors.Is(e, s)] for a sentinel [s]. *)
Fixpoint errors_is (e : goerr) (s : sentinel) : bool :=
  match e with
  | ESentinel s' => bool_decide (s' = s)
  | EWrap _ e _ => errors_is e s
  | _ => false
  end.

(** [errors.As(e, *pgconn.PgError)]. *)
Fixpoint errors_as_pg (e : goerr) : option string :=
  match e with
  | EPg code _ => Some code
  | EWrap _ e _ => errors_as_pg e
  | _ => None
  end.

(** [fmt.Errorf("<msg>: %v", e)] and [fmt.Errorf("<msg>: %w", e)]. *)
Definition errorf_v (msg : string) (e : goerr) : goerr :=
  EText (msg +:+ ": " +:+ Error e).
Definition errorf_w (msg : string) (e : goerr) : goerr :=
  EWrap (msg +:+ ": ") e "".

Lemma errors_is_wrap msg e s : errors_is (errorf_w msg e) s = errors_is e s.
Proof. done. Qed.
Lemma errors_is_text msg e s : errors_is (errorf_v msg e) s = false.
Proof. done. Qed.
Lemma errors_is_sentinel s : errors_is (ESentinel s) s = true.
Proof. cbn. by rewrite bool_decide_true. Qed.

#[export] Hint Rewrite errors_is_wrap errors_is_text errors_is_sentinel : hook.

(** ** Results and the monad *)

Inductive result (A : Type) := Ok (a : A) | Err (e : goerr).
Arguments Ok {A} a.
Arguments Err {A} e.

Definition is_ok {A} (r : result A) : bool :=
  match r with Ok _ => true | Err _ => false end.

#[export] Instance result_eq_dec {A} `{EqDecision A} : EqDecision (result A).
Proof. solve_decision. Defined.

Definition M (S A : Type) : Type := S → result A * S.

#[export] Instance M_ret {S} : MRet (M S) := λ A a s, (Ok a, s).
#[export] Instance M_bind {S} : MBind (M S) := λ A B k m s,
  match m s with
  | (Ok a, s') => k a s'
  | (Err e, s') => (Err e, s')
  end.

Definition fail {S A} (e : goerr) : M S A := λ s, (Err e, s).

(** [if err != nil { return f(err) }]. *)
Definition map_err {S A} (f : goerr → goerr) (m : M S A) : M S A := λ s,
  match m s with
  | (Err e, s') => (Err (f e), s')
  | r => r
  end.

(** [v, err := m] with both cases handled by the caller. *)
Definition attempt {S A} (m : M S A) : M S (result A) := λ s,
  let '(r, s') := m s in (Ok r, s').

Lemma bind_inv {S A B} (m : M S A) (k : A → M S B) s r s' :
  (m ≫= k) s = (r, s') →
  (∃ e, r = Err e ∧ m s = (Err e, s')) ∨
  (∃ a s1, m s = (Ok a, s1) ∧ k a s1 = (r, s')).
Proof.
  unfold mbind, M_bind. destruct (m s) as [[a|e] s1]; intros H.
  - right. eauto.
  - left. simplify_eq. eauto.
Qed.

Lemma map_err_inv {S A} (f : goerr → goerr) (m : M S A) s r s' :
  map_err f m s = (r, s') →
  (∃ a, r = Ok a ∧ m s = (Ok a, s')) ∨
  (∃ e, r = Err (f e) ∧ m s = (Err e, s')).
Proof.
  unfold map_err. destruct (m s) as [[a|e] s1]; intros; simplify_eq; eauto.
Qed.
