(* ===== verification/Config.v ===== *)
(** * internal/config: the environment of the server

    [EnvSpec] is the record that envconfig fills from the environment; [default_specs] is
    what its tags give when nothing but the required variable, DSN, is set.  Integers are
    [Z] (they are in the range of their Go type), durations are nanoseconds, the float is
    binary64.  envconfig and the flag package are parameters. *)

From Stdlib Require Import SpecFloat.
From S2P Require Import Prelude Errors.
Local Open Scope Z_scope.

Record EnvSpec := mkSpecs {
  spec_OtelGRPCEndpoint : string; spec_OtelHTTPEndpoint : string; spec_TracingEnabled : bool;
  spec_LogLevel : string; spec_Debug : bool;
  spec_Port : Z;
  spec_GRPCPort : Z; spec_GRPCMaxConcurrentStreams : Z;
  spec_ApiToken : string;
  spec_OpenfgaApiScheme : string; spec_OpenfgaApiHost : string;
  spec_OpenfgaApiToken : string; spec_OpenfgaStoreId : string;
  spec_OpenfgaModelId : string;
  spec_SalesforceDomain : string; spec_SalesforceConsumerKey : string;
  spec_SalesforceConsumerSecret : string;
  spec_AuthorizationEnabled : bool; spec_OpenFGAWorkersTotal : Z;
  spec_AuthenticationEnabled : bool; spec_AuthenticationIssuer : string;
  spec_AuthenticationJwksURL : string; spec_AuthenticationAllowedSubjects : string;
  spec_AuthenticationRequiredScope : string;
  spec_DSN : string; spec_DBMaxConns : Z; spec_DBMinConns : Z;
  spec_DBMaxConnLifetime : Z; spec_DBMaxConnIdleTime : Z;
  spec_TenantServiceGRPCAddress : string; spec_TenantServiceGRPCTimeout : Z;
  spec_TenantServiceTLSEnabled : bool;
  spec_ReplicaDSN : string; spec_ReplicaDBMaxConns : Z; spec_ReplicaDBMinConns : Z;
  spec_ReplicaDBMaxConnLifetime : Z; spec_ReplicaDBMaxConnIdleTime : Z;
  spec_MaxReplicaLagMs : Z; spec_ReplicaPoolSizeMultiplier : spec_float;
  spec_StreamTimeout : Z; spec_HookMaxConcurrent : Z;
}.

Definition second : Z := 10 ^ 9.
Definition minute : Z := 60 * second.
Definition hour : Z := 60 * minute.

(** The [default] tags; a field without one has its zero value. *)
Definition default_specs (dsn : string) : EnvSpec := {|
  spec_OtelGRPCEndpoint := ""; spec_OtelHTTPEndpoint := ""; spec_TracingEnabled := true;
  spec_LogLevel := "error"; spec_Debug := false;
  spec_Port := 8080;
  spec_GRPCPort := 9090; spec_GRPCMaxConcurrentStreams := 100;
  spec_ApiToken := "";
  spec_OpenfgaApiScheme := ""; spec_OpenfgaApiHost := "";
  spec_OpenfgaApiToken := ""; spec_OpenfgaStoreId := ""; spec_OpenfgaModelId := "";
  spec_SalesforceDomain := ""; spec_SalesforceConsumerKey := "";
  spec_SalesforceConsumerSecret := "";
  spec_AuthorizationEnabled := false; spec_OpenFGAWorkersTotal := 150;
  spec_AuthenticationEnabled := true; spec_AuthenticationIssuer := "";
  spec_AuthenticationJwksURL := ""; spec_AuthenticationAllowedSubjects := "";
  spec_AuthenticationRequiredScope := "";
  spec_DSN := dsn; spec_DBMaxConns := 25; spec_DBMinConns := 2;
  spec_DBMaxConnLifetime := hour; spec_DBMaxConnIdleTime := 30 * minute;
  spec_TenantServiceGRPCAddress := ""; spec_TenantServiceGRPCTimeout := 5 * second;
  spec_TenantServiceTLSEnabled := false;
  spec_ReplicaDSN := ""; spec_ReplicaDBMaxConns := 25; spec_ReplicaDBMinConns := 2;
  spec_ReplicaDBMaxConnLifetime := hour; spec_ReplicaDBMaxConnIdleTime := 30 * minute;
  spec_MaxReplicaLagMs := 1000;
  spec_ReplicaPoolSizeMultiplier := binary_normalize 53 1024 1 0 false;
  spec_StreamTimeout := 30 * second; spec_HookMaxConcurrent := 150;
|}.

(** [envconfig.Process("", specs)]: for a process whose environment sets DSN only, the
    defaults. *)
Class Envconfig := { Process : gmap string string → result EnvSpec }.
Class EnvconfigLaws `{!Envconfig} := {
  Process_default env dsn :
    dom env = {["DSN"%string]} → env !! "DSN"%string = Some dsn → Process env = Ok (default_specs dsn);
  Process_required env : env !! "DSN"%string = None → is_ok (Process env) = false;
}.

(** [NewFlags], given what the flag package parsed. *)
Record Flags := mkFlags { ShowVersion : bool }.
Definition NewFlags (parsed : option bool) : Flags := mkFlags (default false parsed).

(** internal/version. *)
Definition version_Version : string := "1.3.1".
