(* ===== verification/Logging.v ===== *)
(** * internal/logging: the two loggers and what they write

    A [Logger] is zap's sugared logger for the service and a [SecurityLogger] for the
    events of the security vocabulary (security_logger.go); both are built from the same
    configured level, by code that is written twice.  A logger is the data the code
    builds, a [core]; what zap does with it is the class [Zap] with its documented laws:
    a line is written exactly when its level is at or above the logger's.

    A line is the JSON object as a list of its members, without the time.  The request of
    net/http and the values of a context are the parts this package reads. *)

From stdpp Require Import pretty.
From S2P Require Import Prelude Errors.
Local Open Scope string_scope.

(** ** zap *)

Inductive Level := DebugLevel | InfoLevel | WarnLevel | ErrorLevel | DPanicLevel.

#[export] Instance level_eq_dec : EqDecision Level.
Proof. solve_decision. Defined.

(** The numbers of zapcore. *)
Definition severity (l : Level) : Z :=
  match l with
  | DebugLevel => -1 | InfoLevel => 0 | WarnLevel => 1 | ErrorLevel => 2 | DPanicLevel => 3
  end.

(** A string field: its key and value. *)
Abbreviation Field := (string * string)%type.
Abbreviation Option := (list Field).

(** [zapcore.NewCore(encoder, out, lvl)]. *)
Record core := mkCore {
  MessageKey : string; LevelKey : string; EncodeLevel : Level → string;
  preset : list Field;     (** added to the encoder *)
  core_level : Level;
}.

Abbreviation line := (list Field).

Class Zap := {
  CapitalString : Level → string;
  (** What [zap.New(core)] writes for one call. *)
  zap_log : core → Level → string → list Field → list line;
}.

Class ZapLaws `{!Zap} := {
  zap_enabled c l msg fs : (severity (core_level c) ≤ severity l)%Z →
    zap_log c l msg fs =
      [((LevelKey c, EncodeLevel c l) :: (MessageKey c, msg) :: preset c ++ fs)%list];
  zap_disabled c l msg fs : (severity l < severity (core_level c))%Z → zap_log c l msg fs = [];
  CapitalString_inj l l' : CapitalString l = CapitalString l' → l = l';
}.

(** ** logger.go *)

(** [strings.ToLower], of which only the comparison with ASCII words matters: the two
    characters outside ASCII whose lower case is an ASCII letter are U+0130 and U+212A;
    any other character outside ASCII stays outside. *)
Definition lower_byte (a : ascii) : ascii :=
  let n := Ascii.nat_of_ascii a in
  if decide (65 ≤ n ≤ 90)%nat then Ascii.ascii_of_nat (n + 32) else a.

Fixpoint ToLower (s : string) : string :=
  match s with
  | "" => ""
  | String a s1 =>
      match s1 with
      | String b s2 =>
          if decide (a = "196"%char ∧ b = "176"%char) then String "i" (ToLower s2)
          else match s2 with
               | String c s3 =>
                   if decide (a = "226"%char ∧ b = "132"%char ∧ c = "170"%char)
                   then String "k" (ToLower s3)
                   else String (lower_byte a) (ToLower s1)
               | "" => String (lower_byte a) (ToLower s1)
               end
      | "" => String (lower_byte a) ""
      end
  end.

(** The switch of [NewServiceLogger]; the zero value of a level is [InfoLevel]. *)
Definition service_level (l : string) : Level :=
  let l := ToLower l in
  if decide (l = "debug") then DebugLevel
  else if decide (l = "info") then InfoLevel
  else if decide (l = "warning") then WarnLevel
  else if decide (l = "error") then ErrorLevel
  else if decide (l = "critical") then DPanicLevel
  else InfoLevel.

(** The switch of [NewSecurityLogger]. *)
Definition security_level (l : string) : Level :=
  let l := ToLower l in
  if decide (l = "debug") then DebugLevel
  else if decide (l = "info") then InfoLevel
  else if decide (l = "warn") then WarnLevel
  else if decide (l = "error") then ErrorLevel
  else if decide (l = "critical") then DPanicLevel
  else InfoLevel.

Definition APP_ID : string := "identity_platform.hook_service".

Section loggers.
Context `{!Zap}.

Definition NewServiceLogger (l : string) : core := {|
  MessageKey := "description"; LevelKey := "level"; EncodeLevel := CapitalString;
  preset := [("type", "service")]; core_level := service_level l;
|}.

(** DPanic is called CRITICAL. *)
Definition levelEncoder (l : Level) : string :=
  match l with DPanicLevel => "CRITICAL" | _ => CapitalString l end.

(** The [zap.Logger] of a [SecurityLogger]. *)
Definition NewSecurityLogger (l : string) : core := {|
  MessageKey := "description"; LevelKey := "level"; EncodeLevel := levelEncoder;
  preset := [("appid", APP_ID); ("type", "security")]; core_level := security_level l;
|}.

(** [None] is the logger of [zap.NewNop], which writes nothing. *)
Record Logger := mkLogger { SugaredLogger : option core; security : option core }.

Definition NewLogger (l : string) : Logger :=
  mkLogger (Some (NewServiceLogger l)) (Some (NewSecurityLogger l)).
Definition NewNoopLogger : Logger := mkLogger None None.

Definition write (c : option core) (l : Level) (msg : string) (fs : list Field) : list line :=
  match c with Some c => zap_log c l msg fs | None => [] end.

(** The methods of the interface, given their arguments formatted. *)
Definition log_Debug (lg : Logger) (msg : string) : list line := write (SugaredLogger lg) DebugLevel msg [].
Definition log_Info (lg : Logger) (msg : string) : list line := write (SugaredLogger lg) InfoLevel msg [].
Definition log_Warn (lg : Logger) (msg : string) : list line := write (SugaredLogger lg) WarnLevel msg [].
Definition log_Error (lg : Logger) (msg : string) : list line := write (SugaredLogger lg) ErrorLevel msg [].

(** ** security_logger.go: one definition per event *)

(** [for _, opt := range options { fields = append(fields, opt...) }] *)
Fixpoint append_options (fields : list Field) (options : list Option) : list Field :=
  match options with
  | [] => fields
  | opt :: options => append_options (fields ++ opt) options
  end.

Context (a : option core).

Definition event (l : Level) (msg ev : string) (options : list Option) : list line :=
  write a l msg (append_options [("event", ev)] options).

Definition SuccessfulLogin (user : string) (options : list Option) : list line :=
  event InfoLevel ("User " +:+ user +:+ " login successfully") ("authn_login_success:" +:+ user)
    options.

Definition FailedLogin (err : string) (options : list Option) : list line :=
  event WarnLevel ("User login failed, " +:+ err) ("authn_login_fail:" +:+ err) options.

Definition AccountLockout (user : string) (options : list Option) : list line :=
  event WarnLevel ("User " +:+ user +:+ " login locked because maxretries exceeded")
    ("authn_login_lock:" +:+ user +:+ ",maxretries") options.

Definition PasswordChange (user : string) (options : list Option) : list line :=
  event InfoLevel ("User " +:+ user +:+ " has successfully changed their password")
    ("authn_password_change:" +:+ user) options.

Definition PasswordChangeFail (user : string) (options : list Option) : list line :=
  event DPanicLevel ("User " +:+ user +:+ " failed to change their password")
    ("authn_password_change_fail:" +:+ user) options.

Definition TokenCreate (options : list Option) : list line :=
  event InfoLevel "A token has been created" ("authn_token_created:" +:+ APP_ID) options.

Definition TokenRevoke (options : list Option) : list line :=
  event InfoLevel "A token has been revoked" ("authn_token_revoked:" +:+ APP_ID) options.

Definition TokenReuse (token : string) (options : list Option) : list line :=
  event DPanicLevel
    ("Someone attempted to use token ID: " +:+ token +:+ " which was previously revoked")
    ("authn_token_reuse:" +:+ APP_ID +:+ "," +:+ token) options.

Definition TokenDelete (user : string) (options : list Option) : list line :=
  event InfoLevel ("Session was deleted for user " +:+ user) ("authn_token_delete:" +:+ user)
    options.

Definition AuthzFailure (user resource : string) (options : list Option) : list line :=
  event DPanicLevel
    ("User " +:+ user +:+ " attempted to access resource " +:+ resource +:+ " without entitlement")
    ("authz_fail:" +:+ user +:+ "," +:+ resource) options.

Definition AuthzFailureNotEmployee (user : string) (options : list Option) : list line :=
  event DPanicLevel ("User " +:+ user +:+ " logged in, but they are not a canonical employee")
    ("authz_fail:" +:+ user +:+ ",not_employee") options.

Definition AuthzFailureNoSession (api : string) (options : list Option) : list line :=
  event DPanicLevel ("User tried to access the " +:+ api +:+ " API without a session")
    "authz_fail:no_session" options.

Definition AuthzFailureApplicationAccess (user clientID : string) (options : list Option) : list line :=
  event WarnLevel ("User " +:+ user +:+ " tried to access application " +:+ clientID)
    ("authz_fail:" +:+ user +:+ "," +:+ clientID) options.

Definition AuthzFailureInsufficientPermissions (user action api : string) (options : list Option)
    : list line :=
  event WarnLevel
    ("User " +:+ user +:+ " tried to perform `" +:+ action +:+ "` on the `" +:+ api +:+
     "` API without enough permissions")
    ("authz_fail:" +:+ user +:+ "," +:+ api) options.

Definition AuthzFailureRoleAssignment (user roles : string) (options : list Option) : list line :=
  event WarnLevel
    ("User " +:+ user +:+ " tried to assign the `" +:+ roles +:+ "` roles  without enough permissions")
    ("authz_fail:" +:+ user +:+ "," +:+ roles) options.

Definition AuthzFailureIdentityAssignment (user identities : string) (options : list Option)
    : list line :=
  event WarnLevel
    ("User " +:+ user +:+ " tried to assign the `" +:+ identities +:+
     "` identities  without enough permissions")
    ("authz_fail:" +:+ user +:+ ",identities") options.

Definition AdminAction (user action api resource : string) (options : list Option) : list line :=
  event InfoLevel
    ("User " +:+ user +:+ " has " +:+ action +:+ " the `" +:+ api +:+ "` `" +:+ resource +:+ "`")
    ("authz_admin:" +:+ user +:+ "," +:+ api +:+ "," +:+ action) options.

Definition SystemStartup (options : list Option) : list line :=
  event WarnLevel "New instance spawned" "system_startup" options.
Definition SystemShutdown (options : list Option) : list line :=
  event WarnLevel "Instance stopped" "system_shutdown" options.
Definition SystemRestart (options : list Option) : list line :=
  event WarnLevel "Instance restarted" "system_restart" options.
Definition SystemCrash (options : list Option) : list line :=
  event WarnLevel "Instance crashed" "system_crash" options.
End loggers.

(** ** The request and the context as fields *)

(** What is read of an [http.Request]. *)
Record request := mkRequest {
  req_Method : string; req_Host : string; req_RequestURI : string; req_Proto : string;
  req_RemoteAddr : string; req_UserAgent : string; req_TLS : bool;
  req_id : string;   (** [middleware.GetReqID] of its context *)
}.

(** The values of a context at string keys; a value need not be a string. *)
Inductive any := AString (s : string) | AOther.
Abbreviation values := (gmap string any).

Definition UserAgentKey : string := "useragent".
Definition SourceIpKey : string := "source_ip".
Definition HostnameKey : string := "hostname".
Definition ProtocolKey : string := "protocol".
Definition PortKey : string := "port".
Definition RequestUriKey : string := "request_uri".
Definition RequestMethodKey : string := "request_method".

(** [h[0]] and, when there is one, [h[1]]. *)
Definition host_parts (Host : string) : string * option string :=
  match Split ":"%char Host with
  | h0 :: h1 :: _ => (h0, Some h1)
  | [h0] => (h0, None)
  | [] => ("", None)
  end.

Definition WithRequest (r : request) : Option :=
  let '(hostname, port) := host_parts (req_Host r) in
  ([("useragent", req_UserAgent r); ("source_ip", req_RemoteAddr r); ("hostname", hostname);
    ("protocol", req_Proto r); ("request_uri", req_RequestURI r);
    ("request_method", req_Method r)] ++
   match port with Some p => [("port", p)] | None => [] end)%list.

Definition context_labels : gmap string string := list_to_map
  [(UserAgentKey, "useragent"); (SourceIpKey, "source_ip"); (HostnameKey, "hostname");
   (ProtocolKey, "protocol"); (PortKey, "port"); (RequestUriKey, "request_uri");
   (RequestMethodKey, "request_method")].

(** The body of the loop of [WithContext], for one key. *)
Definition context_field (ctx : values) (key : string) : result (list Field) :=
  match ctx !! key with
  | Some (AString v) => Ok [(default "" (context_labels !! key), v)]
  | Some AOther => Err (EPanic "interface conversion: interface {} is not string")
  | None => Ok []
  end.

Fixpoint context_fields (ctx : values) (keys : list string) (ret : list Field)
    : result (list Field) :=
  match keys with
  | [] => Ok ret
  | key :: keys =>
      match context_field ctx key with
      | Ok fs => context_fields ctx keys (ret ++ fs)
      | Err e => Err e
      end
  end.

Definition WithContext `{!GoRange} (ctx : option values) : result Option :=
  match ctx with
  | None => Ok []
  | Some ctx => context_fields ctx (map_keys (dom context_labels)) []
  end.

Definition WithLabel (key value : string) : Option := [(key, value)].

(** ** middlewares.go *)

Definition LogContextMiddleware {A} (next : values → A) (r : request) (ctx : values) : A :=
  let ctx := <[UserAgentKey := AString (req_UserAgent r)]> ctx in
  let ctx := <[SourceIpKey := AString (req_RemoteAddr r)]> ctx in
  let ctx := <[ProtocolKey := AString (req_Proto r)]> ctx in
  let ctx := <[RequestUriKey := AString (req_RequestURI r)]> ctx in
  let ctx := <[RequestMethodKey := AString (req_Method r)]> ctx in
  let '(hostname, port) := host_parts (req_Host r) in
  let ctx := <[HostnameKey := AString hostname]> ctx in
  next (match port with Some p => <[PortKey := AString p]> ctx | None => ctx end).

(** [LogEntry]: its logger is the formatter's; [buf] is a buffer that grows. *)
Record LogEntry := mkLogEntry { entry_logger : Logger; buf : string }.

Definition NewLogEntry (l : Logger) (r : request) : LogEntry :=
  mkLogEntry l
    ((if decide (req_id r ≠ "") then "[" +:+ req_id r +:+ "] " else "") +:+
     req_Method r +:+ " " +:+
     (if req_TLS r then "https" else "http") +:+ "://" +:+ req_Host r +:+ req_RequestURI r +:+
     " " +:+ req_Proto r +:+ " " +:+
     "from " +:+ req_RemoteAddr r +:+ " ").

(** [%03d] *)
Fixpoint zeros (n : nat) : string :=
  match n with 0 => "" | S n => "0" +:+ zeros n end.
Definition pad3 (z : Z) : string :=
  let sign := if decide (z < 0)%Z then "-" else "" in
  let digits := pretty (Z.to_N (Z.abs z)) in
  sign +:+ zeros (3 - String.length sign - String.length digits) +:+ digits.

(** The header and the duration are given as they print. *)
Definition Write `{!Zap} (e : LogEntry) (status bytes : Z) (header elapsed : string)
    : list line * LogEntry :=
  let e := mkLogEntry (entry_logger e)
    (buf e +:+ header +:+ " " +:+ pad3 status +:+ " " +:+ pretty bytes +:+ "B in " +:+ elapsed) in
  (log_Debug (entry_logger e) (buf e), e).

(** ** Properties *)

Lemma append_options_concat fields options :
  append_options fields options = (fields ++ concat options)%list.
Proof.
  revert fields. induction options as [|o options IH]; intros fields; cbn.
  - by rewrite app_nil_r.
  - by rewrite IH, <- app_assoc.
Qed.

(** The two switches: the same but for the spelling of WARN. *)
Lemma levels_agree l :
  ToLower l ≠ "warn" → ToLower l ≠ "warning" → service_level l = security_level l.
Proof.
  intros H1 H2. unfold service_level, security_level.
  rewrite (decide_False (P := ToLower l = "warning")) by done.
  by rewrite (decide_False (P := ToLower l = "warn")) by done.
Qed.

(** One configured level sets the thresholds of both loggers.  They are
    different exactly when it is written "warn" or "warning", in any case: then one of
    the two loggers is set to WARN and the other one to INFO. *)
Theorem log_levels_differ l :
  (service_level l ≠ security_level l ↔ ToLower l = "warn" ∨ ToLower l = "warning") ∧
  (ToLower l = "warn" → service_level l = InfoLevel ∧ security_level l = WarnLevel) ∧
  (ToLower l = "warning" → service_level l = WarnLevel ∧ security_level l = InfoLevel).
Proof.
  assert (ToLower l = "warn" → service_level l = InfoLevel ∧ security_level l = WarnLevel) as H1
    by (unfold service_level, security_level; by intros ->).
  assert (ToLower l = "warning" → service_level l = WarnLevel ∧ security_level l = InfoLevel) as H2
    by (unfold service_level, security_level; by intros ->).
  split_and!; [|done..]. split.
  - intros Hne. destruct (decide (ToLower l = "warn")), (decide (ToLower l = "warning")); auto.
    by destruct Hne; apply levels_agree.
  - intros [[-> ->]%H1|[-> ->]%H2]; done.
Qed.

(** The events of the interface, each with the severity and the vocabulary word it is
    reported under. *)
Section vocabulary.
Context `{!Zap} (a : option core) (x y z w : string).

Definition critical_events : list (string * (list Option → list line)) :=
  [("authn_password_change_fail:", PasswordChangeFail a x);
   ("authn_token_reuse:", TokenReuse a x);
   ("authz_fail:", AuthzFailure a x y);
   ("authz_fail:", AuthzFailureNotEmployee a x);
   ("authz_fail:", AuthzFailureNoSession a x)].

Definition warning_events : list (string * (list Option → list line)) :=
  [("authn_login_fail:", FailedLogin a x);
   ("authn_login_lock:", AccountLockout a x);
   ("authz_fail:", AuthzFailureApplicationAccess a x y);
   ("authz_fail:", AuthzFailureInsufficientPermissions a x y z);
   ("authz_fail:", AuthzFailureRoleAssignment a x y);
   ("authz_fail:", AuthzFailureIdentityAssignment a x y);
   ("system_startup", SystemStartup a); ("system_shutdown", SystemShutdown a);
   ("system_restart", SystemRestart a); ("system_crash", SystemCrash a)].

Definition info_events : list (string * (list Option → list line)) :=
  [("authn_login_success:", SuccessfulLogin a x);
   ("authn_password_change:", PasswordChange a x);
   ("authn_token_created:", TokenCreate a); ("authn_token_revoked:", TokenRevoke a);
   ("authn_token_delete:", TokenDelete a x);
   ("authz_admin:", AdminAction a x y z w)].
End vocabulary.

Section security.
Context `{ZapLaws}.

(** The one line of an event. *)
Definition reported (level word : string) (options : list Option) (out : list line) : Prop :=
  ∃ msg rest, out =
    [([("level", level); ("description", msg); ("appid", "identity_platform.hook_service");
       ("type", "security"); ("event", word +:+ rest)] ++ concat options)%list].

Definition level_text (lv : Level) : string :=
  match lv with DPanicLevel => "CRITICAL" | _ => CapitalString lv end.

Lemma security_threshold l lv :
  (severity (security_level l) ≤ severity lv)%Z ↔
  match lv with
  | DebugLevel => ToLower l = "debug"
  | InfoLevel => ToLower l ∉ ["warn"; "error"; "critical"]
  | WarnLevel => ToLower l ∉ ["error"; "critical"]
  | ErrorLevel => ToLower l ≠ "critical"
  | DPanicLevel => True
  end.
Proof.
  unfold security_level. generalize (ToLower l). intros t.
  repeat case_decide; subst; destruct lv; cbn; (split; intros Hx);
    first [done|lia|congruence|compute_done|by destruct Hx; set_solver|set_solver].
Qed.

Lemma event_written (P : Prop) `{!Decision P} l lv msg ev word rest options :
  ev = word +:+ rest → ((severity (security_level l) ≤ severity lv)%Z ↔ P) →
  let out := event (Some (NewSecurityLogger l)) lv msg ev options in
  if decide P then reported (level_text lv) word options out else out = [].
Proof.
  intros -> Hi. cbv zeta. unfold event, write. case_decide as HP.
  - rewrite zap_enabled by by apply Hi. exists msg, rest. by rewrite append_options_concat.
  - apply zap_disabled. cbn. rewrite <- Hi in HP. lia.
Qed.

Lemma event_critical l msg ev word rest options :
  ev = word +:+ rest →
  reported "CRITICAL" word options (event (Some (NewSecurityLogger l)) DPanicLevel msg ev options).
Proof.
  intros He. pose proof (event_written True l DPanicLevel msg ev word rest options He
    (security_threshold l DPanicLevel)) as Hw. cbv zeta in Hw. by rewrite decide_True in Hw.
Qed.

(** The security log.  Whatever level is configured, a refused request, a reused
    token and a failed change of password leave exactly one line, marked CRITICAL, with
    the event's word and every option in order; warnings, to which the start and the
    shutdown of the system belong, are dropped exactly under the levels "error" (the
    default) and "critical"; the rest also under "warn". *)
Theorem security_log l x y z w :
  let a := Some (NewSecurityLogger l) in
  Forall (λ e, ∀ os, reported "CRITICAL" e.1 os (e.2 os)) (critical_events a x y) ∧
  Forall (λ e, ∀ os, if decide (ToLower l ∉ ["error"; "critical"])
                     then reported (CapitalString WarnLevel) e.1 os (e.2 os)
                     else e.2 os = []) (warning_events a x y z) ∧
  Forall (λ e, ∀ os, if decide (ToLower l ∉ ["warn"; "error"; "critical"])
                     then reported (CapitalString InfoLevel) e.1 os (e.2 os)
                     else e.2 os = []) (info_events a x y z w).
Proof.
  cbv zeta. split_and!; repeat constructor; intros os; cbn [fst snd].
  1-5: eapply event_critical; reflexivity.
  1-10: eapply (event_written _ l WarnLevel);
    [reflexivity|apply (security_threshold l WarnLevel)].
  all: eapply (event_written _ l InfoLevel);
    [reflexivity|apply (security_threshold l InfoLevel)].
Qed.
End security.

Section fields.
Context `{GoRangeLaws}.

Lemma context_fields_omap ctx keys ret :
  (∀ k, ctx !! k ≠ Some AOther) →
  context_fields ctx keys ret = Ok (ret ++ omap (λ k,
    match ctx !! k with
    | Some (AString v) => Some (default "" (context_labels !! k), v)
    | _ => None
    end) keys)%list.
Proof.
  intros Ha. revert ret. induction keys as [|k keys IH]; intros ret; cbn; [by rewrite app_nil_r|].
  unfold context_field. destruct (ctx !! k) as [[v|]|] eqn:Hk; [|by destruct (Ha k)|];
    rewrite IH, <- app_assoc; done.
Qed.

Lemma label_order : map_keys (dom context_labels) ≡ₚ
  [UserAgentKey; SourceIpKey; HostnameKey; ProtocolKey; RequestUriKey; RequestMethodKey; PortKey].
Proof. rewrite map_keys_perm. vm_compute elements. solve_Permutation. Qed.

(** C39: the two ways to put a request into an event agree: the fields that
    [WithContext] reads in a handler behind [LogContextMiddleware] are those of
    [WithRequest] in some order, whatever strings the context held before, provided no
    port was left in it for a host without one. *)
Theorem WithContext_WithRequest r ctx :
  (∀ k, ctx !! k ≠ Some AOther) →
  ((host_parts (req_Host r)).2 = None → ctx !! PortKey = None) →
  ∃ fs, LogContextMiddleware (λ ctx, WithContext (Some ctx)) r ctx = Ok fs ∧
        fs ≡ₚ WithRequest r.
Proof.
  intros Ha Hp. unfold LogContextMiddleware, WithRequest, WithContext.
  destruct (host_parts (req_Host r)) as [h p] eqn:Hh; cbn [snd] in *.
  rewrite context_fields_omap.
  2:{ intros k. destruct p; rewrite !lookup_insert; repeat case_decide; done. }
  eexists. split; [done|]. rewrite app_nil_l, label_order.
  assert (∀ k l, context_labels !! k = Some l → default "" (context_labels !! k) = l) as Hl
    by (by intros ?? ->).
  destruct p as [p|]; cbn [omap list_omap]; [|specialize (Hp eq_refl)];
    simplify_map_eq; done.
Qed.
End fields.

Lemma service_debug l : (severity (service_level l) ≤ -1)%Z ↔ ToLower l = "debug".
Proof.
  unfold service_level. generalize (ToLower l). intros t.
  repeat case_decide; subst; cbn; (split; intros Hx); first [done|lia|congruence].
Qed.

(** The router's request log: an entry appears only when the level is "debug";
    then it holds the request's line followed by what [Write] was told. *)
Theorem request_log_only_debug `{ZapLaws} l r status bytes header elapsed :
  let e := NewLogEntry (NewLogger l) r in
  let out := (Write e status bytes header elapsed).1 in
  if decide (ToLower l = "debug")
  then ∃ text, out = [[("level", CapitalString DebugLevel);
                       ("description", buf e +:+ text); ("type", "service")]]
  else out = [].
Proof.
  cbv zeta. unfold Write, log_Debug, write, NewLogger. cbn [fst SugaredLogger entry_logger NewLogEntry].
  case_decide as Hl.
  - rewrite zap_enabled by by apply service_debug. cbn [buf]. eexists. cbn. done.
  - apply zap_disabled. cbn. rewrite <- service_debug in Hl. lia.
Qed.

(** ** Examples *)

Module Witnesses.

#[export] Instance test_zap : Zap := {|
  CapitalString l := match l with
    | DebugLevel => "DEBUG" | InfoLevel => "INFO" | WarnLevel => "WARN"
    | ErrorLevel => "ERROR" | DPanicLevel => "DPANIC" end;
  zap_log c l msg fs :=
    if decide (severity (core_level c) ≤ severity l)%Z
    then [((LevelKey c, EncodeLevel c l) :: (MessageKey c, msg) :: preset c ++ fs)%list]
    else [];
|}.
#[export] Instance test_zap_laws : ZapLaws.
Proof.
  split.
  - intros c l msg fs Hl. cbn. by rewrite decide_True.
  - intros c l msg fs Hl. cbn. rewrite decide_False by lia. done.
  - intros [] []; cbn; done.
Qed.

#[local] Instance test_range : GoRange := { map_keys := elements }.
#[local] Instance test_range_laws : GoRangeLaws.
Proof. by split. Qed.

Definition get (host : string) : request :=
  mkRequest "GET" host "/api/v0/status" "HTTP/1.1" "10.0.0.7:5123" "curl/8.5" false "r-1".

Lemma WithContext_WithRequest_witness :
  ∃ fs, LogContextMiddleware (λ ctx, WithContext (Some ctx)) (get "hook:8080") ∅ = Ok fs ∧
        fs ≡ₚ WithRequest (get "hook:8080").
Proof.
  refine (WithContext_WithRequest (get "hook:8080") ∅ _ _).
  - intros k. by rewrite lookup_empty.
  - discriminate.
Defined.

Lemma security_log_witness :
  let a := Some (NewSecurityLogger "Error") in
  Forall (λ e, ∀ os, reported "CRITICAL" e.1 os (e.2 os)) (critical_events a "u" "jwt_api_access") ∧
  Forall (λ e, ∀ os, if decide (ToLower "Error" ∉ ["error"; "critical"])
                     then reported (CapitalString WarnLevel) e.1 os (e.2 os)
                     else e.2 os = []) (warning_events a "u" "jwt_api_access" "") ∧
  Forall (λ e, ∀ os, if decide (ToLower "Error" ∉ ["warn"; "error"; "critical"])
                     then reported (CapitalString InfoLevel) e.1 os (e.2 os)
                     else e.2 os = []) (info_events a "u" "jwt_api_access" "" "").
Proof. exact (security_log "Error" "u" "jwt_api_access" "" ""). Defined.

Lemma request_log_only_debug_witness :
  let e := NewLogEntry (NewLogger "DEBUG") (get "hook:8080") in
  let out := (Write e 200 15 "map[]" "1ms").1 in
  ∃ text, out = [[("level", CapitalString DebugLevel); ("description", buf e +:+ text);
                  ("type", "service")]].
Proof. exact (request_log_only_debug "DEBUG" (get "hook:8080") 200 15 "map[]" "1ms"). Defined.

Example entry_text :
  (Write (NewLogEntry (NewLogger "debug") (get "hook:8080")) 200 15 "map[]" "1ms").2.(buf) =
  "[r-1] GET http://hook:8080/api/v0/status HTTP/1.1 from 10.0.0.7:5123 map[] 200 15B in 1ms".
Proof. vm_compute. reflexivity. Qed.

(** Under the default level the instance's start and end leave no trace. *)
Example default_level_is_silent :
  SystemStartup (Some (NewSecurityLogger "error")) [] = [] ∧
  SystemShutdown (Some (NewSecurityLogger "error")) [] = [].
Proof. split; vm_compute; reflexivity. Qed.

(** The host of a request to an IPv6 address is cut at its first colon. *)
Example ipv6_host : host_parts "[2001:db8::1]:8080" = ("[2001", Some "db8").
Proof. vm_compute. reflexivity. Qed.
End Witnesses.
