(* ===== verification/Types.v ===== *)
(** * internal/types/group.go

    The group data types, the string forms of [GroupType] and [Role], and their
    JSON encoding.  [GroupType] and [Role] are Go [int]s: any integer is a
    value of the type, the two constants are the ones the program makes.  JSON
    text is represented by its parsed value. *)

From S2P Require Import Prelude Errors.
Open Scope Z_scope.

(** ** JSON values (encoding/json's data model) *)

Inductive json :=
  | JNull
  | JBool (b : bool)
  | JNumber (n : Z)
  | JString (s : string)
  | JArray (l : list json)
  | JObject (fields : list (string * json)).

(** [json.Unmarshal(b, &s)] for [var s string]: [null] leaves [s] at its zero
    value; any value that is not a string is an error. *)
Definition unmarshal_string (v : json) : result string :=
  match v with
  | JString s => Ok s
  | JNull => Ok ""%string
  | _ => Err (EText "json: cannot unmarshal value into Go value of type string")
  end.

(** ** GroupType *)

Definition GroupType := Z.
Definition GroupTypeLocal : GroupType := 0.
Definition GroupTypeExternal : GroupType := 1.

(** [ParseGroupType] returns the local type along with its error. *)
Definition ParseGroupType (s : string) : GroupType * option goerr :=
  if decide (s = "local" ∨ s = "")%string then (GroupTypeLocal, None)
  else if decide (s = "external")%string then (GroupTypeExternal, None)
  else (GroupTypeLocal, Some (ESentinel TypesErrInvalidGroupType)).

Definition GroupType_String (t : GroupType) : string :=
  if decide (t = GroupTypeLocal) then "local"
  else if decide (t = GroupTypeExternal) then "external"
  else "unknown".

Definition GroupType_MarshalJSON (t : GroupType) : json :=
  JString (GroupType_String t).

(** [UnmarshalJSON] has a pointer receiver: it yields the new value of [*t],
    which stays as it was when an error is returned. *)
Definition GroupType_UnmarshalJSON (old : GroupType) (b : json)
  : GroupType * option goerr :=
  match unmarshal_string b with
  | Err e => (old, Some e)
  | Ok s =>
      match ParseGroupType s with
      | (val, None) => (val, None)
      | (_, Some e) => (old, Some e)
      end
  end.

(** ** Role *)

Definition Role := Z.
Definition RoleMember : Role := 0.
Definition RoleOwner : Role := 1.

Definition ParseRole (s : string) : Role * option goerr :=
  if decide (s = "member" ∨ s = "")%string then (RoleMember, None)
  else if decide (s = "owner")%string then (RoleOwner, None)
  else (RoleMember, Some (ESentinel TypesErrInvalidRole)).

Definition Role_String (r : Role) : string :=
  if decide (r = RoleMember) then "member"
  else if decide (r = RoleOwner) then "owner"
  else "unknown".

Definition Role_MarshalJSON (r : Role) : json := JString (Role_String r).

Definition Role_UnmarshalJSON (old : Role) (b : json) : Role * option goerr :=
  match unmarshal_string b with
  | Err e => (old, Some e)
  | Ok s =>
      match ParseRole s with
      | (val, None) => (val, None)
      | (_, Some e) => (old, Some e)
      end
  end.

(** ** Group *)

(** A [time.Time] is a number of microseconds (PostgreSQL's resolution). *)
Definition time := Z.

Record Group := mkGroup {
  ID : string;
  Name : string;
  TenantId : string;
  Description : string;
  Type_ : GroupType;
  CreatedAt : time;
  UpdatedAt : time;
}.

#[export] Instance Group_eq_dec : EqDecision Group.
Proof. solve_decision. Defined.

(** The zero [time.Time] (the year 1) of a struct literal that leaves the field
    out, relative to the Unix epoch. *)
Definition time_zero : time := -62135596800000000.

(** ** Properties *)

(** The two group types the program knows. *)
Definition valid_GroupType (t : GroupType) : Prop :=
  t = GroupTypeLocal ∨ t = GroupTypeExternal.
Definition valid_Role (r : Role) : Prop := r = RoleMember ∨ r = RoleOwner.

Lemma ParseGroupType_valid s : valid_GroupType (fst (ParseGroupType s)).
Proof. unfold ParseGroupType, valid_GroupType. repeat case_decide; auto. Qed.

Lemma ParseGroupType_String t :
  valid_GroupType t → ParseGroupType (GroupType_String t) = (t, None).
Proof. by intros [-> | ->]. Qed.

Lemma ParseGroupType_unknown t :
  ¬ valid_GroupType t →
  snd (ParseGroupType (GroupType_String t)) = Some (ESentinel TypesErrInvalidGroupType).
Proof.
  unfold valid_GroupType, GroupType_String. intros ?.
  rewrite !decide_False by tauto. done.
Qed.

Lemma ParseRole_String r : valid_Role r → ParseRole (Role_String r) = (r, None).
Proof. by intros [-> | ->]. Qed.

(** A group type and a role survive the trip
    through their JSON form, whatever the receiver held before. *)
Theorem json_roundtrip t r told rold :
  valid_GroupType t → valid_Role r →
  GroupType_UnmarshalJSON told (GroupType_MarshalJSON t) = (t, None) ∧
  Role_UnmarshalJSON rold (Role_MarshalJSON r) = (r, None).
Proof.
  intros Ht Hr. unfold GroupType_UnmarshalJSON, Role_UnmarshalJSON; cbn.
  by rewrite (ParseGroupType_String t Ht), (ParseRole_String r Hr).
Qed.

Lemma json_roundtrip_witness :
  GroupType_UnmarshalJSON 0 (GroupType_MarshalJSON 1) = (1, None) ∧
  Role_UnmarshalJSON 7 (Role_MarshalJSON 0) = (0, None).
Proof. apply (json_roundtrip 1 0 0 7); [right; reflexivity|left; reflexivity]. Defined.
