(* ===== verification/Sql.v ===== *)
(** * The SQL the storage layer runs

    The statements internal/storage builds with squirrel, as syntax; the tables
    and constraints of migrations/00001_initial_schema.sql, as data; and the
    meaning the SQL language gives to the statements on those tables ([run]).
    The database server itself is not under src/: it is the parameter [exec] of
    the class [Engine], and [EngineLaws] states what the code relies on: a
    statement either does what SQL says or fails with an error that is not an
    integrity violation and changes nothing.

    Column values of type UUID are held in their canonical text; the server's
    input conversion [uuid_in] and its collation are parameters. *)

From S2P Require Import Prelude Errors Types.
Open Scope Z_scope.

(** ** What PostgreSQL provides *)

Class PgParams := {
  (** The input function of type uuid: the canonical text of a valid UUID. *)
  uuid_in : string → option string;
  (** The order of [ORDER BY] on text columns. *)
  collate : relation string;
  #[global] collate_dec :: RelDecision collate;
}.

Class PgLaws `{PgParams} := {
  uuid_in_canonical s u : uuid_in s = Some u → uuid_in u = Some u;
  #[global] collate_trans :: Transitive collate;
  #[global] collate_total :: Total collate;
}.

(** ** Syntax *)

Inductive column :=
  | c_id | c_name | c_tenant_id | c_description | c_type | c_created_at
  | c_updated_at | c_group_id | c_user_id | c_role | c_application_id.

#[export] Instance column_eq_dec : EqDecision column.
Proof. solve_decision. Defined.

(** A column reference: plain, or qualified by the alias [g] or [gm]. *)
Inductive colref := Col (c : column) | G (c : column) | GM (c : column).

#[export] Instance colref_eq_dec : EqDecision colref.
Proof. solve_decision. Defined.

(** [sq.Eq] with a string and with a slice, [sq.NotEq] with a slice, and
    [name LIKE ? ESCAPE '\']. *)
Inductive pred :=
  | PEq (c : colref) (v : string)
  | PIn (c : colref) (vs : list string)
  | PNotIn (c : colref) (vs : list string)
  | PLike (c : colref) (pattern : string).

Inductive source :=
  | FromGroups | FromMembers | FromApps
  | FromGroupsJoinMembers. (* groups g JOIN group_members gm ON g.id = gm.group_id *)

Inductive table := TGroups | TMembers | TApps.

Inductive on_conflict :=
  | OCError                (* no suffix *)
  | OCDoNothing            (* ON CONFLICT DO NOTHING *)
  | OCUpdateUpdatedAt.     (* ON CONFLICT (key) DO UPDATE SET updated_at = EXCLUDED.updated_at *)

(** ** Tables (the schema) *)

Record group_row := mkGroupRow {
  gr_id : string; gr_name : string; gr_tenant : string;
  gr_description : option string; gr_type : Z;
  gr_created : option time; gr_updated : option time;
}.

Record member_row := mkMemberRow {
  mr_group : string; mr_user : string; mr_tenant : string; mr_role : Z;
  mr_created : option time; mr_updated : option time;
}.

Record app_row := mkAppRow {
  ar_group : string; ar_app : string; ar_tenant : string;
  ar_created : option time; ar_updated : option time;
}.

Record database := mkDb {
  groups : list group_row;
  group_members : list member_row;
  application_groups : list app_row;
}.

#[export] Instance group_row_eq_dec : EqDecision group_row.
Proof. solve_decision. Defined.
#[export] Instance member_row_eq_dec : EqDecision member_row.
Proof. solve_decision. Defined.
#[export] Instance app_row_eq_dec : EqDecision app_row.
Proof. solve_decision. Defined.
#[export] Instance database_eq_dec : EqDecision database.
Proof. solve_decision. Defined.

Definition empty_db : database := mkDb [] [] [].

(** Primary keys, the unique index and the foreign keys of the schema. *)
Definition gkey (r : group_row) : string * string := (gr_id r, gr_tenant r).
Definition guniq (r : group_row) : string * string := (gr_tenant r, gr_name r).
Definition mkey (r : member_row) : string * string := (mr_group r, mr_user r).
Definition mfk (r : member_row) : string * string := (mr_group r, mr_tenant r).
Definition akey (r : app_row) : string * string := (ar_group r, ar_app r).
Definition afk (r : app_row) : string * string := (ar_group r, ar_tenant r).

(** ** Statements *)

Record insert_group := mkInsertGroup {
  ig_id : string; ig_name : string; ig_tenant : string;
  ig_description : string; ig_type : Z;
}.

Inductive stmt :=
  | Select (f : source) (cols : list colref) (w : list pred) (order : option colref)
  | InsertGroup (g : insert_group)      (* RETURNING created_at, updated_at *)
  | InsertMembers (rows : list member_row) (oc : on_conflict)
  | InsertApps (rows : list app_row) (oc : on_conflict)
  | UpdateGroups (name description : string) (ty : Z) (updated : time) (w : list pred)
  | Delete (t : table) (w : list pred) (returning : list colref).

(** ** Values, rows and conditions *)

Inductive value :=
  | VNull | VText (s : string) | VInt (n : Z) | VTime (t : time).

#[export] Instance value_eq_dec : EqDecision value.
Proof. solve_decision. Defined.

Definition row := colref → value.

Definition opt_text (o : option string) : value := from_option VText VNull o.
Definition opt_time (o : option time) : value := from_option VTime VNull o.

Definition group_column (r : group_row) (c : column) : value :=
  match c with
  | c_id => VText (gr_id r) | c_name => VText (gr_name r)
  | c_tenant_id => VText (gr_tenant r)
  | c_description => opt_text (gr_description r) | c_type => VInt (gr_type r)
  | c_created_at => opt_time (gr_created r)
  | c_updated_at => opt_time (gr_updated r)
  | _ => VNull
  end.

Definition member_column (r : member_row) (c : column) : value :=
  match c with
  | c_group_id => VText (mr_group r) | c_user_id => VText (mr_user r)
  | c_tenant_id => VText (mr_tenant r) | c_role => VInt (mr_role r)
  | c_created_at => opt_time (mr_created r)
  | c_updated_at => opt_time (mr_updated r)
  | _ => VNull
  end.

Definition app_column (r : app_row) (c : column) : value :=
  match c with
  | c_group_id => VText (ar_group r) | c_application_id => VText (ar_app r)
  | c_tenant_id => VText (ar_tenant r)
  | c_created_at => opt_time (ar_created r)
  | c_updated_at => opt_time (ar_updated r)
  | _ => VNull
  end.

Definition plain (f : column → value) : row :=
  λ c, match c with Col c => f c | _ => VNull end.
Definition joined (g gm : column → value) : row :=
  λ c, match c with G c => g c | GM c => gm c | Col _ => VNull end.

(** *** LIKE with the escape character [\] *)

Inductive like_token := LChar (a : ascii) | LAny | LMany.

Fixpoint like_tokens (p : string) : option (list like_token) :=
  match p with
  | "" => Some []
  | String "\" p =>
      match p with
      | "" => None (* LIKE pattern must not end with escape character *)
      | String a p => cons (LChar a) <$> like_tokens p
      end
  | String "%" p => cons LMany <$> like_tokens p
  | String "_" p => cons LAny <$> like_tokens p
  | String a p => cons (LChar a) <$> like_tokens p
  end%string.

Fixpoint like_match (ts : list like_token) (s : string) : bool :=
  match ts with
  | [] => bool_decide (s = "")
  | LChar a :: ts =>
      match s with
      | "" => false
      | String b s => bool_decide (a = b) && like_match ts s
      end
  | LAny :: ts =>
      match s with "" => false | String _ s => like_match ts s end
  | LMany :: ts =>
      (fix go (s : string) : bool :=
         like_match ts s ||
         match s with "" => false | String _ s => go s end) s
  end%string.

Definition like (pattern s : string) : bool :=
  match like_tokens pattern with Some ts => like_match ts s | None => false end.

(** *** Evaluation of a condition on a row *)

Definition holds (r : row) (p : pred) : bool :=
  match p with
  | PEq c v => bool_decide (r c = VText v)
  | PIn c vs => bool_decide (Exists (λ v, r c = VText v) vs)
  | PNotIn c vs =>
      match r c with
      | VText s => bool_decide (s ∉ vs)
      | _ => bool_decide (vs = [])
      end
  | PLike c pat => match r c with VText s => like pat s | _ => false end
  end.

Definition holds_all (r : row) (w : list pred) : bool := forallb (holds r) w.

(** *** Types of columns, and the input conversion of arguments *)

Inductive coltype := CtUuid | CtText | CtOther.

Definition group_coltype (c : column) : option coltype :=
  match c with
  | c_id => Some CtUuid
  | c_name | c_tenant_id | c_description => Some CtText
  | c_type | c_created_at | c_updated_at => Some CtOther
  | _ => None
  end.
Definition member_coltype (c : column) : option coltype :=
  match c with
  | c_group_id => Some CtUuid
  | c_user_id | c_tenant_id => Some CtText
  | c_role | c_created_at | c_updated_at => Some CtOther
  | _ => None
  end.
Definition app_coltype (c : column) : option coltype :=
  match c with
  | c_group_id => Some CtUuid
  | c_application_id | c_tenant_id => Some CtText
  | c_created_at | c_updated_at => Some CtOther
  | _ => None
  end.

Definition coltype_of (f : source) (c : colref) : option coltype :=
  match f, c with
  | FromGroups, Col c => group_coltype c
  | FromMembers, Col c => member_coltype c
  | FromApps, Col c => app_coltype c
  | FromGroupsJoinMembers, G c => group_coltype c
  | FromGroupsJoinMembers, GM c => member_coltype c
  | _, _ => None
  end.

Definition source_of (t : table) : source :=
  match t with TGroups => FromGroups | TMembers => FromMembers | TApps => FromApps end.

(** SQLSTATE classes the statements can end in. *)
Definition pg_unique : goerr := EPg "23505" "duplicate key value violates unique constraint".
Definition pg_foreign_key : goerr := EPg "23503" "insert or update violates foreign key constraint".
Definition pg_cardinality : goerr :=
  EPg "21000" "ON CONFLICT DO UPDATE command cannot affect row a second time".
Definition pg_invalid_text : goerr := EPg "22P02" "invalid input syntax for type uuid".
Definition pg_undefined_column : goerr := EPg "42703" "column does not exist".
Definition pg_bad_escape : goerr :=
  EPg "22025" "LIKE pattern must not end with escape character".

Definition pg_too_long : goerr := EPg "22001" "value too long for type character varying(255)".
Definition pg_out_of_range : goerr := EPg "22003" "smallint out of range".

(** *** The sizes of columns: VARCHAR(255), in characters of UTF-8, and SMALLINT *)

(** A byte that does not continue a character. *)
Definition starts_character (a : ascii) : bool :=
  let n := Ascii.nat_of_ascii a in bool_decide (n < 128 ∨ 192 ≤ n)%nat.
Fixpoint char_length (s : string) : nat :=
  match s with
  | "" => 0
  | String a s => (if starts_character a then 1 else 0) + char_length s
  end%string%nat.
Definition varchar255 (s : string) : bool := bool_decide (char_length s ≤ 255)%nat.
Definition smallint (z : Z) : bool := bool_decide (- 2 ^ 15 ≤ z < 2 ^ 15).

(** Why a row does not fit its table. *)
Definition size_error (texts : list string) (n : Z) : option goerr :=
  if forallb varchar255 texts then (if smallint n then None else Some pg_out_of_range)
  else Some pg_too_long.
Definition group_size_error (r : group_row) : option goerr :=
  size_error [gr_name r; gr_tenant r] (gr_type r).
Definition member_size_error (r : member_row) : option goerr :=
  size_error [mr_user r; mr_tenant r] (mr_role r).
Definition app_size_error (r : app_row) : option goerr :=
  size_error [ar_app r; ar_tenant r] 0.

(** ** Results of statements *)

Inductive qresult := Rows (rs : list (list value)) | Affected (n : nat).

Section run.
Context `{PgParams}.

(** Convert an argument to the type of the column it is compared with. *)
Definition coerce (t : coltype) (v : string) : result string :=
  match t with
  | CtUuid => match uuid_in v with Some u => Ok u | None => Err pg_invalid_text end
  | _ => Ok v
  end.

Fixpoint mapR {A B} (f : A → result B) (l : list A) : result (list B) :=
  match l with
  | [] => Ok []
  | x :: l =>
      match f x with
      | Err e => Err e
      | Ok y => match mapR f l with Ok ys => Ok (y :: ys) | Err e => Err e end
      end
  end.

Definition bind_pred (f : source) (p : pred) : result pred :=
  let typed c (k : coltype → result pred) :=
    match coltype_of f c with Some t => k t | None => Err pg_undefined_column end in
  match p with
  | PEq c v => typed c (λ t,
      match coerce t v with Ok v => Ok (PEq c v) | Err e => Err e end)
  | PIn c vs => typed c (λ t,
      match mapR (coerce t) vs with Ok vs => Ok (PIn c vs) | Err e => Err e end)
  | PNotIn c vs => typed c (λ t,
      match mapR (coerce t) vs with Ok vs => Ok (PNotIn c vs) | Err e => Err e end)
  | PLike c pat => typed c (λ _,
      match like_tokens pat with Some _ => Ok (PLike c pat) | None => Err pg_bad_escape end)
  end.

Definition bind_preds (f : source) (w : list pred) : result (list pred) :=
  mapR (bind_pred f) w.

(** *** SELECT *)

(** groups g JOIN group_members gm ON g.id = gm.group_id *)
Definition join_pairs (d : database) : list (group_row * member_row) :=
  g ← groups d;
  gm ← filter (λ m, mr_group m = gr_id g) (group_members d);
  [(g, gm)].

Definition source_rows (f : source) (d : database) : list row :=
  match f with
  | FromGroups => (λ r, plain (group_column r)) <$> groups d
  | FromMembers => (λ r, plain (member_column r)) <$> group_members d
  | FromApps => (λ r, plain (app_column r)) <$> application_groups d
  | FromGroupsJoinMembers =>
      (λ p, joined (group_column p.1) (member_column p.2)) <$> join_pairs d
  end.

Definition text_of (v : value) : string :=
  match v with VText s => s | _ => "" end.

Definition row_le (c : colref) : relation row :=
  λ r1 r2, collate (text_of (r1 c)) (text_of (r2 c)).
#[export] Instance row_le_dec c : RelDecision (row_le c).
Proof. unfold row_le. intros ??. apply _. Defined.

(** [ORDER BY c ASC]; without it the order is the table's. *)
Definition order_by (o : option colref) (rs : list row) : list row :=
  match o with
  | None => rs
  | Some c => merge_sort (row_le c) rs
  end.

Definition select_rows (f : source) (w : list pred) (o : option colref)
    (d : database) : list row :=
  order_by o (filter (λ r, holds_all r w) (source_rows f d)).

(** *** INSERT ... ON CONFLICT, for a table with a two-column key *)

Section upsert.
Context {A : Type} (key : A → string * string) (touch : A → A → A).

(** [touched] holds the keys the command has inserted or updated so far. *)
Fixpoint upsert (oc : on_conflict) (rows : list A)
    (touched : list (string * string)) (t : list A) : result (list A) :=
  match rows with
  | [] => Ok t
  | r :: rows =>
      if decide (key r ∈ key <$> t) then
        match oc with
        | OCError => Err pg_unique
        | OCDoNothing => upsert oc rows touched t
        | OCUpdateUpdatedAt =>
            if decide (key r ∈ touched) then Err pg_cardinality
            else upsert oc rows (key r :: touched)
                   ((λ r', if decide (key r' = key r) then touch r r' else r') <$> t)
        end
      else upsert oc rows (key r :: touched) (t ++ [r])
  end.

(** The foreign key of the rows that were really inserted. *)
Definition fk_check (fk : A → string * string) (parents : list (string * string))
    (old new : list A) : bool :=
  bool_decide (Forall (λ r, key r ∈ key <$> old ∨ fk r ∈ parents) new).
End upsert.

(** SET updated_at = EXCLUDED.updated_at *)
Definition touch_member (new old : member_row) : member_row :=
  mkMemberRow (mr_group old) (mr_user old) (mr_tenant old) (mr_role old)
    (mr_created old) (mr_updated new).
Definition touch_app (new old : app_row) : app_row :=
  mkAppRow (ar_group old) (ar_app old) (ar_tenant old) (ar_created old) (ar_updated new).

(** The values of an INSERT, converted to the types of their columns. *)
Definition coerce_member (r : member_row) : result member_row :=
  match coerce CtUuid (mr_group r), member_size_error r with
  | Ok g, None => Ok (mkMemberRow g (mr_user r) (mr_tenant r) (mr_role r)
                        (mr_created r) (mr_updated r))
  | Err e, _ | Ok _, Some e => Err e
  end.
Definition coerce_app (r : app_row) : result app_row :=
  match coerce CtUuid (ar_group r), app_size_error r with
  | Ok g, None => Ok (mkAppRow g (ar_app r) (ar_tenant r) (ar_created r) (ar_updated r))
  | Err e, _ | Ok _, Some e => Err e
  end.

Definition insert_members (rows : list member_row) (oc : on_conflict)
    (d : database) : result database :=
  match mapR coerce_member rows with
  | Err e => Err e
  | Ok rows =>
      match upsert mkey touch_member oc rows [] (group_members d) with
      | Err e => Err e
      | Ok ms =>
          if fk_check mkey mfk (gkey <$> groups d) (group_members d) rows
          then Ok (mkDb (groups d) ms (application_groups d))
          else Err pg_foreign_key
      end
  end.

Definition insert_apps (rows : list app_row) (oc : on_conflict)
    (d : database) : result database :=
  match mapR coerce_app rows with
  | Err e => Err e
  | Ok rows =>
      match upsert akey touch_app oc rows [] (application_groups d) with
      | Err e => Err e
      | Ok aps =>
          if fk_check akey afk (gkey <$> groups d) (application_groups d) rows
          then Ok (mkDb (groups d) (group_members d) aps)
          else Err pg_foreign_key
      end
  end.

(** created_at and updated_at take their default [now()]. *)
Definition insert_group_row (now : time) (g : insert_group) (u : string) : group_row :=
  mkGroupRow u (ig_name g) (ig_tenant g) (Some (ig_description g)) (ig_type g)
    (Some now) (Some now).

Definition insert_group_db (now : time) (g : insert_group) (d : database)
    : result database :=
  match coerce CtUuid (ig_id g) with
  | Err e => Err e
  | Ok u =>
      let r := insert_group_row now g u in
      match group_size_error r with
      | Some e => Err e
      | None =>
      if decide (gkey r ∈ gkey <$> groups d ∨ guniq r ∈ guniq <$> groups d)
      then Err pg_unique
      else Ok (mkDb (groups d ++ [r]) (group_members d) (application_groups d))
      end
  end.

(** *** UPDATE groups SET name, description, type, updated_at *)

Definition set_group (name description : string) (ty : Z) (upd : time)
    (r : group_row) : group_row :=
  mkGroupRow (gr_id r) name (gr_tenant r) (Some description) ty
    (gr_created r) (Some upd).

Definition group_matches (w : list pred) (r : group_row) : bool :=
  holds_all (plain (group_column r)) w.
Definition member_matches (w : list pred) (r : member_row) : bool :=
  holds_all (plain (member_column r)) w.
Definition app_matches (w : list pred) (r : app_row) : bool :=
  holds_all (plain (app_column r)) w.

Definition update_groups_db (name description : string) (ty : Z) (upd : time)
    (w : list pred) (d : database) : result (database * nat) :=
  let gs := (λ r, if group_matches w r then set_group name description ty upd r
                  else r) <$> groups d in
  let matched := filter (λ r, group_matches w r) (groups d) in
  match list.head (omap group_size_error (set_group name description ty upd <$> matched)) with
  | Some e => Err e
  | None =>
      if decide (NoDup (guniq <$> gs))
      then Ok (mkDb gs (group_members d) (application_groups d), length matched)
      else Err pg_unique
  end.

(** *** DELETE, with the ON DELETE CASCADE of the two foreign keys *)

Definition delete_groups_db (w : list pred) (d : database) : database :=
  let gone := gkey <$> filter (λ r, group_matches w r) (groups d) in
  mkDb (filter (λ r, ¬ group_matches w r) (groups d))
       (filter (λ r, mfk r ∉ gone) (group_members d))
       (filter (λ r, afk r ∉ gone) (application_groups d)).
Definition delete_members_db (w : list pred) (d : database) : database :=
  mkDb (groups d) (filter (λ r, ¬ member_matches w r) (group_members d))
       (application_groups d).
Definition delete_apps_db (w : list pred) (d : database) : database :=
  mkDb (groups d) (group_members d)
       (filter (λ r, ¬ app_matches w r) (application_groups d)).

Definition deleted_rows (t : table) (w : list pred) (d : database) : list row :=
  filter (λ r, holds_all r w) (source_rows (source_of t) d).

Definition delete_db (t : table) (w : list pred) (d : database) : database :=
  match t with
  | TGroups => delete_groups_db w d
  | TMembers => delete_members_db w d
  | TApps => delete_apps_db w d
  end.

(** The row count of an INSERT: rows skipped by DO NOTHING do not count. *)
Definition inserted {A} (oc : on_conflict) (rows old new : list A) : nat :=
  match oc with OCDoNothing => length new - length old | _ => length rows end.

Definition project (cols : list colref) (r : row) : list value := r <$> cols.

(** *** The meaning of a statement, [now] being the transaction's time *)

Definition run (now : time) (st : stmt) (d : database) : result qresult * database :=
  match st with
  | Select f cols w o =>
      match bind_preds f w with
      | Err e => (Err e, d)
      | Ok w =>
          if decide (Forall (λ c, coltype_of f c ≠ None) (cols ++ option_list o))
          then (Ok (Rows (project cols <$> select_rows f w o d)), d)
          else (Err pg_undefined_column, d)
      end
  | InsertGroup g =>
      match insert_group_db now g d with
      | Err e => (Err e, d)
      | Ok d' => (Ok (Rows [[VTime now; VTime now]]), d')
      end
  | InsertMembers rows oc =>
      match insert_members rows oc d with
      | Err e => (Err e, d)
      | Ok d' =>
          (Ok (Affected (inserted oc rows (group_members d) (group_members d'))), d')
      end
  | InsertApps rows oc =>
      match insert_apps rows oc d with
      | Err e => (Err e, d)
      | Ok d' =>
          (Ok (Affected (inserted oc rows (application_groups d)
                                          (application_groups d'))), d')
      end
  | UpdateGroups n de ty u w =>
      match bind_preds FromGroups w with
      | Err e => (Err e, d)
      | Ok w =>
          match update_groups_db n de ty u w d with
          | Err e => (Err e, d)
          | Ok (d', k) => (Ok (Affected k), d')
          end
      end
  | Delete t w ret =>
      match bind_preds (source_of t) w with
      | Err e => (Err e, d)
      | Ok w =>
          let gone := deleted_rows t w d in
          (Ok (match ret with
               | [] => Affected (length gone)
               | _ => Rows (project ret <$> gone)
               end), delete_db t w d)
      end
  end.
End run.

(** An error that is not one of the integrity violations the code tests for. *)
Definition operational (e : goerr) : Prop :=
  errors_as_pg e ≠ Some "23505"%string ∧ errors_as_pg e ≠ Some "23503"%string.

(** ** The interface of a database connection

    [exec] sends a statement to the database of the connection; [view] is the
    database a statement sees.  The laws are what the storage layer relies on. *)

Class Engine (S : Type) := {
  exec : stmt → S → result qresult * S;
  view : S → database;
}.

Class EngineLaws (S : Type) `{PgParams} `{!Engine S} := {
  exec_cases st s r s' : exec st s = (r, s') →
    (∃ now, run now st (view s) = (r, view s')) ∨
    (∃ e, r = Err e ∧ operational e ∧ view s' = view s);
}.

(** The engine that never fails for another reason than the statement. *)
#[export] Instance ref_engine `{PgParams} : Engine database := {
  exec st d := run 0 st d;
  view d := d;
}.
#[export] Instance ref_engine_laws `{PgParams} : EngineLaws database.
Proof. split. intros st d r d' Hx. left. by exists 0. Qed.

(** ** Well-formed databases

    The constraints of the schema, the sizes of its columns, and no NULL in the columns
    of groups the program scans into plain Go values. *)

Definition complete (r : group_row) : Prop :=
  is_Some (gr_description r) ∧ is_Some (gr_created r) ∧ is_Some (gr_updated r).

Record wf (d : database) : Prop := {
  wf_gkey : NoDup (gkey <$> groups d);
  wf_guniq : NoDup (guniq <$> groups d);
  wf_mkey : NoDup (mkey <$> group_members d);
  wf_akey : NoDup (akey <$> application_groups d);
  wf_mfk r : r ∈ group_members d → mfk r ∈ gkey <$> groups d;
  wf_afk r : r ∈ application_groups d → afk r ∈ gkey <$> groups d;
  wf_complete r : r ∈ groups d → complete r;
  wf_gsize r : r ∈ groups d → group_size_error r = None;
  wf_msize r : r ∈ group_members d → member_size_error r = None;
  wf_asize r : r ∈ application_groups d → app_size_error r = None;
}.

#[export] Hint Resolve wf_gkey wf_guniq wf_mkey wf_akey wf_mfk wf_afk wf_gsize wf_msize wf_asize : hook.
#[export] Hint Extern 2 (complete _) => eapply wf_complete; eassumption : hook.

Lemma empty_db_wf : wf empty_db.
Proof. split; cbn; try constructor; set_solver. Qed.

(** *** Lemmas on INSERT *)

Section upsert_lemmas.
Context {A : Type} (key : A → string * string) (touch : A → A → A).
Context (touch_key : ∀ a b, key (touch a b) = key b).
Implicit Types (rows t : list A) (touched : list (string * string)).

Lemma touched_keys r t :
  key <$> ((λ r', if decide (key r' = key r) then touch r r' else r') <$> t)
  = key <$> t.
Proof using touch_key.
  rewrite <- list_fmap_compose. apply list_fmap_ext. intros i x _; cbn.
  case_decide; [apply touch_key|done].
Qed.

Lemma upsert_keys oc rows touched t t' :
  upsert key touch oc rows touched t = Ok t' →
  ∀ k, k ∈ key <$> t' ↔ k ∈ key <$> t ∨ k ∈ key <$> rows.
Proof using touch_key.
  revert touched t. induction rows as [|r rows IH]; intros touched t Hu k; cbn in Hu.
  { simplify_eq. set_solver. }
  case_decide as Hin.
  - destruct oc; [done|..].
    + rewrite (IH _ _ Hu k); cbn; set_solver.
    + case_decide; [done|]. rewrite (IH _ _ Hu k), touched_keys. cbn. set_solver.
  - rewrite (IH _ _ Hu k), fmap_app; cbn. set_solver.
Qed.

Lemma upsert_NoDup oc rows touched t t' :
  upsert key touch oc rows touched t = Ok t' →
  NoDup (key <$> t) → NoDup (key <$> t').
Proof using touch_key.
  revert touched t. induction rows as [|r rows IH]; intros touched t Hu Hnd; cbn in Hu.
  { by simplify_eq. }
  case_decide as Hin.
  - destruct oc; [done|by eapply IH|].
    case_decide; [done|]. eapply IH; [done|]. by rewrite touched_keys.
  - eapply IH; [done|]. rewrite fmap_app; cbn.
    apply list.NoDup_app. split; [done|]. split; [set_solver|].
    apply NoDup_singleton.
Qed.

(** A foreign key of the new table comes from the old one or from a row that
    was inserted under a fresh key. *)
Lemma upsert_fk (fk : A → string * string) (touch_fk : ∀ a b, fk (touch a b) = fk b)
    oc rows touched t t' r' :
  upsert key touch oc rows touched t = Ok t' → r' ∈ t' →
  (∃ r, r ∈ t ∧ key r = key r' ∧ fk r = fk r') ∨
  ((key r' ∉ key <$> t) ∧ ∃ r, r ∈ rows ∧ key r = key r' ∧ fk r = fk r').
Proof using touch_key.
  revert touched t. induction rows as [|r rows IH]; intros touched t Hu Hr'; cbn in Hu.
  { simplify_eq. left. eauto. }
  case_decide as Hin.
  - destruct oc; [done|..].
    + destruct (IH _ _ Hu Hr') as [?|(?&r0&?&?)]; [by left|right].
      split; [done|]. exists r0. set_solver.
    + case_decide; [done|].
      destruct (IH _ _ Hu Hr') as [(r0&Hr0&?&?)|(Hk&r0&?&?)].
      * left. apply list_elem_of_fmap in Hr0 as (r1&->&Hr1). exists r1.
        split; [done|]. case_decide; [rewrite touch_key, touch_fk in *|]; done.
      * right. rewrite touched_keys in Hk. split; [done|]. exists r0. set_solver.
  - destruct (IH _ _ Hu Hr') as [(r0&Hr0&Hk&?)|(Hk&r0&?&?)].
    + apply elem_of_app in Hr0 as [?|Hr0]; [left; eauto|].
      apply list_elem_of_singleton in Hr0 as ->. right. rewrite <- Hk.
      split; [done|]. exists r. set_solver.
    + right. rewrite fmap_app in Hk. split; [set_solver|]. exists r0. set_solver.
Qed.

(** What holds of the old rows and of those inserted holds of the new table. *)
Lemma upsert_all (P : A → Prop) (P_touch : ∀ a b, P b → P (touch a b)) oc rows touched t t' :
  upsert key touch oc rows touched t = Ok t' →
  (∀ r, r ∈ t → P r) → (∀ r, r ∈ rows → P r) → ∀ r, r ∈ t' → P r.
Proof using.
  clear touch_key.
  revert touched t. induction rows as [|r rows IH]; intros touched t Hu Ht Hrows; cbn in Hu.
  { by simplify_eq. }
  assert (∀ x, x ∈ rows → P x) as Hrows' by set_solver.
  case_decide.
  - destruct oc; [done|by eapply IH|]. case_decide; [done|]. eapply IH; [done| |done].
    intros x (y&->&Hy)%list_elem_of_fmap. case_decide; auto.
  - eapply IH; [done| |done]. intros x [Hx| ->%list_elem_of_singleton]%elem_of_app; [auto|].
    apply Hrows. by left.
Qed.

(** A row whose key the command does not name is neither inserted nor touched. *)
Lemma upsert_outside oc rows touched t t' r :
  upsert key touch oc rows touched t = Ok t' → key r ∉ key <$> rows → r ∈ t' ↔ r ∈ t.
Proof using touch_key.
  revert touched t. induction rows as [|x rows IH]; intros touched t Hu Hr; cbn in *.
  { by simplify_eq. }
  rewrite not_elem_of_cons in Hr. destruct Hr as [Hx Hr].
  case_decide as Hin.
  - destruct oc; [done|by eapply IH|]. case_decide; [done|]. rewrite (IH _ _ Hu Hr).
    rewrite list_elem_of_fmap. split.
    + intros (y&->&Hy). case_decide as Hk; [|done]. by rewrite touch_key in Hx.
    + intros Hi. exists r. by rewrite decide_False.
  - rewrite (IH _ _ Hu Hr), elem_of_app, list_elem_of_singleton. naive_solver.
Qed.

(** Every old row is still there, possibly touched. *)
Lemma upsert_keeps (R : A → A → Prop) (R_touch : ∀ a x b, R a b → R a (touch x b))
    oc rows touched t t' r0 r :
  upsert key touch oc rows touched t = Ok t' → r ∈ t → R r0 r →
  ∃ r', r' ∈ t' ∧ R r0 r' ∧ key r' = key r.
Proof using touch_key.
  revert touched t r. induction rows as [|x rows IH]; intros touched t r Hu Hr HR; cbn in Hu.
  { simplify_eq. eauto. }
  case_decide as Hin.
  - destruct oc; [done|by eapply IH|]. case_decide; [done|].
    destruct (IH _ _ (if decide (key r = key x) then touch x r else r) Hu) as (r'&?&?&Hk).
    + apply list_elem_of_fmap. eauto.
    + case_decide; auto.
    + exists r'. split_and!; [done..|]. rewrite Hk. case_decide; [apply touch_key|done].
  - eapply IH; [done| |done]. apply elem_of_app. by left.
Qed.

(** A deduplicated list of rows never meets the cardinality error. *)
Lemma upsert_update_ok rows touched t :
  NoDup (key <$> rows) → (∀ k, k ∈ key <$> rows → k ∉ touched) →
  ∃ t', upsert key touch OCUpdateUpdatedAt rows touched t = Ok t'.
Proof using touch_key.
  revert touched t. induction rows as [|r rows IH]; intros touched t Hnd Hd; cbn; [eauto|].
  cbn in Hnd. apply list.NoDup_cons in Hnd as [Hr Hnd].
  assert (∀ k, k ∈ key <$> rows → k ∉ key r :: touched) as Hd'.
  { intros k Hk. rewrite not_elem_of_cons. split; [by intros ->|].
    apply Hd. set_solver. }
  case_decide; [|by apply IH].
  rewrite decide_False by (apply Hd; set_solver). by apply IH.
Qed.

(** A key that occurs twice in the command always meets it. *)
Lemma upsert_update_dup rows touched t t' :
  upsert key touch OCUpdateUpdatedAt rows touched t = Ok t' →
  (∀ k, k ∈ touched → k ∈ key <$> t) →
  NoDup (key <$> rows) ∧ ∀ k, k ∈ key <$> rows → k ∉ touched.
Proof using touch_key.
  revert touched t. induction rows as [|r rows IH]; intros touched t Hu Ht; cbn in *.
  { split; [constructor|set_solver]. }
  assert (key r ∉ touched) as Hr.
  { intros Hin. rewrite decide_True in Hu by auto. by case_decide. }
  assert (NoDup (key <$> rows) ∧ ∀ k, k ∈ key <$> rows → k ∉ key r :: touched)
    as [Hnd Hd].
  { case_decide.
    - case_decide; [done|]. apply (IH _ _ Hu). rewrite touched_keys. set_solver.
    - apply (IH _ _ Hu). rewrite fmap_app; cbn. set_solver. }
  split; [|set_solver]. constructor; [set_solver|done].
Qed.

Lemma upsert_err oc rows touched t e :
  upsert key touch oc rows touched t = Err e →
  match oc with
  | OCError => e = pg_unique
  | OCDoNothing => False
  | OCUpdateUpdatedAt => e = pg_cardinality
  end.
Proof.
  revert touched t. induction rows as [|r rows IH]; intros touched t Hu; cbn in Hu; [done|].
  destruct oc; repeat case_decide; simplify_eq; try done; by eapply IH.
Qed.

Lemma upsert_nothing_ok rows touched t :
  ∃ t', upsert key touch OCDoNothing rows touched t = Ok t'.
Proof.
  revert touched t. induction rows as [|r rows IH]; intros touched t; cbn; [eauto|].
  case_decide; apply IH.
Qed.
End upsert_lemmas.

Lemma fk_check_spec {A} (key fk : A → string * string) parents old new :
  fk_check key fk parents old new = true ↔
  ∀ r, r ∈ new → key r ∈ key <$> old ∨ fk r ∈ parents.
Proof.
  unfold fk_check. by rewrite bool_decide_eq_true, list.Forall_forall.
Qed.

Lemma fk_check_false {A} (key fk : A → string * string) parents old new :
  fk_check key fk parents old new = false →
  ∃ r, r ∈ new ∧ (key r ∉ key <$> old) ∧ fk r ∉ parents.
Proof.
  unfold fk_check. intros Hf%bool_decide_eq_false_1%not_Forall_Exists; [|apply _].
  apply list.Exists_exists in Hf as (r&?&Hr). exists r. cbn in Hr. tauto.
Qed.

(** A parent that a DELETE's cascade does not mention survives it. *)
Lemma parent_survives (P : group_row → Prop) `{∀ r, Decision (P r)}
    (k : string * string) (gs : list group_row) :
  k ∈ gkey <$> gs → k ∉ gkey <$> filter P gs →
  k ∈ gkey <$> filter (λ r, ¬ P r) gs.
Proof.
  intros (g&->&Hin)%list_elem_of_fmap Hgone. apply list_elem_of_fmap_2.
  apply list_elem_of_filter. split; [|done]. intros Hm. destruct Hgone.
  apply list_elem_of_fmap_2. by apply list_elem_of_filter.
Qed.

(** Filtering a table keeps its key constraints. *)
Lemma delete_groups_wf d w : wf d → wf (delete_groups_db w d).
Proof.
  intros Hwf. unfold delete_groups_db. split; cbn; auto with hook.
  - intros r [Hr Hin]%list_elem_of_filter. apply parent_survives; auto with hook.
  - intros r [Hr Hin]%list_elem_of_filter. apply parent_survives; auto with hook.
  - intros r [_ Hin]%list_elem_of_filter. by apply (wf_complete d).
  - intros r [_ Hin]%list_elem_of_filter. eauto with hook.
  - intros r [_ Hin]%list_elem_of_filter. eauto with hook.
  - intros r [_ Hin]%list_elem_of_filter. eauto with hook.
Qed.

Lemma delete_members_wf d w : wf d → wf (delete_members_db w d).
Proof.
  intros Hwf. unfold delete_members_db.
  split; cbn; auto with hook; intros r Hr; try apply list_elem_of_filter in Hr as [_ Hr];
    eauto with hook.
Qed.

Lemma delete_apps_wf d w : wf d → wf (delete_apps_db w d).
Proof.
  intros Hwf. unfold delete_apps_db.
  split; cbn; auto with hook; intros r Hr; try apply list_elem_of_filter in Hr as [_ Hr];
    eauto with hook.
Qed.

#[export] Hint Resolve empty_db_wf delete_groups_wf delete_members_wf delete_apps_wf : hook.

Section run_wf.
Context `{PgParams}.

Lemma mapR_err {A B} (f : A → result B) l e :
  mapR f l = Err e → ∃ x, x ∈ l ∧ f x = Err e.
Proof.
  induction l as [|x l IH]; cbn; [done|].
  destruct (f x) as [y|e'] eqn:Hf.
  - destruct (mapR f l); [done|]. intros; simplify_eq.
    destruct IH as (z&?&?); [done|]. exists z. set_solver.
  - intros; simplify_eq. exists x. set_solver.
Qed.

Lemma mapR_ok {A B} (f : A → result B) l k y :
  mapR f l = Ok k → y ∈ k → ∃ x, x ∈ l ∧ f x = Ok y.
Proof.
  revert k. induction l as [|x l IH]; intros k; cbn.
  { intros [= <-] []%not_elem_of_nil. }
  destruct (f x) as [z|] eqn:Hf; [|done]. destruct (mapR f l) as [zs|]; [|done].
  intros [= <-] [->|Hy]%elem_of_cons; [exists x; set_solver|].
  destruct (IH zs) as (x0&?&?); [done..|]. exists x0. set_solver.
Qed.

Lemma coerce_err t v e : coerce t v = Err e → e = pg_invalid_text.
Proof. destruct t; cbn; [destruct (uuid_in v)|..]; naive_solver. Qed.

(** An argument that PostgreSQL refuses as a value of its column. *)
Definition bad_value (e : goerr) : Prop :=
  e = pg_invalid_text ∨ e = pg_too_long ∨ e = pg_out_of_range.

Lemma size_error_bad texts n e : size_error texts n = Some e → bad_value e.
Proof. unfold size_error, bad_value. repeat case_match; naive_solver. Qed.
Lemma bad_value_code e : bad_value e →
  errors_as_pg e ≠ Some "23505"%string ∧ errors_as_pg e ≠ Some "23503"%string.
Proof. by intros [->|[->| ->]]. Qed.

Lemma coerce_member_err r e : coerce_member r = Err e → bad_value e.
Proof.
  unfold coerce_member. destruct (coerce _ _) eqn:Hc; [|intros [= <-]; left; by eapply coerce_err].
  destruct (member_size_error r) eqn:Hs; intros [= <-]. by eapply size_error_bad.
Qed.
Lemma coerce_app_err r e : coerce_app r = Err e → bad_value e.
Proof.
  unfold coerce_app. destruct (coerce _ _) eqn:Hc; [|intros [= <-]; left; by eapply coerce_err].
  destruct (app_size_error r) eqn:Hs; intros [= <-]. by eapply size_error_bad.
Qed.
Lemma coerce_member_sized rows rows' r :
  mapR coerce_member rows = Ok rows' → r ∈ rows' → member_size_error r = None.
Proof.
  intros Hm Hr. destruct (mapR_ok _ _ _ _ Hm Hr) as (x&_&Hx). unfold coerce_member in Hx.
  destruct (coerce _ _); [|done]. destruct (member_size_error x) eqn:Hs; by simplify_eq.
Qed.
Lemma coerce_app_sized rows rows' r :
  mapR coerce_app rows = Ok rows' → r ∈ rows' → app_size_error r = None.
Proof.
  intros Hm Hr. destruct (mapR_ok _ _ _ _ Hm Hr) as (x&_&Hx). unfold coerce_app in Hx.
  destruct (coerce _ _); [|done]. destruct (app_size_error x) eqn:Hs; by simplify_eq.
Qed.

(** Why an INSERT into group_members fails. *)
Lemma insert_members_err rows oc d e :
  insert_members rows oc d = Err e →
  bad_value e ∨ (e = pg_unique ∧ oc = OCError) ∨
  (e = pg_cardinality ∧ oc = OCUpdateUpdatedAt) ∨
  (e = pg_foreign_key ∧ ∃ rows' r, mapR coerce_member rows = Ok rows' ∧ r ∈ rows' ∧
     (mkey r ∉ mkey <$> group_members d) ∧ mfk r ∉ gkey <$> groups d).
Proof.
  unfold insert_members. intros Hi.
  destruct (mapR coerce_member rows) as [rows'|e'] eqn:Hm.
  2: { left. simplify_eq. apply mapR_err in Hm as (r&_&Hr). by eapply coerce_member_err. }
  right. destruct (upsert _ _ _ _ _ _) as [ms|e'] eqn:Hu; simplify_eq.
  2: { apply upsert_err in Hu. destruct oc; naive_solver. }
  destruct (fk_check _ _ _ _ _) eqn:Hfk; simplify_eq.
  apply fk_check_false in Hfk as (r&?&?&?). right. right. split; [done|].
  exists rows', r. done.
Qed.

Lemma insert_apps_err rows oc d e :
  insert_apps rows oc d = Err e →
  bad_value e ∨ (e = pg_unique ∧ oc = OCError) ∨
  (e = pg_cardinality ∧ oc = OCUpdateUpdatedAt) ∨
  (e = pg_foreign_key ∧ ∃ rows' r, mapR coerce_app rows = Ok rows' ∧ r ∈ rows' ∧
     (akey r ∉ akey <$> application_groups d) ∧ afk r ∉ gkey <$> groups d).
Proof.
  unfold insert_apps. intros Hi.
  destruct (mapR coerce_app rows) as [rows'|e'] eqn:Hm.
  2: { left. simplify_eq. apply mapR_err in Hm as (r&_&Hr). by eapply coerce_app_err. }
  right. destruct (upsert _ _ _ _ _ _) as [aps|e'] eqn:Hu; simplify_eq.
  2: { apply upsert_err in Hu. destruct oc; naive_solver. }
  destruct (fk_check _ _ _ _ _) eqn:Hfk; simplify_eq.
  apply fk_check_false in Hfk as (r&?&?&?). right. right. split; [done|].
  exists rows', r. done.
Qed.

Lemma insert_members_inv rows oc d d' :
  insert_members rows oc d = Ok d' →
  ∃ rows' ms, mapR coerce_member rows = Ok rows' ∧
    upsert mkey touch_member oc rows' [] (group_members d) = Ok ms ∧
    (∀ r, r ∈ rows' → mkey r ∈ mkey <$> group_members d ∨ mfk r ∈ gkey <$> groups d) ∧
    d' = mkDb (groups d) ms (application_groups d).
Proof.
  unfold insert_members. intros Hi.
  destruct (mapR coerce_member rows) as [rows'|]; [|done].
  destruct (upsert _ _ _ _ _ _) as [ms|] eqn:Hu; [|done].
  destruct (fk_check _ _ _ _ _) eqn:Hfk; [|done]. simplify_eq.
  exists rows', ms. split_and!; try done. by apply fk_check_spec.
Qed.

Lemma insert_apps_inv rows oc d d' :
  insert_apps rows oc d = Ok d' →
  ∃ rows' aps, mapR coerce_app rows = Ok rows' ∧
    upsert akey touch_app oc rows' [] (application_groups d) = Ok aps ∧
    (∀ r, r ∈ rows' → akey r ∈ akey <$> application_groups d ∨ afk r ∈ gkey <$> groups d) ∧
    d' = mkDb (groups d) (group_members d) aps.
Proof.
  unfold insert_apps. intros Hi.
  destruct (mapR coerce_app rows) as [rows'|]; [|done].
  destruct (upsert _ _ _ _ _ _) as [aps|] eqn:Hu; [|done].
  destruct (fk_check _ _ _ _ _) eqn:Hfk; [|done]. simplify_eq.
  exists rows', aps. split_and!; try done. by apply fk_check_spec.
Qed.

Lemma insert_members_wf rows oc d d' :
  wf d → insert_members rows oc d = Ok d' → wf d'.
Proof.
  intros Hwf (rows'&ms&Hc&Hu&Hfk&->)%insert_members_inv. split; cbn; eauto with hook.
  - eapply upsert_NoDup; [|done|]; auto with hook.
  - intros r' Hr'.
    destruct (upsert_fk mkey touch_member ltac:(done) mfk ltac:(done) _ _ _ _ _ _ Hu Hr')
      as [(r&?&?&<-)|(Hk&r&Hr&Hkr&<-)]; [by apply wf_mfk|].
    destruct (Hfk r Hr) as [Hin|]; [by rewrite Hkr in Hin|done].
  - eapply (upsert_all mkey touch_member (λ r, member_size_error r = None) ltac:(done)); [done|..].
    + intros r. eauto with hook.
    + intros r. by apply coerce_member_sized with rows.
Qed.

Lemma insert_apps_wf rows oc d d' :
  wf d → insert_apps rows oc d = Ok d' → wf d'.
Proof.
  intros Hwf (rows'&aps&Hc&Hu&Hfk&->)%insert_apps_inv. split; cbn; eauto with hook.
  - eapply upsert_NoDup; [|done|]; auto with hook.
  - intros r' Hr'.
    destruct (upsert_fk akey touch_app ltac:(done) afk ltac:(done) _ _ _ _ _ _ Hu Hr')
      as [(r&?&?&<-)|(Hk&r&Hr&Hkr&<-)]; [by apply wf_afk|].
    destruct (Hfk r Hr) as [Hin|]; [by rewrite Hkr in Hin|done].
  - eapply (upsert_all akey touch_app (λ r, app_size_error r = None) ltac:(done)); [done|..].
    + intros r. eauto with hook.
    + intros r. by apply coerce_app_sized with rows.
Qed.

Lemma insert_group_wf now g d d' :
  wf d → insert_group_db now g d = Ok d' → wf d'.
Proof.
  intros Hwf. unfold insert_group_db. destruct (coerce _ _) as [u|]; [|done].
  destruct (group_size_error _) eqn:Hsize; [done|].
  case_decide as Hk; [done|]. intros; simplify_eq.
  apply Decidable.not_or in Hk as [Hk Hu].
  split; cbn; rewrite ?fmap_app; eauto with hook.
  - apply NoDup_snoc; auto with hook.
  - apply NoDup_snoc; auto with hook.
  - intros r Hr. apply elem_of_app. left. auto with hook.
  - intros r Hr. apply elem_of_app. left. auto with hook.
  - intros r [Hr| ->%list_elem_of_singleton]%elem_of_app; [by apply (wf_complete d)|].
    by split_and!; eexists.
  - intros r [Hr| ->%list_elem_of_singleton]%elem_of_app; eauto with hook.
Qed.

Lemma omap_nil_iff {A B} (f : A → option B) l : omap f l = [] ↔ ∀ x, x ∈ l → f x = None.
Proof.
  induction l as [|x l IH]; cbn; [set_solver|]. destruct (f x) eqn:Hx.
  - split; [done|]. intros Hl. specialize (Hl x ltac:(left)). congruence.
  - rewrite IH. set_solver.
Qed.

Lemma update_groups_db_inv n de ty upd w d d' k :
  update_groups_db n de ty upd w d = Ok (d', k) →
  d' = mkDb ((λ r, if group_matches w r then set_group n de ty upd r else r) <$> groups d)
            (group_members d) (application_groups d) ∧
  k = length (filter (λ r, group_matches w r) (groups d)).
Proof.
  unfold update_groups_db. destruct (list.head _); [done|]. case_decide; intros; by simplify_eq.
Qed.

Lemma update_groups_keys n de ty u w (gs : list group_row) :
  gkey <$> ((λ r, if group_matches w r then set_group n de ty u r else r) <$> gs)
  = gkey <$> gs.
Proof.
  rewrite <- list_fmap_compose. apply list_fmap_ext. intros i r _; cbn.
  by destruct (group_matches w r).
Qed.

Lemma update_groups_wf n de ty u w d d' k :
  wf d → update_groups_db n de ty u w d = Ok (d', k) → wf d'.
Proof.
  intros Hwf. unfold update_groups_db.
  destruct (list.head _) eqn:Hsize; [done|]. case_decide; [|done]. intros; simplify_eq.
  split; cbn; rewrite ?update_groups_keys; eauto with hook;
    intros r' (r&->&Hr)%list_elem_of_fmap; (destruct (group_matches w r) eqn:Hm; [|eauto with hook]).
  - destruct (wf_complete d Hwf r Hr) as (?&?&?). by split_and!; [eexists| |eexists].
  - apply head_None in Hsize. rewrite omap_nil_iff in Hsize. apply Hsize.
    apply list_elem_of_fmap_2, list_elem_of_filter. by rewrite Hm.
Qed.

Lemma delete_wf t w d : wf d → wf (delete_db t w d).
Proof. destruct t; cbn; auto with hook. Qed.

(** Every statement keeps the constraints of the schema. *)
Lemma run_wf now st d r d' : wf d → run now st d = (r, d') → wf d'.
Proof.
  intros Hwf. destruct st as [f cols w o|g|rows oc|rows oc|n de ty u w|t w ret]; cbn.
  - destruct (bind_preds f w); [case_decide|]; intros; by simplify_eq.
  - destruct (insert_group_db now g d) as [d1|] eqn:Hi; intros; simplify_eq; [|done].
    by eapply insert_group_wf.
  - destruct (insert_members rows oc d) as [d1|] eqn:Hi; intros; simplify_eq; [|done].
    by eapply insert_members_wf.
  - destruct (insert_apps rows oc d) as [d1|] eqn:Hi; intros; simplify_eq; [|done].
    by eapply insert_apps_wf.
  - destruct (bind_preds _ w); [|by intros; simplify_eq].
    destruct (update_groups_db _ _ _ _ _ d) as [[d1 k]|] eqn:Hi; intros; simplify_eq; [|done].
    by eapply update_groups_wf.
  - destruct (bind_preds _ w); intros; simplify_eq; [|done]. by apply delete_wf.
Qed.
End run_wf.

(** A failed statement changes nothing. *)
Lemma run_err `{PgParams} now st d e d' : run now st d = (Err e, d') → d' = d.
Proof.
  destruct st as [f cols w o|g|rows oc|rows oc|n de ty u w|t w ret]; cbn; intros; cases.
Qed.

(** A query does not change the database. *)
Lemma run_select `{PgParams} now f cols w o d r d' :
  run now (Select f cols w o) d = (r, d') → d' = d.
Proof. cbn; intros; cases. Qed.

(** A connection keeps its database well formed. *)
Lemma exec_wf {S} `{EngineLaws S} st (s s' : S) r :
  exec st s = (r, s') → wf (view s) → wf (view s').
Proof.
  intros [(now&Hr)|(e&_&_&->)]%exec_cases Hwf; [|done]. by eapply run_wf.
Qed.
