(* ===== verification/Storage.v ===== *)
(** * internal/storage

    Every method of [Storage] (groups.go, authorization.go) as the statements it
    sends to the connection the context selects, and the Go code around them:
    deduplication, error wrapping, scanning.  A method is a program of the
    monad [M S] over the state [S] of a connection (class [Engine]).

    [time.Now()] and [uuid.NewV7()] are arguments.  The iteration order of a Go
    map is an argument too ([map_keys]).  A result set is delivered whole:
    [rows.Err()] after the loop is nil, an error of the query itself is not.
    Tracing spans and log lines are left out. *)

From S2P Require Import Prelude Errors Types Sql.
Open Scope Z_scope.

(** ** errors.go *)

Definition pgErrCodeUniqueViolation : string := "23505".
Definition pgErrCodeForeignKeyViolation : string := "23503".

Definition IsDuplicateKeyError (err : goerr) : bool :=
  match errors_as_pg err with
  | Some code => bool_decide (code = pgErrCodeUniqueViolation)
  | None => false
  end.

Definition IsForeignKeyViolation (err : goerr) : bool :=
  match errors_as_pg err with
  | Some code => bool_decide (code = pgErrCodeForeignKeyViolation)
  | None => false
  end.

Definition WrapDuplicateKeyError (err : goerr) (context : string) : goerr :=
  if negb (IsDuplicateKeyError err) then err
  else errorf_w context (ESentinel StorageErrDuplicateKey).

Definition WrapForeignKeyError (err : goerr) (context : string) : goerr :=
  if negb (IsForeignKeyViolation err) then err
  else errorf_w context (ESentinel StorageErrForeignKeyViolation).

(** ** Queries and scanning *)

Section queries.
Context {S : Type} `{!Engine S}.

Definition lift {A} (r : result A) : M S A := λ s, (r, s).

Definition QueryContext (st : stmt) : M S (list (list value)) := λ s,
  match exec st s with
  | (Ok (Rows rs), s') => (Ok rs, s')
  | (Ok (Affected _), s') => (Ok [], s')
  | (Err e, s') => (Err e, s')
  end.

(** [ExecContext], then [RowsAffected] of its result. *)
Definition ExecContext (st : stmt) : M S nat := λ s,
  match exec st s with
  | (Ok (Rows rs), s') => (Ok (length rs), s')
  | (Ok (Affected n), s') => (Ok n, s')
  | (Err e, s') => (Err e, s')
  end.

(** [QueryRowContext(ctx).Scan]: the first row, or [sql.ErrNoRows]. *)
Definition QueryRowContext {A} (scan : list value → result A) (st : stmt) : M S A :=
  rs ← QueryContext st;
  match rs with
  | [] => fail (ESentinel SqlErrNoRows)
  | r :: _ => lift (scan r)
  end.
End queries.

Definition group_columns : list colref :=
  Col <$> [c_id; c_name; c_tenant_id; c_description; c_type; c_created_at; c_updated_at].
Definition g_columns : list colref :=
  G <$> [c_id; c_name; c_tenant_id; c_description; c_type; c_created_at; c_updated_at].

(** A NULL or a value of another type does not scan into a Go string or time. *)
Definition scan_error : goerr := EText "sql: Scan error on column".

Definition scanGroup (r : list value) : result Group :=
  match r with
  | [VText id; VText name; VText tenant; VText description; VInt ty; VTime c; VTime u] =>
      Ok (mkGroup id name tenant description ty c u)
  | _ => Err scan_error
  end.

Definition scanString (r : list value) : result string :=
  match r with [VText s] => Ok s | _ => Err scan_error end.

Definition scanTimes (r : list value) : result (time * time) :=
  match r with [VTime c; VTime u] => Ok (c, u) | _ => Err scan_error end.

(** [for rows.Next() { x, err := scan(rows); if err != nil { return f(err) }; append }] *)
Fixpoint scan_rows {A} (scan : list value → result A) (msg : string)
    (rs : list (list value)) : result (list A) :=
  match rs with
  | [] => Ok []
  | r :: rs =>
      match scan r with
      | Err e => Err (errorf_v msg e)
      | Ok x => match scan_rows scan msg rs with Ok xs => Ok (x :: xs) | Err e => Err e end
      end
  end.

(** [scanApps] of authorization.go; its callers add their own context. *)
Definition scanApps (rs : list (list value)) : result (list string) :=
  scan_rows scanString "failed to scan application ID" rs.

(** The deduplication loop of [AddUsersToGroup]. *)
Definition unique (ids : list string) : list string := dedup_from [] ids.

Definition DefaultTenantID : string := "default".

(** [strings.NewReplacer(`\`, `\\`, `%`, `\%`, `_`, `\_`).Replace] *)
Fixpoint escape_like (s : string) : string :=
  match s with
  | "" => ""
  | String a s =>
      if decide (a = "\"%char ∨ a = "%"%char ∨ a = "_"%char)
      then String "\" (String a (escape_like s))
      else String a (escape_like s)
  end%string.

(** ** groups.go *)

Section groups.
Context {S : Type} `{!Engine S} `{GoRange}.

Definition ListGroups : M S (list Group) :=
  rows ← map_err (errorf_v "failed to query groups")
    (QueryContext (Select FromGroups group_columns [] (Some (Col c_name))));
  lift (scan_rows scanGroup "failed to scan group" rows).

(** [uuid] is what [uuid.NewV7()] returned. *)
Definition CreateGroup (uuid : result string) (group : Group) : M S Group :=
  match uuid with
  | Err err => fail (errorf_v "failed to generate uuid" err)
  | Ok id =>
      ts ← map_err (λ err,
          if IsDuplicateKeyError err
          then WrapDuplicateKeyError err "group name already exists"
          else errorf_v "failed to insert group" err)
        (QueryRowContext scanTimes
           (InsertGroup (mkInsertGroup id (Name group) (TenantId group)
                           (Description group) (Type_ group))));
      mret (mkGroup id (Name group) (TenantId group) (Description group)
              (Type_ group) ts.1 ts.2)
  end.

Definition no_rows_or (msg : string) (err : goerr) : goerr :=
  if errors_is err SqlErrNoRows then ESentinel StorageErrNotFound
  else errorf_v msg err.

Definition GetGroup (id : string) : M S Group :=
  map_err (no_rows_or "failed to query group")
    (QueryRowContext scanGroup
       (Select FromGroups group_columns [PEq (Col c_id) id] None)).

Definition or_default_tenant (tenantID : string) : string :=
  if decide (tenantID = "") then DefaultTenantID else tenantID.

Definition GetGroupByName (name tenantID : string) : M S Group :=
  map_err (no_rows_or "failed to query group")
    (QueryRowContext scanGroup
       (Select FromGroups group_columns
          [PEq (Col c_name) name; PEq (Col c_tenant_id) (or_default_tenant tenantID)]
          None)).

Definition UpdateGroup (now : time) (id : string) (group : Group) : M S Group :=
  rowsAffected ← map_err (errorf_v "failed to update group")
    (ExecContext (UpdateGroups (Name group) (Description group) (Type_ group) now
                    [PEq (Col c_id) id]));
  if decide (rowsAffected = 0%nat) then fail (ESentinel StorageErrNotFound)
  else mret (mkGroup id (Name group) (TenantId group) (Description group)
               (Type_ group) (CreatedAt group) now).

Definition DeleteGroup (id : string) : M S unit :=
  _ ← map_err (errorf_v "failed to delete group")
    (ExecContext (Delete TGroups [PEq (Col c_id) id] []));
  mret tt.

(** The VALUES of a membership INSERT. *)
Definition member_values (now : time) (groupID userID : string) : member_row :=
  mkMemberRow groupID userID "default" RoleMember (Some now) (Some now).

Definition AddUsersToGroup (now : time) (groupID : string) (userIDs : list string)
    : M S unit :=
  if decide (userIDs = []) then mret tt
  else
    _ ← map_err (λ err,
        if IsForeignKeyViolation err
        then WrapForeignKeyError err "group does not exist"
        else errorf_v "failed to insert group members" err)
      (ExecContext (InsertMembers (member_values now groupID <$> unique userIDs)
                      OCUpdateUpdatedAt));
    mret tt.

Definition ListUsersInGroup (groupID : string) : M S (list string) :=
  rows ← map_err (errorf_v "failed to query group members")
    (QueryContext (Select FromMembers [Col c_user_id] [PEq (Col c_group_id) groupID]
                     (Some (Col c_user_id))));
  lift (scan_rows scanString "failed to scan user ID" rows).

Definition RemoveUsersFromGroup (groupID : string) (users : list string) : M S unit :=
  _ ← map_err (errorf_v "failed to remove users from group")
    (ExecContext (Delete TMembers
       [PEq (Col c_group_id) groupID; PIn (Col c_user_id) users] []));
  mret tt.

Definition GetGroupsForUser (userID : string) : M S (list Group) :=
  rows ← map_err (errorf_v "failed to query groups for user")
    (QueryContext (Select FromGroupsJoinMembers g_columns
                     [PEq (GM c_user_id) userID] (Some (G c_name))));
  lift (scan_rows scanGroup "failed to scan group" rows).

(** [slices.Collect(maps.Keys(m))] for the set [m] of the ids. *)
Definition unique_keys (ids : list string) : list string :=
  map_keys (list_to_set ids).

Definition UpdateGroupsForUser (now : time) (userID : string)
    (groupIDs : list string) : M S unit :=
  let uniqueGroupIDs := unique_keys groupIDs in
  _ ← map_err (errorf_v "failed to remove old group memberships")
    (ExecContext (Delete TMembers
       (PEq (Col c_user_id) userID ::
          if decide (uniqueGroupIDs = []) then []
          else [PNotIn (Col c_group_id) uniqueGroupIDs]) []));
  if decide (uniqueGroupIDs = []) then mret tt
  else
    _ ← map_err (λ err,
        if IsForeignKeyViolation err
        then WrapForeignKeyError err "one or more groups do not exist"
        else errorf_v "failed to upsert group memberships" err)
      (ExecContext (InsertMembers ((λ g, member_values now g userID) <$> uniqueGroupIDs)
                      OCUpdateUpdatedAt));
    mret tt.

Definition RemoveUserFromAllGroups (userID : string) : M S unit :=
  _ ← map_err (errorf_v "failed to remove user from all groups")
    (ExecContext (Delete TMembers [PEq (Col c_user_id) userID] []));
  mret tt.

Definition ListGroupsByPrefix (prefix tenantID : string) : M S (list Group) :=
  rows ← map_err (errorf_v "failed to query groups by prefix")
    (QueryContext (Select FromGroups group_columns
       [PEq (Col c_tenant_id) (or_default_tenant tenantID);
        PLike (Col c_name) (escape_like prefix +:+ "%")]
       (Some (Col c_name))));
  lift (scan_rows scanGroup "failed to scan group" rows).

Definition SyncGroupMembers (now : time) (groupID : string)
    (userIDs : list string) : M S unit :=
  let uniqueUserIDs := unique_keys userIDs in
  _ ← map_err (errorf_v "failed to remove stale group members")
    (ExecContext (Delete TMembers
       (PEq (Col c_group_id) groupID ::
          if decide (uniqueUserIDs = []) then []
          else [PNotIn (Col c_user_id) uniqueUserIDs]) []));
  if decide (uniqueUserIDs = []) then mret tt
  else
    _ ← map_err (errorf_v "failed to upsert group members")
      (ExecContext (InsertMembers (member_values now groupID <$> uniqueUserIDs)
                      OCUpdateUpdatedAt));
    mret tt.

(** The callback [fn] works on its own state [T] (the client's stream); the
    loop stops at the first error, a scan error or one of [fn]. *)
Fixpoint stream_rows {A T} (scan : list value → result A) (msg : string)
    (fn : A → M T unit) (rs : list (list value)) : M T unit :=
  match rs with
  | [] => mret tt
  | r :: rs =>
      match scan r with
      | Err e => fail (errorf_v msg e)
      | Ok x => fn x ≫= λ _, stream_rows scan msg fn rs
      end
  end.

(** An iteration may break off, by the stream's timeout or a lost connection: after
    how many rows, and the error that [rows.Err] then reports. *)
Definition breaks : Type := option (nat * goerr).
Definition rows_read {A} (broken : breaks) (rs : list A) : list A :=
  match broken with Some (n, _) => take n rs | None => rs end.
Definition iterated (broken : breaks) (msg : string) (r : result unit) : result unit :=
  match r, broken with Ok _, Some (_, err) => Err (errorf_v msg err) | _, _ => r end.

Definition on_stream {T} (broken : breaks) (msg : string) (rows : M S (list (list value)))
    (loop : list (list value) → M T unit) : M (S * T) unit := λ st,
  match rows st.1 with
  | (Err e, s) => (Err e, (s, st.2))
  | (Ok rs, s) =>
      let '(r, t) := loop (rows_read broken rs) st.2 in (iterated broken msg r, (s, t))
  end.

Definition tenant_filter (c : colref) (tenantID : string) : list pred :=
  if decide (tenantID = "") then [] else [PEq c tenantID].

Definition user_groups_query (tenantID userID : string) : stmt :=
  Select FromGroupsJoinMembers g_columns
    (PEq (GM c_user_id) userID :: tenant_filter (G c_tenant_id) tenantID) (Some (G c_name)).
Definition group_users_query (tenantID groupID : string) : stmt :=
  Select FromMembers [Col c_user_id]
    (PEq (Col c_group_id) groupID :: tenant_filter (Col c_tenant_id) tenantID)
    (Some (Col c_user_id)).

Definition StreamGroupsForUser {T} (broken : breaks) (tenantID userID : string)
    (fn : Group → M T unit) : M (S * T) unit :=
  on_stream broken "error iterating groups"
    (map_err (errorf_v "failed to query groups for user")
       (QueryContext (user_groups_query tenantID userID)))
    (stream_rows scanGroup "failed to scan group" fn).

Definition StreamUsersInGroup {T} (broken : breaks) (tenantID groupID : string)
    (fn : string → M T unit) : M (S * T) unit :=
  on_stream broken "error iterating group members"
    (map_err (errorf_v "failed to query group members")
       (QueryContext (group_users_query tenantID groupID)))
    (stream_rows scanString "failed to scan user ID" fn).
End groups.

(** ** authorization.go *)

Section authorization.
Context {S : Type} `{!Engine S}.

Definition app_values (now : time) (groupID appID : string) : app_row :=
  mkAppRow groupID appID "default" (Some now) (Some now).

Definition GetAllowedApps (groupID : string) : M S (list string) :=
  rows ← map_err (errorf_v "failed to query allowed apps")
    (QueryContext (Select FromApps [Col c_application_id] [PEq (Col c_group_id) groupID]
                     (Some (Col c_application_id))));
  map_err (errorf_v "failed to scan allowed apps") (lift (scanApps rows)).

Definition AddAllowedApp (now : time) (groupID appID : string) : M S unit :=
  _ ← map_err (λ err,
      if IsDuplicateKeyError err
      then WrapDuplicateKeyError err "app already allowed for group"
      else if IsForeignKeyViolation err
      then WrapForeignKeyError err "group does not exist"
      else errorf_v "failed to insert allowed app" err)
    (ExecContext (InsertApps [app_values now groupID appID] OCError));
  mret tt.

Definition AddAllowedApps (now : time) (groupID : string) (appIDs : list string)
    : M S unit :=
  if decide (appIDs = []) then mret tt
  else
    _ ← map_err (λ err,
        if IsForeignKeyViolation err
        then WrapForeignKeyError err "group does not exist"
        else errorf_v "failed to insert allowed apps" err)
      (ExecContext (InsertApps (app_values now groupID <$> appIDs) OCDoNothing));
    mret tt.

Definition RemoveAllowedApp (groupID appID : string) : M S unit :=
  _ ← map_err (errorf_v "failed to remove allowed app")
    (ExecContext (Delete TApps
       [PEq (Col c_application_id) appID; PEq (Col c_group_id) groupID] []));
  mret tt.

Definition RemoveAllowedApps (groupID : string) : M S (list string) :=
  rows ← map_err (errorf_v "failed to remove allowed apps")
    (QueryContext (Delete TApps [PEq (Col c_group_id) groupID] [Col c_application_id]));
  map_err (errorf_v "failed to scan allowed apps") (lift (scanApps rows)).

Definition AddAllowedGroupsForApp (now : time) (appID : string)
    (groupIDs : list string) : M S unit :=
  if decide (groupIDs = []) then mret tt
  else
    _ ← map_err (λ err,
        if IsForeignKeyViolation err
        then WrapForeignKeyError err "one or more groups do not exist"
        else errorf_v "failed to insert allowed groups for app" err)
      (ExecContext (InsertApps ((λ g, app_values now g appID) <$> groupIDs) OCDoNothing));
    mret tt.

Definition GetAllowedGroupsForApp (appID : string) : M S (list string) :=
  rows ← map_err (errorf_v "failed to query allowed groups for app")
    (QueryContext (Select FromApps [Col c_group_id] [PEq (Col c_application_id) appID]
                     (Some (Col c_group_id))));
  lift (scan_rows scanString "failed to scan group ID" rows).

Definition RemoveAllAllowedGroupsForApp (appID : string) : M S (list string) :=
  rows ← map_err (errorf_v "failed to remove allowed groups for app")
    (QueryContext (Delete TApps [PEq (Col c_application_id) appID] [Col c_group_id]));
  lift (scan_rows scanString "failed to scan group ID" rows).
End authorization.
