(* ===== verification/StorageSpec.v ===== *)
(** * What internal/storage promises

    The contract of the storage layer, proved of the methods of [Storage] for
    every connection that satisfies [EngineLaws]:
    - the constraints of the schema are an invariant;
    - memberships and allowed applications refine operations on finite sets;
    - the prefix query is literal-prefix search (LIKE escaping);
    - streaming visits what the list methods return.
    [TestParams] instantiates the parameters for the witnesses. *)

From S2P Require Import Prelude Errors Types Sql Storage.
Open Scope Z_scope.

(** ** Concrete parameters, for examples *)

Module TestParams.
(** Lower-case hexadecimal, as PostgreSQL prints UUIDs; only the empty string
    is rejected. *)
Definition lower_ascii (a : ascii) : ascii :=
  let n := Ascii.nat_of_ascii a in
  if decide (65 ≤ n ≤ 90)%nat then Ascii.ascii_of_nat (n + 32) else a.

Fixpoint lower (s : string) : string :=
  match s with "" => "" | String a s => String (lower_ascii a) (lower s) end%string.

#[export] Instance pg : PgParams := {
  uuid_in s := if decide (s = "") then None else Some (lower s);
  collate := String.le;
}.

Lemma lower_ascii_idem a : lower_ascii (lower_ascii a) = lower_ascii a.
Proof. destruct a as [[] [] [] [] [] [] [] []]; reflexivity. Qed.

Lemma lower_idem s : lower (lower s) = lower s.
Proof. induction s; cbn; [done|]. by rewrite lower_ascii_idem, IHs. Qed.

#[export] Instance pg_laws : PgLaws.
Proof.
  split; [|apply _..]. intros s u; cbn. case_decide; [done|].
  intros; simplify_eq. rewrite decide_False, lower_idem; [done|]. by destruct s.
Qed.

#[export] Instance range : GoRange := {| map_keys := elements |}.
#[export] Instance range_laws : GoRangeLaws.
Proof. by split. Qed.
End TestParams.

(** ** Steps of a connection *)

Section inversion.
Context {S : Type} `{EngineLaws S}.

Lemma exec_inv st s r s' :
  exec st s = (r, s') →
  (∃ now q, r = Ok q ∧ run now st (view s) = (Ok q, view s')) ∨
  (∃ e, r = Err e ∧ view s' = view s ∧
     (operational e ∨ ∃ now, run now st (view s) = (Err e, view s))).
Proof.
  intros [(now&Hr)|(e&->&?&?)]%exec_cases; [|right; eauto].
  destruct r as [q|e]; [left; eauto|].
  pose proof (run_err _ _ _ _ _ Hr) as Hv. rewrite Hv in Hr. right. eauto 6.
Qed.

Lemma ExecContext_inv st s r s' :
  ExecContext st s = (r, s') →
  (∃ now q, run now st (view s) = (Ok q, view s') ∧
     r = Ok (match q with Rows rs => length rs | Affected n => n end)) ∨
  (∃ e, r = Err e ∧ view s' = view s ∧
     (operational e ∨ ∃ now, run now st (view s) = (Err e, view s))).
Proof.
  unfold ExecContext. destruct (exec st s) as [r0 s0] eqn:Hx. intros Hr.
  apply exec_inv in Hx as [(now&q&->&?)|(e&->&?&?)].
  - left. exists now, q. destruct q; by simplify_eq.
  - right. simplify_eq. eauto.
Qed.

Lemma QueryContext_inv st s r s' :
  QueryContext st s = (r, s') →
  (∃ now q, run now st (view s) = (Ok q, view s') ∧
     r = Ok (match q with Rows rs => rs | Affected _ => [] end)) ∨
  (∃ e, r = Err e ∧ view s' = view s ∧
     (operational e ∨ ∃ now, run now st (view s) = (Err e, view s))).
Proof.
  unfold QueryContext. destruct (exec st s) as [r0 s0] eqn:Hx. intros Hr.
  apply exec_inv in Hx as [(now&q&->&?)|(e&->&?&?)].
  - left. exists now, q. destruct q; by simplify_eq.
  - right. simplify_eq. eauto.
Qed.

End inversion.

(** ** Programs as sequences of statements

    A program touches its connection only by sending statements, so a preorder
    on states that every statement respects is respected by the program. *)

Section follows.
Context {S : Type} `{!Engine S} (R : relation S) `{!PreOrder R}.
Definition follows {A} (m : M S A) : Prop := ∀ s r s', m s = (r, s') → R s s'.

Lemma follows_ret {A} (a : A) : follows (mret a).
Proof using PreOrder0. intros s r s' Hm. cbv in Hm. by simplify_eq. Qed.
Lemma follows_lift {A} (r : result A) : follows (lift r).
Proof using PreOrder0. intros s r' s' Hm. cbv in Hm. by simplify_eq. Qed.
Lemma follows_fail {A} e : follows (fail (A:=A) e).
Proof using PreOrder0. intros s r s' Hm. cbv in Hm. by simplify_eq. Qed.
Lemma follows_bind {A B} (m : M S A) (k : A → M S B) :
  follows m → (∀ a, follows (k a)) → follows (m ≫= k).
Proof using PreOrder0.
  intros Hm Hk s r s' [(e&->&Hx)|(a&s1&Hx&Hx')]%bind_inv; [by eapply Hm|].
  etrans; [by eapply Hm|by eapply Hk].
Qed.
Lemma follows_map_err {A} f (m : M S A) : follows m → follows (map_err f m).
Proof using. intros Hm s r s' [(?&?&Hx)|(?&?&Hx)]%map_err_inv; by eapply Hm. Qed.
Lemma follows_attempt {A} (m : M S A) : follows m → follows (attempt m).
Proof using.
  intros Hm s r s'. unfold attempt. destruct (m s) as [r0 s0] eqn:Hx.
  intros [= _ <-]. by eapply Hm.
Qed.
(** A statement on its own. *)
Lemma follows_Exec1 st :
  (∀ s r s', exec st s = (r, s') → R s s') → follows (ExecContext st).
Proof using.
  intros HR s r s'. unfold ExecContext. destruct (exec st s) as [q s1] eqn:Hx.
  apply HR in Hx. destruct q as [[]|]; intros; by simplify_eq.
Qed.
Lemma follows_Query1 st :
  (∀ s r s', exec st s = (r, s') → R s s') → follows (QueryContext st).
Proof using.
  intros HR s r s'. unfold QueryContext. destruct (exec st s) as [q s1] eqn:Hx.
  apply HR in Hx. destruct q as [[]|]; intros; by simplify_eq.
Qed.
Lemma follows_decide {A} P `{Decision P} (m m' : M S A) :
  follows m → follows m' → follows (if decide P then m else m').
Proof using. intros; by case_decide. Qed.
Lemma follows_snd {A} (m : M S A) s : follows m → R s (m s).2.
Proof using. intros Hm. eapply Hm, surjective_pairing. Qed.
End follows.

(** The same for the runs that succeed: every statement of such a run has succeeded. *)
Section ok_follows.
Context {S : Type} `{!Engine S} (R : relation S) `{!PreOrder R}.

Definition ok_follows {A} (m : M S A) : Prop := ∀ s a s', m s = (Ok a, s') → R s s'.

Lemma ok_follows_ret {A} (a : A) : ok_follows (mret a).
Proof using PreOrder0. intros s x s' Hm. cbv in Hm. by simplify_eq. Qed.
Lemma ok_follows_lift {A} (r : result A) : ok_follows (lift r).
Proof using PreOrder0. intros s x s' Hm. cbv in Hm. by simplify_eq. Qed.
Lemma ok_follows_fail {A} e : ok_follows (fail (A:=A) e).
Proof using. by intros s x s' Hm. Qed.
Lemma ok_follows_bind {A B} (m : M S A) (k : A → M S B) :
  ok_follows m → (∀ a, ok_follows (k a)) → ok_follows (m ≫= k).
Proof using PreOrder0.
  intros Hm Hk s x s' [(e&?&_)|(a&s1&Hx&Hx')]%bind_inv; [done|].
  etrans; [by eapply Hm|by eapply Hk].
Qed.
Lemma ok_follows_map_err {A} f (m : M S A) : ok_follows m → ok_follows (map_err f m).
Proof using. intros Hm s x s' [(?&?&Hx)|(?&?&_)]%map_err_inv; [by eapply Hm|done]. Qed.
Lemma ok_follows_Exec st :
  (∀ s q s', exec st s = (Ok q, s') → R s s') → ok_follows (ExecContext st).
Proof using.
  intros HR s x s'. unfold ExecContext. destruct (exec st s) as [[[]|] s1] eqn:Hx;
    intros; simplify_eq; by eapply HR.
Qed.
Lemma ok_follows_Query st :
  (∀ s q s', exec st s = (Ok q, s') → R s s') → ok_follows (QueryContext st).
Proof using.
  intros HR s x s'. unfold QueryContext. destruct (exec st s) as [[[]|] s1] eqn:Hx;
    intros; simplify_eq; by eapply HR.
Qed.
Lemma ok_follows_decide {A} P `{Decision P} (m m' : M S A) :
  ok_follows m → ok_follows m' → ok_follows (if decide P then m else m').
Proof using. intros; by case_decide. Qed.
Lemma ok_follows_run {A} (m : M S A) s a s' : m s = (Ok a, s') → ok_follows m → R s s'.
Proof using. intros Hx Hm. by eapply Hm. Qed.
End ok_follows.

(** Decompose a program, as [follow_by] does. *)
Ltac follow_ok_by tac :=
  repeat first
    [ apply ok_follows_ret; [apply _] | apply ok_follows_lift; [apply _]
    | apply ok_follows_fail
    | apply ok_follows_Exec; tac | apply ok_follows_Query; tac
    | apply ok_follows_bind; [apply _| |intros ?] | apply ok_follows_map_err
    | apply ok_follows_decide
    | match goal with |- ok_follows _ (match ?x with _ => _ end) => destruct x end ].
Ltac follow_ok := follow_ok_by ltac:(solve [eauto]).

(** Decompose a program into its statements, and prove each with [tac]. *)
Ltac follow_by tac :=
  repeat first
    [ apply follows_ret; [apply _] | apply follows_lift; [apply _]
    | apply follows_fail; [apply _]
    | apply follows_Exec1; tac | apply follows_Query1; tac
    | apply follows_bind; [apply _| |intros ?] | apply follows_map_err | apply follows_attempt
    | apply follows_decide
    | match goal with |- follows _ (match ?x with _ => _ end) => destruct x end ].

(** Every statement respects the relation, by a hypothesis. *)
Ltac follow := follow_by ltac:(solve [eauto]).

(** ** The schema's constraints are an invariant of every sequence of calls *)

(** The calls of [StorageInterface] (internal/storage/interfaces.go). *)
Inductive call :=
  | CListGroups | CCreateGroup (uuid : result string) (g : Group) | CGetGroup (id : string)
  | CGetGroupByName (name tenantID : string)
  | CUpdateGroup (now : time) (id : string) (g : Group) | CDeleteGroup (id : string)
  | CAddUsersToGroup (now : time) (groupID : string) (userIDs : list string)
  | CListUsersInGroup (groupID : string)
  | CRemoveUsersFromGroup (groupID : string) (users : list string)
  | CGetGroupsForUser (userID : string)
  | CUpdateGroupsForUser (now : time) (userID : string) (groupIDs : list string)
  | CRemoveUserFromAllGroups (userID : string)
  | CListGroupsByPrefix (prefix tenantID : string)
  | CSyncGroupMembers (now : time) (groupID : string) (userIDs : list string)
  | CStreamGroupsForUser (broken : breaks) (tenantID userID : string) (fn : Group → result unit)
  | CStreamUsersInGroup (broken : breaks) (tenantID groupID : string) (fn : string → result unit)
  | CGetAllowedApps (groupID : string) | CAddAllowedApp (now : time) (groupID appID : string)
  | CAddAllowedApps (now : time) (groupID : string) (appIDs : list string)
  | CRemoveAllowedApp (groupID appID : string) | CRemoveAllowedApps (groupID : string)
  | CAddAllowedGroupsForApp (now : time) (appID : string) (groupIDs : list string)
  | CGetAllowedGroupsForApp (appID : string)
  | CRemoveAllAllowedGroupsForApp (appID : string).

Section invariant.
Context {S : Type} `{EngineLaws S} `{GoRange}.

Definition pure_fn {A} (f : A → result unit) : A → M unit unit := λ a, lift (f a).

(** The state a call leaves the connection in. *)
Definition after (c : call) (s : S) : S :=
  match c with
  | CListGroups => (ListGroups s).2
  | CCreateGroup uuid g => (CreateGroup uuid g s).2
  | CGetGroup id => (GetGroup id s).2
  | CGetGroupByName name t => (GetGroupByName name t s).2
  | CUpdateGroup now id g => (UpdateGroup now id g s).2
  | CDeleteGroup id => (DeleteGroup id s).2
  | CAddUsersToGroup now g us => (AddUsersToGroup now g us s).2
  | CListUsersInGroup g => (ListUsersInGroup g s).2
  | CRemoveUsersFromGroup g us => (RemoveUsersFromGroup g us s).2
  | CGetGroupsForUser u => (GetGroupsForUser u s).2
  | CUpdateGroupsForUser now u gs => (UpdateGroupsForUser now u gs s).2
  | CRemoveUserFromAllGroups u => (RemoveUserFromAllGroups u s).2
  | CListGroupsByPrefix p t => (ListGroupsByPrefix p t s).2
  | CSyncGroupMembers now g us => (SyncGroupMembers now g us s).2
  | CStreamGroupsForUser b t u fn => (StreamGroupsForUser b t u (pure_fn fn) (s, tt)).2.1
  | CStreamUsersInGroup b t g fn => (StreamUsersInGroup b t g (pure_fn fn) (s, tt)).2.1
  | CGetAllowedApps g => (GetAllowedApps g s).2
  | CAddAllowedApp now g a => (AddAllowedApp now g a s).2
  | CAddAllowedApps now g aps => (AddAllowedApps now g aps s).2
  | CRemoveAllowedApp g a => (RemoveAllowedApp g a s).2
  | CRemoveAllowedApps g => (RemoveAllowedApps g s).2
  | CAddAllowedGroupsForApp now a gs => (AddAllowedGroupsForApp now a gs s).2
  | CGetAllowedGroupsForApp a => (GetAllowedGroupsForApp a s).2
  | CRemoveAllAllowedGroupsForApp a => (RemoveAllAllowedGroupsForApp a s).2
  end.

Lemma on_stream_follows {T} (R : relation S) broken msg (rows : M S (list (list value)))
    loop s (t : T) :
  follows R rows → R s (on_stream broken msg rows loop (s, t)).2.1.
Proof using.
  intros Hm. unfold on_stream; cbn. pose proof (follows_snd R rows s Hm) as Hs.
  destruct (rows s) as [[rs|e] s']; cbn in *; [by destruct (loop (rows_read broken rs) t)|done].
Qed.

(** Every call sends statements and does nothing else. *)
Lemma call_follows (R : relation S) `{!PreOrder R} c s :
  (∀ st s r s', exec st s = (r, s') → R s s') → R s (after c s).
Proof using.
  intros HR. destruct c; cbn [after].
  15, 16: unfold StreamGroupsForUser, StreamUsersInGroup; apply on_stream_follows;
    follow.
  all: apply follows_snd; unfold ListGroups, CreateGroup, GetGroup, GetGroupByName, QueryRowContext,
      UpdateGroup, DeleteGroup, AddUsersToGroup, ListUsersInGroup,
      RemoveUsersFromGroup, GetGroupsForUser, UpdateGroupsForUser,
      RemoveUserFromAllGroups, ListGroupsByPrefix, SyncGroupMembers,
      GetAllowedApps, AddAllowedApp, AddAllowedApps, RemoveAllowedApp,
      RemoveAllowedApps, AddAllowedGroupsForApp, GetAllowedGroupsForApp,
      RemoveAllAllowedGroupsForApp; follow.
Qed.

Definition keeps_wf : relation S := λ s s', wf (view s) → wf (view s').

#[export] Instance keeps_wf_preorder : PreOrder keeps_wf.
Proof. split; unfold keeps_wf; intros ?; auto. Qed.

Lemma after_wf c s : wf (view s) → wf (view (after c s)).
Proof.
  apply (call_follows keeps_wf). intros st s1 r s2 Hx Hwf. by eapply exec_wf.
Qed.

End invariant.

(** ** The prefix query *)

(** [strings.HasPrefix]. *)
Definition HasPrefix (s prefix : string) : bool := String.prefix prefix s.

Lemma like_tokens_escape p ts :
  like_tokens ts ≠ None →
  like_tokens (escape_like p +:+ ts) =
    (λ k, map LChar (String.list_ascii_of_string p) ++ k) <$> like_tokens ts.
Proof.
  intros Hts. induction p as [|a p IH]; cbn.
  - rewrite string_app_nil_l. by destruct (like_tokens ts).
  - case_decide as Ha; rewrite !string_app_cons.
    + cbn. rewrite IH. by destruct (like_tokens ts).
    + assert (like_tokens (String a (escape_like p +:+ ts))
        = cons (LChar a) <$> like_tokens (escape_like p +:+ ts)) as ->.
      { destruct a as [[] [] [] [] [] [] [] []]; cbn; try reflexivity; naive_solver. }
      rewrite IH. by destruct (like_tokens ts).
Qed.

Lemma like_match_prefix p s :
  like_match (map LChar (String.list_ascii_of_string p) ++ [LMany]) s = HasPrefix s p.
Proof.
  revert s. induction p as [|a p IH]; intros s; cbn.
  - destruct s as [|b s]; [done|]. cbn. induction s as [|c s IH]; [done|]. apply IH.
  - destruct s as [|b s]; [done|]. unfold HasPrefix in *; cbn. rewrite IH.
    destruct (Ascii.ascii_dec a b) as [->|]; [by rewrite bool_decide_true|].
    by rewrite bool_decide_false.
Qed.

(** The pattern of [ListGroupsByPrefix] and [strings.HasPrefix]. *)
Lemma like_escaped prefix name :
  like (escape_like prefix +:+ "%") name = HasPrefix name prefix.
Proof.
  unfold like. rewrite like_tokens_escape by done. apply like_match_prefix.
Qed.

(** The escaped pattern that [ListGroupsByPrefix] builds matches exactly the
    strings that start with the prefix, also when the prefix holds the LIKE
    metacharacters percent, underscore and backslash. *)
Theorem like_escape_prefix prefix name :
  like (escape_like prefix +:+ "%") name = HasPrefix name prefix.
Proof. apply like_escaped. Qed.

Lemma HasPrefix_app p s : HasPrefix (p +:+ s) p = true.
Proof.
  unfold HasPrefix. induction p as [|a p IH]; [by destruct s|].
  rewrite string_app_cons; cbn. destruct (Ascii.ascii_dec a a); [done|congruence].
Qed.

Lemma HasPrefix_spec s p : HasPrefix s p = true ↔ ∃ t, s = p +:+ t.
Proof.
  split; [|intros [t ->]; apply HasPrefix_app].
  revert s. induction p as [|a p IH]; intros s Hp; cbn; [by exists s|].
  destruct s as [|b s]; unfold HasPrefix in *; cbn in *; [done|].
  destruct (Ascii.ascii_dec a b) as [->|]; [|done].
  destruct (IH s Hp) as [t ->]. by exists t.
Qed.

(** ** Memberships and allowed applications as finite sets *)

(** (group, user) and (group, application) pairs. *)
Definition memberships (d : database) : gset (string * string) :=
  list_to_set (mkey <$> group_members d).
Definition allowed (d : database) : gset (string * string) :=
  list_to_set (akey <$> application_groups d).

Definition pairs (g : string) (us : list string) : gset (string * string) :=
  list_to_set (pair g <$> us).
Definition pairs_of (gs : list string) (u : string) : gset (string * string) :=
  list_to_set ((λ g, (g, u)) <$> gs).

Lemma elem_of_memberships d k : k ∈ memberships d ↔ k ∈ mkey <$> group_members d.
Proof. apply elem_of_list_to_set. Qed.
Lemma elem_of_allowed d k : k ∈ allowed d ↔ k ∈ akey <$> application_groups d.
Proof. apply elem_of_list_to_set. Qed.
Lemma elem_of_pairs g us k : k ∈ pairs g us ↔ k.1 = g ∧ k.2 ∈ us.
Proof.
  unfold pairs. rewrite elem_of_list_to_set, list_elem_of_fmap. destruct k; cbn.
  naive_solver.
Qed.
Lemma elem_of_pairs_of gs u k : k ∈ pairs_of gs u ↔ k.1 ∈ gs ∧ k.2 = u.
Proof.
  unfold pairs_of. rewrite elem_of_list_to_set, list_elem_of_fmap. destruct k; cbn.
  naive_solver.
Qed.

(** Everything but the memberships (the allowed applications) is unchanged. *)
Definition same_but_members (d d' : database) : Prop :=
  groups d' = groups d ∧ application_groups d' = application_groups d.
Definition same_but_apps (d d' : database) : Prop :=
  groups d' = groups d ∧ group_members d' = group_members d.

Section statements.
Context `{PgParams}.

Lemma mapR_Forall2 {A B} (f : A → result B) l k :
  mapR f l = Ok k ↔ Forall2 (λ x y, f x = Ok y) l k.
Proof.
  revert k. induction l as [|x l IH]; intros k; cbn.
  - split; [intros; simplify_eq; constructor|]. by inversion 1.
  - split.
    + destruct (f x) as [y|] eqn:Hf; [|done].
      destruct (mapR f l) as [ys|] eqn:Hm; [|done].
      intros; simplify_eq. constructor; [done|]. by apply IH.
    + inversion 1 as [|? y ? ys Hf Hl]; subst. apply IH in Hl. by rewrite Hf, Hl.
Qed.

Lemma coerce_uuid g g' : coerce CtUuid g = Ok g' ↔ uuid_in g = Some g'.
Proof. cbn. destruct (uuid_in g); naive_solver. Qed.

Lemma mapR_text vs : mapR (coerce CtText) vs = Ok vs.
Proof. apply mapR_Forall2, Forall_Forall2_diag, Forall_true. done. Qed.

Lemma mapR_uuid vs us :
  mapR (coerce CtUuid) vs = Ok us ↔ Forall2 (λ v u, uuid_in v = Some u) vs us.
Proof.
  rewrite mapR_Forall2.
  split; intros Hf; (eapply list.Forall2_impl; [exact Hf|]); intros ??; apply coerce_uuid.
Qed.

(** *** Binding of conditions, one lemma per form the methods use *)

Lemma bind_nil_inv f w : bind_preds f [] = Ok w → w = [].
Proof. cbn. intros; by simplify_eq. Qed.

Lemma bind_cons_inv f p ps w :
  bind_preds f (p :: ps) = Ok w →
  ∃ p' w', bind_pred f p = Ok p' ∧ bind_preds f ps = Ok w' ∧ w = p' :: w'.
Proof.
  unfold bind_preds. intros Hm%mapR_Forall2.
  inversion Hm as [|? p' ? w' Hp Hw]; subst. exists p', w'. split_and!; [done| |done].
  by apply mapR_Forall2.
Qed.

Lemma bind_eq_uuid_inv f c v p :
  coltype_of f c = Some CtUuid → bind_pred f (PEq c v) = Ok p →
  ∃ u, uuid_in v = Some u ∧ p = PEq c u.
Proof. intros Hc. cbn. rewrite Hc; cbn. destruct (uuid_in v); naive_solver. Qed.

Lemma bind_eq_text_inv f c v p :
  coltype_of f c = Some CtText → bind_pred f (PEq c v) = Ok p → p = PEq c v.
Proof. intros Hc. cbn. rewrite Hc; cbn. naive_solver. Qed.

Lemma bind_in_text_inv f c vs p :
  coltype_of f c = Some CtText → bind_pred f (PIn c vs) = Ok p → p = PIn c vs.
Proof. intros Hc. cbn. rewrite Hc, mapR_text. naive_solver. Qed.

Lemma bind_not_in_text_inv f c vs p :
  coltype_of f c = Some CtText → bind_pred f (PNotIn c vs) = Ok p → p = PNotIn c vs.
Proof. intros Hc. cbn. rewrite Hc, mapR_text. naive_solver. Qed.

Lemma bind_not_in_uuid_inv f c vs p :
  coltype_of f c = Some CtUuid → bind_pred f (PNotIn c vs) = Ok p →
  ∃ us, Forall2 (λ v u, uuid_in v = Some u) vs us ∧ p = PNotIn c us.
Proof.
  intros Hc. cbn. rewrite Hc. destruct (mapR (coerce CtUuid) vs) as [us|] eqn:Hm; [|done].
  apply mapR_uuid in Hm. naive_solver.
Qed.

Lemma bind_like_inv f c pat p :
  bind_pred f (PLike c pat) = Ok p → p = PLike c pat.
Proof. cbn. intros; cases. Qed.

(** A row that is stored: only the group's id may have another spelling. *)
Lemma coerce_member_inv r r' :
  coerce_member r = Ok r' → uuid_in (mr_group r) = Some (mr_group r') ∧
    r' = mkMemberRow (mr_group r') (mr_user r) (mr_tenant r) (mr_role r)
           (mr_created r) (mr_updated r).
Proof.
  unfold coerce_member; cbn. destruct (uuid_in (mr_group r)), (member_size_error r);
    intros; by simplify_eq.
Qed.

Lemma coerce_app_inv r r' :
  coerce_app r = Ok r' → uuid_in (ar_group r) = Some (ar_group r') ∧ ar_app r' = ar_app r ∧
    ar_tenant r' = ar_tenant r.
Proof.
  unfold coerce_app; cbn. destruct (uuid_in (ar_group r)), (app_size_error r);
    intros; by simplify_eq.
Qed.

(** The rows of an INSERT that names one group, or one user. *)
Lemma coerce_group_rows now g us rows :
  us ≠ [] → mapR coerce_member (member_values now g <$> us) = Ok rows →
  ∃ g', uuid_in g = Some g' ∧ rows = member_values now g' <$> us.
Proof.
  intros Hne Hm%mapR_Forall2.
  assert (∃ g', uuid_in g = Some g') as [g' Hg].
  { destruct us as [|u us]; [done|]. inversion Hm as [|? y ? ? Hy]; subst.
    apply coerce_member_inv in Hy as [Hy _]. eauto. }
  exists g'. split; [done|]. clear Hne. revert rows Hm.
  induction us as [|u us IH]; intros rows Hm; inversion Hm as [|? y ? ys Hy Hys]; subst; [done|].
  apply coerce_member_inv in Hy as [Hy ->]. cbn in Hy. rewrite (IH ys Hys).
  rewrite Hg in Hy. by injection Hy as <-.
Qed.

Lemma coerce_user_rows now gs u rows :
  mapR coerce_member ((λ g, member_values now g u) <$> gs) = Ok rows →
  ∃ gs', Forall2 (λ g g', uuid_in g = Some g') gs gs' ∧
    rows = (λ g, member_values now g u) <$> gs'.
Proof.
  intros Hm%mapR_Forall2. revert rows Hm.
  induction gs as [|g gs IH]; intros rows Hm; inversion Hm as [|? y ? ys Hy Hys]; subst.
  { by exists []. }
  destruct (IH ys Hys) as (gs'&?&->). apply coerce_member_inv in Hy as [Hg ->]. cbn in Hg.
  exists (mr_group y :: gs'). split; [by constructor|done].
Qed.

Lemma mkey_member_values now g (us : list string) : mkey <$> (member_values now g <$> us) = pair g <$> us.
Proof. by rewrite <- list_fmap_compose. Qed.
Lemma mkey_member_values_of now (gs : list string) u :
  mkey <$> ((λ g, member_values now g u) <$> gs) = (λ g, (g, u)) <$> gs.
Proof. by rewrite <- list_fmap_compose. Qed.

Lemma insert_members_memberships rows oc d d' :
  insert_members rows oc d = Ok d' →
  ∃ rows', mapR coerce_member rows = Ok rows' ∧
    memberships d' = memberships d ∪ list_to_set (mkey <$> rows') ∧
    same_but_members d d'.
Proof.
  intros (rows'&ms&?&Hu&_&->)%insert_members_inv. exists rows'.
  split_and!; [done| |done]. apply set_eq. intros k.
  rewrite elem_of_union, !elem_of_memberships, elem_of_list_to_set; cbn.
  by apply (upsert_keys mkey touch_member ltac:(done) _ _ _ _ _ Hu).
Qed.

(** A DELETE whose condition reads only the key. *)
Lemma memberships_delete (cond : string * string → Prop) `{∀ k, Decision (cond k)} w d :
  (∀ r, member_matches w r = true ↔ cond (mkey r)) →
  memberships (delete_members_db w d) = filter (λ k, ¬ cond k) (memberships d).
Proof.
  intros Hc. apply set_eq. intros k.
  rewrite elem_of_filter, !elem_of_memberships, !list_elem_of_fmap; cbn.
  setoid_rewrite list_elem_of_filter. setoid_rewrite Is_true_true. setoid_rewrite Hc.
  naive_solver.
Qed.

Lemma allowed_delete (cond : string * string → Prop) `{∀ k, Decision (cond k)} w d :
  (∀ r, app_matches w r = true ↔ cond (akey r)) →
  allowed (delete_apps_db w d) = filter (λ k, ¬ cond k) (allowed d).
Proof.
  intros Hc. apply set_eq. intros k.
  rewrite elem_of_filter, !elem_of_allowed, !list_elem_of_fmap; cbn.
  setoid_rewrite list_elem_of_filter. setoid_rewrite Is_true_true. setoid_rewrite Hc.
  naive_solver.
Qed.

Lemma run_delete now t w ret d q d' :
  run now (Delete t w ret) d = (Ok q, d') →
  ∃ w', bind_preds (source_of t) w = Ok w' ∧ d' = delete_db t w' d.
Proof. cbn. destruct (bind_preds _ w) as [w'|]; intros; simplify_eq; eauto. Qed.

Lemma run_insert_members now rows oc d q d' :
  run now (InsertMembers rows oc) d = (Ok q, d') → insert_members rows oc d = Ok d'.
Proof. cbn. destruct (insert_members rows oc d); intros; by simplify_eq. Qed.

Lemma run_insert_apps now rows oc d q d' :
  run now (InsertApps rows oc) d = (Ok q, d') → insert_apps rows oc d = Ok d'.
Proof. cbn. destruct (insert_apps rows oc d); intros; by simplify_eq. Qed.
End statements.

(** ** Conditions on key columns *)

Lemma holds_eq (r : row) c v s : r c = VText s → holds r (PEq c v) = true ↔ s = v.
Proof. intros Hr. cbn. rewrite Hr, bool_decide_eq_true. naive_solver. Qed.

Lemma holds_in (r : row) c vs s : r c = VText s → holds r (PIn c vs) = true ↔ s ∈ vs.
Proof.
  intros Hr. cbn. rewrite bool_decide_eq_true, list.Exists_exists, Hr.
  split; [intros (x&?&?); by simplify_eq|eauto].
Qed.

Lemma holds_not_in (r : row) c vs s : r c = VText s → holds r (PNotIn c vs) = true ↔ s ∉ vs.
Proof. intros Hr. cbn. by rewrite Hr, bool_decide_eq_true. Qed.

Lemma holds_all_cons r p w : holds_all r (p :: w) = true ↔ holds r p = true ∧ holds_all r w = true.
Proof. apply andb_true_iff. Qed.
Lemma holds_all_nil r : holds_all r [] = true ↔ True.
Proof. done. Qed.

(** Turn a condition on a concrete row into a proposition. *)
Ltac solve_matches :=
  unfold member_matches, app_matches, group_matches, mkey, akey;
  rewrite ?holds_all_cons, ?holds_all_nil;
  repeat match goal with
  | |- context [holds ?r (PEq ?c ?v) = true] =>
      rewrite (holds_eq r c v _ ltac:(reflexivity))
  | |- context [holds ?r (PIn ?c ?v) = true] =>
      rewrite (holds_in r c v _ ltac:(reflexivity))
  | |- context [holds ?r (PNotIn ?c ?v) = true] =>
      rewrite (holds_not_in r c v _ ltac:(reflexivity))
  end; cbn; naive_solver.

(** The same for a condition that a row of the table is known to satisfy. *)
Ltac matches_inv H :=
  unfold member_matches, app_matches in H; rewrite ?holds_all_cons, ?holds_all_nil in H;
  repeat match type of H with
  | context [holds ?r (PEq ?c ?v) = true] =>
      rewrite (holds_eq r c v _ ltac:(reflexivity)) in H
  | context [holds ?r (PIn ?c ?v) = true] =>
      rewrite (holds_in r c v _ ltac:(reflexivity)) in H
  | context [holds ?r (PNotIn ?c ?v) = true] =>
      rewrite (holds_not_in r c v _ ltac:(reflexivity)) in H
  end; cbn in *; naive_solver.

(** Replace the bound conditions of a hypothesis by the arguments' values. *)
Ltac bind_inv :=
  repeat match goal with
  | H : bind_preds _ [] = Ok _ |- _ => apply bind_nil_inv in H as ->
  | H : bind_preds _ (_ :: _) = Ok _ |- _ =>
      let p := fresh "p" in let w := fresh "w" in let Hp := fresh "Hp" in
      let Hw := fresh "Hw" in
      apply bind_cons_inv in H as (p&w&Hp&Hw&->)
  | H : bind_pred _ (PEq _ _) = Ok _ |- _ =>
      first [ apply bind_eq_text_inv in H as ->; [|reflexivity]
            | let u := fresh "u" in let Hu := fresh "Hu" in
              apply bind_eq_uuid_inv in H as (u&Hu&->); [|reflexivity] ]
  | H : bind_pred _ (PIn _ _) = Ok _ |- _ =>
      apply bind_in_text_inv in H as ->; [|reflexivity]
  | H : bind_pred _ (PNotIn _ _) = Ok _ |- _ =>
      first [ apply bind_not_in_text_inv in H as ->; [|reflexivity]
            | let u := fresh "us" in let Hu := fresh "Hus" in
              apply bind_not_in_uuid_inv in H as (u&Hu&->); [|reflexivity] ]
  | H : bind_pred _ (PLike _ _) = Ok _ |- _ => apply bind_like_inv in H as ->
  end.

Section writes.
Context {S : Type} `{EngineLaws S}.

(** A method that runs one statement and returns nothing. *)
Lemma exec_unit_inv f st s r s' :
  (map_err f (ExecContext st) ≫= λ _, mret tt) s = (r, s') →
  (r = Ok tt ∧ ∃ now q, run now st (view s) = (Ok q, view s')) ∨
  (∃ e, r = Err (f e) ∧ view s' = view s ∧
     (operational e ∨ ∃ now, run now st (view s) = (Err e, view s))).
Proof.
  intros [(e&->&Hx)|(n&s1&Hx&Hr)]%bind_inv.
  - apply map_err_inv in Hx as [(?&?&?)|(e0&?&Hx)]; simplify_eq.
    apply ExecContext_inv in Hx as [(?&?&?&?)|(?&?&?&?)]; simplify_eq. right. eauto.
  - cbv in Hr. simplify_eq.
    apply map_err_inv in Hx as [(?&?&Hx)|(e0&?&Hx)]; simplify_eq.
    apply ExecContext_inv in Hx as [(now&q&?&?)|(?&?&?&?)]; simplify_eq. left. eauto.
Qed.

Lemma delete_unit_inv f t w s r s' :
  (map_err f (ExecContext (Delete t w [])) ≫= λ _, mret tt) s = (r, s') →
  match r with
  | Ok _ => ∃ w', bind_preds (source_of t) w = Ok w' ∧ view s' = delete_db t w' (view s)
  | Err _ => view s' = view s
  end.
Proof.
  intros [(->&now&q&Hr)|(e&->&?&_)]%exec_unit_inv; [|done].
  by apply run_delete in Hr.
Qed.

Lemma RemoveUsersFromGroup_refines g us s r s' :
  RemoveUsersFromGroup g us s = (r, s') →
  match r with
  | Ok _ => ∃ g', uuid_in g = Some g' ∧
      memberships (view s') = memberships (view s) ∖ pairs g' us ∧
      same_but_members (view s) (view s')
  | Err _ => view s' = view s
  end.
Proof.
  intros Hr%delete_unit_inv. destruct r; [|done]. destruct Hr as (w'&Hw&->).
  bind_inv. exists u. unfold delete_db. split_and!; [done| |done].
  rewrite (memberships_delete (λ k, k.1 = u ∧ k.2 ∈ us)) by (intros; solve_matches).
  apply set_eq. intros k. rewrite elem_of_filter, elem_of_difference, elem_of_pairs. naive_solver.
Qed.

Lemma RemoveUserFromAllGroups_refines u s r s' :
  RemoveUserFromAllGroups u s = (r, s') →
  match r with
  | Ok _ => memberships (view s') = filter (λ k, k.2 ≠ u) (memberships (view s)) ∧
      same_but_members (view s) (view s')
  | Err _ => view s' = view s
  end.
Proof.
  intros Hr%delete_unit_inv. destruct r; [|done]. destruct Hr as (w'&Hw&->).
  bind_inv. split; [|done].
  apply (memberships_delete (λ k, k.2 = u)). intros; solve_matches.
Qed.
End writes.

(** ** Adding and replacing memberships *)

(** The canonical texts of a list of UUIDs. *)
Definition canonical `{PgParams} (gs : list string) (X : gset string) : Prop :=
  (∀ g, g ∈ gs → is_Some (uuid_in g)) ∧
  ∀ x, x ∈ X ↔ ∃ g, g ∈ gs ∧ uuid_in g = Some x.

Definition groups_of_user (X : gset string) (u : string) : gset (string * string) :=
  set_map (λ g, (g, u)) X.

Lemma elem_of_groups_of_user X u k : k ∈ groups_of_user X u ↔ k.1 ∈ X ∧ k.2 = u.
Proof. unfold groups_of_user. rewrite elem_of_map. destruct k; cbn. naive_solver. Qed.

Lemma canonical_Forall2 `{PgParams} gs gs' :
  Forall2 (λ g g', uuid_in g = Some g') gs gs' → canonical gs (list_to_set gs').
Proof.
  intros Hf. split.
  - intros g (i&Hi)%list_elem_of_lookup.
    destruct (Forall2_lookup_l _ _ _ _ _ Hf Hi) as (g'&_&?). by exists g'.
  - intros x. rewrite elem_of_list_to_set, list_elem_of_lookup. split.
    + intros (i&Hi). destruct (Forall2_lookup_r _ _ _ _ _ Hf Hi) as (g&Hg&?).
      exists g. split; [|done]. by eapply list_elem_of_lookup_2.
    + intros (g&(i&Hi)%list_elem_of_lookup&Hx).
      destruct (Forall2_lookup_l _ _ _ _ _ Hf Hi) as (g'&?&Hg). simplify_eq. by exists i.
Qed.

Lemma elem_of_unique_keys `{GoRangeLaws} ids x : x ∈ unique_keys ids ↔ x ∈ ids.
Proof.
  unfold unique_keys. rewrite map_keys_perm, elem_of_elements. apply elem_of_list_to_set.
Qed.

Lemma NoDup_unique_keys `{GoRangeLaws} ids : NoDup (unique_keys ids).
Proof. unfold unique_keys. rewrite map_keys_perm. apply NoDup_elements. Qed.

Lemma canonical_unique_keys `{PgParams} `{GoRangeLaws} ids X :
  canonical (unique_keys ids) X → canonical ids X.
Proof.
  intros [Hs HX]. split; intros x; [rewrite <- elem_of_unique_keys; apply Hs|].
  rewrite HX. by setoid_rewrite elem_of_unique_keys.
Qed.

Lemma elem_of_unique ids x : x ∈ unique ids ↔ x ∈ ids.
Proof. unfold unique. rewrite elem_of_dedup_from. set_solver. Qed.

Lemma unique_nil ids : unique ids = [] → ids = [].
Proof.
  destruct ids as [|x ids]; [done|]. intros Hu.
  assert (x ∈ unique (x :: ids)) as Hx by (apply elem_of_unique; set_solver).
  rewrite Hu in Hx. set_solver.
Qed.

(** The rows a replacement keeps: those of other owners, and the listed ones. *)
Lemma keep_listed (M : gset (string * string)) l u :
  filter (λ k, ¬ (k.2 = u ∧ k.1 ∉ l)) M =
  filter (λ k, k.2 = u → k.1 ∈ (list_to_set l : gset string)) M.
Proof.
  apply set_eq. intros k. rewrite !elem_of_filter, elem_of_list_to_set.
  destruct (decide (k.1 ∈ l)), (decide (k.2 = u)); naive_solver.
Qed.

Lemma replace_groups (M : gset (string * string)) l u :
  filter (λ k, ¬ (k.2 = u ∧ k.1 ∉ l)) M ∪ pairs_of l u =
  filter (λ k, k.2 ≠ u) M ∪ groups_of_user (list_to_set l) u.
Proof.
  apply set_eq. intros k.
  rewrite !elem_of_union, !elem_of_filter, elem_of_pairs_of, elem_of_groups_of_user,
    elem_of_list_to_set. destruct (decide (k.1 ∈ l)), (decide (k.2 = u)); naive_solver.
Qed.

Lemma replace_users (M : gset (string * string)) g l us :
  (∀ u, u ∈ l ↔ u ∈ us) →
  filter (λ k, ¬ (k.1 = g ∧ k.2 ∉ l)) M ∪ pairs g l =
  filter (λ k, k.1 ≠ g) M ∪ pairs g us.
Proof.
  intros Hl. apply set_eq. intros k.
  rewrite !elem_of_union, !elem_of_filter, !elem_of_pairs, !Hl.
  destruct (decide (k.2 ∈ us)), (decide (k.1 = g)); naive_solver.
Qed.

Section upserts.
Context {S : Type} `{EngineLaws S} `{GoRangeLaws}.

(** A foreign key error of the methods comes from the database's. *)
Lemma fk_wrapped ctx1 ctx2 e :
  errors_is (if IsForeignKeyViolation e then WrapForeignKeyError e ctx1
             else errorf_v ctx2 e) StorageErrForeignKeyViolation = true →
  errors_as_pg e = Some "23503"%string.
Proof.
  unfold WrapForeignKeyError. destruct (IsForeignKeyViolation e) eqn:He; [|done].
  intros _. unfold IsForeignKeyViolation in He.
  destruct (errors_as_pg e); [|done]. by apply bool_decide_eq_true_1 in He as ->.
Qed.

Lemma run_insert_members_fk now rows oc d e :
  run now (InsertMembers rows oc) d = (Err e, d) → errors_as_pg e = Some "23503"%string →
  ∃ rows' r, mapR coerce_member rows = Ok rows' ∧ r ∈ rows' ∧ mfk r ∉ gkey <$> groups d.
Proof.
  cbn. destruct (insert_members rows oc d) as [|e'] eqn:Hi; intros; simplify_eq.
  apply insert_members_err in Hi
    as [[_ ?]%bad_value_code|[[-> _]|[[-> _]|[-> (rows'&r&?&?&?&?)]]]]; [done..|]. eauto.
Qed.

(** [AddUsersToGroup] either adds exactly the given users to the group's
    members and touches nothing else, or fails and changes nothing; and it
    reports a foreign key violation only when the group does not exist. *)
Lemma AddUsersToGroup_outcome now g us (s s' : S) r :
  AddUsersToGroup now g us s = (r, s') →
  match r with
  | Ok _ => (us = [] ∧ s' = s) ∨
      ∃ g', uuid_in g = Some g' ∧
        memberships (view s') = memberships (view s) ∪ pairs g' us ∧
        same_but_members (view s) (view s')
  | Err e => view s' = view s ∧
      (errors_is e StorageErrForeignKeyViolation = true →
       ∃ g', uuid_in g = Some g' ∧ (g', "default"%string) ∉ gkey <$> groups (view s))
  end.
Proof.
  unfold AddUsersToGroup. case_decide as Hus.
  { intros Hr. cbv in Hr. simplify_eq. by left. }
  assert (unique us ≠ []) as Hne by (intros ?%unique_nil; done).
  intros [(->&nw&q&Hr)|(e&->&Hv&He)]%exec_unit_inv.
  - right. apply run_insert_members, insert_members_memberships in Hr as (rows&Hm&Hk&?).
    apply coerce_group_rows in Hm as (g'&?&->); [|done]. exists g'.
    split_and!; [done| |done]. rewrite Hk, mkey_member_values. f_equal.
    apply set_eq. intros k. fold (pairs g' (unique us)).
    by rewrite !elem_of_pairs, elem_of_unique.
  - split; [done|]. intros Hf%fk_wrapped. destruct He as [[_ ?]|[nw Hr]]; [done|].
    destruct (run_insert_members_fk _ _ _ _ _ Hr Hf) as (rows&x&Hm&Hx&Hfk).
    apply coerce_group_rows in Hm as (g'&?&->); [|done]. exists g'. split; [done|].
    apply list_elem_of_fmap in Hx as (u&->&_). done.
Qed.

Lemma delete_then (P : Prop) `{Decision P} f1 f2 t w st s r s' :
  (_ ← map_err f1 (ExecContext (Delete t w []));
   if decide P then mret tt
   else (_ ← map_err f2 (ExecContext st); mret tt)) s = (r, s') →
  (∃ e, r = Err e ∧ view s' = view s) ∨
  (∃ w' s1, bind_preds (source_of t) w = Ok w' ∧ view s1 = delete_db t w' (view s) ∧
     ((P ∧ r = Ok tt ∧ s' = s1) ∨
      (¬ P ∧ ((r = Ok tt ∧ ∃ now q, run now st (view s1) = (Ok q, view s')) ∨
              (∃ e, r = Err (f2 e) ∧ view s' = view s1))))).
Proof.
  intros [(e&->&Hx)|(n&s1&Hx&Hr)]%bind_inv.
  - left. apply map_err_inv in Hx as [(?&?&?)|(e0&?&Hx)]; simplify_eq.
    apply ExecContext_inv in Hx as [(?&?&?&?)|(?&?&?&?)]; simplify_eq. eauto.
  - right. apply map_err_inv in Hx as [(?&?&Hx)|(e0&?&Hx)]; simplify_eq.
    apply ExecContext_inv in Hx as [(nw&q&Hx&?)|(?&?&?&?)]; simplify_eq.
    apply run_delete in Hx as (w'&?&?). exists w', s1. split_and!; [done..|].
    case_decide; [left; cbv in Hr; by simplify_eq|right].
    split; [done|]. apply exec_unit_inv in Hr as [(->&?)|(e&->&?&_)]; eauto.
Qed.

Lemma Forall2_uuid_unique gs l l' :
  Forall2 (λ g g', uuid_in g = Some g') gs l →
  Forall2 (λ g g', uuid_in g = Some g') gs l' → l = l'.
Proof.
  intros Hl. revert l'. induction Hl as [|g x gs l Hg Hl IH]; intros l' Hl';
    inversion Hl' as [|? ? ? l'' ? Hl'']; simplify_eq; [done|]. by rewrite (IH l'').
Qed.

(** How a replacement of a user's groups ends. *)
Lemma UpdateGroupsForUser_outcome now u gs (s s' : S) r :
  UpdateGroupsForUser now u gs s = (r, s') →
  match r with
  | Ok _ => ∃ X, canonical gs X ∧
      memberships (view s') =
        filter (λ k, k.2 ≠ u) (memberships (view s)) ∪ groups_of_user X u ∧
      same_but_members (view s) (view s')
  | Err _ => view s' = view s ∨
      ∃ X, canonical gs X ∧
        memberships (view s') =
          filter (λ k, k.2 = u → k.1 ∈ X) (memberships (view s)) ∧
        same_but_members (view s) (view s')
  end.
Proof.
  intros [(e&->&?)|(w'&s1&Hw&Hs1&Hr)]%delete_then; [by left|].
  destruct (decide (unique_keys gs = [])) as [Hnil|Hnil]; bind_inv; unfold delete_db in Hs1.
  - destruct Hr as [(_&->&->)|(?&_)]; [|done]. exists ∅. rewrite Hs1. split_and!; [|..|done].
    + apply canonical_unique_keys. rewrite Hnil. by apply (canonical_Forall2 [] []).
    + rewrite (memberships_delete (λ k, k.2 = u)) by (intros; solve_matches).
      apply set_eq. intros k. rewrite elem_of_union, elem_of_groups_of_user. set_solver.
  - destruct Hr as [(?&_)|(_&Hr)]; [done|].
    assert (canonical gs (list_to_set us)) as HX
      by (by apply canonical_unique_keys, canonical_Forall2).
    assert (memberships (view s1) = filter (λ k, ¬ (k.2 = u ∧ k.1 ∉ us)) (memberships (view s)))
      as HM by (rewrite Hs1; apply memberships_delete; intros; solve_matches).
    destruct Hr as [(->&nw&q&Hr)|(e&->&->)].
    + apply run_insert_members, insert_members_memberships in Hr as (rows&Hm&Hk&Hg&Ha).
      apply coerce_user_rows in Hm as (l&Hl&->).
      rewrite (Forall2_uuid_unique _ _ _ Hl Hus) in *.
      exists (list_to_set us). split; [done|]. rewrite <- replace_groups, <- HM.
      split; [by rewrite Hk, mkey_member_values_of|].
      rewrite Hs1 in Hg, Ha. done.
    + right. exists (list_to_set us). split; [done|]. rewrite <- keep_listed, <- HM.
      split; [done|]. by rewrite Hs1.
Qed.

(** C20: [UpdateGroupsForUser], when it succeeds, makes the given groups exactly
    the groups of the user and leaves every other membership alone; when it
    fails it has either changed nothing or only removed the memberships that
    are not in the list. *)
Theorem UpdateGroupsForUser_refines now u gs (s s' : S) r :
  UpdateGroupsForUser now u gs s = (r, s') →
  match r with
  | Ok _ => ∃ X, canonical gs X ∧
      memberships (view s') =
        filter (λ k, k.2 ≠ u) (memberships (view s)) ∪ groups_of_user X u ∧
      same_but_members (view s) (view s')
  | Err _ => view s' = view s ∨
      ∃ X, canonical gs X ∧
        memberships (view s') =
          filter (λ k, k.2 = u → k.1 ∈ X) (memberships (view s)) ∧
        same_but_members (view s) (view s')
  end.
Proof. apply UpdateGroupsForUser_outcome. Qed.

(** How a replacement of the members of a group ends. *)
Lemma SyncGroupMembers_outcome now g us (s s' : S) r :
  SyncGroupMembers now g us s = (r, s') →
  match r with
  | Ok _ => ∃ g', uuid_in g = Some g' ∧
      memberships (view s') =
        filter (λ k, k.1 ≠ g') (memberships (view s)) ∪ pairs g' us ∧
      same_but_members (view s) (view s')
  | Err _ => view s' = view s ∨
      ∃ g', uuid_in g = Some g' ∧
        memberships (view s') =
          filter (λ k, ¬ (k.1 = g' ∧ k.2 ∉ us)) (memberships (view s)) ∧
        same_but_members (view s) (view s')
  end.
Proof.
  intros [(e&->&?)|(w'&s1&Hw&Hs1&Hr)]%delete_then; [by left|].
  assert (∀ x, x ∈ unique_keys us ↔ x ∈ us) as Hu by apply elem_of_unique_keys.
  destruct (decide (unique_keys us = [])) as [Hnil|Hnil]; bind_inv; unfold delete_db in Hs1.
  - destruct Hr as [(_&->&->)|(?&_)]; [|done]. exists u. rewrite Hs1. split_and!; [done|..|done].
    rewrite (memberships_delete (λ k, k.1 = u)) by (intros; solve_matches).
    rewrite Hnil in Hu. apply set_eq. intros k.
    rewrite elem_of_union, elem_of_pairs. set_solver.
  - destruct Hr as [(?&_)|(_&Hr)]; [done|].
    assert (memberships (view s1) =
      filter (λ k, ¬ (k.1 = u ∧ k.2 ∉ unique_keys us)) (memberships (view s)))
      as HM by (rewrite Hs1; apply memberships_delete; intros; solve_matches).
    destruct Hr as [(->&nw&q&Hr)|(e&->&->)].
    + apply run_insert_members, insert_members_memberships in Hr as (rows&Hm&Hk&Hg&Ha).
      apply coerce_group_rows in Hm as (g'&?&->); [|done]. simplify_eq. exists u.
      split; [done|]. rewrite <- (replace_users _ _ (unique_keys us)) by done.
      rewrite <- HM. split; [by rewrite Hk, mkey_member_values|].
      rewrite Hs1 in Hg, Ha. done.
    + right. exists u. split; [done|]. split; [|by rewrite Hs1]. rewrite HM.
      apply set_eq. intros k. rewrite !elem_of_filter, Hu. done.
Qed.

(** C21: [SyncGroupMembers], when it succeeds, makes the given users exactly the
    members of the group and leaves every other group alone; when it fails it
    has either changed nothing or only removed members that are not listed. *)
Theorem SyncGroupMembers_refines now g us (s s' : S) r :
  SyncGroupMembers now g us s = (r, s') →
  match r with
  | Ok _ => ∃ g', uuid_in g = Some g' ∧
      memberships (view s') =
        filter (λ k, k.1 ≠ g') (memberships (view s)) ∪ pairs g' us ∧
      same_but_members (view s) (view s')
  | Err _ => view s' = view s ∨
      ∃ g', uuid_in g = Some g' ∧
        memberships (view s') =
          filter (λ k, ¬ (k.1 = g' ∧ k.2 ∉ us)) (memberships (view s)) ∧
        same_but_members (view s) (view s')
  end.
Proof. apply SyncGroupMembers_outcome. Qed.
End upserts.

(** ** What a call can change

    Each call names rows: groups by id, memberships and allowed applications by key.
    The rows no call of a sequence names are, after it, exactly what they were. *)

Section locality.
Context `{PgParams}.

Definition names_group (c : call) (id : string) : Prop :=
  match c with
  | CCreateGroup (Ok g) _ | CUpdateGroup _ g _ | CDeleteGroup g => uuid_in g = Some id
  | _ => False
  end.

Definition names_member (c : call) (k : string * string) : Prop :=
  match c with
  | CDeleteGroup g | CSyncGroupMembers _ g _ => uuid_in g = Some k.1
  | CAddUsersToGroup _ g us | CRemoveUsersFromGroup g us => uuid_in g = Some k.1 ∧ k.2 ∈ us
  | CUpdateGroupsForUser _ u _ | CRemoveUserFromAllGroups u => k.2 = u
  | _ => False
  end.

Definition names_app (c : call) (k : string * string) : Prop :=
  match c with
  | CDeleteGroup g | CRemoveAllowedApps g => uuid_in g = Some k.1
  | CAddAllowedApp _ g a | CRemoveAllowedApp g a => uuid_in g = Some k.1 ∧ k.2 = a
  | CAddAllowedApps _ g aps => uuid_in g = Some k.1 ∧ k.2 ∈ aps
  | CAddAllowedGroupsForApp _ a gs => k.2 = a ∧ ∃ g, g ∈ gs ∧ uuid_in g = Some k.1
  | CRemoveAllAllowedGroupsForApp a => k.2 = a
  | _ => False
  end.

(** The memberships and rights are of the default tenant, every member is a plain one. *)
Definition default_rows (d : database) : Prop :=
  (∀ r, r ∈ group_members d → mr_tenant r = DefaultTenantID ∧ mr_role r = RoleMember) ∧
  (∀ r, r ∈ application_groups d → ar_tenant r = DefaultTenantID).

(** From [d] to [d'] only rows that [c] names have changed. *)
Record local (c : call) (d d' : database) : Prop := {
  local_groups r : ¬ names_group c (gr_id r) → r ∈ groups d' ↔ r ∈ groups d;
  local_members r : ¬ names_member c (mkey r) → r ∈ group_members d' ↔ r ∈ group_members d;
  local_apps r : ¬ names_app c (akey r) → r ∈ application_groups d' ↔ r ∈ application_groups d;
  local_default : default_rows d → default_rows d';
}.

#[export] Instance local_preorder c : PreOrder (local c).
Proof.
  split; [by split|]. intros d1 d2 d3 [G1 M1 A1 D1] [G2 M2 A2 D2].
  split; intros; [rewrite G2|rewrite M2|rewrite A2|]; auto.
Qed.

Lemma default_rows_sub d d' :
  (∀ r, r ∈ group_members d' → r ∈ group_members d) →
  (∀ r, r ∈ application_groups d' → r ∈ application_groups d) →
  default_rows d → default_rows d'.
Proof. intros Hm Ha [??]. split; auto. Qed.

(** *** Statement by statement *)

Definition local_stmt (c : call) (st : stmt) : Prop :=
  ∀ now d r d', run now st d = (r, d') → local c d d'.

Lemma local_select c f cols w o : local_stmt c (Select f cols w o).
Proof. by intros now d r d' ->%run_select. Qed.

Lemma local_insert_group c g :
  (∀ id, uuid_in (ig_id g) = Some id → names_group c id) → local_stmt c (InsertGroup g).
Proof.
  intros Hc now d r d'. cbn. unfold insert_group_db; cbn.
  destruct (uuid_in _) as [u|] eqn:Hu; [|by intros [= _ <-]].
  destruct (group_size_error _); [by intros [= _ <-]|].
  case_decide; intros [= _ <-]; [done|]. split; [|done..]. intros x Hx; cbn.
  rewrite elem_of_app, list_elem_of_singleton. split; [|by left].
  intros [?| ->]; [done|]. destruct Hx. by apply Hc.
Qed.

Lemma local_insert_members c rows oc :
  (∀ r r', r ∈ rows → coerce_member r = Ok r' → names_member c (mkey r')) →
  (∀ r, r ∈ rows → mr_tenant r = DefaultTenantID ∧ mr_role r = RoleMember) →
  local_stmt c (InsertMembers rows oc).
Proof.
  intros Hc Hd now d r d'. cbn.
  destruct (insert_members rows oc d) as [d1|] eqn:Hi; intros [= _ <-]; [|done].
  apply insert_members_inv in Hi as (rows'&ms&Hm&Hu&_&->).
  split; [done| |done|].
  - intros x Hx. apply (upsert_outside mkey touch_member ltac:(done) _ _ _ _ _ _ Hu).
    intros (y&Hk&Hy)%list_elem_of_fmap. destruct Hx. rewrite Hk.
    destruct (mapR_ok _ _ _ _ Hm Hy) as (z&?&?). eauto.
  - intros [D1 D2]. split; [|done].
    apply (upsert_all mkey touch_member (λ r, mr_tenant r = DefaultTenantID ∧ mr_role r = RoleMember)
             ltac:(done) _ _ _ _ _ Hu); [done|].
    intros y Hy. destruct (mapR_ok _ _ _ _ Hm Hy) as (z&Hz&Hzy). revert Hzy.
    unfold coerce_member. destruct (coerce _ _), (member_size_error z); intros [= <-].
    by apply (Hd z).
Qed.

Lemma local_insert_apps c rows oc :
  (∀ r r', r ∈ rows → coerce_app r = Ok r' → names_app c (akey r')) →
  (∀ r, r ∈ rows → ar_tenant r = DefaultTenantID) →
  local_stmt c (InsertApps rows oc).
Proof.
  intros Hc Hd now d r d'. cbn.
  destruct (insert_apps rows oc d) as [d1|] eqn:Hi; intros [= _ <-]; [|done].
  apply insert_apps_inv in Hi as (rows'&aps&Hm&Hu&_&->).
  split; [done|done| |].
  - intros x Hx. apply (upsert_outside akey touch_app ltac:(done) _ _ _ _ _ _ Hu).
    intros (y&Hk&Hy)%list_elem_of_fmap. destruct Hx. rewrite Hk.
    destruct (mapR_ok _ _ _ _ Hm Hy) as (z&?&?). eauto.
  - intros [D1 D2]. split; [done|].
    apply (upsert_all akey touch_app (λ r, ar_tenant r = DefaultTenantID) ltac:(done) _ _ _ _ _ Hu);
      [done|].
    intros y Hy. destruct (mapR_ok _ _ _ _ Hm Hy) as (z&Hz&Hzy). revert Hzy.
    unfold coerce_app. destruct (coerce _ _), (app_size_error z); intros [= <-].
    by apply (Hd z).
Qed.

Lemma local_update_group c n de ty u g :
  (∀ id, uuid_in g = Some id → names_group c id) →
  local_stmt c (UpdateGroups n de ty u [PEq (Col c_id) g]).
Proof.
  intros Hc now d r d'. cbn [run].
  destruct (bind_preds _ _) as [w|] eqn:Hw; [|by intros [= _ <-]]. bind_inv.
  destruct (update_groups_db _ _ _ _ _ d) as [[d1 k]|] eqn:Hup; intros [= _ <-]; [|done].
  apply update_groups_db_inv in Hup as (->&_). split; [|done..]. intros x Hx; cbn [groups].
  assert (∀ y, group_matches [PEq (Col c_id) u0] y = true ↔ gr_id y = u0) as Hm
    by (intros; solve_matches).
  specialize (Hc _ Hu). rewrite list_elem_of_fmap. split.
  - intros (y&->&Hy). destruct (group_matches _ y) eqn:Hy'; [|done].
    apply Hm in Hy'. destruct Hx. cbn. by rewrite Hy'.
  - intros Hin. exists x. split; [|done].
    destruct (group_matches _ x) eqn:Hx'; [|done]. apply Hm in Hx'. destruct Hx. by rewrite Hx'.
Qed.

(** A table after a DELETE that matches only rows named by the call. *)
Lemma elem_of_filter_named {A} (P : A → Prop) `{∀ x, Decision (P x)} (named : Prop) x (l : list A) :
  (¬ P x → named) → ¬ named → x ∈ filter P l ↔ x ∈ l.
Proof.
  intros HP Hn. rewrite list_elem_of_filter. destruct (decide (P x)); tauto.
Qed.

Lemma local_delete_members c w ret :
  (∀ w' r, bind_preds FromMembers w = Ok w' → member_matches w' r = true →
     names_member c (mkey r)) →
  local_stmt c (Delete TMembers w ret).
Proof.
  intros Hc now d r d'. cbn [run source_of].
  destruct (bind_preds _ _) as [w'|] eqn:Hw; intros [= _ <-]; [|done].
  split; [done| |done|].
  - intros x. apply elem_of_filter_named. intros Hm%dec_stable. by eapply Hc, Is_true_true.
  - apply default_rows_sub; [|done]. cbn. intros x [_ ?]%list_elem_of_filter. done.
Qed.

Lemma local_delete_apps c w ret :
  (∀ w' r, bind_preds FromApps w = Ok w' → app_matches w' r = true → names_app c (akey r)) →
  local_stmt c (Delete TApps w ret).
Proof.
  intros Hc now d r d'. cbn [run source_of].
  destruct (bind_preds _ _) as [w'|] eqn:Hw; intros [= _ <-]; [|done].
  split; [done|done| |].
  - intros x. apply elem_of_filter_named. intros Hm%dec_stable. by eapply Hc, Is_true_true.
  - apply default_rows_sub; [done|]. cbn. intros x [_ ?]%list_elem_of_filter. done.
Qed.

(** The cascade of a DELETE removes rows of the deleted groups only. *)
Lemma local_delete_group c g ret :
  (∀ id, uuid_in g = Some id → names_group c id ∧
     ∀ v, names_member c (id, v) ∧ names_app c (id, v)) →
  local_stmt c (Delete TGroups [PEq (Col c_id) g] ret).
Proof.
  intros Hc now d r d'. cbn [run source_of].
  destruct (bind_preds _ _) as [w|] eqn:Hw; intros [= _ <-]; [|done]. bind_inv.
  specialize (Hc _ Hu) as [Hg Hk].
  assert (∀ y, group_matches [PEq (Col c_id) u] y = true ↔ gr_id y = u) as Hm
    by (intros; solve_matches).
  assert (∀ k, k ∈ gkey <$> filter (λ r, group_matches [PEq (Col c_id) u] r) (groups d) →
    k.1 = u) as Hgone.
  { intros k (y&->&[Hy%Is_true_true%Hm ?]%list_elem_of_filter)%list_elem_of_fmap. done. }
  split.
  - intros x. apply elem_of_filter_named.
    intros Hx%dec_stable%Is_true_true%Hm. by rewrite Hx.
  - intros x. apply elem_of_filter_named. intros Hx%dec_stable%Hgone.
    destruct x; cbn in *; subst. apply Hk.
  - intros x. apply elem_of_filter_named. intros Hx%dec_stable%Hgone.
    destruct x; cbn in *; subst. apply Hk.
  - apply default_rows_sub; cbn; by intros x [_ ?]%list_elem_of_filter.
Qed.

(** *** Call by call *)

Definition unnamed_groups (cs : list call) (id : string) : Prop :=
  Forall (λ c, ¬ names_group c id) cs.
Definition unnamed_members (cs : list call) (k : string * string) : Prop :=
  Forall (λ c, ¬ names_member c k) cs.
Definition unnamed_apps (cs : list call) (k : string * string) : Prop :=
  Forall (λ c, ¬ names_app c k) cs.

Lemma local_members_of c now g (us us' : list string) oc :
  (∀ u, u ∈ us' → u ∈ us) →
  (∀ g' u, uuid_in g = Some g' → u ∈ us → names_member c (g', u)) →
  local_stmt c (InsertMembers (member_values now g <$> us') oc).
Proof.
  intros Hus Hc. apply local_insert_members.
  - intros r r' (u&->&Hu)%list_elem_of_fmap Hr. apply coerce_member_inv in Hr as [Hg ->].
    by apply Hc, Hus.
  - by intros r (u&->&_)%list_elem_of_fmap.
Qed.

Lemma local_apps_of c now g (aps : list string) oc :
  (∀ g' a, uuid_in g = Some g' → a ∈ aps → names_app c (g', a)) →
  local_stmt c (InsertApps (app_values now g <$> aps) oc).
Proof.
  intros Hc. apply local_insert_apps.
  - intros r r' (a&->&Ha)%list_elem_of_fmap Hr. apply coerce_app_inv in Hr as (Hg&Hap&_).
    cbn in *. unfold akey. rewrite Hap. by apply Hc.
  - by intros r (a&->&_)%list_elem_of_fmap.
Qed.
End locality.

Section locality_of_calls.
Context {S : Type} `{EngineLaws S} `{GoRangeLaws}.

Definition local_step (c : call) : relation S := λ s s', local c (view s) (view s').

#[export] Instance local_step_preorder c : PreOrder (local_step c).
Proof. split; unfold local_step; intros ?; [reflexivity|]. intros ?? ??. by etrans. Qed.

Lemma local_exec c st :
  local_stmt c st → ∀ s r s', exec st s = (r, s') → local_step c s s'.
Proof.
  intros Hc s r s' [(now&Hr)|(e&_&_&Hv)]%exec_cases; [by eapply Hc|].
  unfold local_step. by rewrite Hv.
Qed.

(** A query is local; the other statements are left as goals. *)
Ltac statements :=
  follow_by ltac:(apply local_exec; first [apply local_select|idtac]).

Lemma after_local c s : local_step c s (after c s).
Proof.
  destruct c; cbn [after].
  15, 16: unfold StreamGroupsForUser, StreamUsersInGroup, user_groups_query, group_users_query;
    apply on_stream_follows; statements.
  all: apply follows_snd.
  all: unfold ListGroups, CreateGroup, GetGroup, GetGroupByName, QueryRowContext,
      UpdateGroup, DeleteGroup, AddUsersToGroup, ListUsersInGroup,
      RemoveUsersFromGroup, GetGroupsForUser, UpdateGroupsForUser,
      RemoveUserFromAllGroups, ListGroupsByPrefix, SyncGroupMembers,
      GetAllowedApps, AddAllowedApp, AddAllowedApps, RemoveAllowedApp,
      RemoveAllowedApps, AddAllowedGroupsForApp, GetAllowedGroupsForApp,
      RemoveAllAllowedGroupsForApp; statements.
  - by apply local_insert_group.
  - by apply local_update_group.
  - by apply local_delete_group.
  - apply (local_members_of _ _ _ userIDs); [|done]. intros u. by rewrite elem_of_unique.
  - apply local_delete_members. intros w r Hw Hr. bind_inv. by matches_inv Hr.
  - apply local_delete_members. intros w r Hw Hr. case_decide; bind_inv; by matches_inv Hr.
  - apply local_insert_members.
    + intros r r' (g&->&_)%list_elem_of_fmap Hr. apply coerce_member_inv in Hr as [_ ->]. done.
    + by intros r (g&->&_)%list_elem_of_fmap.
  - apply local_delete_members. intros w r Hw Hr. bind_inv. by matches_inv Hr.
  - apply local_delete_members. intros w r Hw Hr. case_decide; bind_inv; by matches_inv Hr.
  - apply (local_members_of _ _ _ userIDs); [|done]. intros u. by rewrite elem_of_unique_keys.
  - apply (local_apps_of _ _ _ [appID]). intros g' a Hg ->%list_elem_of_singleton. done.
  - by apply local_apps_of.
  - apply local_delete_apps. intros w r Hw Hr. bind_inv. by matches_inv Hr.
  - apply local_delete_apps. intros w r Hw Hr. bind_inv. by matches_inv Hr.
  - apply local_insert_apps.
    + intros r r' (g&->&Hg)%list_elem_of_fmap Hr. apply coerce_app_inv in Hr as (?&Hap&_).
      split; [done|]. by exists g.
    + by intros r (g&->&_)%list_elem_of_fmap.
  - apply local_delete_apps. intros w r Hw Hr. bind_inv. by matches_inv Hr.
Qed.

(** C10: whatever calls are made of the storage layer over a database that satisfies its
    constraints, in whatever order and with whatever outcomes, the keys, the unique index, the foreign keys and the column sizes
    of the schema stay satisfied; a group, a membership or an allowed application that
    none of the calls names by its id or key is in the database after them, column by
    column, exactly when it was before; and the rows of the two association tables stay
    those of the default tenant, with the role of a plain member. *)
Theorem storage_local cs s :
  wf (view s) →
  let d := view s in let d' := view (foldl (λ s c, after c s) s cs) in
  wf d' ∧
  (∀ r, unnamed_groups cs (gr_id r) → r ∈ groups d' ↔ r ∈ groups d) ∧
  (∀ r, unnamed_members cs (mkey r) → r ∈ group_members d' ↔ r ∈ group_members d) ∧
  (∀ r, unnamed_apps cs (akey r) → r ∈ application_groups d' ↔ r ∈ application_groups d) ∧
  (default_rows d → default_rows d').
Proof.
  revert s. induction cs as [|c cs IH]; intros s Hwf; cbn; [done|].
  destruct (IH (after c s) (after_wf c s Hwf)) as (?&HG&HM&HA&HD).
  pose proof (after_local c s) as [G M A D]. split; [done|].
  split_and!; [..|by auto];
    intros r [Hc Hcs]%list.Forall_cons; [rewrite HG|rewrite HM|rewrite HA]; auto.
Qed.
End locality_of_calls.

(** ** Reading groups *)

(** The Go value a complete row scans into. *)
Definition group_of (r : group_row) : Group :=
  mkGroup (gr_id r) (gr_name r) (gr_tenant r) (default "" (gr_description r))%string
    (gr_type r) (default 0 (gr_created r)) (default 0 (gr_updated r)).

Definition name_le `{PgParams} : relation Group := λ a b, collate (Name a) (Name b).

Lemma scan_group_row r :
  complete r → scanGroup (project group_columns (plain (group_column r))) = Ok (group_of r).
Proof.
  destruct r as [????? c u]. unfold complete; cbn.
  intros ([? ?]&[? ?]&[? ?]); subst. reflexivity.
Qed.

Lemma scan_joined_row r m :
  complete r →
  scanGroup (project g_columns (joined (group_column r) (member_column m))) = Ok (group_of r).
Proof. apply scan_group_row. Qed.

(** Scanning rows none of which fails is a map. *)
Lemma scan_rows_map {A B} (f : B → list value) (g : B → A) scan msg l :
  (∀ x, x ∈ l → scan (f x) = Ok (g x)) → scan_rows scan msg (f <$> l) = Ok (g <$> l).
Proof.
  induction l as [|x l IH]; intros Hs; cbn; [done|].
  rewrite Hs by set_solver. change (list_fmap _ _ f l) with (f <$> l).
  by rewrite IH by set_solver.
Qed.

Lemma scan_rows_same {A} scan msg msg' (rs : list (list value)) (xs : list A) :
  scan_rows scan msg rs = Ok xs → scan_rows scan msg' rs = Ok xs.
Proof.
  revert xs. induction rs as [|r rs IH]; intros xs; cbn; [done|].
  destruct (scan r); [|done]. destruct (scan_rows scan msg rs); [|done].
  intros; simplify_eq. by rewrite (IH _ eq_refl).
Qed.

(** Sorting the images of a list sorts the list. *)
Lemma order_by_map `{PgLaws} {B} (f : B → row) c l :
  ∃ l', order_by (Some c) (f <$> l) = f <$> l' ∧ l' ≡ₚ l ∧
    StronglySorted (λ a b, collate (text_of (f a c)) (text_of (f b c))) l'.
Proof.
  cbn. destruct (Permutation_map_inv f (l1:=merge_sort (row_le c) (f <$> l)) l) as (l'&Hl&Hp);
    [apply merge_sort_Permutation|].
  exists l'. split_and!; [done|by symmetry|].
  assert (StronglySorted (row_le c) (f <$> l')) as Hs.
  { change (map f l') with (f <$> l') in Hl. rewrite <- Hl.
    apply StronglySorted_merge_sort.
    - intros x y z. apply collate_trans.
    - intros x y. apply collate_total. }
  clear Hl Hp. induction l' as [|x l' IH]; [constructor|].
  cbn in Hs. apply StronglySorted_inv in Hs as [Hs Hx].
  constructor; [by apply IH|]. apply (Forall_fmap f) in Hx. exact Hx.
Qed.

Lemma filter_map `{PgParams} {B} (f : B → row) w (l : list B) :
  filter (λ r, holds_all r w) (f <$> l) = f <$> filter (λ x, holds_all (f x) w) l.
Proof.
  induction l as [|x l IH]; [done|]. rewrite fmap_cons, !filter_cons.
  case_decide; [rewrite fmap_cons|]; by rewrite IH.
Qed.

Lemma run_select_inv `{PgParams} now f cols w o d q d' :
  run now (Select f cols w o) d = (Ok q, d') →
  d' = d ∧ ∃ w', bind_preds f w = Ok w' ∧
    q = Rows (project cols <$> select_rows f w' o d).
Proof.
  cbn. destruct (bind_preds f w) as [w'|]; [|done]. case_decide; [|done].
  intros; simplify_eq. eauto.
Qed.

Section reads.
Context {S : Type} `{EngineLaws S} `{!PgLaws}.

(** A method that runs one query ordered by [c] and scans every row, over rows
    [f x] for [x] in [l d]. *)
Lemma query_scan_inv {A B} (f : B → row) (l : database → list B) (g : B → A)
    src cols w c scan m1 m2 s r (s' : S) :
  (∀ d, source_rows src d = f <$> l d) →
  (∀ d x, wf d → x ∈ l d → scan (project cols (f x)) = Ok (g x)) →
  wf (view s) →
  (rows ← map_err (errorf_v m1) (QueryContext (Select src cols w (Some c)));
   lift (scan_rows scan m2 rows)) s = (r, s') →
  view s' = view s ∧
  match r with
  | Ok xs => ∃ w' k, bind_preds src w = Ok w' ∧ xs = g <$> k ∧
      k ≡ₚ filter (λ x, holds_all (f x) w') (l (view s)) ∧
      StronglySorted (λ a b, collate (text_of (f a c)) (text_of (f b c))) k
  | Err _ => True
  end.
Proof.
  intros Hsrc Hscan Hwf [(e&->&Hx)|(rs&s1&Hx&Hr)]%bind_inv.
  - apply map_err_inv in Hx as [(?&?&?)|(e0&?&Hx)]; simplify_eq.
    apply QueryContext_inv in Hx as [(?&?&?&?)|(?&?&?&?)]; by simplify_eq.
  - cbv [lift] in Hr. simplify_eq.
    apply map_err_inv in Hx as [(?&?&Hx)|(e0&?&Hx)]; simplify_eq.
    apply QueryContext_inv in Hx as [(now&q&Hx&?)|(?&?&?&?)]; simplify_eq.
    apply run_select_inv in Hx as (->&w'&Hw&->). split; [done|].
    unfold select_rows. rewrite Hsrc, filter_map.
    destruct (order_by_map f c (filter (λ x, holds_all (f x) w') (l (view s))))
      as (k&->&Hp&Hs).
    rewrite <- list_fmap_compose.
    rewrite (scan_rows_map _ g).
    + exists w', k. done.
    + intros x Hx. cbn. apply (Hscan (view s)); [done|]. rewrite Hp in Hx.
      by apply list_elem_of_filter in Hx as [_ ?].
Qed.

Lemma join_pairs_elem d g m :
  (g, m) ∈ join_pairs d ↔ g ∈ groups d ∧ m ∈ group_members d ∧ mr_group m = gr_id g.
Proof.
  unfold join_pairs. rewrite list_elem_of_bind. setoid_rewrite list_elem_of_bind.
  setoid_rewrite list_elem_of_filter. setoid_rewrite list_elem_of_singleton.
  naive_solver.
Qed.

(** [ListGroupsByPrefix] returns exactly the groups of the tenant (the
    default one when none is given) whose name starts with the prefix, in the
    order of their names, and changes nothing. *)
Lemma ListGroupsByPrefix_outcome prefix tenant s r (s' : S) :
  wf (view s) → ListGroupsByPrefix prefix tenant s = (r, s') →
  view s' = view s ∧
  match r with
  | Ok gs => gs ≡ₚ group_of <$> filter (λ x, gr_tenant x = or_default_tenant tenant ∧
                        HasPrefix (gr_name x) prefix = true) (groups (view s)) ∧
      StronglySorted name_le gs
  | Err _ => True
  end.
Proof.
  intros Hwf Hr.
  apply (query_scan_inv (λ x, plain (group_column x)) groups group_of) in Hr as [Hv Hr];
    [|done|intros; apply scan_group_row; by eapply wf_complete|done].
  split; [done|]. destruct r as [gs|]; [|done]. destruct Hr as (w'&k&Hw&->&Hp&Hs).
  bind_inv. split.
  - rewrite Hp. apply fmap_Permutation, reflexive_eq, list_filter_iff. intros x.
    rewrite Is_true_true, !holds_all_cons, (holds_eq _ _ _ (gr_tenant x)) by done.
    rewrite <- like_escaped. cbn. tauto.
  - clear -Hs. induction Hs as [|x k Hs IH Hx]; constructor; [done|].
    apply Forall_fmap. exact Hx.
Qed.

(** [GetGroupsForUser] returns the groups of which the user is a member, no
    more and no fewer, in the order of their names. *)
Lemma GetGroupsForUser_outcome u s r (s' : S) :
  wf (view s) → GetGroupsForUser u s = (r, s') →
  view s' = view s ∧
  match r with
  | Ok gs => (∀ x, x ∈ gs ↔ ∃ g, g ∈ groups (view s) ∧
                 (gr_id g, u) ∈ memberships (view s) ∧ x = group_of g) ∧
      StronglySorted name_le gs
  | Err _ => True
  end.
Proof.
  intros Hwf Hr.
  apply (query_scan_inv (λ p, joined (group_column p.1) (member_column p.2))
           join_pairs (λ p, group_of p.1)) in Hr as [Hv Hr]; [|done| |done].
  2: { intros d [g m] ? [? _]%join_pairs_elem. apply scan_joined_row.
       by eapply wf_complete. }
  split; [done|]. destruct r as [gs|]; [|done]. destruct Hr as (w'&k&Hw&->&Hp&Hs).
  bind_inv. split.
  - intros x. rewrite list_elem_of_fmap. setoid_rewrite Hp.
    setoid_rewrite list_elem_of_filter. setoid_rewrite Is_true_true.
    setoid_rewrite elem_of_memberships. setoid_rewrite list_elem_of_fmap.
    split.
    + intros ([g m]&->&Hm&(?&?&?)%join_pairs_elem). exists g. split_and!; [done| |done].
      exists m. split; [|done]. rewrite holds_all_cons in Hm. destruct Hm as [Hm _].
      rewrite (holds_eq _ _ _ (mr_user m)) in Hm by done. unfold mkey. congruence.
    + intros (g&Hg&(m&Hk&Hm)&->). exists (g, m). unfold mkey in Hk. simplify_eq.
      split_and!; [done| |by apply join_pairs_elem].
      rewrite holds_all_cons, holds_all_nil, (holds_eq _ _ _ (mr_user m)) by done. done.
  - clear -Hs. induction Hs as [|x k Hs IH Hx]; constructor; [done|].
    apply Forall_fmap. exact Hx.
Qed.
End reads.

(** ** Creating, updating and deleting groups *)

Section group_writes.
Context {S : Type} `{EngineLaws S}.

Lemma QueryRowContext_inv {A} (scan : list value → result A) st s r s' :
  QueryRowContext scan st s = (r, s') →
  (∃ now q, run now st (view s) = (Ok q, view s') ∧
     r = match q with
         | Rows (x :: _) => scan x
         | _ => Err (ESentinel SqlErrNoRows)
         end) ∨
  (∃ e, r = Err e ∧ view s' = view s ∧
     (operational e ∨ ∃ now, run now st (view s) = (Err e, view s))).
Proof.
  intros [(e&->&Hx)|(rs&s1&Hx&Hr)]%bind_inv.
  - apply QueryContext_inv in Hx as [(?&?&?&?)|(?&?&?&?)]; simplify_eq. right. eauto.
  - apply QueryContext_inv in Hx as [(now&q&Hx&?)|(?&?&?&?)]; simplify_eq. left.
    exists now, q. destruct q as [[|x rs]|n]; cbv [fail lift] in Hr; by simplify_eq.
Qed.

(** How a creation ends. *)
Lemma CreateGroup_outcome id g s r (s' : S) :
  CreateGroup (Ok id) g s = (r, s') →
  match r with
  | Ok x => ∃ id' now, uuid_in id = Some id' ∧
      groups (view s') = groups (view s) ++
        [mkGroupRow id' (Name g) (TenantId g) (Some (Description g)) (Type_ g)
           (Some now) (Some now)] ∧
      group_members (view s') = group_members (view s) ∧
      application_groups (view s') = application_groups (view s) ∧
      x = mkGroup id (Name g) (TenantId g) (Description g) (Type_ g) now now
  | Err e => view s' = view s ∧
      (errors_is e StorageErrDuplicateKey = false → ∃ m, e = EText m) ∧
      (errors_is e StorageErrDuplicateKey = true →
       ∃ id', uuid_in id = Some id' ∧
         ((id', TenantId g) ∈ gkey <$> groups (view s) ∨
          (TenantId g, Name g) ∈ guniq <$> groups (view s)))
  end.
Proof.
  intros [(e&->&Hx)|(ts&s1&Hx&Hr)]%bind_inv;
    apply map_err_inv in Hx as [(?&?&Hx)|(e0&?&Hx)]; simplify_eq;
    apply QueryRowContext_inv in Hx as [(now&q&Hx&He)|(e1&He&Hv&Ho)]; simplify_eq;
    try (cbn in Hx; destruct (insert_group_db now _ _) as [d1|] eqn:Hi; by simplify_eq).
  - split; [done|].
    destruct (IsDuplicateKeyError e1) eqn:Hd; [|split; [by eexists|done]].
    split; [by unfold WrapDuplicateKeyError; rewrite Hd|intros _].
    destruct Ho as [[Ho _]|[now Hx]].
    { unfold IsDuplicateKeyError in Hd. destruct (errors_as_pg e1); [|done].
      by apply bool_decide_eq_true_1 in Hd as ->. }
    cbn in Hx. unfold insert_group_db in Hx; cbn in Hx.
    destruct (uuid_in id) as [id'|]; [|by simplify_eq]. exists id'. split; [done|].
    destruct (group_size_error _) eqn:Hsize.
    { apply size_error_bad in Hsize. injection Hx as ->. by destruct Hsize as [->|[->| ->]]. }
    case_decide as Hk; [exact Hk|done].
  - cbn in Hx. destruct (insert_group_db now _ _) as [d1|] eqn:Hi; [|done].
    simplify_eq. cbv in Hr. simplify_eq. unfold insert_group_db in Hi; cbn in Hi.
    destruct (uuid_in id) as [id'|]; [|done]. destruct (group_size_error _); [done|].
    case_decide; [done|]. simplify_eq. exists id', now. rewrite <- Hi. cbn in He. by simplify_eq.
Qed.

(** The id, or the name in the tenant, is in use. *)
Definition taken (d : database) (id tenant name : string) : Prop :=
  (id, tenant) ∈ gkey <$> groups d ∨ (tenant, name) ∈ guniq <$> groups d.

Definition insertion (id : string) (g : Group) : stmt :=
  InsertGroup (mkInsertGroup id (Name g) (TenantId g) (Description g) (Type_ g)).

(** A creation under a taken name, or id, of values that fit their columns is reported
    as a duplicate, unless the statement failed for another reason. *)
Lemma CreateGroup_taken id id' g s r (s' : S) :
  uuid_in id = Some id' → taken (view s) id' (TenantId g) (Name g) →
  varchar255 (Name g) = true → varchar255 (TenantId g) = true → smallint (Type_ g) = true →
  CreateGroup (Ok id) g s = (r, s') →
  (∃ e, r = Err e ∧ errors_is e StorageErrDuplicateKey = true) ∨
  ∃ e, (exec (insertion id g) s).1 = Err e ∧ operational e.
Proof.
  intros Hu Ht Hn Htn Hty Hc. destruct (exec (insertion id g) s) as [q s1] eqn:Hx.
  apply exec_cases in Hx as Hq. destruct Hq as [(now&Hq)|(e&->&?&_)]; [left|right; by exists e].
  assert (q = Err pg_unique) as ->.
  { revert Hq. cbn. unfold insert_group_db; cbn. rewrite Hu.
    unfold group_size_error, size_error; cbn. rewrite Hn, Htn, Hty; cbn.
    case_decide as Hd; [by intros [= <- _]|by destruct Hd]. }
  unfold CreateGroup, QueryRowContext, QueryContext, map_err in Hc.
  cbv [mbind M_bind] in Hc. unfold insertion in Hx. rewrite Hx in Hc. cbn in Hc.
  injection Hc as <- _. by eexists.
Qed.

(** [CreateGroup] inserts the group it was given under the fresh id, with
    both timestamps those of the database, and returns exactly what it stored;
    when it fails nothing changed, and it reports a duplicate only when the
    tenant already has that name or the id is taken. *)
Theorem CreateGroup_spec id g s r (s' : S) :
  CreateGroup (Ok id) g s = (r, s') →
  match r with
  | Ok x => ∃ id' now, uuid_in id = Some id' ∧
      groups (view s') = groups (view s) ++
        [mkGroupRow id' (Name g) (TenantId g) (Some (Description g)) (Type_ g)
           (Some now) (Some now)] ∧
      group_members (view s') = group_members (view s) ∧
      application_groups (view s') = application_groups (view s) ∧
      x = mkGroup id (Name g) (TenantId g) (Description g) (Type_ g) now now
  | Err e => view s' = view s ∧
      (errors_is e StorageErrDuplicateKey = true →
       ∃ id', uuid_in id = Some id' ∧
         ((id', TenantId g) ∈ gkey <$> groups (view s) ∨
          (TenantId g, Name g) ∈ guniq <$> groups (view s)))
  end.
Proof. intros Hr%CreateGroup_outcome. destruct r; naive_solver. Qed.

Lemma list_fmap_id_on {A} (f : A → A) (l : list A) : (∀ x, x ∈ l → f x = x) → f <$> l = l.
Proof.
  induction l as [|x l IH]; intros Hf; [done|]. rewrite fmap_cons.
  rewrite Hf by set_solver. f_equal. apply IH. set_solver.
Qed.

(** How an update ends. *)
Lemma UpdateGroup_outcome now id g s r (s' : S) :
  UpdateGroup now id g s = (r, s') →
  match r with
  | Ok x => ∃ id', uuid_in id = Some id' ∧ id' ∈ gr_id <$> groups (view s) ∧
      groups (view s') = (λ x, if decide (gr_id x = id')
                               then set_group (Name g) (Description g) (Type_ g) now x
                               else x) <$> groups (view s) ∧
      group_members (view s') = group_members (view s) ∧
      application_groups (view s') = application_groups (view s) ∧
      x = mkGroup id (Name g) (TenantId g) (Description g) (Type_ g) (CreatedAt g) now
  | Err _ => groups (view s') = groups (view s) ∧
      group_members (view s') = group_members (view s) ∧
      application_groups (view s') = application_groups (view s)
  end.
Proof.
  intros [(e&->&Hx)|(n&s1&Hx&Hr)]%bind_inv;
    apply map_err_inv in Hx as [(?&?&Hx)|(e0&?&Hx)]; simplify_eq;
    apply ExecContext_inv in Hx as [(nw&q&Hx&He)|(e1&He&Hv&Ho)]; simplify_eq.
  { by rewrite Hv. }
  cbn [run] in Hx. destruct (bind_preds _ _) as [w|] eqn:Hw; [|by simplify_eq]. bind_inv.
  destruct (update_groups_db _ _ _ _ _ (view s)) as [[d1 k]|] eqn:Hup; [|by simplify_eq].
  apply update_groups_db_inv in Hup as (->&->). injection Hx as <- Hv1.
  assert (∀ x, group_matches [PEq (Col c_id) u] x = true ↔ gr_id x = u) as Hm
    by (intros x; solve_matches).
  assert (∀ l : list group_row,
    (λ r, if group_matches [PEq (Col c_id) u] r
          then set_group (Name g) (Description g) (Type_ g) now r else r) <$> l =
    (λ x, if decide (gr_id x = u)
          then set_group (Name g) (Description g) (Type_ g) now x else x) <$> l) as Hf.
  { intros l. apply list_fmap_ext. intros i x _. specialize (Hm x).
    destruct (decide (gr_id x = u)) as [Hc|Hc]; [by rewrite (proj2 Hm Hc)|].
    destruct (group_matches [PEq (Col c_id) u] x); [|done]. destruct Hc. by apply Hm. }
  rewrite Hf in Hv1.
  case_decide as Hk; unfold fail, mret, M_ret in Hr; simplify_eq; rewrite <- Hv1.
  - cbn. split; [|done]. apply nil_length_inv in Hk.
    change (filter (λ r, group_matches [PEq (Col c_id) u] r) (groups (view s)) = []) in Hk.
    apply list_fmap_id_on. intros x Hx. rewrite decide_False; [done|]. intros Hxu.
    assert (x ∈ filter (λ r, group_matches [PEq (Col c_id) u] r) (groups (view s))) as Hin
      by (apply list_elem_of_filter; split; [by apply Is_true_true, Hm|done]).
    rewrite Hk in Hin. by apply not_elem_of_nil in Hin.
  - exists u. split_and!; try done.
    change (length (filter (λ r, group_matches [PEq (Col c_id) u] r) (groups (view s))) ≠ 0%nat)
      in Hk.
    destruct (filter (λ r, group_matches [PEq (Col c_id) u] r) (groups (view s)))
      as [|y ys] eqn:Hl; [done|].
    assert (y ∈ filter (λ r, group_matches [PEq (Col c_id) u] r) (groups (view s))) as Hin
      by (rewrite Hl; apply elem_of_cons; by left).
    apply list_elem_of_filter in Hin as [Hy%Is_true_true%Hm Hin]. subst u.
    by apply list_elem_of_fmap_2.
Qed.

(** [DeleteGroup] removes the group and, through the foreign keys, exactly
    its memberships and its allowed applications; nothing of another group is
    lost. *)
Lemma DeleteGroup_outcome id s r (s' : S) :
  wf (view s) → DeleteGroup id s = (r, s') →
  match r with
  | Ok _ => ∃ id', uuid_in id = Some id' ∧
      groups (view s') = filter (λ x, gr_id x ≠ id') (groups (view s)) ∧
      memberships (view s') = filter (λ k, k.1 ≠ id') (memberships (view s)) ∧
      allowed (view s') = filter (λ k, k.1 ≠ id') (allowed (view s))
  | Err _ => view s' = view s
  end.
Proof.
  intros Hwf Hr%delete_unit_inv. destruct r; [|done]. destruct Hr as (w'&Hw&->).
  bind_inv. exists u. split; [done|].
  assert (∀ x, group_matches [PEq (Col c_id) u] x ↔ gr_id x = u) as Hm
    by (intros x; rewrite Is_true_true; solve_matches).
  assert (∀ k, k ∈ gkey <$> groups (view s) →
    k ∉ gkey <$> filter (λ x, group_matches [PEq (Col c_id) u] x) (groups (view s)) ↔ k.1 ≠ u)
    as Hgone.
  { intros k (x&->&Hx)%list_elem_of_fmap. split.
    - intros Hk Hxu. destruct Hk. apply list_elem_of_fmap_2, list_elem_of_filter.
      split; [by apply Hm|done].
    - intros Hk (y&He&[Hy%Hm ?]%list_elem_of_filter)%list_elem_of_fmap.
      destruct Hk. cbn. injection He. congruence. }
  split_and!.
  - apply list_filter_iff. intros x. by rewrite Hm.
  - apply set_eq. intros k. rewrite elem_of_filter, !elem_of_memberships, !list_elem_of_fmap.
    cbn. setoid_rewrite list_elem_of_filter. split.
    + intros (m&->&Hg&Hi). apply Hgone in Hg; [eauto|]. by apply wf_mfk.
    + intros (Hk&m&->&Hi). exists m. split_and!; [done| |done].
      apply Hgone; [by apply wf_mfk|done].
  - apply set_eq. intros k. rewrite elem_of_filter, !elem_of_allowed, !list_elem_of_fmap.
    cbn. setoid_rewrite list_elem_of_filter. split.
    + intros (m&->&Hg&Hi). apply Hgone in Hg; [eauto|]. by apply wf_afk.
    + intros (Hk&m&->&Hi). exists m. split_and!; [done| |done].
      apply Hgone; [by apply wf_afk|done].
Qed.
End group_writes.

(** ** Streaming *)

(** Call [fn] on every element in order, up to the first error. *)
Fixpoint for_each {A T} (fn : A → M T unit) (l : list A) : M T unit :=
  match l with
  | [] => mret tt
  | x :: l => fn x ≫= λ _, for_each fn l
  end.

Lemma stream_rows_for_each {A B T} (f : B → list value) (g : B → A) scan msg
    (fn : A → M T unit) l t :
  (∀ x, x ∈ l → scan (f x) = Ok (g x)) →
  stream_rows scan msg fn (f <$> l) t = for_each fn (g <$> l) t.
Proof.
  revert t. induction l as [|x l IH]; intros t Hs; [done|].
  rewrite !fmap_cons. cbn. rewrite Hs by set_solver.
  unfold mbind, M_bind. destruct (fn (g x) t) as [[]?]; [|done].
  apply IH. set_solver.
Qed.

Lemma rows_read_fmap {A B} broken (f : A → B) l :
  rows_read broken (f <$> l) = f <$> rows_read broken l.
Proof. destruct broken as [[n ?]|]; [|done]. symmetry. apply fmap_take. Qed.
Lemma rows_read_elem {A} broken (x : A) l : x ∈ rows_read broken l → x ∈ l.
Proof.
  destruct broken as [[n ?]|]; [|done]. intros (?&?&?)%elem_of_take.
  by eapply list_elem_of_lookup_2.
Qed.

Section streams.
Context {S T : Type} `{EngineLaws S} `{!PgLaws}.

(** The streaming form of [query_scan_inv]. *)
Lemma query_stream_inv {A B} (f : B → row) (l : database → list B) (g : B → A)
    broken m0 src cols w c scan m1 m2 (fn : A → M T unit) s t r (s' : S) t' :
  (∀ d, source_rows src d = f <$> l d) →
  (∀ d x, wf d → x ∈ l d → scan (project cols (f x)) = Ok (g x)) →
  wf (view s) →
  on_stream broken m0 (map_err (errorf_v m1) (QueryContext (Select src cols w (Some c))))
    (stream_rows scan m2 fn) (s, t) = (r, (s', t')) →
  view s' = view s ∧
  ((is_ok r = false ∧ t' = t ∧ is_ok (QueryContext (Select src cols w (Some c)) s).1 = false) ∨
   ∃ w' k r0, bind_preds src w = Ok w' ∧
      k ≡ₚ filter (λ x, holds_all (f x) w') (l (view s)) ∧
      StronglySorted (λ a b, collate (text_of (f a c)) (text_of (f b c))) k ∧
      for_each fn (rows_read broken (g <$> k)) t = (r0, t') ∧ r = iterated broken m0 r0).
Proof.
  intros Hsrc Hscan Hwf. unfold on_stream; cbn [fst snd].
  destruct (map_err _ _ s) as [[rs|e] s1] eqn:Hx.
  2: { intros; simplify_eq. apply map_err_inv in Hx as [(?&?&?)|(e0&?&Hx)]; simplify_eq.
       rewrite Hx. apply QueryContext_inv in Hx as [(?&?&?&?)|(?&?&?&?)]; simplify_eq. auto. }
  apply map_err_inv in Hx as [(?&?&Hx)|(e0&?&Hx)]; simplify_eq.
  apply QueryContext_inv in Hx as [(now&q&Hx&?)|(?&?&?&?)]; simplify_eq.
  apply run_select_inv in Hx as (Hv&w'&Hw&->).
  destruct (stream_rows _ _ _ _ t) as [r1 t1] eqn:Hst. intros; simplify_eq.
  split; [done|right]. revert Hst. unfold select_rows. rewrite Hsrc, filter_map.
  destruct (order_by_map f c (filter (λ x, holds_all (f x) w') (l (view s))))
    as (k&->&Hp&Hs).
  rewrite <- list_fmap_compose, rows_read_fmap, (stream_rows_for_each _ g).
  - intros Hst. exists w', k, r1. by rewrite rows_read_fmap.
  - intros x Hx%rows_read_elem. cbn. apply (Hscan (view s)); [done|]. rewrite Hp in Hx.
    by apply list_elem_of_filter in Hx as [_ ?].
Qed.

(** [StreamUsersInGroup] calls back with the members of the group (those of
    the tenant, when one is given), each once and in order, stops at the first
    error of the callback and returns it; a failed query calls back nothing. *)
Lemma StreamUsersInGroup_outcome broken tenant g (fn : string → M T unit) s t r (s' : S) t' :
  wf (view s) → StreamUsersInGroup broken tenant g fn (s, t) = (r, (s', t')) →
  view s' = view s ∧
  ((is_ok r = false ∧ t' = t ∧ is_ok (QueryContext (group_users_query tenant g) s).1 = false) ∨
   ∃ g' us r0, uuid_in g = Some g' ∧ NoDup us ∧ StronglySorted collate us ∧
     (∀ u, u ∈ us ↔ ∃ m, m ∈ group_members (view s) ∧ mkey m = (g', u) ∧
                         (tenant = "" ∨ mr_tenant m = tenant)) ∧
     for_each fn (rows_read broken us) t = (r0, t') ∧
     r = iterated broken "error iterating group members" r0).
Proof.
  intros Hwf Hr.
  apply (query_stream_inv (λ x, plain (member_column x)) group_members mr_user)
    in Hr as [Hv Hr]; [|done..].
  split; [done|]. destruct Hr as [|(w'&k&r0&Hw&Hp&Hs&Hf)]; [by left|right].
  apply bind_cons_inv in Hw as (p&w&Hp0&Hw&->).
  assert (∀ m, m ∈ group_members (view s) →
    holds_all (plain (member_column m)) w = true ↔ tenant = ""%string ∨ mr_tenant m = tenant)
    as Ht.
  { intros m _. unfold tenant_filter in Hw. case_decide as Hd; bind_inv.
    - rewrite holds_all_nil. tauto.
    - rewrite holds_all_cons, (holds_eq _ _ _ (mr_tenant m)), holds_all_nil by done. tauto. }
  bind_inv. exists u, (mr_user <$> k), r0. split_and!; [done|..].
  - assert (NoDup (mkey <$> k)) as Hk.
    { rewrite Hp. apply NoDup_fmap_filter, wf_mkey, Hwf. }
    assert (∀ m, m ∈ k → mr_group m = u) as Hg.
    { intros m Hm. rewrite Hp in Hm. apply list_elem_of_filter in Hm as [Hm _].
      rewrite Is_true_true, holds_all_cons, (holds_eq _ _ _ (mr_group m)) in Hm by done.
      tauto. }
    clear -Hk Hg. induction k as [|m k IH]; [constructor|].
    cbn in *. apply list.NoDup_cons in Hk as [Hm Hk]. constructor; [|apply IH; set_solver].
    intros (m'&He&Hm')%list_elem_of_fmap. destruct Hm. apply list_elem_of_fmap.
    exists m'. split; [|done]. unfold mkey. rewrite He, !Hg; set_solver.
  - clear -Hs. induction Hs as [|x k Hs IH Hx]; constructor; [done|].
    by apply Forall_fmap.
  - intros x. rewrite list_elem_of_fmap. setoid_rewrite Hp.
    setoid_rewrite list_elem_of_filter. setoid_rewrite Is_true_true.
    split.
    + intros (m&->&Hm&Hin). exists m. split; [done|].
      rewrite holds_all_cons, (holds_eq _ _ _ (mr_group m)), Ht in Hm by done.
      unfold mkey. destruct Hm as [-> ?]. done.
    + intros (m&Hin&Hk&Hm). unfold mkey in Hk. simplify_eq. exists m.
      split_and!; [done| |done].
      rewrite holds_all_cons, (holds_eq _ _ _ (mr_group m)), Ht by done. done.
  - apply Hf.
  - apply Hf.
Qed.

(** [StreamGroupsForUser] calls back with the groups of the user (those of the tenant,
    when one is given), in the order of their names. *)
Lemma StreamGroupsForUser_outcome broken tenant u (fn : Group → M T unit) s t r (s' : S) t' :
  wf (view s) → StreamGroupsForUser broken tenant u fn (s, t) = (r, (s', t')) →
  view s' = view s ∧
  ((is_ok r = false ∧ t' = t ∧ is_ok (QueryContext (user_groups_query tenant u) s).1 = false) ∨
   ∃ gs r0, StronglySorted name_le gs ∧
     (∀ x, x ∈ gs ↔ ∃ g, g ∈ groups (view s) ∧ (gr_id g, u) ∈ memberships (view s) ∧
                         (tenant = "" ∨ gr_tenant g = tenant) ∧ x = group_of g) ∧
     for_each fn (rows_read broken gs) t = (r0, t') ∧
     r = iterated broken "error iterating groups" r0).
Proof.
  intros Hwf Hr.
  apply (query_stream_inv (λ p, joined (group_column p.1) (member_column p.2))
           join_pairs (λ p, group_of p.1)) in Hr as [Hv Hr]; [|done| |done].
  2: { intros d [g m] ? [? _]%join_pairs_elem. apply scan_joined_row.
       by eapply wf_complete. }
  split; [done|]. destruct Hr as [|(w'&k&r0&Hw&Hp&Hs&Hf&->)]; [by left|right].
  apply bind_cons_inv in Hw as (p&w&Hp0&Hw&->).
  assert (∀ q, holds_all (joined (group_column q.1) (member_column q.2)) w = true ↔
               tenant = ""%string ∨ gr_tenant q.1 = tenant) as Ht.
  { intros q. unfold tenant_filter in Hw. case_decide as Hd; bind_inv.
    - rewrite holds_all_nil. tauto.
    - rewrite holds_all_cons, (holds_eq _ _ _ (gr_tenant q.1)), holds_all_nil by done. tauto. }
  bind_inv. exists ((λ q, group_of q.1) <$> k), r0. split_and!; [| |done..].
  - clear -Hs. induction Hs as [|x k Hs IH Hx]; constructor; [done|].
    apply Forall_fmap. exact Hx.
  - intros x. rewrite list_elem_of_fmap. setoid_rewrite Hp.
    setoid_rewrite list_elem_of_filter. setoid_rewrite Is_true_true.
    setoid_rewrite holds_all_cons. setoid_rewrite Ht.
    setoid_rewrite elem_of_memberships. setoid_rewrite list_elem_of_fmap.
    split.
    + intros ([g m]&->&[Hm ?]&(?&?&?)%join_pairs_elem). exists g. split_and!; [done| |done..].
      exists m. split; [|done]. rewrite (holds_eq _ _ _ (mr_user m)) in Hm by done.
      unfold mkey. congruence.
    + intros (g&Hg&(m&Hk&Hm)&?&->). exists (g, m). unfold mkey in Hk. simplify_eq.
      split_and!; [done| |done|by apply join_pairs_elem].
      by rewrite (holds_eq _ _ _ (mr_user m)) by done.
Qed.
End streams.

(** ** Allowed applications *)

Section allowed_apps.
Context {S : Type} `{EngineLaws S}.

Lemma insert_apps_allowed rows oc d d' :
  insert_apps rows oc d = Ok d' →
  ∃ rows', mapR coerce_app rows = Ok rows' ∧
    allowed d' = allowed d ∪ list_to_set (akey <$> rows') ∧ same_but_apps d d'.
Proof.
  intros (rows'&aps&?&Hu&_&->)%insert_apps_inv. exists rows'.
  split_and!; [done| |done]. apply set_eq. intros k.
  rewrite elem_of_union, !elem_of_allowed, elem_of_list_to_set; cbn.
  by apply (upsert_keys akey touch_app ltac:(done) _ _ _ _ _ Hu).
Qed.

(** [AddAllowedApp] either adds exactly the pair, or fails and changes
    nothing; it reports a duplicate only when the application was already
    allowed for the group, and a foreign key violation only when the group does
    not exist. *)
Lemma AddAllowedApp_outcome now g a s r (s' : S) :
  AddAllowedApp now g a s = (r, s') →
  match r with
  | Ok _ => ∃ g', uuid_in g = Some g' ∧ ((g', a) ∉ allowed (view s)) ∧
      allowed (view s') = {[(g', a)]} ∪ allowed (view s) ∧
      same_but_apps (view s) (view s')
  | Err e => view s' = view s ∧
      (errors_is e StorageErrDuplicateKey = true →
       ∃ g', uuid_in g = Some g' ∧ (g', a) ∈ allowed (view s)) ∧
      (errors_is e StorageErrForeignKeyViolation = true →
       ∃ g', uuid_in g = Some g' ∧ (g', "default"%string) ∉ gkey <$> groups (view s))
  end.
Proof.
  intros [(->&nw&q&Hr)|(e&->&Hv&He)]%exec_unit_inv.
  - apply run_insert_apps in Hr as Hi. pose proof Hi as (rows&Hm&Ha&Hs)%insert_apps_allowed.
    pose proof Hi as (rows'&aps&Hm'&Hu&_&_)%insert_apps_inv.
    rewrite Hm in Hm'. injection Hm' as <-.
    cbn in Hm. destruct (coerce_app _) as [x|] eqn:Hc; [|done]. simplify_eq.
    apply coerce_app_inv in Hc as (Hg&Hap&_). exists (ar_group x). cbn in Hg, Hap, Hu.
    assert (akey x = (ar_group x, a)) as Hk by (unfold akey; congruence).
    case_decide as Hin; [done|]. rewrite Hk in Hin.
    split_and!; [done|by rewrite elem_of_allowed| |done].
    rewrite Ha, (comm_L (∪)). cbn. by rewrite Hk, (right_id_L ∅ (∪)).
  - split; [done|]. destruct He as [[Ho Ho']|[nw Hr]].
    { unfold WrapDuplicateKeyError, WrapForeignKeyError, IsDuplicateKeyError,
        IsForeignKeyViolation, pgErrCodeUniqueViolation, pgErrCodeForeignKeyViolation.
      destruct (errors_as_pg e) as [c|]; [|done].
      rewrite !bool_decide_false by congruence. done. }
    cbn in Hr. destruct (insert_apps _ _ (view s)) as [|e'] eqn:Hi; [done|]. simplify_eq.
    unfold insert_apps in Hi; cbn in Hi.
    destruct (coerce_app _) as [x|] eqn:Hc.
    2: { injection Hi as <-. apply coerce_app_err in Hc. by destruct Hc as [->|[->| ->]]. }
    apply coerce_app_inv in Hc as (Hg&Hap&Ht). cbn in Hg, Hap, Ht, Hi.
    case_decide as Hin.
    + injection Hi as <-. split; [|done]. intros _. exists (ar_group x). split; [done|].
      rewrite elem_of_allowed. unfold akey in Hin. by rewrite Hap in Hin.
    + destruct (fk_check _ _ _ _ _) eqn:Hfk; [done|]. injection Hi as <-.
      apply fk_check_false in Hfk as (x'&->%list_elem_of_singleton&_&Hfk).
      split; [done|]. intros _. exists (ar_group x). split; [done|].
      unfold afk in Hfk. by rewrite Ht in Hfk.
Qed.

(** [DELETE ... RETURNING c]. *)
Lemma query_delete_inv f t w c s r (s' : S) :
  map_err f (QueryContext (Delete t w [c])) s = (r, s') →
  match r with
  | Ok rs => ∃ w', bind_preds (source_of t) w = Ok w' ∧
      rs = project [c] <$> deleted_rows t w' (view s) ∧ view s' = delete_db t w' (view s)
  | Err _ => view s' = view s
  end.
Proof.
  intros [(rs&->&Hx)|(e&->&Hx)]%map_err_inv;
    apply QueryContext_inv in Hx as [(now&q&Hx&?)|(?&?&?&?)]; simplify_eq; [|done].
  cbn in Hx. destruct (bind_preds _ w) as [w'|]; [|done]. simplify_eq. by exists w'.
Qed.

Lemma scan_app_rows {B} (f : B → row) (v : B → string) c msg w l :
  (∀ x, f x c = VText (v x)) →
  scan_rows scanString msg (project [c] <$> filter (λ r, holds_all r w) (f <$> l)) =
    Ok (v <$> filter (λ x, holds_all (f x) w) l).
Proof.
  intros Hv. rewrite filter_map, <- list_fmap_compose. apply scan_rows_map.
  intros x _. cbn. by rewrite Hv.
Qed.

(** [RemoveAllowedApps] removes every allowed application of the group and
    returns exactly what it removed; [RemoveAllAllowedGroupsForApp] does the
    same for the groups of an application. *)
Lemma removals_outcome k s (s' : S) r :
  (RemoveAllowedApps k s = (r, s') →
   match r with
   | Ok aps => ∃ g', uuid_in k = Some g' ∧ (∀ a, a ∈ aps ↔ (g', a) ∈ allowed (view s)) ∧
       allowed (view s') = filter (λ p, p.1 ≠ g') (allowed (view s)) ∧
       same_but_apps (view s) (view s')
   | Err _ => view s' = view s
   end) ∧
  (RemoveAllAllowedGroupsForApp k s = (r, s') →
   match r with
   | Ok gs => (∀ g, g ∈ gs ↔ (g, k) ∈ allowed (view s)) ∧
       allowed (view s') = filter (λ p, p.2 ≠ k) (allowed (view s)) ∧
       same_but_apps (view s) (view s')
   | Err _ => view s' = view s
   end).
Proof.
  split; intros [(e&->&Hx)|(rs&s1&Hx&Hr)]%bind_inv;
    apply query_delete_inv in Hx as Hq; try done;
    destruct Hq as (w'&Hw&->&Hv); bind_inv;
    unfold deleted_rows in Hr; cbn [source_rows source_of] in Hr.
  - unfold scanApps in Hr. rewrite (scan_app_rows _ ar_app) in Hr by done. cbv [map_err lift] in Hr. simplify_eq.
    exists u. rewrite Hv. unfold delete_db. split_and!; [done|..|done].
    + intros a. rewrite list_elem_of_fmap, elem_of_allowed, list_elem_of_fmap.
      setoid_rewrite list_elem_of_filter. setoid_rewrite Is_true_true.
      setoid_rewrite holds_all_cons. setoid_rewrite holds_all_nil. unfold akey.
      split.
      * intros (x&->&[Hh _]&?). rewrite (holds_eq _ _ _ (ar_group x)) in Hh by done.
        exists x. by rewrite Hh.
      * intros (x&He&?). exists x. simplify_eq. by rewrite (holds_eq _ _ _ (ar_group x)).
    + apply (allowed_delete (λ p, p.1 = u)). intros; solve_matches.
  - rewrite (scan_app_rows _ ar_group) in Hr by done. cbv [lift] in Hr. simplify_eq.
    rewrite Hv. unfold delete_db. split_and!; [|..|done].
    + intros g. rewrite list_elem_of_fmap, elem_of_allowed, list_elem_of_fmap.
      setoid_rewrite list_elem_of_filter. setoid_rewrite Is_true_true.
      setoid_rewrite holds_all_cons. setoid_rewrite holds_all_nil. unfold akey.
      split.
      * intros (x&->&[Hh _]&?). rewrite (holds_eq _ _ _ (ar_app x)) in Hh by done.
        exists x. by rewrite Hh.
      * intros (x&He&?). exists x. simplify_eq. by rewrite (holds_eq _ _ _ (ar_app x)).
    + apply (allowed_delete (λ p, p.2 = k)). intros; solve_matches.
Qed.
End allowed_apps.

(** ** Total behaviour on a connection that does not fail *)

Section reference.
Context `{PgParams}.

(** On a working connection, adding users whose ids fit their column to an existing
    group of the default tenant always succeeds, however often an id is repeated in the
    request: the deduplication keeps the upsert from touching a row twice. *)
Theorem AddUsersToGroup_succeeds now g g' us d :
  uuid_in g = Some g' → (g', "default"%string) ∈ gkey <$> groups d →
  Forall (λ u, varchar255 u = true) us →
  ∃ d', AddUsersToGroup now g us d = (Ok tt, d').
Proof.
  intros Hu Hg Hfit. unfold AddUsersToGroup. case_decide; [by eexists|].
  assert (mapR coerce_member (member_values now g <$> unique us) =
          Ok (member_values now g' <$> unique us)) as Hm.
  { apply mapR_Forall2, Forall2_fmap_2, Forall_Forall2_diag, list.Forall_forall.
    intros u Hin. rewrite elem_of_unique in Hin. unfold coerce_member; cbn. rewrite Hu.
    unfold member_size_error, size_error; cbn. rewrite list.Forall_forall in Hfit.
    by rewrite (Hfit _ Hin). }
  destruct (upsert_update_ok mkey touch_member ltac:(done)
    (member_values now g' <$> unique us) [] (group_members d)) as [ms Hms].
  { rewrite mkey_member_values. apply NoDup_fmap_2; [by intros ??[=]|].
    apply NoDup_dedup_from. }
  { set_solver. }
  eexists. cbv [mbind M_bind map_err ExecContext exec ref_engine run].
  unfold insert_members. rewrite Hm, Hms.
  assert (fk_check mkey mfk (gkey <$> groups d) (group_members d)
    (member_values now g' <$> unique us) = true) as ->; [|reflexivity].
  apply fk_check_spec. intros r (u&->&_)%list_elem_of_fmap. by right.
Qed.

(** No group, of whatever tenant, has the id. *)
Definition id_free (id : string) (d : database) : Prop := id ∉ gr_id <$> groups d.

(** C37: what [CreateGroup] returned is what [GetGroup] reads back. *)
Theorem CreateGroup_GetGroup id g x d d' :
  uuid_in id = Some id → id_free id d →
  CreateGroup (Ok id) g d = (Ok x, d') → GetGroup id d' = (Ok x, d').
Proof.
  intros Hu Hid (id'&now&?&Hg&_&_&->)%(CreateGroup_outcome (S:=database)); simplify_eq.
  unfold GetGroup, QueryRowContext, QueryContext, map_err. cbn in Hg.
  cbv [mbind M_bind exec ref_engine]. cbn [run bind_preds mapR bind_pred coltype_of].
  cbn [group_coltype coerce]. rewrite Hu.
  rewrite decide_True by (repeat constructor; discriminate).
  unfold select_rows; cbn [order_by source_rows]. rewrite Hg, filter_map.
  rewrite list.filter_app, (filter_none _ (groups d)).
  - rewrite filter_cons_True; [done|]. apply Is_true_true.
    rewrite holds_all_cons, (holds_eq _ _ _ id) by done. done.
  - intros r Hr. rewrite Is_true_true, holds_all_cons, (holds_eq _ _ _ (gr_id r)) by done.
    intros [<- _]. destruct Hid. by apply list_elem_of_fmap_2.
Qed.
End reference.

(** ** Examples: the theorems at a concrete database *)

Module Witnesses.
Import TestParams.
Local Open Scope string_scope.

Definition calls (cs : list call) (d : database) : database :=
  foldl (λ s c, after (S:=database) c s) d cs.

Definition group_named (name tenant : string) : Group := mkGroup "" name tenant "" 0 0 0.

(** Two groups, two members, one allowed application. *)
Definition d0 : database := calls
  [CCreateGroup (Ok "a1") (group_named "staff" "default");
   CCreateGroup (Ok "b2") (group_named "crew" "default");
   CAddUsersToGroup 5 "A1" ["u"; "u"; "v"];
   CAddAllowedApp 5 "a1" "grafana"] empty_db.

Lemma calls_wf cs d : wf d → wf (calls cs d).
Proof.
  revert d. induction cs as [|c cs IH]; intros d Hwf; [done|]. apply IH. exact (after_wf (S:=database) c d Hwf).
Qed.

Lemma d0_wf : wf (view (S:=database) d0).
Proof. apply calls_wf, empty_db_wf. Qed.


(** Deleting [a1] and clearing the groups of [w] leaves [b2] as it was. *)
Lemma storage_local_witness :
  let cs := [CDeleteGroup "A1"; CRemoveUserFromAllGroups "w"; CListGroups] in
  let d' := calls cs d0 in
  wf d' ∧ length (groups d') = 1%nat ∧
  (∀ r, unnamed_groups cs (gr_id r) → r ∈ groups d' ↔ r ∈ groups d0) ∧
  (∀ r, unnamed_members cs (mkey r) → r ∈ group_members d' ↔ r ∈ group_members d0).
Proof.
  intros cs d'.
  destruct (storage_local (S:=database) cs d0 d0_wf) as (Hwf&HG&HM&_&_).
  split_and!; [exact Hwf|vm_compute; reflexivity|exact HG|exact HM].
Defined.

Lemma AddUsersToGroup_outcome_witness :
  let d' := (AddUsersToGroup (S:=database) 6 "B2" ["w"; "w"] d0).2 in
  AddUsersToGroup (S:=database) 6 "B2" ["w"; "w"] d0 = (Ok tt, d') ∧
    ((["w"; "w"] = [] ∧ d' = d0) ∨
     ∃ g', uuid_in "B2" = Some g' ∧
       memberships d' = memberships d0 ∪ pairs g' ["w"; "w"] ∧ same_but_members d0 d').
Proof. intros d'. split; [vm_compute; reflexivity|]. 
  refine (AddUsersToGroup_outcome (S:=database) 6 "B2" ["w"; "w"] d0 d' (Ok tt) _).
  vm_compute. reflexivity.
Defined.

Lemma UpdateGroupsForUser_refines_witness :
  let d' := (UpdateGroupsForUser (S:=database) 6 "u" ["B2"] d0).2 in
  UpdateGroupsForUser (S:=database) 6 "u" ["B2"] d0 = (Ok tt, d') ∧
    ∃ X, canonical ["B2"] X ∧
      memberships d' = filter (λ k, k.2 ≠ "u") (memberships d0) ∪ groups_of_user X "u" ∧
      same_but_members d0 d'.
Proof. intros d'. split; [vm_compute; reflexivity|]. 
  refine (UpdateGroupsForUser_refines (S:=database) 6 "u" ["B2"] d0 d' (Ok tt) _).
  vm_compute. reflexivity.
Defined.

Lemma SyncGroupMembers_refines_witness :
  let d' := (SyncGroupMembers (S:=database) 6 "a1" ["w"; "v"] d0).2 in
  SyncGroupMembers (S:=database) 6 "a1" ["w"; "v"] d0 = (Ok tt, d') ∧
    ∃ g', uuid_in "a1" = Some g' ∧
      memberships d' = filter (λ k, k.1 ≠ g') (memberships d0) ∪ pairs g' ["w"; "v"] ∧
      same_but_members d0 d'.
Proof. intros d'. split; [vm_compute; reflexivity|]. 
  refine (SyncGroupMembers_refines (S:=database) 6 "a1" ["w"; "v"] d0 d' (Ok tt) _).
  vm_compute. reflexivity.
Defined.

Lemma ListGroupsByPrefix_outcome_witness :
  ∃ gs, ListGroupsByPrefix (S:=database) "st" "" d0 = (Ok gs, d0) ∧ d0 = d0 ∧
    gs ≡ₚ group_of <$> filter (λ x, gr_tenant x = or_default_tenant "" ∧
            HasPrefix (gr_name x) "st" = true) (groups d0) ∧
    StronglySorted name_le gs.
Proof.
  eexists. split; [vm_compute; reflexivity|].
  refine (ListGroupsByPrefix_outcome (S:=database) "st" "" d0 (Ok _) d0 d0_wf _).
  vm_compute. reflexivity.
Defined.

Lemma GetGroupsForUser_outcome_witness :
  ∃ gs, GetGroupsForUser (S:=database) "u" d0 = (Ok gs, d0) ∧ d0 = d0 ∧
    (∀ x, x ∈ gs ↔ ∃ g, g ∈ groups d0 ∧ (gr_id g, "u") ∈ memberships d0 ∧ x = group_of g) ∧
    StronglySorted name_le gs.
Proof.
  eexists. split; [vm_compute; reflexivity|].
  refine (GetGroupsForUser_outcome (S:=database) "u" d0 (Ok _) d0 d0_wf _).
  vm_compute. reflexivity.
Defined.

Lemma CreateGroup_spec_witness :
  ∃ d', CreateGroup (S:=database) (Ok "c3") (group_named "staff" "default") d0
          = (Err (errorf_w "group name already exists"
                    (ESentinel StorageErrDuplicateKey)), d') ∧
    d' = d0 ∧ ∃ id', uuid_in "c3" = Some id' ∧
      ((id', "default") ∈ gkey <$> groups d0 ∨ ("default", "staff") ∈ guniq <$> groups d0).
Proof.
  eexists. split; [vm_compute; reflexivity|].
  destruct (CreateGroup_spec (S:=database) "c3" (group_named "staff" "default") d0
    (Err (errorf_w "group name already exists" (ESentinel StorageErrDuplicateKey))) d0)
    as [_ Hd]; [vm_compute; reflexivity|].
  split; [reflexivity|]. apply Hd. reflexivity.
Defined.

Lemma CreateGroup_GetGroup_witness :
  ∃ x d', CreateGroup (S:=database) (Ok "c3") (group_named "ops" "default") d0 = (Ok x, d') ∧
    GetGroup (S:=database) "c3" d' = (Ok x, d').
Proof.
  eexists _, _. split; [vm_compute; reflexivity|].
  apply (CreateGroup_GetGroup "c3" (group_named "ops" "default") _ d0).
  - reflexivity.
  - compute_done.
  - vm_compute. reflexivity.
Defined.

Lemma DeleteGroup_outcome_witness :
  let d' := (DeleteGroup (S:=database) "a1" d0).2 in
  DeleteGroup (S:=database) "a1" d0 = (Ok tt, d') ∧
    ∃ id', uuid_in "a1" = Some id' ∧
      groups d' = filter (λ x, gr_id x ≠ id') (groups d0) ∧
      memberships d' = filter (λ k, k.1 ≠ id') (memberships d0) ∧
      allowed d' = filter (λ k, k.1 ≠ id') (allowed d0).
Proof. intros d'. split; [vm_compute; reflexivity|]. 
  refine (DeleteGroup_outcome (S:=database) "a1" d0 (Ok tt) d' d0_wf _).
  vm_compute. reflexivity.
Defined.

Lemma AddUsersToGroup_succeeds_witness :
  ∃ d', AddUsersToGroup (S:=database) 9 "A1" ["x"; "x"; "u"] d0 = (Ok tt, d').
Proof.
  apply (AddUsersToGroup_succeeds 9 "A1" "a1");
    [reflexivity|compute_done|repeat constructor].
Defined.

Lemma AddAllowedApp_outcome_witness :
  ∃ e, AddAllowedApp (S:=database) 9 "A1" "grafana" d0 = (Err e, d0) ∧
    errors_is e StorageErrDuplicateKey = true ∧ d0 = d0 ∧
    ∃ g', uuid_in "A1" = Some g' ∧ (g', "grafana") ∈ allowed d0.
Proof.
  eexists. split; [vm_compute; reflexivity|]. split; [reflexivity|].
  destruct (AddAllowedApp_outcome (S:=database) 9 "A1" "grafana" d0
    (Err (errorf_w "app already allowed for group" (ESentinel StorageErrDuplicateKey))) d0)
    as (_&Hd&_); [vm_compute; reflexivity|].
  split; [reflexivity|]. apply Hd. reflexivity.
Defined.

Lemma removals_outcome_witness :
  let d' := (RemoveAllowedApps (S:=database) "a1" d0).2 in
  ∃ g', uuid_in "a1" = Some g' ∧ (∀ a, a ∈ ["grafana"] ↔ (g', a) ∈ allowed (view d0)) ∧
    allowed (view d') = filter (λ p, p.1 ≠ g') (allowed (view d0)) ∧
    same_but_apps (view d0) (view d').
Proof.
  intros d'.
  assert (RemoveAllowedApps (S:=database) "a1" d0 = (Ok ["grafana"], d')) as Hr
    by (vm_compute; reflexivity).
  clearbody d'.
  exact (proj1 (removals_outcome "a1" d0 d' (Ok ["grafana"])) Hr).
Defined.

(** The callback stops the stream at its second user; a connection lost after one
    row has let that one through. *)
Example stream_stopped :
  let fn := λ x seen, (if decide (x = "v") then Err (EText "stop") else Ok tt, (seen ++ [x])%list) in
  StreamUsersInGroup (S:=database) None "" "a1" fn (d0, []) = (Err (EText "stop"), (d0, ["u"; "v"])) ∧
  StreamUsersInGroup (S:=database) (Some (1%nat, EText "timeout")) "" "a1" fn (d0, [])
    = (Err (errorf_v "error iterating group members" (EText "timeout")), (d0, ["u"])).
Proof. vm_compute. by split. Qed.

(** Without a transaction around it, a replacement that names an unknown group
    fails after it has removed the user's memberships. *)
Lemma UpdateGroupsForUser_not_atomic :
  ∃ e d', UpdateGroupsForUser (S:=database) 6 "u" ["c3"] d0 = (Err e, d') ∧
    errors_is e StorageErrForeignKeyViolation = true ∧
    ("a1", "u") ∈ memberships d0 ∧ ("a1", "u") ∉ memberships d'.
Proof.
  eexists _, _. split; [vm_compute; reflexivity|]. split; [reflexivity|].
  split; [apply elem_of_memberships|rewrite elem_of_memberships];
    compute_done.
Qed.

(** The deduplication compares texts: two spellings of one UUID still make the
    upsert touch a row twice. *)
Lemma UpdateGroupsForUser_two_spellings :
  (UpdateGroupsForUser (S:=database) 6 "u" ["b2"; "B2"] d0).1 =
    Err (errorf_v "failed to upsert group memberships" pg_cardinality).
Proof. vm_compute. reflexivity. Qed.
End Witnesses.
