(* ===== verification/Tracing.v ===== *)
(** * internal/tracing: the tracer of the service

    [NewTracer] picks an exporter from the configuration, installs the global tracer
    provider and makes the [Tracer] every component starts its spans on.  The
    OpenTelemetry SDK is the class [Otel]: its exporters' constructors may fail.  A
    pointer to a [Tracer] is an [option]; [Start] on nil panics.  What a span records
    and where it is sent is the SDK's.  [OpenTelemetry] wraps the whole HTTP handler in
    otelhttp's ([Otelhttp]), which is documented to call it once and pass its answer on. *)

From S2P Require Import Prelude Errors Logging.
Local Open Scope string_scope.

(** ** config.go *)

Record Config := mkConfig {
  OtelHTTPEndpoint : string; OtelGRPCEndpoint : string; cfg_Logger : Logger; Enabled : bool;
}.

Definition NewConfig (enabled : bool) (otelGRPCEndpoint otelHTTPEndpoint : string)
    (logger : Logger) : Config :=
  mkConfig otelHTTPEndpoint otelGRPCEndpoint logger enabled.
(** The logger of [NewNoopConfig] is nil and never used; here the one that writes nothing. *)
Definition NewNoopConfig : Config := mkConfig "" "" NewNoopLogger false.

(** ** The build information of the binary (runtime/debug) *)

Record BuildInfo := mkBuildInfo {
  info_Path : string; info_Main_Path : string; info_Settings : list (string * string);
}.

(** ** tracer.go *)

Fixpoint gitRevision (settings : list (string * string)) : string :=
  match settings with
  | [] => "n/a"
  | (Key, Value) :: settings =>
      if decide (Key = "vcs.revision") then Value else gitRevision settings
  end.

(** The attributes of a resource. *)
Abbreviation resource := (list (string * string)).

(** [info] is what [debug.ReadBuildInfo] returns. *)
Definition buildResource (info : option BuildInfo) (service : string) : resource :=
  match info with
  | None => [("service.name", service); ("service.version", "n/a")]
  | Some info =>
      let service := if decide (service = "") then info_Path info else service in
      [("service.name", service); ("git_sha", gitRevision (info_Settings info));
       ("app", info_Main_Path info)]
  end.

Class Otel := {
  exporter : Type;
  otlptrace_grpc : string → result exporter;
  otlptrace_http : string → result exporter;
  stdouttrace : result exporter;
  (** The operand of [%w] where the verb is not known, as [fmt] prints it. *)
  bad_verb_operand : goerr → string;
}.

Section tracer.
Context `{!Otel} `{!Zap}.

(** [trace.Tracer]: of the no-op provider, or of the global one. *)
Inductive trace_Tracer := NoopTracer (name : string) | SdkTracer (name : string).

Record Tracer := mkTracer { tracer : trace_Tracer; logger : Logger }.

(** The process' globals: the provider and the propagators, if they were set. *)
Record globals := mkGlobals {
  provider : option (exporter * resource); propagators : list string;
}.

(** [Tracer.init]; of the tracer it is called on only the logger is set. *)
Definition init (info : option BuildInfo) (logger : Logger) (service : string) (e : exporter)
    (g : globals) : Tracer * globals :=
  (mkTracer (SdkTracer service) logger,
   mkGlobals (Some (e, buildResource info service)) ["tracecontext"; "baggage"; "jaeger"]).

Definition new_exporter (cfg : Config) : result exporter :=
  if decide (OtelGRPCEndpoint cfg ≠ "") then otlptrace_grpc (OtelGRPCEndpoint cfg)
  else if decide (OtelHTTPEndpoint cfg ≠ "") then otlptrace_http (OtelHTTPEndpoint cfg)
  else stdouttrace.

Definition service_name : string := "github.com/canonical/hook-service".

(** The tracer, the lines written, the globals. *)
Definition NewTracer (info : option BuildInfo) (cfg : Config) (g : globals)
    : option Tracer * list line * globals :=
  if negb (Enabled cfg) then
    (Some (mkTracer (NoopTracer service_name) (cfg_Logger cfg)), [], g)
  else
    match new_exporter cfg with
    | Err err =>
        (None, log_Error (cfg_Logger cfg)
           ("unable to initialize tracing exporter due: %!w(" +:+ bad_verb_operand err +:+ ")"), g)
    | Ok e =>
        let '(t, g) := init info (cfg_Logger cfg) service_name e g in
        (Some t, [], g)
    end.

Definition NewNoopTracer (info : option BuildInfo) (g : globals) : option Tracer :=
  (NewTracer info NewNoopConfig g).1.1.

(** The tracer and the name of the span started. *)
Definition Start (t : option Tracer) (spanName : string) : result (trace_Tracer * string) :=
  match t with
  | Some t => Ok (tracer t, spanName)
  | None => Err (EPanic "invalid memory address or nil pointer dereference")
  end.

(** ** middleware.go *)

(** [otelhttp.NewHandler], on a handler over any state: "wraps the passed handler in a
    span named after the operation". *)
Class Otelhttp := {
  otelhttp_NewHandler {St A : Type} (handler : St → A * St) (operation : string) : St → A * St;
}.
Class OtelhttpLaws `{!Otelhttp} := {
  otelhttp_law {St A : Type} (handler : St → A * St) operation st :
    otelhttp_NewHandler handler operation st = handler st;
}.

Definition OpenTelemetry `{!Otelhttp} {St A : Type} (handler : St → A * St) : St → A * St :=
  otelhttp_NewHandler handler "server".

(** ** Properties *)

(** The revision is the value of the first setting with that key. *)
Lemma gitRevision_first settings :
  gitRevision settings =
  match filter (λ s, s.1 = "vcs.revision") settings with
  | s :: _ => s.2
  | [] => "n/a"
  end.
Proof.
  induction settings as [|[k v] settings IH]; [done|]. cbn [gitRevision].
  rewrite filter_cons; cbn [fst]. by case_decide.
Qed.

(** The tracer that the service gets.  Disabled, it is the no-op one and the
    process' globals are left alone; enabled, the exporter is the gRPC endpoint's, else
    the HTTP endpoint's, else the standard output's; if it cannot be made the tracer is
    nil, and starting a span on it panics. *)
Theorem NewTracer_spec info cfg g :
  let '(t, lines, g') := NewTracer info cfg g in
  ((∃ m, Start t "span" = Err (EPanic m)) ↔ Enabled cfg = true ∧ ∃ e, new_exporter cfg = Err e) ∧
  (Enabled cfg = false → g' = g ∧ lines = [] ∧ Start t "span" = Ok (NoopTracer service_name, "span")) ∧
  (∀ e, Enabled cfg = true → new_exporter cfg = Ok e →
     Start t "span" = Ok (SdkTracer service_name, "span") ∧
     provider g' = Some (e, buildResource info service_name)) ∧
  (∀ x, OtelGRPCEndpoint cfg ≠ "" → new_exporter cfg = x ↔ otlptrace_grpc (OtelGRPCEndpoint cfg) = x) ∧
  (∀ x, OtelGRPCEndpoint cfg = "" → OtelHTTPEndpoint cfg ≠ "" →
     new_exporter cfg = x ↔ otlptrace_http (OtelHTTPEndpoint cfg) = x).
Proof.
  unfold NewTracer. destruct (Enabled cfg); cbn [negb].
  2:{ split_and!; try done.
      - split; [by intros [? ?]|by intros [? ?]].
      - intros x Hg. unfold new_exporter. by rewrite decide_True.
      - intros x Hg Hh. unfold new_exporter. by rewrite decide_False, decide_True by tauto. }
  assert (∀ x, OtelGRPCEndpoint cfg ≠ "" →
    new_exporter cfg = x ↔ otlptrace_grpc (OtelGRPCEndpoint cfg) = x) as H1.
  { intros x Hg. unfold new_exporter. by rewrite decide_True. }
  assert (∀ x, OtelGRPCEndpoint cfg = "" → OtelHTTPEndpoint cfg ≠ "" →
    new_exporter cfg = x ↔ otlptrace_http (OtelHTTPEndpoint cfg) = x) as H2.
  { intros x Hg Hh. unfold new_exporter. by rewrite decide_False, decide_True by tauto. }
  destruct (new_exporter cfg) as [e|e] eqn:He; cbn; split_and!; try done.
  - split; [by intros [? ?]|by intros [_ [? ?]]].
  - intros e' _ [= <-]. done.
  - split; [intros _; split; [done|by eexists]|intros _; by eexists].
Qed.
End tracer.

Module Witnesses.
#[export] Instance test_otel : Otel := {|
  exporter := string;
  otlptrace_grpc e := if decide (e = "::bad") then Err (EText "parse error") else Ok e;
  otlptrace_http e := Ok e;
  stdouttrace := Ok "stdout";
  bad_verb_operand _ := "*errors.errorString=&{parse error}";
|}.

#[export] Instance test_otelhttp : Otelhttp := {| otelhttp_NewHandler _ _ h _ := h |}.
#[export] Instance test_otelhttp_laws : OtelhttpLaws.
Proof. by split. Qed.

(** An endpoint that does not parse leaves the service with a nil tracer. *)
Example bad_endpoint_is_nil :
  (NewTracer (H0 := Logging.Witnesses.test_zap) None
     (NewConfig true "::bad" "" (NewLogger (H := Logging.Witnesses.test_zap) "error"))
     (mkGlobals None [])).1.1 = None.
Proof. vm_compute. reflexivity. Qed.
End Witnesses.
