(* ===== verification/DbClient.v ===== *)
(** * internal/db: connections, transactions, replica routing

    [DBClient] chooses, for every statement, where it runs: in the lazily begun
    transaction of [WithTx], in an explicit transaction of the context, on the
    replica, or on the primary outside any transaction.  The state [client] holds
    the client's fields and what PostgreSQL holds for it: the committed database
    of the primary, the database the replica serves, the working copy of each
    open transaction.  The objects shared through a context (transactions, the
    [lazyTx] holder of [WithTx]) live in stores and a context refers to them.

    The server may fail any request: the lists of faults say, request by request,
    which BEGIN, statement or COMMIT fails and with what error.  A transaction
    one of whose statements failed accepts no other and cannot commit, and a
    transaction that is over answers [sql.ErrTxDone] (PostgreSQL, database/sql).
    Other sessions are not modelled: isolation between sessions is PostgreSQL's. *)

From Stdlib Require Import SpecFloat.
From stdpp Require Import pretty.
From S2P Require Import Prelude Errors Types Sql Storage StorageSpec.
Open Scope Z_scope.

(** ** Paging *)

Definition max_uint64 : Z := 2 ^ 64.
Definition defaultPage : Z := 1.
Definition defaultPageSize : Z := 100.
Definition MaxInt64 : Z := 2 ^ 63 - 1.

(** uint64 arithmetic wraps. *)
Definition Offset (pageParam pageSize : Z) : Z :=
  if decide (pageParam ≤ 0) then (defaultPage - 1) * pageSize
  else ((pageParam - 1) * pageSize) mod max_uint64.

Definition PageSize (sizeParam : Z) : Z :=
  if decide (sizeParam ≤ 0) then defaultPageSize else sizeParam.

(** ** State *)

Record tx := mkTx {
  tx_db : database;    (** the committed database and the transaction's writes *)
  tx_failed : bool;    (** a statement failed: nothing but ROLLBACK is accepted *)
  tx_done : bool;      (** committed or rolled back *)
}.

(** [lazyTx]; [lt_cancel] says that [cancel] is set. *)
Record lazyTx := mkLazyTx {
  lt_tx : option nat; lt_committed : bool; lt_cancel : bool;
}.

Record client := mkClient {
  primary : database;
  replicaRunner : option database;
  replicaLagMs : Z;
  maxLagMs : Z;
  replicaQueries : nat;
  primaryFallbacks : nat;
  txs : gmap nat tx;
  lazies : gmap nat lazyTx;
  begin_faults : list (option goerr);
  stmt_faults : list (option string);
  (** a COMMIT reported as failed may have been done ([true]) or not *)
  commit_faults : list (option (goerr * bool));
}.

Definition set_primary d (c : client) := mkClient d (replicaRunner c) (replicaLagMs c)
  (maxLagMs c) (replicaQueries c) (primaryFallbacks c) (txs c) (lazies c)
  (begin_faults c) (stmt_faults c) (commit_faults c).
Definition set_txs t (c : client) := mkClient (primary c) (replicaRunner c) (replicaLagMs c)
  (maxLagMs c) (replicaQueries c) (primaryFallbacks c) t (lazies c)
  (begin_faults c) (stmt_faults c) (commit_faults c).
Definition set_lazies l (c : client) := mkClient (primary c) (replicaRunner c) (replicaLagMs c)
  (maxLagMs c) (replicaQueries c) (primaryFallbacks c) (txs c) l
  (begin_faults c) (stmt_faults c) (commit_faults c).
Definition set_lag z (c : client) := mkClient (primary c) (replicaRunner c) z
  (maxLagMs c) (replicaQueries c) (primaryFallbacks c) (txs c) (lazies c)
  (begin_faults c) (stmt_faults c) (commit_faults c).
Definition count_replica (c : client) := mkClient (primary c) (replicaRunner c) (replicaLagMs c)
  (maxLagMs c) (Datatypes.S (replicaQueries c)) (primaryFallbacks c) (txs c) (lazies c)
  (begin_faults c) (stmt_faults c) (commit_faults c).
Definition count_fallback (c : client) := mkClient (primary c) (replicaRunner c) (replicaLagMs c)
  (maxLagMs c) (replicaQueries c) (Datatypes.S (primaryFallbacks c)) (txs c) (lazies c)
  (begin_faults c) (stmt_faults c) (commit_faults c).
Definition drop_begin (c : client) := mkClient (primary c) (replicaRunner c) (replicaLagMs c)
  (maxLagMs c) (replicaQueries c) (primaryFallbacks c) (txs c) (lazies c)
  (tail (begin_faults c)) (stmt_faults c) (commit_faults c).
Definition drop_stmt (c : client) := mkClient (primary c) (replicaRunner c) (replicaLagMs c)
  (maxLagMs c) (replicaQueries c) (primaryFallbacks c) (txs c) (lazies c)
  (begin_faults c) (tail (stmt_faults c)) (commit_faults c).
Definition drop_commit (c : client) := mkClient (primary c) (replicaRunner c) (replicaLagMs c)
  (maxLagMs c) (replicaQueries c) (primaryFallbacks c) (txs c) (lazies c)
  (begin_faults c) (stmt_faults c) (tail (commit_faults c)).

(** The fault of the next request, if it has one. *)
Definition next {A} (l : list (option A)) : option A := default None (head l).

(** ** Contexts: the values stored under the package's three keys *)

Record ctx := mkCtx {
  lazyTxContext : option nat; txContext : option nat; readOnlyContext : bool;
}.

Definition background : ctx := mkCtx None None false.
Definition ContextWithTx (c : ctx) (t : nat) : ctx :=
  mkCtx (lazyTxContext c) (Some t) (readOnlyContext c).
Definition contextWithLazyTx (c : ctx) (lt : nat) : ctx :=
  mkCtx (Some lt) (txContext c) (readOnlyContext c).
Definition contextWithReadOnly (c : ctx) : ctx :=
  mkCtx (lazyTxContext c) (txContext c) true.
Definition WithReadOnly (c : ctx) : ctx := contextWithReadOnly c.
Definition hasTransaction (c : ctx) : bool :=
  bool_decide (txContext c ≠ None) || bool_decide (lazyTxContext c ≠ None).

(** ** Transactions *)

(** [sql.DB.BeginTx]. *)
Definition db_BeginTx : M client nat := λ c,
  match next (begin_faults c) with
  | Some e => (Err e, drop_begin c)
  | None =>
      let t := fresh (dom (txs c)) in
      (Ok t, set_txs (<[t := mkTx (primary c) false false]> (txs c)) (drop_begin c))
  end.

Definition commit_rollback : goerr := EText "commit unexpectedly resulted in rollback".

(** [sql.Tx.Commit]: whatever it answers, the transaction is over. *)
Definition tx_Commit (t : nat) : M client unit := λ c,
  match txs c !! t with
  | None => (Err (ESentinel SqlErrTxDone), c)
  | Some x =>
      if tx_done x then (Err (ESentinel SqlErrTxDone), c)
      else
        let c' := set_txs (<[t := mkTx (tx_db x) (tx_failed x) true]> (txs c)) c in
        if tx_failed x then (Err commit_rollback, c')
        else match next (commit_faults c) with
             | Some (e, applied) =>
                 (Err e, drop_commit (if (applied : bool) then set_primary (tx_db x) c' else c'))
             | None => (Ok tt, drop_commit (set_primary (tx_db x) c'))
             end
  end.

(** [sql.Tx.Rollback]. *)
Definition tx_Rollback (t : nat) : M client unit := λ c,
  match txs c !! t with
  | None => (Err (ESentinel SqlErrTxDone), c)
  | Some x =>
      if tx_done x then (Err (ESentinel SqlErrTxDone), c)
      else (Ok tt, set_txs (<[t := mkTx (tx_db x) (tx_failed x) true]> (txs c)) c)
  end.

Definition set_lazy (l : nat) (lt : lazyTx) (c : client) : client :=
  set_lazies (<[l := lt]> (lazies c)) c.

(** [lazyTx.get]. *)
Definition lazyTx_get (l : nat) : M client nat := λ c,
  match lazies c !! l with
  | None => (Err (EText "nil lazyTx"), c)
  | Some lt =>
      match lt_tx lt with
      | Some t => (Ok t, c)
      | None =>
          match db_BeginTx c with
          | (Err e, c) => (Err e, c)
          | (Ok t, c) => (Ok t, set_lazy l (mkLazyTx (Some t) (lt_committed lt) true) c)
          end
      end
  end.

Definition isStarted (lt : lazyTx) : bool := bool_decide (lt_tx lt ≠ None).

(** ** Statement *)

(** What [RunWith] is given. *)
Inductive runner := RunTx (t : nat) | RunReplica | RunPrimary.

#[export] Instance runner_eq_dec : EqDecision runner.
Proof. solve_decision. Defined.

(** The choice when no transaction can be used: lines 170-193. *)
Definition Statement_no_lazy (x : ctx) (c : client) : runner * client :=
  match txContext x with
  | Some t => (RunTx t, c)
  | None =>
      if readOnlyContext x && bool_decide (replicaRunner c ≠ None) then
        if decide (replicaLagMs c > maxLagMs c) then (RunPrimary, count_fallback c)
        else (RunReplica, count_replica c)
      else (RunPrimary, c)
  end.

(** A failure to begin the lazy transaction is logged and the next choice is
    tried. *)
Definition Statement (x : ctx) (c : client) : runner * client :=
  match lazyTxContext x with
  | Some l =>
      match lazyTx_get l c with
      | (Ok t, c) => (RunTx t, c)
      | (Err _, c) => Statement_no_lazy x c
      end
  | None => Statement_no_lazy x c
  end.

(** [TxStatement] and [BeginTx]. *)
Definition TxStatement (x : ctx) : M client (nat * runner) :=
  t ← db_BeginTx; mret (t, RunTx t).
Definition BeginTx (x : ctx) : M client (ctx * nat) :=
  t ← db_BeginTx; mret (ContextWithTx x t, t).

(** ** What the server answers *)

Definition pg_read_only : goerr :=
  EPg "25006" "cannot execute statement in a read-only transaction".
Definition pg_aborted : goerr := EPg "25P02" "current transaction is aborted".

Definition is_query (st : stmt) : bool :=
  match st with Select _ _ _ _ => true | _ => false end.

Section client_engine.
Context `{PgParams}.

Definition run_on (r : runner) (st : stmt) : M client qresult := λ c0,
  let c := drop_stmt c0 in
  let failed := EText <$> next (stmt_faults c0) in
  match r with
  | RunPrimary =>
      match failed with
      | Some e => (Err e, c)
      | None => let '(q, d) := run 0 st (primary c) in (q, set_primary d c)
      end
  | RunReplica =>
      match failed, replicaRunner c with
      | Some e, _ => (Err e, c)
      | None, None => (Err (EText "nil runner"), c)
      | None, Some d =>
          if is_query st then ((run 0 st d).1, c) else (Err pg_read_only, c)
      end
  | RunTx t =>
      match txs c !! t with
      | None => (Err (ESentinel SqlErrTxDone), c)
      | Some x =>
          if tx_done x then (Err (ESentinel SqlErrTxDone), c)
          else if tx_failed x then (Err pg_aborted, c)
          else
            let '(q, d) := match failed with
                           | Some e => (Err e, tx_db x)
                           | None => run 0 st (tx_db x)
                           end in
            (q, set_txs (<[t := mkTx d (negb (is_ok q)) false]> (txs c)) c)
      end
  end.

Definition tx_view (t : nat) (c : client) : database :=
  match txs c !! t with Some y => tx_db y | None => primary c end.

(** The database that the statements of a context see. *)
Definition ctx_view (x : ctx) (c : client) : database :=
  match lazyTxContext x, txContext x with
  | Some l, _ =>
      match lazies c !! l with
      | Some lt => match lt_tx lt with Some t => tx_view t c | None => primary c end
      | None => primary c
      end
  | None, Some t => tx_view t c
  | None, None =>
      if readOnlyContext x && bool_decide (replicaLagMs c ≤ maxLagMs c)
      then default (primary c) (replicaRunner c) else primary c
  end.

(** A statement of the context [x]: [Statement(ctx)....ExecContext(ctx)]. *)
Definition client_engine (x : ctx) : Engine client := {|
  exec st c := let '(r, c) := Statement x c in run_on r st c;
  view := ctx_view x;
|}.

(** Any sequence of statements of the context. *)
Definition step (x : ctx) : relation client :=
  λ c c', ∃ st r, @exec _ (client_engine x) st c = (r, c').
End client_engine.

(** ** WithTx *)

(** A statement of the context's lazy transaction has failed: it cannot commit. *)
Definition tx_aborted (x : ctx) (c : client) : bool :=
  match lazyTxContext x with
  | Some l =>
      match lazies c !! l with
      | Some lt =>
          match lt_tx lt with
          | Some t => match txs c !! t with Some y => tx_failed y | None => false end
          | None => false
          end
      | None => false
      end
  | None => false
  end.

(** The next COMMIT fails, and the server has not done it. *)
Definition commit_lost (c : client) : bool :=
  match next (commit_faults c) with Some (_, applied) => negb applied | None => false end.

(** The function [WithTx] defers: roll back what was started and not
    committed; an error of the rollback is only logged. *)
Definition WithTx_deferred (l : nat) (c : client) : client :=
  match lazies c !! l with
  | Some lt =>
      match lt_tx lt with
      | Some t => if lt_committed lt then c else (tx_Rollback t c).2
      | None => c
      end
  | None => c
  end.

Definition WithTx_commit (l : nat) : M client unit := λ c,
  match lazies c !! l with
  | Some lt =>
      match lt_tx lt with
      | Some t =>
          match tx_Commit t c with
          | (Err err, c) => (Err (errorf_v "failed to commit transaction" err), c)
          | (Ok _, c) => (Ok tt, set_lazy l (mkLazyTx (Some t) true (lt_cancel lt)) c)
          end
      | None => (Ok tt, c)
      end
  | None => (Ok tt, c)
  end.

(** The holder that [WithTx] puts into the context, and what it does once its
    function has returned. *)
Definition WithTx_enter (c : client) : nat * client :=
  let l := fresh (dom (lazies c)) in (l, set_lazy l (mkLazyTx None false false) c).

Definition WithTx_return {W} (l : nat) (returned : result unit * (client * W))
    : result unit * (client * W) :=
  match returned with
  | (Err err, (c, w)) => (Err err, (WithTx_deferred l c, w))
  | (Ok _, (c, w)) => let '(r, c) := WithTx_commit l c in (r, (WithTx_deferred l c, w))
  end.

(** [fn] is a closure: [W] is the state it captures besides the client. *)
Definition WithTx {W} (x : ctx) (fn : ctx → M (client * W) unit) : M (client * W) unit :=
  λ cw,
    let '(l, c) := WithTx_enter cw.1 in
    WithTx_return l (fn (contextWithLazyTx x l) (c, cw.2)).

(** ** middleware.go *)

(** How a handler ends: with the codes it passed to [WriteHeader], with a panic, or
    never. *)
Inductive served := Wrote (codes : list Z) | Panicked (msg : string) | Hangs.

#[export] Instance served_eq_dec : EqDecision served.
Proof. solve_decision. Defined.

(** An [http.Handler] in a context, over the client and what else it works on. *)
Abbreviation http_handler W := (ctx → client * W → served * (client * W)) (only parsing).

(** [responseWriter.statusCode] after the calls of [WriteHeader]: 200 until the
    first, then the last. *)
Definition statusCode (codes : list Z) : Z := default 200 (list.last codes).

(** What the function passed to [WithTx] makes of the handler's end; a panic runs
    the deferred function as an error does. *)
Definition request_failed (out : served) : result unit :=
  match out with
  | Wrote codes =>
      if decide (400 ≤ statusCode codes)
      then Err (EText ("request failed with status " +:+ pretty (statusCode codes)))
      else Ok tt
  | Panicked m => Err (EPanic m)
  | Hangs => Ok tt
  end.

(** The underlying writer gets every code of the handler; the error of [WithTx] is
    not looked at.  A handler that never returns never leaves [WithTx]. *)
Definition TransactionMiddleware {W} (Method : string) (next : http_handler W)
    (x : ctx) (cw : client * W) : served * (client * W) :=
  if decide (Method = "GET" ∨ Method = "HEAD")%string then next (contextWithReadOnly x) cw
  else
    let '(l, c) := WithTx_enter cw.1 in
    match next (contextWithLazyTx x l) (c, cw.2) with
    | (Hangs, st) => (Hangs, st)
    | (out, st) => (out, (WithTx_return l (request_failed out, st)).2)
    end.

(** ** grpc_middleware.go *)

Definition isReadOnlyMethod (fullMethod : string) : bool :=
  match list.last (Split "/"%char fullMethod) with
  | None => false
  | Some method =>
      String.prefix "Get" method || String.prefix "List" method ||
      String.prefix "Query" method || String.prefix "Describe" method ||
      String.prefix "Search" method
  end%string.

(** The unary and the stream interceptor change the context in the same way. *)
Definition UnaryReplicaRoutingInterceptor {A} (fullMethod : string) (handler : ctx → A)
    (x : ctx) : A :=
  handler (if isReadOnlyMethod fullMethod && negb (hasTransaction x)
           then WithReadOnly x else x).
Definition StreamReplicaRoutingInterceptor {A} (fullMethod : string) (handler : ctx → A)
    (x : ctx) : A :=
  if isReadOnlyMethod fullMethod && negb (hasTransaction x)
  then handler (WithReadOnly x) else handler x.

(** ** monitorReplicationLag *)

Definition isMissingRelation (err : option goerr) : bool :=
  match err with
  | None => false
  | Some err =>
      match errors_as_pg err with
      | Some code => bool_decide (code = "42P01"%string)
      | None => false
      end
  end.

(** One tick: the answer to the query is (count, lag) or an error.  [None]: the
    monitor returns. *)
Definition monitor_tick (answer : result (Z * Z)) (c : client) : option client :=
  match answer with
  | Err err => if isMissingRelation (Some err) then None else Some (set_lag MaxInt64 c)
  | Ok (count, lagMs) =>
      Some (set_lag (if decide (count = 0) then MaxInt64 else lagMs) c)
  end.

(** The monitor over the answers it gets until its context is cancelled. *)
Fixpoint monitorReplicationLag (answers : list (result (Z * Z))) (c : client) : client :=
  match answers with
  | [] => c
  | a :: answers =>
      match monitor_tick a c with
      | None => c
      | Some c => monitorReplicationLag answers c
      end
  end.

(** What [Close] calls, in order; a client has the replica's fields and the monitor's
    cancel function exactly when it has a replica. *)
Inductive close_call :=
  | CancelMonitor | CloseReplicaDB | CloseReplicaPool | CloseDB | ClosePool.

Definition Close (c : client) : list close_call :=
  (match replicaRunner c with
   | Some _ => [CancelMonitor; CloseReplicaDB; CloseReplicaPool]
   | None => []
   end) ++ [CloseDB; ClosePool].

(** ** NewDBClient *)

Record Config := mkConfig {
  DSN : string; MaxConns : Z; MinConns : Z; MaxConnLifetime : Z; MaxConnIdleTime : Z;
  TracingEnabled : bool;
  ReplicaDSN : string; ReplicaMaxConns : Z; ReplicaMinConns : Z;
  ReplicaMaxConnLifetime : Z; ReplicaMaxConnIdleTime : Z; MaxReplicaLagMs : Z;
  ReplicaPoolSizeMultiplier : spec_float;
}.

(** What the pgx calls answer: [None] is success. *)
Record pgx_answers := mkPgx {
  parse_dsn : option goerr; new_pool : option goerr; record_stats : option goerr;
  ping : option goerr;
  parse_replica_dsn : option goerr; new_replica_pool : option goerr;
  ping_replica : option goerr;
  (** what the server fails later, request by request *)
  later_begins : list (option goerr);
  later_statements : list (option string);
  later_commits : list (option (goerr * bool));
}.

(** float64, as IEEE 754 binary64. *)
Definition float64 (n : Z) : spec_float := binary_normalize 53 1024 n 0 false.
Definition float64_mul (x y : spec_float) : spec_float := SFmul 53 1024 x y.

(** [int32(f)]: truncation; the language leaves the rest to the implementation. *)
Definition int32_of_float64 (impl : spec_float → Z) (f : spec_float) : Z :=
  let z := match f with
           | S754_zero _ => Some 0
           | S754_finite s m e =>
               let a := if decide (0 ≤ e) then Z.pos m * 2 ^ e else Z.pos m / 2 ^ (- e) in
               Some (if s then - a else a)
           | _ => None
           end in
  match z with
  | Some z => if decide (- 2 ^ 31 ≤ z < 2 ^ 31) then z else impl f
  | None => impl f
  end.

Definition replica_max_conns (impl : spec_float → Z) (cfg : Config) : Z :=
  let n := ReplicaMaxConns cfg in
  let n := if SFltb (S754_zero false) (ReplicaPoolSizeMultiplier cfg) && bool_decide (n = 0)
           then int32_of_float64 impl
                  (float64_mul (float64 (MaxConns cfg)) (ReplicaPoolSizeMultiplier cfg))
           else n in
  let n := if decide (n ≤ 0) then MaxConns cfg else n in
  if decide (n ≤ 0) then 5 else n.

(** [logger.Fatalf] ends the process. *)
Inductive start_outcome := Fatal (msg : string) | Started (c : result client).

(** The databases behind the two DSNs are [d] and [rd]. *)
Definition NewDBClient (cfg : Config) (a : pgx_answers) (d rd : database) : start_outcome :=
  let maxLag := if decide (MaxReplicaLagMs cfg ≤ 0) then 1000 else MaxReplicaLagMs cfg in
  let start r := mkClient d r MaxInt64 maxLag 0 0 ∅ ∅
                   (later_begins a) (later_statements a) (later_commits a) in
  match parse_dsn a with
  | Some err => Fatal ("DSN validation failed, shutting down, err: " +:+ Error err)
  | None =>
  match new_pool a with
  | Some err => Started (Err (errorf_v "failed to create db pool" err))
  | None =>
  match (if TracingEnabled cfg then record_stats a else None) with
  | Some err => Started (Err (errorf_v "failed to start metrics collection for database" err))
  | None =>
  match ping a with
  | Some err => Started (Err (errorf_v "failed to connect to the database" err))
  | None =>
      if decide (ReplicaDSN cfg ≠ "")%string then
        match parse_replica_dsn a, new_replica_pool a, ping_replica a with
        | None, None, None => Started (Ok (start (Some rd)))
        | _, _, _ => Started (Ok (start None))
        end
      else Started (Ok (start None))
  end end end end.

(** ** Properties *)

Section engine_laws.
Context `{PgParams}.

Lemma run_on_tx t st c r c' y :
  txs c !! t = Some y → run_on (RunTx t) st c = (r, c') →
  primary c' = primary c ∧ lazies c' = lazies c ∧ commit_faults c' = commit_faults c ∧
  (∃ y', txs c' = <[t := y']> (txs c) ∧ tx_done y' = tx_done y ∧
     ((∃ now, run now st (tx_db y) = (r, tx_db y')) ∨
      (∃ e, r = Err e ∧ operational e ∧ tx_db y' = tx_db y))).
Proof.
  intros Ht. unfold run_on; cbn. rewrite Ht.
  destruct (tx_done y) eqn:Hd.
  { intros [= <- <-]. split_and!; try done. exists y. rewrite insert_id by done.
    split_and!; [done..|right]. by exists (ESentinel SqlErrTxDone). }
  destruct (tx_failed y).
  { intros [= <- <-]. split_and!; try done. exists y. rewrite insert_id by done.
    split_and!; [done..|right]. by exists pg_aborted. }
  destruct (next (stmt_faults c)) as [m|]; cbn.
  - intros [= <- <-]. split_and!; try done. eexists. split_and!; [done|done|right].
    by exists (EText m).
  - destruct (run 0 st (tx_db y)) as [q d] eqn:Hr. intros [= <- <-].
    split_and!; try done. eexists. split_and!; [done|done|left]. by exists 0.
Qed.

Lemma run_on_primary st c r c' :
  run_on RunPrimary st c = (r, c') →
  lazies c' = lazies c ∧ txs c' = txs c ∧ replicaRunner c' = replicaRunner c ∧
  replicaLagMs c' = replicaLagMs c ∧ maxLagMs c' = maxLagMs c ∧
  ((∃ now, run now st (primary c) = (r, primary c')) ∨
   (∃ e, r = Err e ∧ operational e ∧ primary c' = primary c)).
Proof.
  unfold run_on; cbn. destruct (next (stmt_faults c)) as [m|]; cbn.
  - intros [= <- <-]. split_and!; try done. right. by exists (EText m).
  - destruct (run 0 st (primary c)) as [q d] eqn:Hr. intros [= <- <-].
    split_and!; try done. left. by exists 0.
Qed.

Lemma run_on_replica st c r c' d :
  replicaRunner c = Some d → run_on RunReplica st c = (r, c') →
  c' = drop_stmt c ∧
  ((∃ now, run now st d = (r, d)) ∨ (∃ e, r = Err e ∧ operational e)).
Proof.
  intros Hd. unfold run_on; cbn. rewrite Hd. destruct (next (stmt_faults c)) as [m|]; cbn.
  - intros [= <- <-]. split; [done|right]. by exists (EText m).
  - destruct (is_query st) eqn:Hq; intros [= <- <-]; (split; [done|]).
    + left. exists 0. destruct st; try done.
      destruct (run 0 _ d) as [q d'] eqn:Hr. by rewrite (run_select _ _ _ _ _ _ _ _ Hr).
    + right. by exists pg_read_only.
Qed.

Lemma run_on_unknown t st c :
  txs c !! t = None → run_on (RunTx t) st c = (Err (ESentinel SqlErrTxDone), drop_stmt c).
Proof. intros Ht. unfold run_on; cbn. by rewrite Ht. Qed.

(** The contexts the program makes: a lazy transaction alone, an explicit one
    alone, or neither. *)
Definition ctx_simple (x : ctx) : Prop :=
  match lazyTxContext x with
  | Some _ => txContext x = None ∧ readOnlyContext x = false
  | None => True
  end.

(** A connection satisfies the interface of the storage layer. *)
Lemma engine_laws_of x : ctx_simple x → EngineLaws client (H := H) (Engine0 := client_engine x).
Proof.
  intros Hx. split. intros st c r c' He. cbn in *.
  destruct (Statement x c) as [ru c1] eqn:Hst.
  destruct x as [[l|] [t|] ro]; cbn in *; [by destruct Hx|destruct Hx as [_ ->]|..].
  - unfold Statement, ctx_view in *; cbn in *. unfold lazyTx_get in Hst.
    destruct (lazies c !! l) as [lt|] eqn:Hl.
    2: { cbn in Hst. simplify_eq. apply run_on_primary in He as (Hlz&_&_&_&_&Hr).
         rewrite Hlz, Hl. done. }
    destruct (lt_tx lt) as [t|] eqn:Hlt.
    + simplify_eq. unfold tx_view. destruct (txs c1 !! t) as [y|] eqn:Hy.
      2: { rewrite run_on_unknown in He by done. simplify_eq. cbn. rewrite Hl, Hlt, Hy.
           right. by eexists. }
      destruct (run_on_tx _ _ _ _ _ _ Hy He) as (_&Hlz&_&y'&Htx&_&Hr).
      rewrite Hlz, Htx, Hl, Hlt, lookup_insert_eq. done.
    + unfold db_BeginTx in Hst. destruct (next (begin_faults c)) as [e|].
      * cbn in Hst. simplify_eq. apply run_on_primary in He as (Hlz&_&_&_&_&Hr).
        cbn in *. rewrite Hlz, Hl, Hlt. done.
      * simplify_eq. eapply run_on_tx in He as (_&Hlz&_&y'&Htx&_&Hr).
        2: { cbn. apply lookup_insert_eq. }
        unfold tx_view. rewrite Hlz, Htx. cbn. rewrite !lookup_insert_eq. cbn.
        rewrite lookup_insert_eq. done.
  - unfold Statement, Statement_no_lazy, ctx_view in *; cbn in *. simplify_eq.
    unfold tx_view. destruct (txs c1 !! t) as [y|] eqn:Hy.
    2: { rewrite run_on_unknown in He by done. simplify_eq. cbn. rewrite Hy.
         right. by eexists. }
    destruct (run_on_tx _ _ _ _ _ _ Hy He) as (_&_&_&y'&Htx&_&Hr).
    by rewrite Htx, lookup_insert_eq.
  - unfold Statement, Statement_no_lazy, ctx_view in *; cbn in *.
    destruct ro; cbn in *.
    2: { simplify_eq. by apply run_on_primary in He as (_&_&_&_&_&Hr). }
    destruct (replicaRunner c) as [d|] eqn:Hd; cbn in Hst.
    2: { simplify_eq. apply run_on_primary in He as (_&_&->&->&->&Hr). rewrite Hd.
         cbn. by destruct (bool_decide _). }
    case_decide as Hlag; simplify_eq.
    + apply run_on_primary in He as (_&_&->&->&->&Hr). cbn.
      rewrite bool_decide_false by lia. done.
    + eapply run_on_replica in He as [-> Hr]; [|done]. cbn.
      rewrite bool_decide_true by lia. rewrite Hd. cbn.
      destruct Hr as [?|(e&?&?)]; [by left|right; by exists e].
Qed.

(** C24: a connection of [DBClient] is a connection as the storage layer needs
    it, in every context the program makes and however the server fails: each
    statement acts on the database its context sees as SQL says, or fails for
    an operational reason and changes nothing there.  So every theorem of the
    storage layer holds through the lazy transaction, an explicit transaction,
    the replica and the primary. *)
Theorem DBClient_engine x : ctx_simple x → EngineLaws client (H := H) (Engine0 := client_engine x).
Proof. apply engine_laws_of. Qed.
End engine_laws.

(** ** Transactions are atomic *)

Section atomicity.
Context `{PgParams}.

(** The body of a transaction reaches the database only through statements of
    its context. *)
Definition confined {W} (x : ctx) (m : M (client * W) unit) : Prop :=
  ∀ c w r c' w', m (c, w) = (r, (c', w')) → rtc (step x) c c'.

(** Between the start and the end of [WithTx] on the holder [l]: the primary is
    as it was, and the transaction, once begun, is the holder's. *)
Definition in_tx (c0 : client) (l : nat) (c : client) : Prop :=
  primary c = primary c0 ∧ commit_faults c = commit_faults c0 ∧
  ((lazies c !! l = Some (mkLazyTx None false false) ∧ next (begin_faults c) = None ∧
    txs c = txs c0) ∨
   ∃ t y, lazies c !! l = Some (mkLazyTx (Some t) false true) ∧ txs c0 !! t = None ∧
     txs c = <[t := y]> (txs c0) ∧ tx_done y = false).

Lemma in_tx_step c0 l x c c' :
  lazyTxContext x = Some l → step x c c' → in_tx c0 l c → in_tx c0 l c'.
Proof.
  intros Hx (st&r&He) (HP&HF&Hc). cbn in He.
  destruct (Statement x c) as [ru c1] eqn:Hst. unfold Statement, lazyTx_get in Hst.
  rewrite Hx in Hst.
  destruct Hc as [(Hl&Hb&HT)|(t&y&Hl&Ht&HT&Hy)]; rewrite Hl in Hst; cbn in Hst.
  - unfold db_BeginTx in Hst. rewrite Hb in Hst. simplify_eq.
    set (t := fresh (dom (txs c))) in *.
    assert (txs c !! t = None) as Hf by (apply not_elem_of_dom, is_fresh).
    edestruct run_on_tx as (Hp&Hlz&Hcf&y'&Htx&Hd&_); [|exact He|].
    { cbn. apply lookup_insert_eq. }
    split; [rewrite Hp; done|]. split; [rewrite Hcf; done|right]. exists t, y'.
    rewrite <- HT, Hlz, Htx; cbn. rewrite lookup_insert_eq, insert_insert_eq. done.
  - simplify_eq. edestruct run_on_tx as (Hp&Hlz&Hcf&y'&Htx&Hd&_); [|exact He|].
    { rewrite HT. apply lookup_insert_eq. }
    split; [rewrite Hp; done|]. split; [rewrite Hcf; done|right]. exists t, y'.
    rewrite Hlz, Htx, HT, insert_insert_eq. split_and!; congruence.
Qed.

Lemma in_tx_steps c0 l x c c' :
  lazyTxContext x = Some l → rtc (step x) c c' → in_tx c0 l c → in_tx c0 l c'.
Proof. intros Hx. induction 1; eauto using in_tx_step. Qed.

(** The end of [WithTx], from a state inside it. *)
Lemma rollback_outcome c0 l c :
  in_tx c0 l c →
  primary (WithTx_deferred l c) = primary c0 ∧
  ∀ t, txs c0 !! t = None → ∀ y, txs (WithTx_deferred l c) !! t = Some y → tx_done y = true.
Proof.
  intros (HP&_&[(Hl&_&HT)|(t&y&Hl&Ht&HT&Hy)]); unfold WithTx_deferred; rewrite Hl; cbn.
  - split; [done|]. rewrite HT. intros; simplify_eq.
  - unfold tx_Rollback. rewrite HT, lookup_insert_eq, Hy. cbn. split; [done|].
    intros t' Ht' y'. rewrite insert_insert_eq.
    rewrite lookup_insert. case_decide; [by intros; simplify_eq|]. congruence.
Qed.

(** What is committed at the end of a transaction whose function succeeded. *)
Definition committed (c0 : client) (x : ctx) (c1 : client) : database :=
  if tx_aborted x c1 || commit_lost c0 then primary c0 else ctx_view x c1.

Lemma commit_outcome c0 l x c r c1 :
  lazyTxContext x = Some l → in_tx c0 l c → WithTx_commit l c = (r, c1) →
  let c' := WithTx_deferred l c1 in
  (∀ t, txs c0 !! t = None → ∀ y, txs c' !! t = Some y → tx_done y = true) ∧
  primary c' = committed c0 x c ∧
  ((r = Ok tt ∧ primary c' = ctx_view x c) ∨
   ∃ e, r = Err (errorf_v "failed to commit transaction" e)).
Proof.
  intros Hx (HP&HF&[(Hl&_&HT)|(t&y&Hl&Ht&HT&Hy)]);
    unfold WithTx_commit, committed, ctx_view, tx_aborted, commit_lost;
    rewrite Hx, Hl, <- HF; cbn.
  - intros [= <- <-]. unfold WithTx_deferred. rewrite Hl; cbn. rewrite HT.
    split; [intros; simplify_eq|]. rewrite HP. repeat case_match; auto.
  - assert (∀ y', tx_done y' = true → ∀ t', txs c0 !! t' = None → ∀ y'',
      (<[t:=y']> (txs c0) : gmap nat tx) !! t' = Some y'' → tx_done y'' = true) as Hins.
    { intros y' Hy' t' Ht' y''. rewrite lookup_insert. case_decide; [|congruence].
      by intros; simplify_eq. }
    unfold tx_Commit, tx_view. rewrite HT, lookup_insert_eq, Hy. cbn.
    destruct (tx_failed y); [|destruct (next (commit_faults c)) as [[e []]|]]; cbn;
      intros [= <- <-]; unfold WithTx_deferred; cbn;
      rewrite ?Hl, ?lookup_insert_eq; cbn; unfold tx_Rollback; cbn;
      rewrite ?lookup_insert_eq; cbn; rewrite ?insert_insert_eq;
      (split; [by apply Hins|]); eauto 6.
Qed.

Lemma enter_in_tx c l c0 :
  next (begin_faults c) = None → WithTx_enter c = (l, c0) →
  in_tx c l c0 ∧ ∀ x, ctx_view (contextWithLazyTx x l) c0 = primary c.
Proof.
  intros Hb [= <- <-]. split.
  - split; [done|split; [done|left]]. cbn. by rewrite lookup_insert_eq.
  - intros x. unfold ctx_view; cbn. by rewrite lookup_insert_eq.
Qed.

(** How [WithTx] ends once its function has returned [r1]. *)
Definition tx_outcome (c : client) (x : ctx) (r1 : result unit) (c1 : client)
    (r : result unit) (c' : client) : Prop :=
  (∀ t, txs c !! t = None → ∀ y, txs c' !! t = Some y → tx_done y = true) ∧
  match r1 with
  | Err e => r = Err e ∧ primary c' = primary c
  | Ok _ => primary c' = committed c x c1 ∧
      ((r = Ok tt ∧ primary c' = ctx_view x c1) ∨
       ∃ e, r = Err (errorf_v "failed to commit transaction" e))
  end.

Lemma return_outcome {W} c x l r1 c1 (w1 : W) r c' w' :
  in_tx c l c1 →
  WithTx_return l (r1, (c1, w1)) = (r, (c', w')) →
  w' = w1 ∧ tx_outcome c (contextWithLazyTx x l) r1 c1 r c'.
Proof.
  intros H1 Hres. unfold tx_outcome. destruct r1 as [[]|e]; cbn in Hres.
  - destruct (WithTx_commit l c1) as [r2 c2] eqn:Hc. simplify_eq.
    destruct (commit_outcome _ l (contextWithLazyTx x l) _ _ _ eq_refl H1 Hc). done.
  - simplify_eq. destruct (rollback_outcome _ _ _ H1). done.
Qed.

(** How a call of [WithTx] ends. *)
Lemma WithTx_outcome {W} x (fn : ctx → M (client * W) unit) c w r c' w' :
  next (begin_faults c) = None →
  (∀ l, confined (contextWithLazyTx x l) (fn (contextWithLazyTx x l))) →
  WithTx x fn (c, w) = (r, (c', w')) →
  ∃ l c0 r1 c1,
    fn (contextWithLazyTx x l) (c0, w) = (r1, (c1, w')) ∧
    ctx_view (contextWithLazyTx x l) c0 = primary c ∧
    tx_outcome c (contextWithLazyTx x l) r1 c1 r c'.
Proof.
  intros Hb Hfn. unfold WithTx. cbn [fst snd].
  destruct (WithTx_enter c) as [l c0] eqn:He.
  destruct (enter_in_tx _ _ _ Hb He) as [Hin Hv].
  destruct (fn (contextWithLazyTx x l) (c0, w)) as [r1 [c1 w1]] eqn:Hr. intros Hres.
  destruct (return_outcome c x l r1 c1 w1 r c' w') as [-> Ho]; [|done|].
  { eapply in_tx_steps; [|by eapply Hfn|done]. done. }
  by exists l, c0, r1, c1.
Qed.

(** [WithTx] is atomic: when its function fails, the error is returned and
    the committed database is what it was before the call; when it succeeds,
    either everything the function saw and did is committed, or the commit
    failed and that is the error.  In no case is a transaction left open. *)
Theorem WithTx_atomic {W} x (fn : ctx → M (client * W) unit) c w r c' w' :
  next (begin_faults c) = None →
  (∀ l, confined (contextWithLazyTx x l) (fn (contextWithLazyTx x l))) →
  WithTx x fn (c, w) = (r, (c', w')) →
  ∃ l c0 r1 c1,
    fn (contextWithLazyTx x l) (c0, w) = (r1, (c1, w')) ∧
    ctx_view (contextWithLazyTx x l) c0 = primary c ∧
    (∀ t, txs c !! t = None → ∀ y, txs c' !! t = Some y → tx_done y = true) ∧
    match r1 with
    | Err e => r = Err e ∧ primary c' = primary c
    | Ok _ => primary c' = committed c (contextWithLazyTx x l) c1 ∧
        ((r = Ok tt ∧ primary c' = ctx_view (contextWithLazyTx x l) c1) ∨
         ∃ e, r = Err (errorf_v "failed to commit transaction" e))
    end.
Proof.
  intros Hb Hfn Hw. destruct (WithTx_outcome _ _ _ _ _ _ _ Hb Hfn Hw)
    as (l&c0&r1&c1&?&?&?&?). by exists l, c0, r1, c1.
Qed.

(** A handler reaches the database only through statements of its context. *)
Definition handler_confined {W} (x : ctx) (h : http_handler W) : Prop :=
  ∀ c w out c' w', h x (c, w) = (out, (c', w')) → rtc (step x) c c'.

(** Where the handler of a request that may change data runs. *)
Lemma TransactionMiddleware_run {W} method (next_ : http_handler W) x c w out c' w' :
  (method ≠ "GET" ∧ method ≠ "HEAD")%string →
  TransactionMiddleware method next_ x (c, w) = (out, (c', w')) →
  ∃ l c0 c1, WithTx_enter c = (l, c0) ∧
    next_ (contextWithLazyTx x l) (c0, w) = (out, (c1, w')) ∧
    (if decide (out = Hangs) then c1 = c'
     else (WithTx_return l (request_failed out, (c1, w'))).2 = (c', w')).
Proof.
  intros [??]. unfold TransactionMiddleware. rewrite decide_False by naive_solver.
  cbn [fst snd]. destruct (WithTx_enter c) as [l c0] eqn:He.
  destruct (next_ (contextWithLazyTx x l) (c0, w)) as [o [c1 w1]] eqn:Hx. intros Hres.
  destruct (decide (o = Hangs)) as [->|Ho].
  { injection Hres as <- <- <-. exists l, c0, c1. by rewrite decide_True. }
  destruct (WithTx_return l (request_failed o, (c1, w1))) as [r [c2 w2]] eqn:Hr.
  assert (o = out ∧ c2 = c' ∧ w2 = w') as (->&->&->).
  { destruct o as [?|?|]; [..|done]; by simplify_eq/=. }
  assert (w' = w1) as ->.
  { unfold WithTx_return in Hr. repeat case_match; by simplify_eq. }
  exists l, c0, c1. by rewrite decide_False, Hr by done.
Qed.

Lemma enter_view c l c0 x :
  WithTx_enter c = (l, c0) → ctx_view (contextWithLazyTx x l) c0 = primary c.
Proof. intros [= <- <-]. unfold ctx_view; cbn. by rewrite lookup_insert_eq. Qed.

(** A request that changes data, from the inside: the run of the handler in the
    transaction, and what became of it. *)
Lemma TransactionMiddleware_commit {W} method (next_ : http_handler W) x c w out c' w' :
  (method ≠ "GET" ∧ method ≠ "HEAD")%string →
  next (begin_faults c) = None →
  (∀ l, handler_confined (contextWithLazyTx x l) next_) →
  TransactionMiddleware method next_ x (c, w) = (out, (c', w')) →
  ∃ l c0 c1, WithTx_enter c = (l, c0) ∧
    next_ (contextWithLazyTx x l) (c0, w) = (out, (c1, w')) ∧
    ctx_view (contextWithLazyTx x l) c0 = primary c ∧
    primary c' =
      match out with
      | Wrote codes => if decide (400 ≤ statusCode codes) then primary c
                       else committed c (contextWithLazyTx x l) c1
      | Panicked _ | Hangs => primary c
      end.
Proof.
  intros Hm Hb Hn (l&c0&c1&He&Hx&Hr)%TransactionMiddleware_run; [|done].
  destruct (enter_in_tx _ _ _ Hb He) as [Hin Hv].
  assert (in_tx c l c1) as Hin1.
  { eapply in_tx_steps; [|by eapply Hn|done]. done. }
  exists l, c0, c1. split_and!; [done..|].
  case_decide as Hh; [subst; by destruct Hin1|].
  destruct (WithTx_return l _) as [r [c2 w2]] eqn:Hret. cbn in Hr. simplify_eq.
  apply (return_outcome c x) in Hret as [_ [_ Hret]]; [|done].
  destruct out as [codes|m|]; [|by destruct Hret|done].
  unfold request_failed in Hret. case_decide; by destruct Hret.
Qed.

(** The same, without telling a lost commit from a failed request. *)
Lemma TransactionMiddleware_outcome {W} method (next_ : http_handler W) x c w out c' w' :
  (method ≠ "GET" ∧ method ≠ "HEAD")%string →
  next (begin_faults c) = None →
  (∀ l, handler_confined (contextWithLazyTx x l) next_) →
  TransactionMiddleware method next_ x (c, w) = (out, (c', w')) →
  ∃ l c0 c1,
    next_ (contextWithLazyTx x l) (c0, w) = (out, (c1, w')) ∧
    ctx_view (contextWithLazyTx x l) c0 = primary c ∧
    (primary c' = primary c ∨
     (∃ codes, out = Wrote codes ∧ statusCode codes < 400) ∧
     primary c' = ctx_view (contextWithLazyTx x l) c1).
Proof.
  intros Hm Hb Hn (l&c0&c1&_&Hx&Hv&Hp)%TransactionMiddleware_commit; [|done..].
  exists l, c0, c1. split_and!; [done..|]. unfold committed in Hp.
  destruct out as [codes| |]; [case_decide; [by left|]|by left..].
  destruct (_ || _); [by left|right]. split; [|done]. exists codes. auto with lia.
Qed.

(** C14: a request that may change data, when the BEGIN of its transaction does not fail,
    runs in one transaction, whatever statements of its context the handler sends: a
    handler that ends with a status of 400 or more, panics or never returns leaves the
    committed database as it was; one that ends with a smaller status commits all it did,
    except when a statement of the transaction failed, whose COMMIT the server turns into
    a rollback, or when the COMMIT itself is lost, and then nothing of it is stored. *)
Theorem TransactionMiddleware_atomic {W} method (next_ : http_handler W) x c w out c' w' :
  (method ≠ "GET" ∧ method ≠ "HEAD")%string →
  next (begin_faults c) = None →
  (∀ l, handler_confined (contextWithLazyTx x l) next_) →
  TransactionMiddleware method next_ x (c, w) = (out, (c', w')) →
  match out with
  | Wrote codes =>
      (400 ≤ statusCode codes → primary c' = primary c) ∧
      (statusCode codes < 400 →
       ∃ l c0 c1, let tx := contextWithLazyTx x l in
         next_ tx (c0, w) = (out, (c1, w')) ∧ ctx_view tx c0 = primary c ∧
         primary c' = if tx_aborted tx c1 || commit_lost c then primary c
                      else ctx_view tx c1)
  | Panicked _ | Hangs => primary c' = primary c
  end.
Proof.
  intros Hm Hb Hn (l&c0&c1&_&Hf&Hv&Hp)%TransactionMiddleware_commit; [|done..].
  destruct out as [codes|m|]; [|done..].
  case_decide; split; intros ?; [done|lia|lia|]. by exists l, c0, c1.
Qed.

(** A run in which every statement succeeded leaves the transaction fit to commit. *)
Definition still_fit (x : ctx) : relation client := λ c c',
  tx_aborted x c = false → tx_aborted x c' = false.

#[export] Instance still_fit_preorder x : PreOrder (still_fit x).
Proof. split; unfold still_fit; intros ?; auto. Qed.

Lemma enter_fit c l c0 x :
  WithTx_enter c = (l, c0) → tx_aborted (contextWithLazyTx x l) c0 = false.
Proof. intros [= <- <-]. unfold tx_aborted; cbn. by rewrite lookup_insert_eq. Qed.

Lemma run_on_tx_ok t st c q c' y :
  txs c !! t = Some y → run_on (RunTx t) st c = (Ok q, c') →
  lazies c' = lazies c ∧ ∃ y', txs c' !! t = Some y' ∧ tx_failed y' = false.
Proof.
  intros Ht. unfold run_on; cbn. rewrite Ht.
  destruct (tx_done y); [done|]. destruct (tx_failed y); [done|].
  destruct (next (stmt_faults c)); cbn; [done|].
  destruct (run 0 st (tx_db y)) as [q0 d]. intros [= -> <-]. cbn.
  rewrite lookup_insert_eq. split; [done|]. by eexists.
Qed.

(** A statement that runs outside the lazy transaction leaves the holders alone. *)
Lemma no_lazy_lazies x st c r c' :
  (let '(ru, c) := Statement_no_lazy x c in run_on ru st c) = (r, c') →
  lazies c' = lazies c.
Proof.
  destruct (Statement_no_lazy x c) as [ru c1] eqn:Hs.
  assert (lazies c1 = lazies c) as <-.
  { revert Hs. unfold Statement_no_lazy. by repeat case_match; intros [= _ <-]. }
  unfold run_on. repeat case_match; by intros [= _ <-].
Qed.

Lemma exec_fit x st c q c' :
  @exec _ (client_engine x) st c = (Ok q, c') → still_fit x c c'.
Proof.
  cbn -[run_on]. unfold still_fit, tx_aborted. destruct x as [[l|] t0 ro]; [|done].
  unfold Statement, lazyTx_get; cbn -[run_on].
  destruct (lazies c !! l) as [lt|] eqn:Hl; cbn -[run_on].
  2: { intros He%no_lazy_lazies. by rewrite He, Hl. }
  destruct (lt_tx lt) as [t|] eqn:Hlt; cbn -[run_on].
  - intros He _. destruct (txs c !! t) as [y|] eqn:Hy.
    + destruct (run_on_tx_ok _ _ _ _ _ _ Hy He) as (->&y'&Hy'&Hf). by rewrite Hl, Hlt, Hy'.
    + rewrite run_on_unknown in He by done. done.
  - unfold db_BeginTx. destruct (next (begin_faults c)); cbn -[run_on].
    + intros He%no_lazy_lazies. by rewrite He; cbn; rewrite Hl, Hlt.
    + intros He _. eapply run_on_tx_ok in He as (->&y'&Hy'&Hf); [|cbn; apply lookup_insert_eq].
      cbn. by rewrite lookup_insert_eq; cbn; rewrite Hy'.
Qed.

(** *** Where a statement runs *)

Lemma Statement_primary x c : primary (Statement x c).2 = primary c.
Proof.
  unfold Statement, Statement_no_lazy, lazyTx_get, db_BeginTx.
  destruct (lazyTxContext x); repeat case_match; simplify_eq; done.
Qed.

(** When [Statement] picks the replica. *)
Lemma Statement_replica_iff x c :
  (Statement x c).1 = RunReplica ↔
  readOnlyContext x = true ∧ txContext x = None ∧
  is_Some (replicaRunner c) ∧ replicaLagMs c ≤ maxLagMs c ∧
  ∀ l, lazyTxContext x = Some l → is_ok (lazyTx_get l c).1 = false.
Proof.
  assert (∀ c0, replicaRunner c0 = replicaRunner c → replicaLagMs c0 = replicaLagMs c →
    maxLagMs c0 = maxLagMs c →
    (Statement_no_lazy x c0).1 = RunReplica ↔ readOnlyContext x = true ∧ txContext x = None ∧
      is_Some (replicaRunner c) ∧ replicaLagMs c ≤ maxLagMs c) as Hno.
  { intros c0 Hr Hl Hm. unfold Statement_no_lazy. rewrite Hr, Hl, Hm.
    destruct (txContext x); cbn; [naive_solver|].
    destruct (readOnlyContext x); cbn; [|naive_solver].
    destruct (replicaRunner c); cbn; [|split; [done|by intros (_&_&[? ?]&_)]].
    case_decide; cbn; (split; [try done; intros _|try done; intros (_&_&_&?); lia]). }
  unfold Statement. destruct (lazyTxContext x) as [l|].
  - destruct (lazyTx_get l c) as [r c0] eqn:Hg.
    assert (is_ok (lazyTx_get l c).1 = is_ok r) as Hg' by by rewrite Hg.
    destruct r as [t|e].
    + cbn. split; [done|]. intros (_&_&_&_&Hl). specialize (Hl l eq_refl). by rewrite Hg' in Hl.
    + rewrite Hno.
      * split; [|naive_solver]. intros (?&?&?&?). split_and!; try done. by intros ? [= <-].
      * revert Hg. unfold lazyTx_get, db_BeginTx. repeat case_match; by intros; simplify_eq.
      * revert Hg. unfold lazyTx_get, db_BeginTx. repeat case_match; by intros; simplify_eq.
      * revert Hg. unfold lazyTx_get, db_BeginTx. repeat case_match; by intros; simplify_eq.
  - rewrite Hno by done. naive_solver.
Qed.

(** A statement runs on the replica exactly when its context is marked
    read-only and carries no transaction that can be used, a replica is
    configured, and its measured lag does not exceed the threshold. *)
Theorem Statement_replica x c :
  (Statement x c).1 = RunReplica ↔
  readOnlyContext x = true ∧ txContext x = None ∧
  is_Some (replicaRunner c) ∧ replicaLagMs c ≤ maxLagMs c ∧
  ∀ l, lazyTxContext x = Some l → is_ok (lazyTx_get l c).1 = false.
Proof. apply Statement_replica_iff. Qed.

(** An answer after which the lag is taken to be infinite. *)
Definition unknown_lag (a : result (Z * Z)) : Prop :=
  match a with
  | Ok (count, _) => count = 0
  | Err e => isMissingRelation (Some e) = false
  end.

Lemma monitor_unknown answers a c :
  Forall (λ b, ∀ e, b = Err e → isMissingRelation (Some e) = false) answers →
  unknown_lag a →
  ∃ c', monitorReplicationLag (answers ++ [a]) c = c' ∧ replicaLagMs c' = MaxInt64 ∧
    maxLagMs c' = maxLagMs c.
Proof.
  intros Hall Ha. eexists. split; [done|]. revert c.
  induction Hall as [|b answers Hb _ IH]; intros c;
    cbn [monitorReplicationLag app].
  - unfold monitor_tick. destruct a as [[count lag]|e]; unfold unknown_lag in Ha.
    + subst. by rewrite decide_True.
    + by rewrite Ha.
  - unfold monitor_tick. destruct b as [[count lag]|e]; [apply (IH (set_lag _ c))|].
    rewrite (Hb e eq_refl). apply (IH (set_lag _ c)).
Qed.

(** When the last thing the monitor learnt is that no standby streams, or
    that the query fails, no statement goes to the replica until a lag is
    measured again. *)
Theorem unknown_lag_never_replica x c answers a :
  maxLagMs c < MaxInt64 →
  Forall (λ b, ∀ e, b = Err e → isMissingRelation (Some e) = false) answers →
  unknown_lag a →
  (Statement x (monitorReplicationLag (answers ++ [a]) c)).1 ≠ RunReplica.
Proof.
  intros Hm Hall Ha Hr%Statement_replica_iff.
  destruct (monitor_unknown answers a c Hall Ha) as (c'&Hc&Hl&Hl'). rewrite Hc, Hl, Hl' in Hr.
  lia.
Qed.

Lemma last_Split_slash s m :
  without "/"%char m → list.last (Split "/"%char (s +:+ "/" +:+ m)) = Some m.
Proof.
  intros Hm. change ("/" +:+ m) with (String "/" m).
  by rewrite Split_sep, (Split_without _ m), last_snoc.
Qed.

(** The replica interceptors change only the context, never one that
    carries a transaction, and mark read-only exactly the methods whose last
    path segment starts with one of the five reading verbs. *)
Theorem replica_interceptor {A} service method (handler : ctx → A) x :
  without "/"%char method →
  let marked := negb (hasTransaction x) &&
    existsb (λ verb, String.prefix verb method)
      ["Get"; "List"; "Query"; "Describe"; "Search"]%string in
  let x' := mkCtx (lazyTxContext x) (txContext x) (readOnlyContext x || marked) in
  UnaryReplicaRoutingInterceptor (service +:+ "/" +:+ method) handler x = handler x' ∧
  StreamReplicaRoutingInterceptor (service +:+ "/" +:+ method) handler x = handler x'.
Proof.
  intros Hm. cbv zeta.
  assert (isReadOnlyMethod (service +:+ "/" +:+ method) = existsb (λ verb, String.prefix verb method)
      ["Get"; "List"; "Query"; "Describe"; "Search"]%string) as Hro.
  { unfold isReadOnlyMethod. rewrite last_Split_slash by done. cbn [existsb].
    by rewrite orb_false_r, <- !orb_assoc. }
  unfold UnaryReplicaRoutingInterceptor, StreamReplicaRoutingInterceptor.
  rewrite Hro, andb_comm. destruct x as [lz t ro]; cbn [lazyTxContext txContext readOnlyContext].
  destruct (negb _ && _); [by rewrite orb_true_r|by rewrite orb_false_r].
Qed.
End atomicity.

(** ** Storage calls inside a transaction *)

Section storage_in_tx.
Context `{PgLaws} `{GoRangeLaws}.

(** A method of the storage layer as the body of a transaction. *)
Definition in_context {A W} (m : ∀ x : ctx, M client A) (x : ctx) : M (client * W) unit :=
  λ cw, match m x cw.1 with
        | (Ok _, c) => (Ok tt, (c, cw.2))
        | (Err e, c) => (Err e, (c, cw.2))
        end.

Lemma step_exec x st c r c' : @exec _ (client_engine x) st c = (r, c') → rtc (step x) c c'.
Proof. intros He. apply rtc_once. by exists st, r. Qed.

Lemma in_context_confined {A W} (m : ∀ x, M client A) x :
  follows (rtc (step x)) (m x) → confined (W:=W) x (in_context m x).
Proof.
  intros Hm c w r c' w'. unfold in_context; cbn.
  destruct (m x c) as [[a|e] c1] eqn:Hx; intros [= _ <- _]; by eapply Hm.
Qed.

Definition UpdateGroupsForUser_in (now : time) (u : string) (gs : list string) (x : ctx)
    : M client unit :=
  @UpdateGroupsForUser client (client_engine x) _ now u gs.

(** C16: inside [WithTx], as the HTTP middleware runs it, from a context that holds no
    transaction and is not read-only, and when BEGIN does not fail, replacing a user's
    groups is all or nothing, although outside a transaction it is not: on success the user's groups are exactly the given
    ones and nothing else changed; on an error nothing changed at all, unless
    the error is that of a commit the server may still have done. *)
Theorem UpdateGroupsForUser_atomic now u gs x c r c' :
  txContext x = None → readOnlyContext x = false → next (begin_faults c) = None →
  WithTx x (in_context (UpdateGroupsForUser_in now u gs)) (c, tt) = (r, (c', tt)) →
  let replaced := ∃ X, canonical gs X ∧
    memberships (primary c') =
      filter (λ k, k.2 ≠ u) (memberships (primary c)) ∪ groups_of_user X u ∧
    same_but_members (primary c) (primary c') in
  match r with
  | Ok _ => replaced
  | Err e => primary c' = primary c ∨
      ((∃ e', e = errorf_v "failed to commit transaction" e') ∧ replaced)
  end.
Proof.
  intros Ht Hro Hb Hw replaced. apply WithTx_outcome in Hw as (l&c0&r1&c1&Hf&Hv&_&Hr).
  - unfold in_context in Hf; cbn in Hf.
    destruct (UpdateGroupsForUser_in now u gs _ c0) as [r2 c2] eqn:Hu.
    assert (ctx_simple (contextWithLazyTx x l)) as Hs by done.
    pose proof (engine_laws_of _ Hs) as Hlaws.
    apply (UpdateGroupsForUser_outcome (S:=client)) in Hu.
    cbn [view client_engine] in Hu.
    destruct r2 as [[]|e]; simplify_eq.
    + rewrite Hv in Hu.
      destruct Hr as [Hc [[-> Hp]|(e&->)]]; [unfold replaced; by rewrite Hp|].
      unfold committed in Hc. destruct (_ || _); [by left|right].
      split; [eauto|]. unfold replaced. by rewrite Hc.
    + destruct Hr as [-> Hp]. by left.
  - done.
  - intros l. apply in_context_confined. unfold UpdateGroupsForUser_in, UpdateGroupsForUser.
    pose proof (step_exec (contextWithLazyTx x l)) as Hexec.
    pose proof (client_engine (contextWithLazyTx x l)). follow.
Qed.
End storage_in_tx.

(** ** Start-up and paging *)


(** The replica pool always has room for a connection. *)
Theorem replica_max_conns_positive impl cfg : 0 < replica_max_conns impl cfg.
Proof. unfold replica_max_conns. repeat case_decide; lia. Qed.

(** For pages whose last row number fits 64 bits, the pages of a size follow
    each other without gap or overlap, the first one starts at 0, and every
    offset is a uint64. *)
Theorem Offset_pages page size :
  1 ≤ size < max_uint64 → 1 ≤ page < 2 ^ 63 - 1 → page * size < max_uint64 →
  Offset 1 size = 0 ∧ Offset 0 size = 0 ∧
  Offset (page + 1) size = Offset page size + size ∧
  0 ≤ Offset page size < max_uint64.
Proof.
  intros Hs Hp Hm. unfold Offset, defaultPage.
  rewrite (decide_False (P:=1 ≤ 0)), (decide_False (P:=page ≤ 0)),
    (decide_False (P:=page + 1 ≤ 0)), (decide_True (P:=0 ≤ 0)) by lia.
  replace (page + 1 - 1) with page by lia. change (1 - 1) with 0. rewrite Z.mul_0_l.
  unfold max_uint64 in *.
  rewrite (Z.mod_small (page * size)), (Z.mod_small ((page - 1) * size)) by nia.
  split_and!; [done..|lia|nia|nia].
Qed.

(** ** Examples *)

Module Witnesses.
Import TestParams StorageSpec.Witnesses.
Local Open Scope string_scope.

(** A client over the example database, whose server fails as listed. *)
Definition client0 (bf : list (option goerr)) (cf : list (option (goerr * bool))) : client :=
  mkClient d0 (Some empty_db) 0 1000 0 0 ∅ ∅ bf [] cf.

Lemma DBClient_engine_witness :
  EngineLaws client (Engine0 := client_engine (mkCtx None None true)).
Proof. exact (DBClient_engine (mkCtx None None true) I). Defined.

Lemma UpdateGroupsForUser_atomic_witness :
  let x := background in let c := client0 [] [] in
  let c' := (WithTx x (in_context (UpdateGroupsForUser_in 6 "u" ["c3"])) (c, tt)).2.1 in
  ∃ e, WithTx x (in_context (UpdateGroupsForUser_in 6 "u" ["c3"])) (c, tt) = (Err e, (c', tt)) ∧
  let replaced := ∃ X, canonical ["c3"] X ∧
    memberships (primary c') =
      filter (λ k, k.2 ≠ "u") (memberships (primary c)) ∪ groups_of_user X "u" ∧
    same_but_members (primary c) (primary c') in
  primary c' = primary c ∨
    ((∃ e', e = errorf_v "failed to commit transaction" e') ∧ replaced).
Proof.
  intros x c c'. eexists. split; [vm_compute; reflexivity|].
  refine (UpdateGroupsForUser_atomic 6 "u" ["c3"] x c (Err _) c' eq_refl eq_refl eq_refl _).
  vm_compute. reflexivity.
Defined.

(** A handler of a POST: it adds a member and answers [code]. *)
Definition add_and_answer (code : Z) (x : ctx) (cw : client * unit) : served * (client * unit) :=
  (Wrote [code], ((AddUsersToGroup (Engine0 := client_engine x) 6 "b2" ["w"] cw.1).2, cw.2)).

Lemma add_and_answer_confined code x : handler_confined x (add_and_answer code).
Proof.
  intros c w out c' w'. unfold add_and_answer. intros [= _ <- _].
  pose proof (step_exec x) as Hexec. pose proof (client_engine x).
  apply (follows_snd (rtc (step x))). unfold AddUsersToGroup. follow.
Qed.

Lemma WithTx_atomic_witness :
  let fn := in_context (W:=unit) (λ x, @AddUsersToGroup client (client_engine x) 6 "b2" ["w"]) in
  let c := client0 [] [] in
  let c' := (WithTx background fn (c, tt)).2.1 in
  ∃ l c0 r1 c1,
    fn (contextWithLazyTx background l) (c0, tt) = (r1, (c1, tt)) ∧
    ctx_view (contextWithLazyTx background l) c0 = primary c ∧
    (∀ t, txs c !! t = None → ∀ y, txs c' !! t = Some y → tx_done y = true) ∧
    match r1 with
    | Err e => Ok tt = Err e ∧ primary c' = primary c
    | Ok _ => primary c' = committed c (contextWithLazyTx background l) c1 ∧
        ((Ok tt = Ok tt ∧ primary c' = ctx_view (contextWithLazyTx background l) c1) ∨
         ∃ e, Ok tt = Err (errorf_v "failed to commit transaction" e))
    end.
Proof.
  intros fn c c'.
  refine (WithTx_atomic background fn c tt (Ok tt) c' tt eq_refl _ _).
  - intros l. apply in_context_confined.
    pose proof (step_exec (contextWithLazyTx background l)) as Hexec.
    pose proof (client_engine (contextWithLazyTx background l)).
    unfold AddUsersToGroup. follow.
  - vm_compute. reflexivity.
Defined.

(** A POST that succeeds is committed; one that answers 500 is not. *)
Lemma TransactionMiddleware_atomic_witness :
  let c := client0 [] [] in
  let c' := (TransactionMiddleware "POST" (add_and_answer 200) background (c, tt)).2.1 in
  ("b2", "w") ∈ memberships (primary c') ∧
  ((statusCode [200] < 400)%Z →
   ∃ l c0 c1, let tx := contextWithLazyTx background l in
     add_and_answer 200 tx (c0, tt) = (Wrote [200%Z], (c1, tt)) ∧ ctx_view tx c0 = primary c ∧
     primary c' = if tx_aborted tx c1 || commit_lost c then primary c else ctx_view tx c1) ∧
  ((400 ≤ statusCode [500])%Z →
   primary (TransactionMiddleware "POST" (add_and_answer 500) background (c, tt)).2.1 = primary c).
Proof.
  intros c c'. split; [apply elem_of_memberships; compute_done|]. split.
  - eapply (TransactionMiddleware_atomic "POST" (add_and_answer 200) background c tt (Wrote [200%Z])
            c' tt); [by split|reflexivity|intros l; apply add_and_answer_confined|].
    vm_compute. reflexivity.
  - eapply (TransactionMiddleware_atomic "POST" (add_and_answer 500) background c tt (Wrote [500%Z])
            _ tt); [by split|reflexivity|intros l; apply add_and_answer_confined|].
    vm_compute. reflexivity.
Defined.

Lemma unknown_lag_never_replica_witness :
  (Statement (mkCtx None None true)
     (monitorReplicationLag ([Ok (1, 20)] ++ [Err (EText "timeout")]) (client0 [] []))).1
    ≠ RunReplica.
Proof.
  apply unknown_lag_never_replica.
  - reflexivity.
  - repeat constructor. discriminate.
  - reflexivity.
Defined.

Lemma replica_interceptor_witness :
  let x' := mkCtx None None true in
  UnaryReplicaRoutingInterceptor "/hook.GroupService/GetGroup" id background = x' ∧
  StreamReplicaRoutingInterceptor "/hook.GroupService/GetGroup" id background = x'.
Proof.
  apply (replica_interceptor "/hook.GroupService" "GetGroup" id background).
  compute_done.
Defined.

Lemma Offset_pages_witness :
  (Offset 1 100 = 0 ∧ Offset 0 100 = 0 ∧ Offset (7 + 1) 100 = Offset 7 100 + 100 ∧
  0 ≤ Offset 7 100 < max_uint64)%Z.
Proof. apply Offset_pages; unfold max_uint64; lia. Defined.

(** When BEGIN fails, the statements run on the primary outside any
    transaction, and the rollback of a failed request undoes nothing. *)
Lemma failed_begin_escapes_rollback :
  let c := client0 [Some (EText "connection refused")] [] in
  let '(out, (c', _)) := TransactionMiddleware "POST" (add_and_answer 500) background (c, tt) in
  out = Wrote [500] ∧ primary c' ≠ primary c.
Proof. vm_compute. split; [reflexivity|discriminate]. Qed.

(** The client has its success status before the commit is tried. *)
Lemma failed_commit_after_success :
  let c := client0 [] [Some (EText "connection reset", false)] in
  let '(out, (c', _)) := TransactionMiddleware "POST" (add_and_answer 200) background (c, tt) in
  out = Wrote [200] ∧ primary c' = primary c.
Proof. vm_compute. split; reflexivity. Qed.
End Witnesses.
