(* ===== verification/Monitoring.v ===== *)
(** * internal/monitoring: metrics of the service

    The interface [MonitorInterface] with its two implementations, Prometheus' vectors
    ([Monitor]) and nothing ([NoopMonitor]), and the middleware [ResponseTime] that
    records one observation per request under the request's route and status.

    The Prometheus client and chi's writer are the classes [Prometheus] and [ChiWriter]
    with their documented laws; a vector is what its children hold.  A float64 is the
    bits of SpecFloat; the clock's reading is an argument. *)

From Stdlib Require Import SpecFloat.
From stdpp Require Import pretty.
From S2P Require Import Prelude Errors Logging Types Sql Storage StorageSpec DbClient.
Local Open Scope string_scope.

Abbreviation tags := (gmap string string).

(** ** The interface *)

Class MonitorInterface (T : Type) := {
  GetService : T → string;
  SetResponseTimeMetric : tags → spec_float → M T unit;
  SetDependencyAvailability : tags → spec_float → M T unit;
}.

(** ** prometheus/prometheus.go *)

(** Options and label names of a vector. *)
Record vec_opts := mkOpts {
  vec_Name : string; vec_Help : string; ConstLabels : tags; LabelNames : list string;
}.

(** What [Register] answers. *)
Inductive registration := Registered | AlreadyRegistered | NotRegistered (e : goerr).

Class Prometheus := {
  Register : vec_opts → registration;
  (** The labels are accepted: [With] panics otherwise. *)
  With_ok : list string → tags → bool;
  valid_label_value : string → bool;
  show_vec : vec_opts → string;   (** as [%v] prints it *)
}.

Class PrometheusLaws `{!Prometheus} := {
  With_ok_iff names ts : With_ok names ts = true ↔
    dom ts = list_to_set names ∧ map_Forall (λ _ v, valid_label_value v = true) ts;
}.

(** The children of a vector: a histogram's observations in order, a gauge's value. *)
Record HistogramVec := mkHistogram { h_opts : vec_opts; observed : gmap tags (list spec_float) }.
Record GaugeVec := mkGauge { g_opts : vec_opts; current : gmap tags spec_float }.

Record Monitor := mkMonitor {
  service : string; responseTime : option HistogramVec; dependencyAvailability : option GaugeVec;
}.

(** [new(Monitor)] *)
Definition zero_monitor : Monitor := mkMonitor "" None None.

Definition not_instantiated : goerr := EText "metric not instantiated".

Section prometheus.
Context `{!Prometheus} `{!Zap}.

Definition With_panic : goerr := EPanic "inconsistent label cardinality or invalid label value".

Definition observe (ts : tags) (value : spec_float) (h : HistogramVec) : HistogramVec :=
  mkHistogram (h_opts h) (<[ts := (default [] (observed h !! ts) ++ [value])%list]> (observed h)).
Definition set_gauge (ts : tags) (value : spec_float) (g : GaugeVec) : GaugeVec :=
  mkGauge (g_opts g) (<[ts := value]> (current g)).

Definition monitor_SetResponseTimeMetric (ts : tags) (value : spec_float) : M Monitor unit := λ m,
  match responseTime m with
  | None => (Err not_instantiated, m)
  | Some h =>
      if With_ok (LabelNames (h_opts h)) ts
      then (Ok tt, mkMonitor (service m) (Some (observe ts value h)) (dependencyAvailability m))
      else (Err With_panic, m)
  end.

Definition monitor_SetDependencyAvailability (ts : tags) (value : spec_float) : M Monitor unit := λ m,
  match dependencyAvailability m with
  | None => (Err not_instantiated, m)
  | Some g =>
      if With_ok (LabelNames (g_opts g)) ts
      then (Ok tt, mkMonitor (service m) (responseTime m) (Some (set_gauge ts value g)))
      else (Err With_panic, m)
  end.

#[export] Instance prometheus_monitor : MonitorInterface Monitor := {|
  GetService := service;
  SetResponseTimeMetric := monitor_SetResponseTimeMetric;
  SetDependencyAvailability := monitor_SetDependencyAvailability;
|}.

Definition histogram_opts (m : Monitor) : vec_opts := {|
  vec_Name := "http_response_time_seconds"; vec_Help := "http_response_time_seconds";
  ConstLabels := {["service" := service m]}; LabelNames := ["route"; "status"];
|}.

Definition gauge_opts (m : Monitor) : vec_opts := {|
  vec_Name := "dependency_available"; vec_Help := "dependency_available";
  ConstLabels := {["service" := service m]}; LabelNames := ["component"];
|}.

(** The body of the two loops over the one vector there is. *)
Definition register (logger : Logger) (o : vec_opts) : list line :=
  match Register o with
  | Registered => []
  | AlreadyRegistered => log_Debug logger ("metric " +:+ show_vec o +:+ " already registered")
  | NotRegistered _ => log_Error logger ("metric " +:+ show_vec o +:+ " could not be registered")
  end.

Definition registerHistograms (logger : Logger) (m : Monitor) : list line * Monitor :=
  let o := histogram_opts m in
  (register logger o, mkMonitor (service m) (Some (mkHistogram o ∅)) (dependencyAvailability m)).

Definition registerGauges (logger : Logger) (m : Monitor) : list line * Monitor :=
  let o := gauge_opts m in
  (register logger o, mkMonitor (service m) (responseTime m) (Some (mkGauge o ∅))).

(** internal/db/storage.go: the collectors of the database client, counters and a gauge
    without labels, and their registration. *)
Definition replicaQueries_opts : vec_opts :=
  mkOpts "hook_service_replica_queries_total" "Total number of queries routed to the replica" ∅ [].
Definition replicaLagGauge_opts : vec_opts :=
  mkOpts "hook_service_replica_lag_ms" "Current replication lag in milliseconds" ∅ [].
Definition primaryFallbacks_opts : vec_opts :=
  mkOpts "hook_service_primary_fallback_total" "Total number of fallbacks to the primary pool" ∅ [].

Fixpoint register_all (logger : Logger) (collectors : list vec_opts) : list line :=
  match collectors with
  | [] => []
  | collector :: collectors => register logger collector ++ register_all logger collectors
  end%list.
Definition registerMetrics (logger : Logger) : list line :=
  register_all logger [replicaQueries_opts; replicaLagGauge_opts; primaryFallbacks_opts].

Definition NewMonitor (service : string) (logger : Logger) : list line * Monitor :=
  let m := mkMonitor service None None in
  let '(l1, m) := registerHistograms logger m in
  let '(l2, m) := registerGauges logger m in
  ((l1 ++ l2)%list, m).

End prometheus.

(** ** noop.go *)

Record NoopMonitor := mkNoop { noop_service : string }.
Definition NewNoopMonitor (service : string) : NoopMonitor := mkNoop service.

#[export] Instance noop_monitor : MonitorInterface NoopMonitor := {|
  GetService := noop_service;
  SetResponseTimeMetric _ _ := mret tt;
  SetDependencyAvailability _ _ := mret tt;
|}.

(** ** middlewares.go *)

(** The letters of the class [[a-zA-Z_]]. *)
Definition id_letter (a : ascii) : bool :=
  let n := Ascii.nat_of_ascii a in
  bool_decide (65 ≤ n ≤ 90 ∨ 97 ≤ n ≤ 122 ∨ n = 95)%nat.

(** [regexp.MustCompile("{[a-zA-Z_]*}").ReplaceAll(path, "id")]: [pend] is what was read
    of a match that began; it can only be given up whole, for no match starts inside. *)
Fixpoint replace_ids (pend : option string) (s : string) : string :=
  match s with
  | "" => default "" pend
  | String a s =>
      match pend with
      | None =>
          if decide (a = "{"%char) then replace_ids (Some "{") s
          else String a (replace_ids None s)
      | Some read =>
          if decide (a = "}"%char) then "id" +:+ replace_ids None s
          else if id_letter a then replace_ids (Some (read +:+ String a "")) s
          else if decide (a = "{"%char) then read +:+ replace_ids (Some "{") s
          else read +:+ String a (replace_ids None s)
      end
  end.
Definition ReplaceAll (path : string) : string := replace_ids None path.

(** [middleware.WrapResponseWriter.Status()]: of the codes passed to [WriteHeader]; by
    chi's documentation the status that was sent, 0 before one was.  1xx codes are not
    final; without a code it depends on the body. *)
Class ChiWriter := { Status : list Z → Z }.
Class ChiWriterLaws `{!ChiWriter} := {
  Status_first code codes : (200 ≤ code)%Z → Status (code :: codes) = code;
}.

Definition response_tags `{!ChiWriter} (Method Path : string) (codes : list Z) : tags :=
  {["route" := Method +:+ ReplaceAll Path; "status" := pretty (Status codes)]}.

(** The error of the monitor is not looked at, its panic is one of the handler. *)
Definition ResponseTime {S T} `{!ChiWriter} `{!MonitorInterface T} (Method Path : string)
    (elapsed : spec_float) (next : S → served * S) (st : S * T) : served * (S * T) :=
  match next st.1 with
  | (Wrote codes, s) =>
      match SetResponseTimeMetric (response_tags Method Path codes) elapsed st.2 with
      | (Err (EPanic m), t) => (Panicked m, (s, t))
      | (_, t) => (Wrote codes, (s, t))
      end
  | (out, s) => (out, (s, st.2))
  end.

(** ** Properties *)

(** *** The route label *)

(** A path with parameters: literal text, each time followed by a name in braces, and
    a last piece of text. *)
Fixpoint with_params (ps : list (string * string)) (tail : string) (show : string → string) : string :=
  match ps with
  | [] => tail
  | (text, name) :: ps => text +:+ show name +:+ with_params ps tail show
  end.

Definition id_name (name : string) : Prop :=
  Forall (λ a, id_letter a = true) (String.list_ascii_of_string name).

Lemma replace_text text s :
  without "{"%char text → replace_ids None (text +:+ s) = text +:+ replace_ids None s.
Proof.
  unfold without. induction text as [|a text IH]; [done|]. cbn [String.list_ascii_of_string].
  intros [Ha Ht]%not_elem_of_cons. rewrite !string_app_cons. cbn [replace_ids].
  rewrite decide_False by done. by rewrite IH.
Qed.

Lemma replace_name name read s :
  id_name name → replace_ids (Some read) (name +:+ String "}" s) = "id" +:+ replace_ids None s.
Proof.
  unfold id_name. revert read. induction name as [|a name IH]; intros read Hn; [done|].
  cbn in Hn. apply list.Forall_cons in Hn as [Ha Hn]. rewrite string_app_cons. cbn [replace_ids].
  destruct (decide (a = "}"%char)) as [->|]; [by vm_compute in Ha|]. rewrite Ha. by apply IH.
Qed.

Lemma replace_param name s :
  id_name name → replace_ids None (("{" +:+ name +:+ "}") +:+ s) = "id" +:+ replace_ids None s.
Proof. intros Hn. rewrite !string_app_assoc. exact (replace_name name "{" s Hn). Qed.

Lemma ReplaceAll_text text : without "{"%char text → ReplaceAll text = text.
Proof.
  intros Ht. unfold ReplaceAll. pose proof (replace_text text "" Ht) as Hr.
  by rewrite string_app_nil_r in Hr; rewrite Hr; cbn; rewrite string_app_nil_r.
Qed.

(** The route label is the method and the path with every parameter in braces
    replaced by "id"; a path without braces, as every path of a request to this service
    is, stays as it is, identifiers included. *)
Theorem route_label ps tail :
  Forall (λ p, without "{"%char p.1 ∧ id_name p.2) ps → without "{"%char tail →
  ReplaceAll (with_params ps tail (λ name, "{" +:+ name +:+ "}")) =
  with_params ps tail (λ _, "id").
Proof.
  intros Hps Htail. unfold ReplaceAll.
  induction Hps as [|[text name] ps [Ht Hn] _ IH]; cbn [with_params fst snd] in *;
    [by apply ReplaceAll_text|].
  rewrite replace_text by done. f_equal. rewrite replace_param by done. by rewrite IH.
Qed.

(** *** The monitor *)

Section monitor.
Context `{PrometheusLaws} `{!Zap} `{ChiWriterLaws}.

(** A monitor made by [NewMonitor], and nothing but observations since. *)
Definition instantiated (m : Monitor) : Prop :=
  (∃ h, responseTime m = Some h ∧ LabelNames (h_opts h) = ["route"; "status"]) ∧
  (∃ g, dependencyAvailability m = Some g ∧ LabelNames (g_opts g) = ["component"]).

Lemma NewMonitor_instantiated service logger : instantiated (NewMonitor service logger).2.
Proof. by split; eexists. Qed.

Lemma response_labels_ok Method Path codes :
  With_ok ["route"; "status"] (response_tags Method Path codes) = true ↔
  valid_label_value (Method +:+ ReplaceAll Path) = true ∧
  valid_label_value (pretty (Status codes)) = true.
Proof.
  rewrite With_ok_iff. unfold response_tags. split.
  - intros [_ Hf]. split; [by apply (Hf "route")|by apply (Hf "status")].
  - intros [Hr Hs]. split; [set_solver|].
    apply map_Forall_insert_2; [done|]. by apply map_Forall_singleton.
Qed.

(** The observations under a set of labels. *)
Definition observations (m : Monitor) (ts : tags) : list spec_float :=
  match responseTime m with Some h => default [] (observed h !! ts) | None => [] end.

(** The labels under which a request is counted. *)
Definition request_labels (route : string) (code : Z) : tags :=
  {["route" := route; "status" := pretty code]}.

Lemma SetResponseTimeMetric_ok m ts value :
  instantiated m → With_ok ["route"; "status"] ts = true →
  ∃ m', SetResponseTimeMetric ts value m = (Ok tt, m') ∧ instantiated m' ∧
    dependencyAvailability m' = dependencyAvailability m ∧
    ∀ ts', observations m' ts' = (observations m ts' ++ if decide (ts' = ts) then [value] else [])%list.
Proof.
  intros [(h&Hh&Hl) Hg] Hw. cbn. unfold monitor_SetResponseTimeMetric. rewrite Hh, Hl, Hw.
  eexists. split; [done|]. split; [by split; [eexists|]|]. split; [done|]. intros ts'.
  unfold observations. cbn. rewrite Hh. unfold observe. cbn [observed].
  destruct (decide (ts' = ts)) as [->|Hne]; [by rewrite lookup_insert_eq|].
  by rewrite lookup_insert_ne, app_nil_r.
Qed.

(** C30: the middleware is transparent to a request that was answered, and records
    it once, under its method and route and the status that was sent; a route that
    is no label value makes it panic after the request was served; a handler that
    panics or never returns is not counted. *)
Theorem ResponseTime_observes {S} Method Path elapsed (next : S → served * S) s m :
  instantiated m →
  match next s with
  | (Wrote (code :: codes), s') => (200 ≤ code)%Z → valid_label_value (pretty code) = true →
      if valid_label_value (Method +:+ ReplaceAll Path)
      then ∃ m', ResponseTime Method Path elapsed next (s, m) = (Wrote (code :: codes), (s', m')) ∧
             instantiated m' ∧ dependencyAvailability m' = dependencyAvailability m ∧
             ∀ ts, observations m' ts = (observations m ts ++
               if decide (ts = request_labels (Method +:+ ReplaceAll Path) code)
               then [elapsed] else [])%list
      else ∃ msg, ResponseTime Method Path elapsed next (s, m) = (Panicked msg, (s', m))
  | (Wrote [], _) => True
  | (out, s') => ResponseTime Method Path elapsed next (s, m) = (out, (s', m))
  end.
Proof.
  intros Hm. unfold ResponseTime; cbn [fst snd].
  destruct (next s) as [[[|code codes]|msg|] s']; [done| |done..]. intros Hc Hs.
  pose proof (response_labels_ok Method Path (code :: codes)) as Hi.
  rewrite Status_first in Hi by done.
  assert (response_tags Method Path (code :: codes) =
          request_labels (Method +:+ ReplaceAll Path) code) as Ht
    by (unfold response_tags; by rewrite Status_first).
  destruct (valid_label_value (Method +:+ ReplaceAll Path)).
  - destruct (SetResponseTimeMetric_ok m (response_tags Method Path (code :: codes)) elapsed)
      as (m'&Hset&?&?&Ho); [done|by apply Hi|]. rewrite Hset. exists m'.
    rewrite <- Ht. done.
  - assert (With_ok ["route"; "status"] (response_tags Method Path (code :: codes)) = false) as Hw
      by (apply not_true_is_false; intros [??]%Hi; done).
    destruct Hm as [(h&Hh&Hl) _]. cbn. unfold monitor_SetResponseTimeMetric.
    rewrite Hh, Hl, Hw. by eexists.
Qed.
End monitor.

(** The methods of a monitor on which nothing was registered. *)
Lemma zero_monitor_refuses `{!Prometheus} ts value :
  SetResponseTimeMetric ts value zero_monitor = (Err not_instantiated, zero_monitor) ∧
  SetDependencyAvailability ts value zero_monitor = (Err not_instantiated, zero_monitor).
Proof. done. Qed.

(** ** Examples *)

Module Witnesses.

#[export] Instance test_prometheus : Prometheus := {|
  Register _ := Registered;
  With_ok names ts := bool_decide (dom ts = list_to_set names);
  valid_label_value _ := true;
  show_vec o := vec_Name o;
|}.
#[export] Instance test_prometheus_laws : PrometheusLaws.
Proof.
  split. intros names ts. cbn. rewrite bool_decide_eq_true. split; [|tauto].
  intros ?. split; [done|]. by intros ? ? _.
Qed.

#[export] Instance test_writer : ChiWriter :=
  {| Status codes := default 0%Z (head (filter (λ c, (200 ≤ c)%Z) codes)) |}.
#[export] Instance test_writer_laws : ChiWriterLaws.
Proof. split. intros code codes Hc. cbn. by rewrite decide_True. Qed.

Definition monitor0 : Monitor :=
  (NewMonitor (H := test_prometheus) (H0 := Logging.Witnesses.test_zap) "hook-service"
     (NewNoopLogger)).2.

Definition answer_403 (n : nat) : served * nat := (Wrote [403%Z], S n).

Lemma ResponseTime_observes_witness :
  let m := monitor0 in
  ∃ m', ResponseTime "POST" "/api/v0/hook/hydra" (S754_zero false) answer_403 (7%nat, m)
        = (Wrote [403%Z], (8%nat, m')) ∧
    instantiated m' ∧ dependencyAvailability m' = dependencyAvailability m ∧
    ∀ ts, observations m' ts = (observations m ts ++
      if decide (ts = request_labels "POST/api/v0/hook/hydra" 403) then [S754_zero false] else [])%list.
Proof.
  intros m.
  assert (instantiated m) as Hm by apply NewMonitor_instantiated.
  exact (ResponseTime_observes "POST" "/api/v0/hook/hydra" (S754_zero false) answer_403 7%nat m
           Hm ltac:(lia) eq_refl).
Defined.

Lemma route_label_witness :
  ReplaceAll "/api/v0/authz/groups/{group_id}/users/{id}" = "/api/v0/authz/groups/id/users/id".
Proof.
  refine (route_label [("/api/v0/authz/groups/", "group_id"); ("/users/", "id")] "" _ _).
  - repeat constructor; cbn; compute_done.
  - compute_done.
Defined.

(** Two groups, two routes. *)
Example ids_stay :
  ReplaceAll "/api/v0/authz/groups/3f2a" ≠ ReplaceAll "/api/v0/authz/groups/77c1".
Proof. vm_compute. discriminate. Qed.
End Witnesses.
