(* ===== verification/Fga.v ===== *)
(** * internal/openfga: the OpenFGA client

    [Client] turns the program's tuples into requests of the OpenFGA SDK and the
    SDK's answers into results.  The SDK and the server behind it are not under
    src/: they are the class [FgaSdk], one field per request the client executes.
    [NoopClient] is the client used when authorization is disabled; the last part is
    the configuration and the construction of a client.  The timeouts of the
    contexts, spans and log lines are left out. *)

From S2P Require Import Prelude Errors Storage.

(** ** types.go *)

Record Tuple := mkTuple { User : string; Relation : string; Object : string }.

#[export] Instance Tuple_eq_dec : EqDecision Tuple.
Proof. solve_decision. Defined.
#[export] Instance Tuple_countable : Countable Tuple.
Proof.
  refine (inj_countable' (λ t, (User t, Relation t, Object t))
            (λ p, mkTuple p.1.1 p.1.2 p.2) _). by intros [].
Defined.

Record TupleWithContext := mkTupleWithContext {
  TUser : string; TRelation : string; TObject : string; ContextualTuples : list Tuple;
}.

Definition Values (t : Tuple) : string * string * string := (User t, Relation t, Object t).
Definition NewTuple (user relation object : string) : Tuple := mkTuple user relation object.
Definition NewTupleWithContext (user relation object : string) (ts : list Tuple)
    : TupleWithContext := mkTupleWithContext user relation object ts.

(** The filters of a listing.  [WithFilter] returns an [any]. *)
Inductive any := AnyTokens (tokens : gmap string string) | AnyTypes (ts : list string) | AnyRelation (r : string).

Record TokenMapFilter := mkTokenMapFilter { filter_tokens : gmap string string }.
Record TypesFilter := mkTypesFilter { filter_resourceTypes : list string }.
Record RelationFilter := mkRelationFilter { filter_relation : string }.

Definition NewTokenMapFilter (tokens : gmap string string) : TokenMapFilter := mkTokenMapFilter tokens.
(** The loop that copies its arguments. *)
Fixpoint append_types (acc resourceTypes : list string) : list string :=
  match resourceTypes with
  | [] => acc
  | r :: resourceTypes => append_types (acc ++ [r]) resourceTypes
  end.
Definition NewTypesFilter (resourceTypes : list string) : TypesFilter :=
  mkTypesFilter (append_types [] resourceTypes).
Definition NewRelationFilter (relation : string) : RelationFilter := mkRelationFilter relation.

Class ListPermissionsFiltersInterface (F : Type) := { WithFilter : F → any }.
#[export] Instance TokenMapFilter_filter : ListPermissionsFiltersInterface TokenMapFilter :=
  {| WithFilter f := AnyTokens (filter_tokens f) |}.
#[export] Instance TypesFilter_filter : ListPermissionsFiltersInterface TypesFilter :=
  {| WithFilter f := AnyTypes (filter_resourceTypes f) |}.
#[export] Instance RelationFilter_filter : ListPermissionsFiltersInterface RelationFilter :=
  {| WithFilter f := AnyRelation (filter_relation f) |}.

(** A filter holds what it was made from. *)
Lemma WithFilter_New ts types rel :
  WithFilter (NewTokenMapFilter ts) = AnyTokens ts ∧
  WithFilter (NewTypesFilter types) = AnyTypes types ∧
  WithFilter (NewRelationFilter rel) = AnyRelation rel.
Proof.
  split_and!; [done| |done]. cbn. f_equal.
  assert (∀ acc, append_types acc types = acc ++ types) as Ha; [|by apply Ha].
  induction types as [|t types IH]; intros acc; cbn; [by rewrite app_nil_r|].
  by rewrite IH, <- app_assoc.
Qed.

(** ** The SDK *)

Record AuthorizationModel (TD : Type) := mkModel {
  SchemaVersion : string; TypeDefinitions : TD;
}.
Arguments mkModel {TD}.
Arguments SchemaVersion {TD}.
Arguments TypeDefinitions {TD}.

(** [openfga.User] of a ListUsers answer: which of its alternatives is set. *)
Inductive FgaUser :=
  | UserObject (ty id : string) | UserUserset (ty id : string) | UserWildcard (ty : string)
  | UserNone.

(** One entry of a BatchCheck answer: [Allowed *bool] and [Error]. *)
Record BatchCheckSingleResult := mkBatchResult {
  Allowed : option bool; CheckError : option string;
}.

Class FgaSdk (S TD : Type) := {
  sdk_Write (writes deletes : list Tuple) : M S unit;
  sdk_Check (user relation object : string) (contextual : list Tuple) : M S (option bool);
  sdk_GetAuthorizationModelId : M S string;
  sdk_BatchCheck (modelID : string) (checks : list TupleWithContext)
    : M S (list BatchCheckSingleResult);
  sdk_Read (user relation object continuationToken : string) : M S (list Tuple * string);
  sdk_ListObjects (user relation type_ : string) : M S (list string);
  sdk_ListUsers (objectType objectID relation userType userRelation : string)
    : M S (list FgaUser);
  sdk_CreateStore (name : string) : M S string;
  sdk_ReadAuthorizationModel : M S (AuthorizationModel TD);
  sdk_WriteAuthorizationModel (model : AuthorizationModel TD) : M S string;
  #[global] TD_eq_dec :: EqDecision TD;
}.

(** [reflect.DeepEqual] on type definitions, values without functions or cycles. *)
Definition DeepEqual {S TD} `{!FgaSdk S TD} (x y : TD) : bool := bool_decide (x = y).

(** ** Strings *)

(** [strings.Cut(s, sep)] for a one-character separator. *)
Fixpoint Cut (s : string) (sep : ascii) : string * string :=
  match s with
  | "" => ("", "")
  | String a s =>
      if decide (a = sep) then ("", s)
      else let '(before, after) := Cut s sep in (String a before, after)
  end%string.

Lemma Cut_sep sep b a : without sep b → Cut (b +:+ String sep a) sep = (b, a).
Proof.
  unfold without. induction b as [|c b IH]; intros Hb.
  - rewrite string_app_nil_l. cbn [Cut]. by rewrite decide_True.
  - cbn [String.list_ascii_of_string] in Hb. apply not_elem_of_cons in Hb as [Hc Hb].
    rewrite string_app_cons. cbn [Cut]. rewrite decide_False by done. by rewrite IH.
Qed.

(** [s[n:]]; out of range is a panic. *)
Fixpoint slice_from (n : nat) (s : string) : option string :=
  match n, s with
  | O, _ => Some s
  | Datatypes.S _, EmptyString => None
  | Datatypes.S n, String _ s => slice_from n s
  end.

(** [strings.Join(ss, "\n")]. *)
Definition newline : string := String (Ascii.ascii_of_nat 10) "".
Fixpoint join_lines (ss : list string) : string :=
  match ss with
  | [] => ""
  | [s] => s
  | s :: ss => s +:+ newline +:+ join_lines ss
  end%string.

(** ** client.go *)

Module Client.
Section client.
Context {S TD : Type} `{!FgaSdk S TD}.

Definition CreateStore (name : string) : M S string := sdk_CreateStore name.
Definition ReadModel : M S (AuthorizationModel TD) := sdk_ReadAuthorizationModel.
Definition WriteModel (model : AuthorizationModel TD) : M S string :=
  sdk_WriteAuthorizationModel model.

Definition CompareModel (model : AuthorizationModel TD) : M S bool :=
  authModel ← ReadModel;
  if decide (SchemaVersion authModel ≠ SchemaVersion model) then mret false
  else if DeepEqual (TypeDefinitions authModel) (TypeDefinitions model) then mret false
  else mret true.

Definition WriteTuple (user relation object : string) : M S unit :=
  sdk_Write [mkTuple user relation object] [].
Definition DeleteTuple (user relation object : string) : M S unit :=
  sdk_Write [] [mkTuple user relation object].
Definition WriteTuples (tuples : list Tuple) : M S unit := sdk_Write tuples [].
Definition DeleteTuples (tuples : list Tuple) : M S unit := sdk_Write [] tuples.

(** [check.GetAllowed()]: false when the field is not set. *)
Definition Check (user relation object : string) (tuples : list Tuple) : M S bool :=
  check ← sdk_Check user relation object tuples;
  mret (default false check).

(** The loop over the answers: [*check.Allowed] panics on nil. *)
Fixpoint batch_results (rs : list BatchCheckSingleResult) (allowed : bool)
    (errString : list string) : result (bool * list string) :=
  match rs with
  | [] => Ok (allowed, errString)
  | check :: rs =>
      let errString' := match CheckError check with
                        | Some e => (errString ++ ["* "%string +:+ e])%list
                        | None => errString
                        end in
      if allowed then
        match Allowed check with
        | None => Err (EPanic "invalid memory address or nil pointer dereference")
        | Some b => batch_results rs b errString'
        end
      else batch_results rs false errString' (* [&&] does not look at Allowed *)
  end%string.

Definition BatchCheck (tuples : list TupleWithContext) : M S bool :=
  modelID ← sdk_GetAuthorizationModelId;
  data ← sdk_BatchCheck modelID tuples;
  p ← lift (batch_results data true ["error while performing Check operation:"%string]);
  if negb p.1 then fail (EText (join_lines p.2)) else mret p.1.

Definition ReadTuples (user relation object continuationToken : string)
    : M S (list Tuple * string) := sdk_Read user relation object continuationToken.

Fixpoint trim_objects (n : nat) (objs : list string) : result (list string) :=
  match objs with
  | [] => Ok []
  | p :: objs =>
      match slice_from n p with
      | None => Err (EPanic "slice bounds out of range")
      | Some o => match trim_objects n objs with Ok os => Ok (o :: os) | Err e => Err e end
      end
  end.

Definition ListObjects (user relation objectType : string) : M S (list string) :=
  objs ← sdk_ListObjects user relation objectType;
  lift (trim_objects (String.length (objectType +:+ ":")) objs).

Definition user_text (u : FgaUser) : string :=
  match u with
  | UserObject ty id | UserUserset ty id => ty +:+ ":" +:+ id
  | UserWildcard ty => ty +:+ ":*"
  | UserNone => ""
  end%string.

Definition ListUsers (userFilter relation object : string) : M S (list string) :=
  let '(userType, userRelation) := Cut userFilter "#"%char in
  let '(objectType, objectID) := Cut object ":"%char in
  users ← sdk_ListUsers objectType objectID relation userType userRelation;
  mret (user_text <$> users).
End client.
End Client.

(** ** noop.go *)

Module NoopClient.
Section noop.
Context {S TD : Type} (zero_model : AuthorizationModel TD).

Definition ListObjects (user relation objectType : string) : M S (list string) := mret [].
Definition ListUsers (userFilter relation object : string) : M S (list string) := mret [].
Definition Check (user relation object : string) (tuples : list Tuple) : M S bool :=
  mret true.
Definition BatchCheck (tuples : list TupleWithContext) : M S bool := mret true.
Definition WriteTuple (user relation object : string) : M S unit := mret tt.
Definition WriteTuples (tuples : list Tuple) : M S unit := mret tt.
Definition DeleteTuple (user relation object : string) : M S unit := mret tt.
Definition DeleteTuples (tuples : list Tuple) : M S unit := mret tt.
Definition ReadModel : M S (AuthorizationModel TD) := mret zero_model.
Definition WriteModel (model : list Byte.byte) : M S string := mret ""%string.
Definition CompareModel (model : AuthorizationModel TD) : M S bool := mret true.
Definition ReadTuples (user relation object continuationToken : string)
    : M S (list Tuple * string) := mret ([], ""%string).
End noop.
End NoopClient.

(** ** config.go and NewClient

    A client holds an SDK client.  go-playground/validator, which checks the tag
    [required] of the five strings of a configuration, and the SDK's constructor
    are parameters. *)

Record Config := mkFgaConfig {
  ApiScheme : string; ApiHost : string; StoreID : string; ApiToken : string;
  AuthModelID : string; Debug : bool;
}.

Class Validator := { Struct : list string → option goerr }.
(** A required string is one that is not empty. *)
Class ValidatorLaws `{!Validator} := {
  required_law fields : Struct fields = None ↔ ""%string ∉ fields;
}.

(** [None] is the nil pointer. *)
Definition NewConfig `{!Validator} (apiScheme apiHost storeID apiToken authModelID : string)
    (debug : bool) : option Config :=
  match Struct [apiScheme; apiHost; storeID; apiToken; authModelID] with
  | Some _ => None
  | None => Some (mkFgaConfig apiScheme apiHost storeID apiToken authModelID debug)
  end.

Class SdkFactory (S TD : Type) := {
  NewSdkClient : Config → result (FgaSdk S TD);
  SetStoreId : string → FgaSdk S TD → FgaSdk S TD;
  SetAuthorizationModelId : string → FgaSdk S TD → FgaSdk S TD;
}.

Section new_client.
Context {S TD : Type} `{!SdkFactory S TD}.

Definition NewClient (cfg : option Config) : result (FgaSdk S TD) :=
  match cfg with
  | None => Err (EPanic "OpenFGA config missing")
  | Some cfg =>
      match NewSdkClient cfg with
      | Err err => Err (EPanic ("issues setting up OpenFGA client " +:+ Error err))
      | Ok fga => Ok fga
      end
  end.

(** The cast of the held client to the SDK's succeeds: [NewClient] stored one. *)
Definition SetStoreID (storeID : string) (c : FgaSdk S TD) : FgaSdk S TD := SetStoreId storeID c.
Definition SetAuthorizationModelID (modelID : string) (c : FgaSdk S TD) : FgaSdk S TD :=
  SetAuthorizationModelId modelID c.
End new_client.

(** ** Properties *)

Lemma batch_results_false rs es : ∃ es', Client.batch_results rs false es = Ok (false, es').
Proof. revert es. induction rs as [|x rs IH]; intros es; cbn; eauto. Qed.

Lemma batch_results_true rs es b es' :
  Client.batch_results rs true es = Ok (b, es') →
  b = true ↔ ∀ x, x ∈ rs → Allowed x = Some true.
Proof.
  revert es. induction rs as [|x rs IH]; intros es; cbn.
  - intros; simplify_eq. set_solver.
  - destruct (Allowed x) as [[]|] eqn:Hx; [|..|done].
    + intros Hb. rewrite (IH _ Hb). set_solver.
    + intros Hb. destruct (batch_results_false rs
        (match CheckError x with Some e => (es ++ ["* "%string +:+ e])%list | None => es end))
        as [es0 Hf].
      assert (b = false) as -> by congruence. split; [done|].
      intros Hall. specialize (Hall x ltac:(set_solver)). congruence.
Qed.

Section client_properties.
Context {S TD : Type} `{!FgaSdk S TD}.

(** A batch check never answers "not allowed": it answers yes exactly when
    the server allowed every entry, and anything else is an error. *)
Theorem BatchCheck_all ts (s : S) r s' :
  Client.BatchCheck ts s = (r, s') →
  r ≠ Ok false ∧
  (r = Ok true → ∃ id s1 data, sdk_GetAuthorizationModelId s = (Ok id, s1) ∧
     sdk_BatchCheck id ts s1 = (Ok data, s') ∧ ∀ x, x ∈ data → Allowed x = Some true).
Proof.
  unfold Client.BatchCheck.
  intros [(e&->&_)|(id&s1&Hid&Hr)]%bind_inv; [done|].
  apply bind_inv in Hr as [(e&->&_)|(data&s2&Hd&Hr)]; [done|].
  apply bind_inv in Hr as [(e&->&_)|([b es]&s3&Hb&Hr)]; [done|].
  cbv [lift] in Hb. injection Hb as Hb <-.
  destruct b; cbn in Hr; unfold fail, mret, M_ret in Hr; simplify_eq; [|done].
  split; [done|]. intros _. exists id, s1, data. split_and!; [done..|].
  by apply (batch_results_true _ _ _ _ Hb).
Qed.

(** As the code is written, a stored model with the expected schema version
    and the expected type definitions is reported as different. *)
Theorem CompareModel_rejects_equal (model : AuthorizationModel TD) (s s' : S) :
  sdk_ReadAuthorizationModel s = (Ok model, s') →
  Client.CompareModel model s = (Ok false, s').
Proof.
  intros Hr. unfold Client.CompareModel, Client.ReadModel, DeepEqual.
  cbv [mbind M_bind]. rewrite Hr. rewrite decide_False by (intros Hn; by apply Hn).
  by rewrite bool_decide_true.
Qed.
End client_properties.

(** ** Examples *)

Module Witnesses.
Local Open Scope string_scope.

(** A server that allows only the user "alice". *)
#[local] Instance alice_sdk : FgaSdk unit nat := {
  sdk_Write _ _ := mret tt;
  sdk_Check u _ _ _ := mret (Some (bool_decide (u = "alice")));
  sdk_GetAuthorizationModelId := mret "01";
  sdk_BatchCheck _ cs := mret ((λ c, mkBatchResult (Some (bool_decide (TUser c = "alice"))) None) <$> cs);
  sdk_Read _ _ _ _ := mret ([], "");
  sdk_ListObjects _ _ _ := mret ["client:vault"];
  sdk_ListUsers _ _ _ _ _ := mret [];
  sdk_CreateStore _ := mret "01";
  sdk_ReadAuthorizationModel := mret (mkModel "1.1" 7%nat);
  sdk_WriteAuthorizationModel _ := mret "01";
}.

Lemma BatchCheck_all_witness :
  let ts := [NewTupleWithContext "alice" "can_access" "client:vault" []] in
  Client.BatchCheck ts tt = (Ok true, tt) ∧
  Ok true ≠ Ok false ∧
  (Ok true = Ok true → ∃ id s1 data, sdk_GetAuthorizationModelId tt = (Ok id, s1) ∧
     sdk_BatchCheck id ts s1 = (Ok data, tt) ∧ ∀ x, x ∈ data → Allowed x = Some true).
Proof.
  intros ts. split; [vm_compute; reflexivity|].
  refine (BatchCheck_all ts tt (Ok true) tt _). vm_compute. reflexivity.
Defined.

Lemma CompareModel_rejects_equal_witness :
  Client.CompareModel (mkModel "1.1" 7%nat) tt = (Ok false, tt).
Proof. apply CompareModel_rejects_equal. reflexivity. Defined.
End Witnesses.
