(* ===== verification/AuthModel.v ===== *)
(** * The authorization model: authorization_model.v0.openfga and auth_model.go

    The model is written in OpenFGA's language; the server, not the program, evaluates
    it.  Here it is a value ([v0], printed back by [v0_is_the_file]) of a type of models
    whose meaning [holds] is that of OpenFGA's documentation: direct relations with their
    type restrictions, usersets, wildcards, computed relations and relations from a
    parent.  [allowed] evaluates a model with fuel; [Authorizer] proves what the service's
    tuples mean under [v0].

    The second part is [AuthorizationModelProvider], which parses the file once; the
    transformer of OpenFGA's language is the class [Transformer]. *)

From S2P Require Import Prelude Errors Storage Fga.
Local Open Scope string_scope.

(** ** Models *)

(** An element of [\[user, user:*, group#member\]]. *)
Inductive restriction := OfType (ty : string) | Wildcard (ty : string) | Userset (ty rel : string).
#[export] Instance restriction_eq_dec : EqDecision restriction.
Proof. solve_decision. Defined.

Inductive rewrite :=
  | Direct (rs : list restriction)
  | Computed (rel : string)
  | FromParent (rel parent : string)    (** [rel from parent] *)
  | Or (a b : rewrite).

(** The types, each with its relations. *)
Definition model : Type := list (string * list (string * rewrite)).

Definition v0 : model :=
  let assigned := Direct [OfType "user"; Userset "group" "member"] in
  let admins := FromParent "admin" "privileged" in
  [ ("user", []);
    ("privileged", [("admin", Direct [OfType "user"])]);
    ("group",
      [ ("privileged", Direct [OfType "privileged"]);
        ("member", assigned);
        ("can_create", Or assigned admins);
        ("can_delete", Or assigned admins);
        ("can_edit", Or (Or assigned (Computed "can_delete")) admins);
        ("can_view",
          Or (Or (Direct [OfType "user"; Wildcard "user"; Userset "group" "member"])
                 (Computed "can_edit")) admins) ]);
    ("client",
      [ ("privileged", Direct [OfType "privileged"]);
        ("can_access", Or assigned admins) ]) ].

(** *** A model as text, without blank lines *)

Definition show_restriction (r : restriction) : string :=
  match r with
  | OfType ty => ty
  | Wildcard ty => ty +:+ ":*"
  | Userset ty rel => ty +:+ "#" +:+ rel
  end.

Fixpoint show_rewrite (w : rewrite) : string :=
  match w with
  | Direct rs => "[" +:+ String.concat ", " (show_restriction <$> rs) +:+ "]"
  | Computed rel => rel
  | FromParent rel parent => rel +:+ " from " +:+ parent
  | Or a b => show_rewrite a +:+ " or " +:+ show_rewrite b
  end.

Definition show_type (t : string * list (string * rewrite)) : list string :=
  ("type " +:+ t.1) ::
  match t.2 with
  | [] => []
  | rels => "  relations" ::
      ((λ r, "    define " +:+ r.1 +:+ ": " +:+ show_rewrite r.2) <$> rels)
  end.

Definition show_model (m : model) : list string :=
  ["model"; "  schema 1.1"] ++ (m ≫= show_type).

(** The embedded files; the second is empty. *)
Definition v0Schema : string := "model
  schema 1.1

type user

type privileged
  relations
    define admin: [user]

type group
  relations
    define privileged: [privileged]
    define member: [user, group#member]

    define can_create: [user, group#member] or admin from privileged
    define can_delete: [user, group#member] or admin from privileged
    define can_edit: [user, group#member] or can_delete or admin from privileged
    define can_view: [user, user:*, group#member] or can_edit or admin from privileged

type client
  relations
    define privileged: [privileged]

    define can_access: [user, group#member] or admin from privileged
".
Definition v2Schema : string := "".

(** The value [v0] is the embedded file. *)
Lemma v0_is_the_file :
  filter (λ l, l ≠ "") (Split (Ascii.ascii_of_nat 10) v0Schema) = show_model v0.
Proof. vm_compute. reflexivity. Qed.

(** ** The meaning of a model over a set of tuples *)

Fixpoint assoc {A} (k : string) (l : list (string * A)) : option A :=
  match l with
  | [] => None
  | (k', a) :: l => if decide (k = k') then Some a else assoc k l
  end.

(** What a relation of an object is defined as. *)
Definition relation_of (m : model) (object rel : string) : option rewrite :=
  rels ← assoc (Cut object ":"%char).1 m; assoc rel rels.

(** The kind of a tuple's user: a userset, everybody, or an object. *)
Definition user_kind (u : string) : restriction :=
  if decide (without "#"%char u) then
    let '(ty, id) := Cut u ":"%char in if decide (id = "*") then Wildcard ty else OfType ty
  else let '(object, rel) := Cut u "#"%char in Userset (Cut object ":"%char).1 rel.

Section meaning.
Context (m : model) (X : gset Tuple).

(** The user [u] is in what [w] says of the relation [r] of the object [o].  A tuple
    counts only when its user is of a kind the relation admits. *)
Inductive within : rewrite → string → string → string → Prop :=
  | within_direct rs u r o :
      user_kind u ∈ rs → mkTuple u r o ∈ X → within (Direct rs) u r o
  | within_everybody rs u r o ty :
      Wildcard ty ∈ rs → user_kind u = OfType ty → mkTuple (ty +:+ ":*") r o ∈ X →
      within (Direct rs) u r o
  | within_userset rs u r o us w :
      user_kind us ∈ rs → ¬ without "#"%char us → mkTuple us r o ∈ X →
      relation_of m (Cut us "#"%char).1 (Cut us "#"%char).2 = Some w →
      within w u (Cut us "#"%char).2 (Cut us "#"%char).1 → within (Direct rs) u r o
  | within_computed rel u r o w :
      relation_of m o rel = Some w → within w u rel o → within (Computed rel) u r o
  | within_parent rel parent u r o rs p w :
      relation_of m o parent = Some (Direct rs) → user_kind p ∈ rs →
      mkTuple p parent o ∈ X →
      relation_of m p rel = Some w → within w u rel p → within (FromParent rel parent) u r o
  | within_left a b u r o : within a u r o → within (Or a b) u r o
  | within_right a b u r o : within b u r o → within (Or a b) u r o.

Definition holds (u r o : string) : Prop := ∃ w, relation_of m o r = Some w ∧ within w u r o.
End meaning.

(** The kinds of user a relation's definition admits in its tuples. *)
Fixpoint restrictions (w : rewrite) : list restriction :=
  match w with
  | Direct rs => rs
  | Computed _ | FromParent _ _ => []
  | Or a b => restrictions a ++ restrictions b
  end.

(** The server refuses tuples that the model does not admit. *)
Definition admitted (m : model) (t : Tuple) : Prop :=
  match relation_of m (Object t) (Relation t) with
  | Some w => user_kind (User t) ∈ restrictions w
  | None => False
  end.
#[export] Instance admitted_dec m t : Decision (admitted m t).
Proof. unfold admitted. case_match; apply _. Defined.

(** *** Evaluation with fuel *)

Section evaluation.
Context (m : model) (X : list Tuple).

Fixpoint evaluate (fuel : nat) (w : rewrite) (u r o : string) : bool :=
  match fuel with
  | O => false
  | Datatypes.S fuel =>
      let via rel o := match relation_of m o rel with
                       | Some w => evaluate fuel w u rel o
                       | None => false
                       end in
      match w with
      | Direct rs => existsb (λ t,
          bool_decide (user_kind (User t) ∈ rs ∧ Relation t = r ∧ Object t = o) &&
          match user_kind (User t) with
          | OfType _ => bool_decide (User t = u)
          | Wildcard ty => bool_decide (User t = u ∨ User t = ty +:+ ":*" ∧ user_kind u = OfType ty)
          | Userset _ _ => bool_decide (User t = u) ||
              (bool_decide (¬ without "#"%char (User t)) &&
               via (Cut (User t) "#"%char).2 (Cut (User t) "#"%char).1)
          end) X
      | Computed rel => via rel o
      | FromParent rel parent =>
          match relation_of m o parent with
          | Some (Direct rs) => existsb (λ t,
              bool_decide (user_kind (User t) ∈ rs ∧ Relation t = parent ∧ Object t = o) &&
              via rel (User t)) X
          | _ => false
          end
      | Or a b => evaluate fuel a u r o || evaluate fuel b u r o
      end
  end.

Definition allowed (fuel : nat) (u r o : string) : bool :=
  match relation_of m o r with Some w => evaluate fuel w u r o | None => false end.

Lemma evaluate_sound fuel w u r o :
  evaluate fuel w u r o = true → within m (list_to_set X) w u r o.
Proof.
  revert w r o. induction fuel as [|fuel IH]; intros w r o; [done|]. cbn [evaluate].
  assert (∀ t, t ∈ X → mkTuple (User t) (Relation t) (Object t) ∈ (list_to_set X : gset Tuple)) as Hin.
  { intros []. cbn. by rewrite elem_of_list_to_set. }
  destruct w as [rs|rel|rel parent|a b].
  - intros (t&Ht%list_elem_of_In%Hin&Hx)%existsb_exists.
    apply andb_true_iff in Hx as [(Hk&<-&<-)%bool_decide_eq_true Hx].
    destruct (user_kind (User t)) as [ty|ty|ty rel] eqn:Hu.
    + apply bool_decide_eq_true in Hx as <-. apply within_direct; [by rewrite Hu|done].
    + apply bool_decide_eq_true in Hx as [<-|[He Hx]]; [apply within_direct; [by rewrite Hu|done]|].
      eapply within_everybody; [done..|]. by rewrite <- He.
    + apply orb_true_iff in Hx as [<-%bool_decide_eq_true|Hx];
        [apply within_direct; [by rewrite Hu|done]|].
      apply andb_true_iff in Hx as [Hs%bool_decide_eq_true Hx].
      destruct (relation_of _ _ _) as [w|] eqn:Hw; [|done].
      eapply within_userset; [by rewrite Hu|done..|]. by apply IH.
  - destruct (relation_of _ _ _) as [w|] eqn:Hw; [|done]. intros Hx.
    eapply within_computed; [done|]. by apply IH.
  - destruct (relation_of _ _ parent) as [[rs| | |]|] eqn:Hp; [|done..].
    intros (t&Ht%list_elem_of_In%Hin&Hx)%existsb_exists.
    apply andb_true_iff in Hx as [(Hk&Hr&Ho)%bool_decide_eq_true Hx].
    destruct (relation_of _ _ rel) as [w|] eqn:Hw; [|done].
    rewrite Hr, Ho in Ht. eapply within_parent; [done..|]. by apply IH.
  - intros [Hx|Hx]%orb_true_iff; [apply within_left|apply within_right]; by apply IH.
Qed.

Lemma allowed_sound fuel u r o :
  allowed fuel u r o = true → holds m (list_to_set X) u r o.
Proof.
  unfold allowed. destruct (relation_of m o r) as [w|] eqn:Hw; [|done].
  intros Hx%evaluate_sound. by exists w.
Qed.
End evaluation.

(** ** auth_model.go *)

(** The transformer of OpenFGA's language to protobuf, and the JSON in between. *)
Class Transformer (TD : Type) := {
  Proto : Type;
  TransformDSLToProto : string → result Proto;
  protojson_Marshal : Proto → result string;
  json_Unmarshal : string → result (AuthorizationModel TD);
}.

Section provider.
Context {TD : Type} `{!Transformer TD}.

Record AuthorizationModelProvider := mkProvider {
  apiVersion : string; provider_model : option (AuthorizationModel TD);
}.

(** [panic(fmt.Errorf("failed to transform due to %w", err))] *)
Definition must {A} (r : result A) : M AuthorizationModelProvider A :=
  match r with
  | Ok a => mret a
  | Err err => fail (EPanic ("failed to transform due to " +:+ Error err))
  end.

Definition readAuthzModelFromDSLString (dslString : string)
    : M AuthorizationModelProvider (AuthorizationModel TD) :=
  parsedAuthModel ← must (TransformDSLToProto dslString);
  bytes ← must (protojson_Marshal parsedAuthModel);
  must (json_Unmarshal bytes).

Definition prepareModel : M AuthorizationModelProvider (AuthorizationModel TD) := λ a,
  readAuthzModelFromDSLString
    (if decide (apiVersion a = "v2") then v2Schema else v0Schema) a.

Definition GetModel : M AuthorizationModelProvider (AuthorizationModel TD) := λ a,
  match provider_model a with
  | Some model => (Ok model, a)
  | None =>
      match prepareModel a with
      | (Ok model, a) => (Ok model, mkProvider (apiVersion a) (Some model))
      | (Err e, a) => (Err e, a)
      end
  end.

Definition NewAuthorizationModelProvider (apiVersion : string) : AuthorizationModelProvider :=
  mkProvider apiVersion None.

(** A provider gives one model for ever: the file is read at most once, whatever
    happens to the transformer afterwards. *)
Lemma GetModel_cached (a : AuthorizationModelProvider) model a' :
  GetModel a = (Ok model, a') → GetModel a' = (Ok model, a').
Proof.
  unfold GetModel. destruct (provider_model a) as [x|] eqn:Ha.
  - intros [= <- <-]. by rewrite Ha.
  - destruct (prepareModel a) as [[x|e] a1]; [|done]. by intros [= <- <-].
Qed.
End provider.
Arguments AuthorizationModelProvider : clear implicits.
