(* ===== verification/Authorizer.v ===== *)
(** * internal/authorization: who may use which client

    [Authorizer] writes one OpenFGA tuple per (group, application) pair, removes
    them page by page, and answers access questions by a Check with one
    contextual membership tuple per group of the user.  The client it uses is the
    class [AuthzClient] (AuthzClientInterface); [AuthzLaws] is what the code
    relies on of the OpenFGA server: writes and deletes act on a set of tuples, a
    read is delivered in pages whose tokens stand for what is still to come, and a
    check evaluates the model authorization_model.v0.openfga ([AuthModel.v0]).

    Group ids are base64-encoded into tuples (util.go); the encoding is proved
    injective, so distinct groups never share a tuple. *)

From S2P Require Import Prelude Errors Storage StorageSpec Fga AuthModel.

(** ** encoding/base64, StdEncoding *)

Definition alphabet : string :=
  "ABCDEFGHIJKLMNOPQRSTUVWXYZabcdefghijklmnopqrstuvwxyz0123456789+/".

(** The digit of a 6-bit group, most significant bit first, and back. *)
Definition digit (b5 b4 b3 b2 b1 b0 : bool) : ascii :=
  let v (b : bool) n := if b then n else 0%nat in
  default "="%char
    (String.get (v b5 32 + v b4 16 + v b3 8 + v b2 4 + v b1 2 + v b0 1)%nat alphabet).

Fixpoint EncodeToString (s : string) : string :=
  match s with
  | "" => ""
  | String (Ascii.Ascii a0 a1 a2 a3 a4 a5 a6 a7) "" =>
      String (digit a7 a6 a5 a4 a3 a2) (String (digit a1 a0 false false false false) "==")
  | String (Ascii.Ascii a0 a1 a2 a3 a4 a5 a6 a7)
      (String (Ascii.Ascii b0 b1 b2 b3 b4 b5 b6 b7) "") =>
      String (digit a7 a6 a5 a4 a3 a2) (String (digit a1 a0 b7 b6 b5 b4)
        (String (digit b3 b2 b1 b0 false false) "="))
  | String (Ascii.Ascii a0 a1 a2 a3 a4 a5 a6 a7)
      (String (Ascii.Ascii b0 b1 b2 b3 b4 b5 b6 b7)
        (String (Ascii.Ascii c0 c1 c2 c3 c4 c5 c6 c7) s)) =>
      String (digit a7 a6 a5 a4 a3 a2) (String (digit a1 a0 b7 b6 b5 b4)
        (String (digit b3 b2 b1 b0 c7 c6) (String (digit c5 c4 c3 c2 c1 c0)
          (EncodeToString s))))
  end%string.

(** ** util.go *)

Definition CAN_ACCESS_RELATION : string := "can_access".
Definition MEMBER_RELATION : string := "member".
Definition UserTuple (userId : string) : string := "user:" +:+ userId.
Definition ClientTuple (clientId : string) : string := "client:" +:+ clientId.
Definition GroupTuple (groupId : string) : string := "group:" +:+ EncodeToString groupId.
Definition GroupMemberTuple (groupId : string) : string :=
  GroupTuple groupId +:+ "#" +:+ MEMBER_RELATION.

(** ** AuthzClientInterface *)

Class AuthzClient (S TD : Type) := {
  ac_ListObjects (user relation objectType : string) : M S (list string);
  ac_Check (user relation object : string) (contextual : list Tuple) : M S bool;
  ac_BatchCheck (tuples : list TupleWithContext) : M S bool;
  ac_CompareModel (model : AuthorizationModel TD) : M S bool;
  ac_ReadTuples (user relation object continuationToken : string)
    : M S (list Tuple * string);
  ac_WriteTuple (user relation object : string) : M S unit;
  ac_DeleteTuple (user relation object : string) : M S unit;
  ac_DeleteTuples (tuples : list Tuple) : M S unit;
}.

(** The two implementations. *)
#[export] Instance client_AuthzClient {S TD} `{!FgaSdk S TD} : AuthzClient S TD := {|
  ac_ListObjects := Client.ListObjects; ac_Check := Client.Check;
  ac_BatchCheck := Client.BatchCheck; ac_CompareModel := Client.CompareModel;
  ac_ReadTuples := Client.ReadTuples; ac_WriteTuple := Client.WriteTuple;
  ac_DeleteTuple := Client.DeleteTuple; ac_DeleteTuples := Client.DeleteTuples;
|}.

Definition noop_AuthzClient {S TD} : AuthzClient S TD := {|
  ac_ListObjects := NoopClient.ListObjects; ac_Check := NoopClient.Check;
  ac_BatchCheck := NoopClient.BatchCheck; ac_CompareModel := NoopClient.CompareModel;
  ac_ReadTuples := NoopClient.ReadTuples; ac_WriteTuple := NoopClient.WriteTuple;
  ac_DeleteTuple := NoopClient.DeleteTuple; ac_DeleteTuples := NoopClient.DeleteTuples;
|}.

(** ** authorization.go *)

Section authorizer.
Context {S TD : Type} `{!AuthzClient S TD}.

Definition Check (user relation object : string) (contextual : list Tuple) : M S bool :=
  ac_Check user relation object contextual.

Definition ListObjects (user relation objectType : string) : M S (list string) :=
  ac_ListObjects user relation objectType.

Definition FilterObjects (user relation objectType : string) (objs : list string)
    : M S (list string) :=
  allowedObjs ← ListObjects user relation objectType;
  mret (filter (λ obj, obj ∈ objs) allowedObjs).

(** The state of the provider ends with the call. *)
Definition ValidateModel `{!Transformer TD} : M S unit :=
  model ← lift (GetModel (NewAuthorizationModelProvider "v0")).1;
  eq ← ac_CompareModel model;
  if negb eq then fail (ESentinel ErrInvalidAuthModel) else mret tt.

Definition member_tuples (userId : string) (groups : list string) : list Tuple :=
  (λ g, NewTuple (UserTuple userId) MEMBER_RELATION (GroupTuple g)) <$> groups.

Definition CanAccess (userId clientId : string) (groups : list string) : M S bool :=
  Check (UserTuple userId) CAN_ACCESS_RELATION (ClientTuple clientId)
    (member_tuples userId groups).

Definition BatchCanAccess (userId : string) (clientIds groups : list string) : M S bool :=
  let ctxTuples := member_tuples userId groups in
  ac_BatchCheck ((λ c, NewTupleWithContext (UserTuple userId) CAN_ACCESS_RELATION
                         (ClientTuple c) ctxTuples) <$> clientIds).

Definition AddAllowedAppToGroup (groupID clientID : string) : M S unit :=
  ac_WriteTuple (GroupMemberTuple groupID) CAN_ACCESS_RELATION (ClientTuple clientID).

Definition RemoveAllowedAppFromGroup (groupID clientID : string) : M S unit :=
  ac_DeleteTuple (GroupMemberTuple groupID) CAN_ACCESS_RELATION (ClientTuple clientID).

(** The loop of the two bulk removals; [None] when the fuel is used up. *)
Fixpoint remove_loop (fuel : nat) (user object cToken : string) : M S (option unit) :=
  match fuel with
  | O => mret None
  | Datatypes.S fuel =>
      r ← ac_ReadTuples user CAN_ACCESS_RELATION object cToken;
      if decide (length r.1 = 0%nat) then mret (Some tt)
      else
        let ts := (λ t, NewTuple (User t) (Relation t) (Object t)) <$> r.1 in
        _ ← ac_DeleteTuples ts;
        if decide (r.2 = "")%string then mret (Some tt)
        else remove_loop fuel user object r.2
  end.

Definition RemoveAllAllowedGroupsForApp (fuel : nat) (clientID : string)
    : M S (option unit) :=
  remove_loop fuel (GroupMemberTuple "") (ClientTuple clientID) "".

Definition RemoveAllAllowedAppsFromGroup (fuel : nat) (groupId : string)
    : M S (option unit) :=
  remove_loop fuel (GroupMemberTuple groupId) (ClientTuple "") "".

Definition DeleteGroup (fuel : nat) (group : string) : M S (option unit) :=
  RemoveAllAllowedAppsFromGroup fuel group.
End authorizer.

(** ** What the program relies on of the server

    A write that answers with an error may have taken effect all the same: the request
    ran into the timeout of its context, or the answer was lost. *)

Class AuthzStore (S : Type) := {
  tuples : S → gset Tuple;
  (** the filter of a read *)
  matches : string → string → string → Tuple → bool;
  (** the matching tuples a continuation token has still to deliver *)
  remaining : S → string → string → string → string → gset Tuple;
}.

Class AuthzLaws (S TD : Type) `{!AuthzClient S TD, !AuthzStore S} := {
  remaining_start s u r o :
    remaining s u r o "" = filter (λ t, matches u r o t = true) (tuples s);
  remaining_matches s u r o tok t :
    t ∈ remaining s u r o tok → t ∈ tuples s ∧ matches u r o t = true;
  ReadTuples_law u r o tok s x s' : ac_ReadTuples u r o tok s = (x, s') →
    tuples s' = tuples s ∧
    match x with
    | Ok (ts, tok') =>
        (∀ t, t ∈ ts → t ∈ remaining s u r o tok) ∧
        (ts = [] → remaining s u r o tok = ∅) ∧
        (tok' = ""%string → ∀ t, t ∈ remaining s u r o tok → t ∈ ts) ∧
        (tok' ≠ ""%string → remaining s' u r o tok' ⊆ remaining s u r o tok ∧
          ∀ t, t ∈ remaining s u r o tok → t ∈ ts ∨ t ∈ remaining s' u r o tok')
    | Err _ => True
    end;
  DeleteTuples_law ts s x s' : ac_DeleteTuples ts s = (x, s') →
    match x with
    | Ok _ => tuples s' = tuples s ∖ list_to_set ts ∧
        ∀ u r o tok, remaining s' u r o tok = remaining s u r o tok ∖ list_to_set ts
    | Err _ => tuples s' = tuples s ∨ tuples s' = tuples s ∖ list_to_set ts
    end;
  DeleteTuple_law u r o s x s' : ac_DeleteTuple u r o s = (x, s') →
    match x with
    | Ok _ => tuples s' = tuples s ∖ {[mkTuple u r o]}
    | Err _ => tuples s' = tuples s ∨ tuples s' = tuples s ∖ {[mkTuple u r o]}
    end;
  WriteTuple_law u r o s x s' : ac_WriteTuple u r o s = (x, s') →
    match x with
    | Ok _ => tuples s' = {[mkTuple u r o]} ∪ tuples s
    | Err _ => tuples s' = tuples s ∨ tuples s' = {[mkTuple u r o]} ∪ tuples s
    end;
  Check_law u r o ctx s x s' : ac_Check u r o ctx s = (x, s') →
    tuples s' = tuples s ∧
    match x with
    | Ok b => (∀ t, t ∈ ctx → admitted v0 t) ∧
        (b = true ↔ holds v0 (tuples s ∪ list_to_set ctx) u r o)
    | Err _ => True
    end;
  BatchCheck_law ts s x s' : ac_BatchCheck ts s = (x, s') →
    tuples s' = tuples s ∧
    (x = Ok true → ∀ t, t ∈ ts →
       (∀ t', t' ∈ ContextualTuples t → admitted v0 t') ∧
       holds v0 (tuples s ∪ list_to_set (ContextualTuples t)) (TUser t) (TRelation t) (TObject t));
}.

(** The pairs (group, application) as tuples. *)
Definition grant_tuple (p : string * string) : Tuple :=
  mkTuple (GroupMemberTuple p.1) CAN_ACCESS_RELATION (ClientTuple p.2).
Definition grant_tuples (A : gset (string * string)) : gset Tuple := set_map grant_tuple A.

(** How a read filters the service's grants.  An object that is only a type, [client:],
    stands for every object of the type.  What the user [group:#member], a userset
    without an id, stands for is not documented: a server that filters by those parts of
    the user that are given lists the grants of every group, one that looks for that very
    user lists none.  [lists_group] tells the groups whose grants are listed. *)
Class FilterLaws (S : Type) `{!AuthzStore S} := {
  lists_group : string → bool;
  matches_apps g p : g ≠ ""%string →
    matches (GroupMemberTuple g) CAN_ACCESS_RELATION (ClientTuple "") (grant_tuple p) =
    bool_decide (p.1 = g);
  matches_groups c p : c ≠ ""%string →
    matches (GroupMemberTuple "") CAN_ACCESS_RELATION (ClientTuple c) (grant_tuple p) =
    lists_group p.1 && bool_decide (p.2 = c);
}.
Arguments lists_group S {_ _} g.

(** ** Properties of the encoding *)

(** The value of a digit. *)
Definition digit_bits (a : ascii) : option (bool * bool * bool * bool * bool * bool) :=
  let fix find (s : string) (n : nat) : option nat :=
    match s with
    | EmptyString => None
    | String b s => if decide (a = b) then Some n else find s (Datatypes.S n)
    end in
  n ← find alphabet 0%nat;
  Some (Nat.testbit n 5, Nat.testbit n 4, Nat.testbit n 3, Nat.testbit n 2,
        Nat.testbit n 1, Nat.testbit n 0).

Lemma digit_bits_digit b5 b4 b3 b2 b1 b0 :
  digit_bits (digit b5 b4 b3 b2 b1 b0) = Some (b5, b4, b3, b2, b1, b0).
Proof. destruct b5, b4, b3, b2, b1, b0; vm_compute; reflexivity. Qed.

Lemma digit_inj b5 b4 b3 b2 b1 b0 c5 c4 c3 c2 c1 c0 :
  digit b5 b4 b3 b2 b1 b0 = digit c5 c4 c3 c2 c1 c0 →
  b5 = c5 ∧ b4 = c4 ∧ b3 = c3 ∧ b2 = c2 ∧ b1 = c1 ∧ b0 = c0.
Proof.
  intros Hd%(f_equal digit_bits). rewrite !digit_bits_digit in Hd. by simplify_eq.
Qed.

Lemma digit_not b5 b4 b3 b2 b1 b0 a :
  digit_bits a = None → digit b5 b4 b3 b2 b1 b0 ≠ a.
Proof. intros Ha <-. by rewrite digit_bits_digit in Ha. Qed.

(** Induction over a string three characters at a time. *)
Lemma string_ind3 (P : string → Prop) :
  P ""%string → (∀ a, P (String a "")) → (∀ a b, P (String a (String b ""))) →
  (∀ a b c s, P s → P (String a (String b (String c s)))) → ∀ s, P s.
Proof.
  intros H0 H1 H2 H3. fix IH 1.
  intros [|a [|b [|c s]]]; [apply H0|apply H1|apply H2|apply H3, IH].
Qed.

#[local] Ltac encode_inj :=
  repeat match goal with
  | H : String _ _ = String _ _ |- _ => injection H; clear H; intros
  | H : digit _ _ _ _ _ _ = digit _ _ _ _ _ _ |- _ =>
      apply digit_inj in H as (?&?&?&?&?&?)
  | H : digit _ _ _ _ _ _ = "="%char |- _ => by apply digit_not in H
  | H : "="%char = digit _ _ _ _ _ _ |- _ => symmetry in H; by apply digit_not in H
  end; subst; try done.

#[local] Arguments digit : simpl never.

Lemma EncodeToString_inj s t : EncodeToString s = EncodeToString t → s = t.
Proof.
  revert t. induction s as [|[]|[] []|[] [] [] s IH] using string_ind3;
    intros [|[] [|[] [|[] t]]] He; cbn in He; encode_inj.
  by rewrite (IH t).
Qed.

(** The encoding has no character that separates the parts of a tuple. *)
Lemma EncodeToString_chars s a :
  digit_bits a = None → a ≠ "="%char → a ∉ String.list_ascii_of_string (EncodeToString s).
Proof.
  intros Ha He. induction s as [|[]|[] []|[] [] [] s IH] using string_ind3; cbn;
    rewrite ?not_elem_of_cons; repeat apply conj; try done;
    try apply not_elem_of_nil;
    intros Hd; symmetry in Hd; revert Hd; by apply digit_not.
Qed.

Lemma string_app_inj_r (s t u : string) : s +:+ u = t +:+ u → s = t.
Proof.
  revert t. induction s as [|a s IH]; intros [|b t] He;
    rewrite ?string_app_cons, ?string_app_nil_l in He; [done| | |].
  - apply (f_equal String.length) in He. cbn in He.
    assert (String.length (t +:+ u) = String.length t + String.length u)%nat as Hl.
    { clear. induction t as [|a t IH]; [done|]. rewrite string_app_cons; cbn. lia. }
    lia.
  - apply (f_equal String.length) in He. cbn in He.
    assert (String.length (s +:+ u) = String.length s + String.length u)%nat as Hl.
    { clear. induction s as [|b s IH]; [done|]. rewrite string_app_cons; cbn. lia. }
    lia.
  - injection He as -> He. by rewrite (IH t).
Qed.

Lemma GroupTuple_inj g g' : GroupTuple g = GroupTuple g' → g = g'.
Proof. unfold GroupTuple. intros He. apply EncodeToString_inj. by injection He. Qed.
Lemma ClientTuple_inj c c' : ClientTuple c = ClientTuple c' → c = c'.
Proof. unfold ClientTuple. intros He. by injection He. Qed.

Lemma GroupMemberTuple_inj g g' : GroupMemberTuple g = GroupMemberTuple g' → g = g'.
Proof. intros He%string_app_inj_r. by apply GroupTuple_inj. Qed.

(** No name of a group holds the character that marks a userset. *)
Lemma GroupTuple_plain g : without "#"%char (GroupTuple g).
Proof.
  unfold without, GroupTuple. rewrite !string_app_cons, string_app_nil_l.
  cbn [String.list_ascii_of_string]. rewrite !not_elem_of_cons.
  split_and!; try done. by apply EncodeToString_chars.
Qed.

(** C27: the OpenFGA names of groups, of their members and of applications are
    faithful: two ids have the same name only when they are the same id, whatever
    characters they hold, and no group's name is a user's or an application's. *)
Theorem tuple_names_faithful :
  (∀ g g', GroupMemberTuple g = GroupMemberTuple g' ↔ g = g') ∧
  (∀ g g', GroupTuple g = GroupTuple g' ↔ g = g') ∧
  (∀ c c', ClientTuple c = ClientTuple c' ↔ c = c') ∧
  (∀ g u c, GroupMemberTuple g ≠ UserTuple u ∧ GroupTuple g ≠ ClientTuple c ∧
            GroupTuple g ≠ UserTuple u) ∧
  (∀ g, "#"%char ∉ String.list_ascii_of_string (GroupTuple g)).
Proof.
  split_and!.
  - split; [apply GroupMemberTuple_inj|by intros ->].
  - split; [apply GroupTuple_inj|by intros ->].
  - split; [apply ClientTuple_inj|by intros ->].
  - done.
  - apply GroupTuple_plain.
Qed.

(** ** Properties of the authorizer *)

#[export] Instance grant_tuple_inj : Inj (=) (=) grant_tuple.
Proof.
  intros [g c] [g' c'] He. pose proof (f_equal User He) as Hg.
  apply (f_equal Object) in He as Hc. cbn [grant_tuple User Object fst snd] in Hg, Hc.
  apply GroupMemberTuple_inj in Hg as ->. by apply ClientTuple_inj in Hc as ->.
Qed.

Lemma mkTuple_inj u r o u' r' o' :
  mkTuple u r o = mkTuple u' r' o' → u = u' ∧ r = r' ∧ o = o'.
Proof. intros He. split_and!; congruence. Qed.

(** What the names are to the model. *)
Lemma relation_of_client c :
  relation_of v0 (ClientTuple c) CAN_ACCESS_RELATION =
  Some (Or (Direct [OfType "user"; Userset "group" "member"]) (FromParent "admin" "privileged")).
Proof. done. Qed.
Lemma relation_of_group g :
  relation_of v0 (GroupTuple g) MEMBER_RELATION =
  Some (Direct [OfType "user"; Userset "group" "member"]).
Proof. done. Qed.

Lemma Cut_GroupMemberTuple g : Cut (GroupMemberTuple g) "#"%char = (GroupTuple g, MEMBER_RELATION).
Proof. apply (Cut_sep "#"%char (GroupTuple g) MEMBER_RELATION), GroupTuple_plain. Qed.

Lemma GroupMemberTuple_userset g : ¬ without "#"%char (GroupMemberTuple g).
Proof. apply (with_sep "#"%char (GroupTuple g) MEMBER_RELATION). Qed.

Lemma user_kind_GroupMemberTuple g : user_kind (GroupMemberTuple g) = Userset "group" "member".
Proof.
  unfold user_kind. rewrite decide_False by apply GroupMemberTuple_userset.
  by rewrite Cut_GroupMemberTuple.
Qed.

(** What is a user for the service is an object of type user where usersets and
    everybody are not admitted. *)
Lemma user_kind_user u (rs : list restriction) :
  Wildcard "user" ∉ rs → (∀ rel, Userset "user" rel ∉ rs) →
  user_kind (UserTuple u) ∈ rs → user_kind (UserTuple u) = OfType "user" ∧ without "#"%char (UserTuple u).
Proof.
  intros Hw Hu. unfold user_kind. case_decide as Hn.
  - assert (Cut (UserTuple u) ":"%char = ("user", u)) as -> by done. by case_decide.
  - destruct (Cut (UserTuple u) "#"%char) as [b a] eqn:Hc.
    assert ((Cut b ":"%char).1 = "user") as ->; [|intros Hk; by destruct (Hu a)].
    unfold UserTuple in Hc. rewrite !string_app_cons, string_app_nil_l in Hc. cbn [Cut] in Hc.
    repeat (rewrite decide_False in Hc by done). destruct (Cut u "#"%char) as [b' a'].
    by simplify_eq.
Qed.

(** The tuples of a question: the service's and the contextual memberships. *)
Lemma elem_of_question A u gs t :
  t ∈ grant_tuples A ∪ list_to_set (member_tuples u gs) ↔
  (∃ g c, (g, c) ∈ A ∧ t = grant_tuple (g, c)) ∨
  (∃ g, g ∈ gs ∧ t = mkTuple (UserTuple u) MEMBER_RELATION (GroupTuple g)).
Proof.
  rewrite elem_of_union, elem_of_list_to_set. unfold grant_tuples, member_tuples.
  rewrite elem_of_map, list_elem_of_fmap. unfold NewTuple. split.
  - intros [([g c']&->&?)|(g&->&?)]; eauto 6.
  - intros [(g&c'&?&->)|(g&?&->)]; eauto 6.
Qed.

(** Membership of a group, by the contextual tuples alone. *)
Lemma member_of_group A u gs g :
  (∀ t, t ∈ member_tuples u gs → admitted v0 t) →
  within v0 (grant_tuples A ∪ list_to_set (member_tuples u gs))
    (Direct [OfType "user"; Userset "group" "member"]) (UserTuple u) MEMBER_RELATION (GroupTuple g) →
  g ∈ gs.
Proof.
  intros Hadm Hin. inversion Hin as [? ? ? ? Hk Ht|? ? ? ? ty Hw|? ? ? ? us w Hk Hus Ht Hr Hm| | | |]; subst.
  - apply elem_of_question in Ht as [(?&?&_&(_&Hr&_)%mkTuple_inj)|(g2&?&(_&_&Ho)%mkTuple_inj)]; [done|].
    by apply GroupTuple_inj in Ho as ->.
  - set_solver.
  - apply elem_of_question in Ht as [(?&?&_&(_&Hr'&_)%mkTuple_inj)|(g2&?&(->&_&_)%mkTuple_inj)]; [done|].
    apply user_kind_user in Hk as [_ ?]; [done|set_solver..].
Qed.

(** Access, as the model evaluates it on the service's tuples and the contextual
    memberships of a request, which the server admits. *)
Lemma holds_can_access A u gs c :
  (∀ t, t ∈ member_tuples u gs → admitted v0 t) →
  holds v0 (grant_tuples A ∪ list_to_set (member_tuples u gs))
    (UserTuple u) CAN_ACCESS_RELATION (ClientTuple c) ↔
  ∃ g, g ∈ gs ∧ (g, c) ∈ A.
Proof.
  intros Hadm. unfold holds. rewrite relation_of_client. split.
  - intros (?&[= <-]&Hin). inversion Hin as [| | | | |? ? ? ? ? Ha|? ? ? ? ? Hb]; subst.
    + inversion Ha as [? ? ? ? Hk Ht|? ? ? ? ty Hw|? ? ? ? us w Hk Hus Ht Hr Hm| | | |]; subst.
      * apply elem_of_question in Ht as [(g&c'&_&(Hu&_&_)%mkTuple_inj)|(g&_&(_&Hr&_)%mkTuple_inj)]; done.
      * set_solver.
      * apply elem_of_question in Ht as [(g&c'&HA&(->&_&Hc)%mkTuple_inj)|(g&_&(_&Hr'&_)%mkTuple_inj)];
          [|done].
        cbn [fst snd] in Hc, Hr, Hm. apply ClientTuple_inj in Hc as <-.
        rewrite Cut_GroupMemberTuple in Hr, Hm. cbn [fst snd] in Hr, Hm.
        rewrite relation_of_group in Hr. injection Hr as <-.
        exists g. split; [|done]. by eapply member_of_group.
    + inversion Hb as [| | | |? ? ? ? ? rs p w Hp Hk Ht| |]; subst.
      by apply elem_of_question in Ht as [(?&?&_&(_&Hr&_)%mkTuple_inj)|(?&_&(_&Hr&_)%mkTuple_inj)].
  - intros (g&Hg&HA). eexists. split; [done|]. apply within_left.
    eapply (within_userset _ _ _ _ _ _ (GroupMemberTuple g)).
    + rewrite user_kind_GroupMemberTuple. set_solver.
    + apply GroupMemberTuple_userset.
    + apply elem_of_question. left. by exists g, c.
    + rewrite Cut_GroupMemberTuple. apply relation_of_group.
    + rewrite Cut_GroupMemberTuple. apply within_direct.
      * specialize (Hadm (mkTuple (UserTuple u) MEMBER_RELATION (GroupTuple g))).
        unfold admitted in Hadm. cbn [Object Relation User] in Hadm.
        rewrite relation_of_group in Hadm. apply Hadm.
        unfold member_tuples. apply list_elem_of_fmap. by exists g.
      * apply elem_of_question. right. by exists g.
Qed.

Section properties.
Context {S TD : Type} `{AuthzLaws S TD}.
Implicit Types (s : S) (A : gset (string * string)).

(** The two questions on a server that holds exactly the service's grants. *)
Lemma CanAccess_grants A user client gs s b s' :
  tuples s = grant_tuples A → CanAccess user client gs s = (Ok b, s') →
  b = true ↔ ∃ g, g ∈ gs ∧ (g, client) ∈ A.
Proof. intros HA [_ [Hadm Hb]]%Check_law. by rewrite Hb, HA, holds_can_access. Qed.

(** A service account's request is granted only when every application of
    its audience is allowed to one of the groups. *)
Lemma BatchCanAccess_grants A user clients gs s s' :
  tuples s = grant_tuples A → BatchCanAccess user clients gs s = (Ok true, s') →
  ∀ c, c ∈ clients → ∃ g, g ∈ gs ∧ (g, c) ∈ A.
Proof.
  intros HA [_ Hb]%BatchCheck_law c Hc.
  destruct (Hb eq_refl (NewTupleWithContext (UserTuple user) CAN_ACCESS_RELATION
    (ClientTuple c) (member_tuples user gs))) as [Hadm Hh]; [by eapply list_elem_of_fmap_2'|].
  rewrite HA in Hh. by apply holds_can_access in Hh.
Qed.

(** C12: when the server holds exactly the grants of the service, a user may use
    an application exactly when one of the groups the request names is allowed
    to, by the authorization model; the question changes nothing. *)
Theorem CanAccess_iff A user client gs s b s' :
  tuples s = grant_tuples A → CanAccess user client gs s = (Ok b, s') →
  tuples s' = grant_tuples A ∧ (b = true ↔ ∃ g, g ∈ gs ∧ (g, client) ∈ A).
Proof.
  intros HA Hc. split; [|by eapply CanAccess_grants].
  apply Check_law in Hc as [-> _]. done.
Qed.

Lemma grant_tuples_add A g c :
  {[grant_tuple (g, c)]} ∪ grant_tuples A = grant_tuples ({[(g, c)]} ∪ A).
Proof. unfold grant_tuples. by rewrite set_map_union_L, set_map_singleton_L. Qed.

Lemma grant_tuples_remove A g c :
  grant_tuples A ∖ {[grant_tuple (g, c)]} = grant_tuples (A ∖ {[(g, c)]}).
Proof.
  apply set_eq. intros t. unfold grant_tuples.
  rewrite elem_of_difference, !elem_of_map, elem_of_singleton.
  setoid_rewrite elem_of_difference. setoid_rewrite elem_of_singleton. split.
  - intros [(p&->&?) Hne]. exists p. split; [done|]. split; [done|]. by intros ->.
  - intros (p&->&?&Hne). split; [eauto|]. intros He. by apply (inj grant_tuple) in He.
Qed.

(** A write of one grant takes effect, or fails and has no effect. *)
Lemma AddAllowedAppToGroup_grants A g c s r s' :
  tuples s = grant_tuples A → AddAllowedAppToGroup g c s = (r, s') →
  ∃ A', tuples s' = grant_tuples A' ∧
    (A' = {[(g, c)]} ∪ A ∨ (is_ok r = false ∧ A' = A)).
Proof.
  intros HA Hw%WriteTuple_law. change (mkTuple _ _ _) with (grant_tuple (g, c)) in Hw.
  rewrite HA, grant_tuples_add in Hw.
  destruct r; [|destruct Hw as [Hw|Hw]]; rewrite Hw; eexists; eauto.
Qed.

Lemma RemoveAllowedAppFromGroup_grants A g c s r s' :
  tuples s = grant_tuples A → RemoveAllowedAppFromGroup g c s = (r, s') →
  ∃ A', tuples s' = grant_tuples A' ∧
    (A' = A ∖ {[(g, c)]} ∨ (is_ok r = false ∧ A' = A)).
Proof.
  intros HA Hw%DeleteTuple_law. change (mkTuple _ _ _) with (grant_tuple (g, c)) in Hw.
  rewrite HA, grant_tuples_remove in Hw.
  destruct r; [|destruct Hw as [Hw|Hw]]; rewrite Hw; eexists; eauto.
Qed.

(** What is left after the loop, whatever it answers. *)
Lemma remove_loop_outcome fuel user object tok s r s' :
  (size (remaining s user CAN_ACCESS_RELATION object tok) < fuel)%nat →
  remove_loop fuel user object tok s = (r, s') →
  r ≠ Ok None ∧ tuples s' ⊆ tuples s ∧
  (∀ t, t ∈ tuples s → t ∉ tuples s' → matches user CAN_ACCESS_RELATION object t = true) ∧
  (is_ok r = true → ∀ t, t ∈ remaining s user CAN_ACCESS_RELATION object tok →
                         t ∉ tuples s').
Proof.
  revert tok s r s'. induction fuel as [|fuel IH]; intros tok s r s' Hf; [lia|].
  cbn [remove_loop].
  intros [(e&->&Hx)|([ts tok']&s1&Hx&Hr)]%bind_inv.
  { apply ReadTuples_law in Hx as [-> _]. done. }
  apply ReadTuples_law in Hx as (Ht1&Hsub&Hnil&Hend&Hmore). cbn [fst snd] in Hr.
  case_decide as Hlen.
  { destruct ts; [|done]. cbv in Hr. simplify_eq. rewrite Ht1.
    split_and!; [done|done|set_solver|]. intros _ t. rewrite Hnil by done. set_solver. }
  assert ((λ t, NewTuple (User t) (Relation t) (Object t)) <$> ts = ts) as Hts.
  { clear. induction ts as [|[] ts IH]; [done|]. cbn. by rewrite <- IH at 2. }
  rewrite Hts in Hr.
  assert (∀ t, t ∈ ts → matches user CAN_ACCESS_RELATION object t = true) as Hm.
  { intros t Hin. by eapply remaining_matches, Hsub. }
  apply bind_inv in Hr as [(e&->&Hx)|([]&s2&Hx&Hr)].
  { apply DeleteTuples_law in Hx as Ht2. rewrite Ht1 in Ht2. split; [done|].
    split; [destruct Ht2; set_solver|]. split; [|done]. intros t Hin Hnin. apply Hm.
    destruct (decide (t ∈ ts)); [done|]. destruct Ht2; set_solver. }
  apply DeleteTuples_law in Hx as [Ht2 Hrem2]. rewrite Ht1 in Ht2.
  case_decide as Htok.
  { cbv in Hr. simplify_eq. rewrite Ht2. split_and!; [done|set_solver| |].
    - intros t Hin Hnin. apply Hm. destruct (decide (t ∈ ts)); set_solver.
    - intros _ t Hin. specialize (Hend eq_refl t Hin). set_solver. }
  destruct (Hmore Htok) as [Hss Hcov].
  assert (remaining s2 user CAN_ACCESS_RELATION object tok' ⊂
          remaining s user CAN_ACCESS_RELATION object tok) as Hlt.
  { rewrite Hrem2. split; [set_solver|]. destruct ts as [|t ts]; [done|].
    specialize (Hsub t ltac:(set_solver)). set_solver. }
  apply subset_size in Hlt.
  apply IH in Hr as (Hnone&Hdec&Hmatch&Hdone); [|lia]. split_and!; [done|set_solver| |].
  - intros t Hin Hnin. destruct (decide (t ∈ ts)); [by apply Hm|]. apply Hmatch; set_solver.
  - intros Hok t Hin. destruct (Hcov t Hin) as [Hd|Hd].
    + intros Hin'. apply Hdec in Hin'. rewrite Ht2 in Hin'. set_solver.
    + destruct (decide (t ∈ ts)).
      * intros Hin'. apply Hdec in Hin'. rewrite Ht2 in Hin'. set_solver.
      * apply Hdone; [done|]. rewrite Hrem2. set_solver.
Qed.

(** Enough fuel for any removal. *)
Definition enough_fuel (s : S) : nat := Datatypes.S (size (tuples s)).

Lemma remaining_fuel u o s :
  (size (remaining s u CAN_ACCESS_RELATION o "") < enough_fuel s)%nat.
Proof.
  unfold enough_fuel. apply Nat.lt_succ_r, subseteq_size.
  intros t Ht. by eapply remaining_matches.
Qed.

(** A removal, in terms of pairs. *)
Lemma removal_grants (cond : string * string → Prop) `{∀ p, Decision (cond p)} u o A s r s' :
  (∀ p, matches u CAN_ACCESS_RELATION o (grant_tuple p) = bool_decide (cond p)) →
  tuples s = grant_tuples A →
  remove_loop (enough_fuel s) u o "" s = (r, s') →
  ∃ A', tuples s' = grant_tuples A' ∧ A' ⊆ A ∧ filter (λ p, ¬ cond p) A ⊆ A' ∧
    (is_ok r = true → A' = filter (λ p, ¬ cond p) A).
Proof.
  intros Hm HA Hl.
  apply remove_loop_outcome in Hl as (_&Hsub&Hgone&Hdone); [|apply remaining_fuel].
  exists (filter (λ p, grant_tuple p ∈ tuples s') A).
  assert (tuples s' = grant_tuples (filter (λ p, grant_tuple p ∈ tuples s') A)) as Ht.
  { apply set_eq. intros t. unfold grant_tuples. rewrite elem_of_map.
    setoid_rewrite elem_of_filter. split; [|by intros (p&->&?&?)].
    intros Hin. pose proof (Hsub _ Hin) as Hin'. rewrite HA in Hin'.
    apply elem_of_map in Hin' as (p&->&Hp). eauto. }
  assert (∀ p, p ∈ A → ¬ cond p → grant_tuple p ∈ tuples s') as Hkeep.
  { intros p Hp Hc. destruct (decide (grant_tuple p ∈ tuples s')); [done|]. destruct Hc.
    apply (bool_decide_eq_true_1 (cond p)). rewrite <- Hm. apply Hgone; [|done]. rewrite HA.
    by apply elem_of_map_2. }
  split_and!; [done|set_solver| |].
  - intros p [??]%elem_of_filter. apply elem_of_filter. auto.
  - intros Hr0. apply set_eq. intros p. rewrite !elem_of_filter.
    split; [|naive_solver]. intros [Hin Hp]. split; [|done]. intros Hc.
    revert Hin. apply (Hdone Hr0). rewrite remaining_start. apply elem_of_filter.
    rewrite Hm, bool_decide_true by done. split; [done|]. rewrite HA. by apply elem_of_map_2.
Qed.

(** The two bulk removals, what each asks the server for, and the pairs it is about. *)
Inductive removal := AppsOf (g : string) | GroupsOf (c : string).

Definition run_removal (op : removal) (fuel : nat) : M S (option unit) :=
  match op with
  | AppsOf g => RemoveAllAllowedAppsFromGroup fuel g
  | GroupsOf c => RemoveAllAllowedGroupsForApp fuel c
  end.
Definition requested (op : removal) (t : Tuple) : Prop :=
  match op with
  | AppsOf g => matches (GroupMemberTuple g) CAN_ACCESS_RELATION (ClientTuple "") t = true
  | GroupsOf c => matches (GroupMemberTuple "") CAN_ACCESS_RELATION (ClientTuple c) t = true
  end.
#[export] Instance requested_dec op t : Decision (requested op t).
Proof. destruct op; cbn; apply _. Defined.

Definition named (op : removal) : string := match op with AppsOf k | GroupsOf k => k end.
Definition withdrawn `{!FilterLaws S} (op : removal) (p : string * string) : Prop :=
  match op with
  | AppsOf g => p.1 = g
  | GroupsOf c => lists_group S p.1 = true ∧ p.2 = c
  end.
#[export] Instance withdrawn_dec `{!FilterLaws S} op p : Decision (withdrawn op p).
Proof. destruct op; cbn; apply _. Defined.

Lemma requested_grant `{!FilterLaws S} op p :
  named op ≠ ""%string → requested op (grant_tuple p) ↔ withdrawn op p.
Proof.
  destruct op as [g|c]; cbn; intros Hne.
  - by rewrite matches_apps, bool_decide_eq_true.
  - by rewrite matches_groups, andb_true_iff, bool_decide_eq_true.
Qed.

(** C13: the two bulk removals always end, after at most as many rounds as the store has
    tuples, whatever the sizes of the pages.  On success exactly the tuples the server
    lists are gone: those that let the group's members use an application, or those that
    let a group's members use the application; on an error only such tuples are gone.
    For a store that holds exactly the service's grants, and an id that is not empty,
    these are the pairs of the group, or the pairs of the application with the groups
    the server lists for the user [group:#member]; where it lists none, the removal for
    an application succeeds and takes nothing away. *)
Theorem removal_terminates_and_removes `{!FilterLaws S} op s r s' :
  run_removal op (enough_fuel s) s = (r, s') →
  r ≠ Ok None ∧
  let F := filter (requested op) (tuples s) in
  match r with
  | Ok _ => tuples s' = tuples s ∖ F
  | Err _ => tuples s ∖ F ⊆ tuples s' ∧ tuples s' ⊆ tuples s
  end ∧
  (is_ok r = true → named op ≠ ""%string → ∀ A, tuples s = grant_tuples A →
     tuples s' = grant_tuples (filter (λ p, ¬ withdrawn op p) A)).
Proof.
  intros Hr.
  assert (∃ u o, remove_loop (enough_fuel s) u o "" s = (r, s') ∧
    ∀ t, matches u CAN_ACCESS_RELATION o t = true ↔ requested op t) as (u&o&Hl&Hreq).
  { destruct op; by eexists _, _. }
  pose proof Hl as Hout.
  apply remove_loop_outcome in Hout as (Hn&Hsub&Hm&Hd); [|apply remaining_fuel].
  rewrite remaining_start in Hd. setoid_rewrite elem_of_filter in Hd.
  setoid_rewrite Hreq in Hm. setoid_rewrite Hreq in Hd.
  cbv zeta. split_and!; [done| |].
  - assert (tuples s ∖ filter (requested op) (tuples s) ⊆ tuples s') as Hkeep.
    { intros t [Hin Hnf]%elem_of_difference. destruct (decide (t ∈ tuples s')); [done|].
      destruct Hnf. apply elem_of_filter. auto. }
    destruct r as [x|e]; [|done]. apply set_eq. intros t. split; [|apply Hkeep].
    intros Hin. apply elem_of_difference. split; [by apply Hsub|].
    intros [??]%elem_of_filter. by apply (Hd eq_refl t).
  - intros Hok Hne A HA. eapply (removal_grants (withdrawn op)) in Hl as (A'&Ht&_&_&HA');
      [by rewrite Ht, HA'| |done].
    intros p. destruct (bool_decide_reflect (withdrawn op p)) as [Hw|Hw].
    + apply Hreq. by apply requested_grant.
    + apply not_true_is_false. intros Hq%Hreq. destruct Hw. by apply requested_grant.
Qed.
End properties.

(** ** The interface of the authorizer to the services

    AuthorizerInterface of pkg/groups and pkg/authorization.  The laws speak of
    the pairs (group, application) that are granted; a group or an application
    is never the empty string there, which in a filter stands for any id. *)

Class AuthorizerOps (T : Type) := {
  authz_AddAllowedAppToGroup (groupID clientID : string) : M T unit;
  authz_RemoveAllowedAppFromGroup (groupID clientID : string) : M T unit;
  authz_RemoveAllAllowedAppsFromGroup (groupID : string) : M T unit;
  authz_RemoveAllAllowedGroupsForApp (clientID : string) : M T unit;
  authz_DeleteGroup (groupID : string) : M T unit;
  authz_CanAccess (userId clientId : string) (groups : list string) : M T bool;
  authz_BatchCanAccess (userId : string) (clientIds groups : list string) : M T bool;
}.

Class AuthorizerLaws (T : Type) `{!AuthorizerOps T} := {
  (** [granted t A]: the store of [t] holds exactly the pairs of [A]. *)
  granted : T → gset (string * string) → Prop;
  (** The groups whose grants a removal for an application finds. *)
  finds_group : string → bool;
  add_law g c t A r t' : granted t A → authz_AddAllowedAppToGroup g c t = (r, t') →
    ∃ A', granted t' A' ∧ (A' = {[(g, c)]} ∪ A ∨ (is_ok r = false ∧ A' = A));
  remove_law g c t A r t' : granted t A → authz_RemoveAllowedAppFromGroup g c t = (r, t') →
    ∃ A', granted t' A' ∧ (A' = A ∖ {[(g, c)]} ∨ (is_ok r = false ∧ A' = A));
  remove_apps_law g t A r t' : g ≠ ""%string → granted t A →
    authz_RemoveAllAllowedAppsFromGroup g t = (r, t') →
    ∃ A', granted t' A' ∧ A' ⊆ A ∧ filter (λ p, p.1 ≠ g) A ⊆ A' ∧
      (is_ok r = true → A' = filter (λ p, p.1 ≠ g) A);
  remove_groups_law c t A r t' : c ≠ ""%string → granted t A →
    authz_RemoveAllAllowedGroupsForApp c t = (r, t') →
    ∃ A', granted t' A' ∧ A' ⊆ A ∧ filter (λ p, p.2 ≠ c) A ⊆ A' ∧
      (is_ok r = true → A' = filter (λ p, ¬ (finds_group p.1 = true ∧ p.2 = c)) A);
  delete_group_law g : authz_DeleteGroup g = authz_RemoveAllAllowedAppsFromGroup g;
  can_access_law u c gs t A b t' : granted t A → authz_CanAccess u c gs t = (Ok b, t') →
    b = true ↔ ∃ g, g ∈ gs ∧ (g, c) ∈ A;
  batch_access_law u cs gs t A b t' : granted t A → authz_BatchCanAccess u cs gs t = (Ok b, t') →
    b = true → ∀ c, c ∈ cs → ∃ g, g ∈ gs ∧ (g, c) ∈ A;
}.

(** A loop that runs out of fuel would be an endless one; with [enough_fuel] it
    does not happen. *)
Definition finished {T} (m : M T (option unit)) : M T unit :=
  o ← m; match o with Some _ => mret tt | None => fail (EPanic "no end") end.

Section authorizer_instance.
Context {S TD : Type} `{AuthzLaws S TD}.

#[export] Instance authorizer_ops : AuthorizerOps S := {|
  authz_AddAllowedAppToGroup := AddAllowedAppToGroup;
  authz_RemoveAllowedAppFromGroup := RemoveAllowedAppFromGroup;
  authz_RemoveAllAllowedAppsFromGroup g s :=
    finished (RemoveAllAllowedAppsFromGroup (enough_fuel s) g) s;
  authz_RemoveAllAllowedGroupsForApp c s :=
    finished (RemoveAllAllowedGroupsForApp (enough_fuel s) c) s;
  authz_DeleteGroup g s := finished (DeleteGroup (enough_fuel s) g) s;
  authz_CanAccess := CanAccess;
  authz_BatchCanAccess := BatchCanAccess;
|}.

Lemma finished_inv (m : M S (option unit)) s r s' :
  finished m s = (r, s') → (m s).1 ≠ Ok None →
  ∃ r0, m s = (r0, s') ∧ is_ok r0 = is_ok r.
Proof.
  unfold finished. intros [(e&->&Hx)|([[]|]&s2&Hx&Hr)]%bind_inv Hn; rewrite Hx in *.
  - by exists (Err e).
  - cbv in Hr. simplify_eq. by exists (Ok (Some tt)).
  - done.
Qed.

(** A bulk removal, run to its end. *)
Lemma finished_removal u o s r s' :
  finished (remove_loop (enough_fuel s) u o "") s = (r, s') →
  ∃ r0, remove_loop (enough_fuel s) u o "" s = (r0, s') ∧ is_ok r0 = is_ok r.
Proof.
  intros Hr. apply (finished_inv _ _ _ _ Hr).
  destruct (remove_loop _ _ _ _ _) as [r0 s1] eqn:Hl.
  eapply remove_loop_outcome; [apply remaining_fuel|exact Hl].
Qed.

#[export] Instance authorizer_laws `{!FilterLaws S} : AuthorizerLaws S.
Proof.
  refine {| granted s A := tuples s = grant_tuples A; finds_group := lists_group S |}.
  - intros. by eapply AddAllowedAppToGroup_grants.
  - intros. by eapply RemoveAllowedAppFromGroup_grants.
  - intros g t A r t' Hg HA (r0&Hl&<-)%finished_removal.
    eapply (removal_grants (λ p, p.1 = g)); [|done|exact Hl].
    intros p. by apply matches_apps.
  - intros c t A r t' Hc HA (r0&Hl&<-)%finished_removal.
    eapply (removal_grants (λ p, lists_group S p.1 = true ∧ p.2 = c)) in Hl
      as (A'&Ht&Hsub&Hkeep&Heq); [|intros p; rewrite matches_groups by done|done].
    + exists A'. split_and!; [done..| |exact Heq].
      etrans; [|exact Hkeep]. intros p. rewrite !elem_of_filter. naive_solver.
    + apply eq_true_iff_eq. by rewrite andb_true_iff, !bool_decide_eq_true.
  - done.
  - intros u c gs t A b t' HA Hc. exact (CanAccess_grants A u c gs t b t' HA Hc).
  - intros u cs gs t A b t' HA Hb -> c Hc. exact (BatchCanAccess_grants A u cs gs t t' HA Hb c Hc).
Defined.
End authorizer_instance.

(** ** A concrete server, for examples

    A read hands out one tuple per page; the cursor is what the last read has
    left.  [any_group] tells how it reads the user [group:#member].  A check goes four levels deep and reports an error when it is not sure. *)

Module TestServer.
Record server := mkServer { store : list Tuple; cursor : list Tuple }.

Section server.
Variable any_group : bool.

Definition test_matches (u r o : string) (t : Tuple) : bool :=
  (if decide (u = GroupMemberTuple "") then any_group && String.prefix "group:" (User t)
   else bool_decide (User t = u)) &&
  bool_decide (Relation t = r) &&
  (if decide (o = ClientTuple "") then String.prefix "client:" (Object t)
   else bool_decide (Object t = o)).

Definition pending (s : server) (u r o tok : string) : list Tuple :=
  filter (λ t, test_matches u r o t = true ∧ t ∈ store s)
    (if decide (tok = "")%string then store s else cursor s).

(** The server's answer to one check. *)
Definition checked (s : server) (ctx : list Tuple) (u r o : string) : bool :=
  bool_decide (Forall (admitted v0) ctx) && allowed v0 (store s ++ ctx) 4 u r o.

#[local] Instance server_sdk : FgaSdk server unit := {
  sdk_Write writes deletes s :=
    let keep := filter (λ t, t ∉ deletes) in
    (Ok tt, mkServer (writes ++ keep (store s)) (keep (cursor s)));
  sdk_Check u r o ctx s :=
    if checked s ctx u r o then (Ok (Some true), s)
    else (Err (EText "not sure"), s);
  sdk_GetAuthorizationModelId := mret "01"%string;
  sdk_BatchCheck _ cs s :=
    (Ok ((λ c, mkBatchResult (Some (checked s (ContextualTuples c) (TUser c) (TRelation c) (TObject c))) None) <$> cs), s);
  sdk_Read u r o tok s :=
    match pending s u r o tok with
    | [] => (Ok ([], ""), s)
    | [t] => (Ok ([t], ""), s)
    | t :: ts => (Ok ([t], "next"), mkServer (store s) ts)
    end%string;
  sdk_ListObjects _ _ _ := mret [];
  sdk_ListUsers _ _ _ _ _ := mret [];
  sdk_CreateStore _ := mret "01"%string;
  sdk_ReadAuthorizationModel := mret (mkModel "1.1"%string tt);
  sdk_WriteAuthorizationModel _ := mret "01"%string;
}.

#[local] Instance server_store : AuthzStore server := {
  tuples s := list_to_set (store s);
  matches := test_matches;
  remaining s u r o tok := list_to_set (pending s u r o tok);
}.

Lemma checked_sound s ctx u r o : checked s ctx u r o = true →
  (∀ t, t ∈ ctx → admitted v0 t) ∧ holds v0 (tuples s ∪ list_to_set ctx) u r o.
Proof.
  intros [Ha%bool_decide_eq_true Hh]%andb_true_iff. split; [by apply list.Forall_forall|].
  cbn. rewrite <- list_to_set_app_L. by eapply allowed_sound.
Qed.

Lemma pending_delete s u r o tok (ts : list Tuple) :
  pending (mkServer (filter (λ t, t ∉ ts) (store s)) (filter (λ t, t ∉ ts) (cursor s))) u r o tok
  ≡ₚ filter (λ t, t ∉ ts) (pending s u r o tok).
Proof.
  unfold pending; cbn. rewrite !list_filter_filter.
  case_decide; rewrite list_filter_filter; apply reflexive_eq, list_filter_iff; intros t;
    rewrite list_elem_of_filter; tauto.
Qed.

Lemma delete_law (ds : list Tuple) s u r o tok :
  list_to_set (pending (mkServer (filter (λ t, t ∉ ds) (store s))
                          (filter (λ t, t ∉ ds) (cursor s))) u r o tok) =
  (list_to_set (pending s u r o tok) ∖ list_to_set ds : gset Tuple).
Proof.
  apply set_eq. intros t.
  rewrite elem_of_difference, !elem_of_list_to_set, (pending_delete s u r o tok ds), list_elem_of_filter. tauto.
Qed.

Lemma pending_store s u r o tok t :
  t ∈ pending s u r o tok → t ∈ store s ∧ test_matches u r o t = true.
Proof. unfold pending. rewrite list_elem_of_filter. tauto. Qed.

Lemma read_law u r o tok s x s' :
  sdk_Read u r o tok s = (x, s') → store s' = store s ∧
  ∃ ts tok', x = Ok (ts, tok') ∧
    (∀ t, t ∈ ts → t ∈ pending s u r o tok) ∧
    (ts = [] → pending s u r o tok = []) ∧
    (tok' = "" → ∀ t, t ∈ pending s u r o tok → t ∈ ts)%string ∧
    (tok' ≠ "" → (∀ t, t ∈ pending s' u r o tok' → t ∈ pending s u r o tok) ∧
       ∀ t, t ∈ pending s u r o tok → t ∈ ts ∨ t ∈ pending s' u r o tok')%string.
Proof.
  cbn. destruct (pending s u r o tok) as [|t [|t' ts]] eqn:Hp; intros; simplify_eq.
  - split; [done|]. eexists _, _. split_and!; [done..|set_solver].
  - split; [done|]. eexists _, _. split_and!; [done..|set_solver].
  - split; [done|]. eexists _, _. split_and!; [done|set_solver|done..|]. intros _.
    assert (∀ x, x ∈ t :: t' :: ts → test_matches u r o x = true ∧ x ∈ store s) as Hx.
    { intros x. rewrite <- Hp. intros ?%pending_store. tauto. }
    unfold pending; cbn. setoid_rewrite list_elem_of_filter.
    split; [set_solver|]. intros x Hin. specialize (Hx x Hin). set_solver.
Qed.

#[local] Instance server_laws : AuthzLaws server unit.
Proof.
  split.
  - intros s u r o. cbn. apply set_eq. intros t. unfold pending; cbn.
    rewrite elem_of_filter, !elem_of_list_to_set, list_elem_of_filter. tauto.
  - intros s u r o tok t Ht. cbn in Ht. rewrite elem_of_list_to_set in Ht.
    apply pending_store in Ht as [? ?]. split; [|done]. cbn. by apply elem_of_list_to_set.
  - intros u r o tok s x s' Hx. apply read_law in Hx as [Hs (ts&tok'&->&H1&H2&H3&H4)].
    cbn. rewrite Hs. split; [done|]. setoid_rewrite elem_of_list_to_set.
    split_and!; [done| |done|].
    + intros Hts. by rewrite (H2 Hts).
    + intros Htok. destruct (H4 Htok) as [H5 H6]. split; [|done].
      intros t. rewrite !elem_of_list_to_set. apply H5.
  - intros ts s x s' Hx. unfold ac_DeleteTuples in Hx; cbn in Hx. simplify_eq.
    split; [|intros u r o tok; apply delete_law].
    cbn. apply set_eq. intros t.
    rewrite elem_of_difference, !elem_of_list_to_set, list_elem_of_filter. tauto.
  - intros u r o s x s' Hx. unfold ac_DeleteTuple in Hx; cbn in Hx. simplify_eq. cbn.
    apply set_eq. intros t.
    rewrite elem_of_difference, !elem_of_list_to_set, list_elem_of_filter. set_solver.
  - intros u r o s x s' Hx. unfold ac_WriteTuple in Hx; cbn in Hx. simplify_eq. cbn.
    f_equal. apply set_eq. intros t.
    rewrite !elem_of_list_to_set, list_elem_of_filter. set_solver.
  - intros u r o ctx s x s' Hx. cbn in Hx. unfold Client.Check in Hx.
    apply bind_inv in Hx as [(e&->&Hx)|(b&s1&Hx&Hr)]; cbn in Hx.
    + destruct (checked _ _ u r o); by simplify_eq.
    + destruct (checked _ _ u r o) eqn:Hg; simplify_eq. cbv in Hr. simplify_eq.
      apply checked_sound in Hg as [? ?]. split; [done|]. split; [done|]. by split.
  - intros ts s x s' Hx. cbn in Hx. unfold Client.BatchCheck in Hx.
    cbv [mbind M_bind sdk_GetAuthorizationModelId sdk_BatchCheck server_sdk mret M_ret lift] in Hx.
    destruct (Client.batch_results _ _ _) as [[b errs]|e] eqn:Hb; [|by simplify_eq].
    cbn in Hx. destruct b; cbn in Hx; unfold fail, mret, M_ret in Hx; simplify_eq; [|done].
    split; [done|]. intros _ t Ht. apply checked_sound.
    pose proof (proj1 (batch_results_true _ _ _ _ Hb) eq_refl) as Hall.
    specialize (Hall _ (list_elem_of_fmap_2 _ _ _ Ht)). by injection Hall.
Qed.
#[local] Instance server_filter_laws : FilterLaws server.
Proof.
  refine {| lists_group _ := any_group |}.
  - intros g p Hg. cbn [matches server_store]. unfold test_matches.
    rewrite decide_False by (intros He%GroupMemberTuple_inj; done).
    rewrite (decide_True (P:=ClientTuple "" = _)) by done.
    rewrite (bool_decide_true (Relation _ = _)) by done.
    replace (String.prefix "client:" (Object (grant_tuple p))) with true
      by (symmetry; apply HasPrefix_app).
    rewrite !andb_true_r. apply bool_decide_ext. cbn. split; [|by intros ->].
    apply GroupMemberTuple_inj.
  - intros c p Hc. cbn [matches server_store]. unfold test_matches.
    rewrite (decide_False (P:=ClientTuple c = _)) by (intros He%ClientTuple_inj; done).
    rewrite decide_True by done. rewrite (bool_decide_true (Relation _ = _)) by done.
    replace (String.prefix "group:" (User (grant_tuple p))) with true
      by (symmetry;
          exact (HasPrefix_app "group:" (EncodeToString p.1 +:+ "#" +:+ MEMBER_RELATION))).
    rewrite !andb_true_r. f_equal. apply bool_decide_ext. cbn. split; [|by intros ->].
    apply ClientTuple_inj.
Defined.
End server.

#[export] Instance test_sdk : FgaSdk server unit := server_sdk true.
#[export] Instance test_store : AuthzStore server := server_store true.
#[export] Instance test_laws : AuthzLaws server unit := server_laws true.
#[export] Instance test_filter_laws : FilterLaws server := server_filter_laws true.
End TestServer.

(** ** Examples *)

Module Witnesses.
Import TestServer.
Local Open Scope string_scope.

(** Two groups may use grafana, one of them also vault. *)
Definition A0 : gset (string * string) :=
  list_to_set [("a1", "grafana"); ("b2", "grafana"); ("a1", "vault")].
Definition s0 : server :=
  mkServer (grant_tuple <$> [("a1", "grafana"); ("b2", "grafana"); ("a1", "vault")]) [].

Lemma s0_tuples : tuples s0 = grant_tuples A0.
Proof. compute_done. Qed.

Lemma CanAccess_iff_witness :
  CanAccess (TD:=unit) "alice" "vault" ["b2"; "a1"] s0 = (Ok true, s0) ∧
  tuples s0 = grant_tuples A0 ∧
  (true = true ↔ ∃ g, g ∈ ["b2"; "a1"] ∧ (g, "vault") ∈ A0).
Proof.
  split; [vm_compute; reflexivity|].
  refine (CanAccess_iff (TD:=unit) A0 "alice" "vault" ["b2"; "a1"] s0 true s0 s0_tuples _).
  vm_compute. reflexivity.
Defined.

Lemma BatchCanAccess_grants_witness :
  BatchCanAccess (TD:=unit) "svc" ["vault"; "grafana"] ["a1"] s0 = (Ok true, s0) ∧
  ∀ c, c ∈ ["vault"; "grafana"] → ∃ g, g ∈ ["a1"] ∧ (g, c) ∈ A0.
Proof.
  split; [vm_compute; reflexivity|].
  refine (BatchCanAccess_grants (TD:=unit) A0 "svc" _ ["a1"] s0 s0 s0_tuples _).
  vm_compute. reflexivity.
Defined.

Lemma removal_terminates_and_removes_witness :
  let s' := (RemoveAllAllowedAppsFromGroup (TD:=unit) (enough_fuel s0) "a1" s0).2 in
  store s' = grant_tuple <$> [("b2", "grafana")] ∧
  tuples s' = tuples s0 ∖ filter (requested (AppsOf "a1")) (tuples s0) ∧
  tuples s' = grant_tuples (filter (λ p, ¬ withdrawn (AppsOf "a1") p) A0).
Proof.
  intros s'.
  destruct (removal_terminates_and_removes (TD:=unit) (AppsOf "a1") s0 (Ok (Some tt)) s')
    as (_&Hall&Hgrants); [vm_compute; reflexivity|].
  split_and!; [vm_compute; reflexivity|exact Hall|].
  apply Hgrants; [reflexivity|discriminate|exact s0_tuples].
Defined.

(** A server that looks for the very user [group:#member] finds nothing to remove: the
    removal of an application's groups succeeds and takes no right away. *)
Lemma literal_filter_removes_nothing :
  (@RemoveAllAllowedGroupsForApp server unit
     (@client_AuthzClient server unit (server_sdk false)) 4 "grafana" s0) = (Ok (Some tt), s0) ∧
  (RemoveAllAllowedGroupsForApp (TD:=unit) 4 "grafana" s0).2 =
    mkServer (grant_tuple <$> [("a1", "vault")]) [].
Proof. vm_compute. by split. Qed.
End Witnesses.
