(* ===== verification/Grpc.v ===== *)
(** * gRPC statuses and the services' states

    [status.Errorf], the HTTP form of an error (internal/http/types), and the
    state a service works on: a database connection and an authorizer. *)

From S2P Require Import Prelude Errors.

(** ** google.golang.org/grpc/codes, the ones the program uses *)

Inductive code :=
  | OK | InvalidArgument | NotFound | AlreadyExists | Internal | Unauthenticated.

#[export] Instance code_eq_dec : EqDecision code.
Proof. solve_decision. Defined.

Record status := mkStatus { Code : code; Message : string }.

#[export] Instance status_eq_dec : EqDecision status.
Proof. solve_decision. Defined.

(** A handler's answer: an error status or a response. *)
Definition handler (S A : Type) : Type := S → (status + A) * S.

(** ** ForwardErrorResponseRewriter

    [other] are the messages that are not an error status;
    [HTTPStatusFromCode] is grpc-gateway's. *)

Inductive message (other : Type) := RpcStatus (s : status) | Other (m : other).
Arguments RpcStatus {other}.
Arguments Other {other}.

Inductive rewritten (other : Type) :=
  | ErrorResponse (Status : Z) (Message : string) | Unchanged (m : other).
Arguments ErrorResponse {other}.
Arguments Unchanged {other}.

Definition ForwardErrorResponseRewriter {other} (HTTPStatusFromCode : code → Z)
    (response : message other) : rewritten other :=
  match response with
  | RpcStatus codeError => ErrorResponse (HTTPStatusFromCode (Code codeError)) (Message codeError)
  | Other m => Unchanged m
  end.

(** ** A service's state: the database connection and the authorizer *)

Section both.
Context {S T : Type}.

Definition on_db {A} (m : M S A) : M (S * T) A := λ st,
  let '(r, s) := m st.1 in (r, (s, st.2)).
Definition on_authz {A} (m : M T A) : M (S * T) A := λ st,
  let '(r, t) := m st.2 in (r, (st.1, t)).

Lemma on_db_inv {A} (m : M S A) s t r s' t' :
  on_db m (s, t) = (r, (s', t')) → m s = (r, s') ∧ t' = t.
Proof. unfold on_db; cbn. destruct (m s); intros; by simplify_eq. Qed.
Lemma on_authz_inv {A} (m : M T A) s t r s' t' :
  on_authz m (s, t) = (r, (s', t')) → m t = (r, t') ∧ s' = s.
Proof. unfold on_authz; cbn. destruct (m t); intros; by simplify_eq. Qed.

(** [x, err := svc(...); if err != nil { return nil, to_status(err) }; return f(x), nil] *)
Definition answer {St A B} (m : M St A) (to_status : goerr → status) (f : A → B)
    : handler St B := λ st,
  match m st with
  | (Err e, st') => (inl (to_status e), st')
  | (Ok a, st') => (inr (f a), st')
  end.

Definition refuse {St B} (c : code) (msg : string) : handler St B := λ st,
  (inl (mkStatus c msg), st).
End both.
