(* ===== verification/Groups.v ===== *)
(** * pkg/groups

    [Service] over the storage layer and the authorizer (service.go), the gRPC
    handlers of the groups API (grpc_handlers.go) and of the mapping API, which
    streams (mapping_grpc_handlers.go).  The values a request's environment
    supplies, the fresh UUID and the clock, are arguments.  A stream is a state
    of its own with the operation [Send]. *)

From S2P Require Import Prelude Errors Types Sql Storage StorageSpec Authorizer Grpc.
Open Scope Z_scope.

(** ** service.go *)

Module Service.
Section service.
Context {S T : Type} `{!Engine S} `{GoRange} `{!AuthorizerOps T}.

Definition ListGroups : M (S * T) (list Group) := on_db Storage.ListGroups.

Definition CreateGroup (uuid : result string) (group : Group) : M (S * T) Group :=
  if decide (ID group ≠ "")%string then fail (ESentinel GroupsErrInvalidGroupID)
  else map_err (λ err, if errors_is err StorageErrDuplicateKey
                       then ESentinel GroupsErrDuplicateGroup else err)
         (on_db (Storage.CreateGroup uuid group)).

Definition not_found (err : goerr) : goerr :=
  if errors_is err StorageErrNotFound then ESentinel GroupsErrGroupNotFound else err.

Definition GetGroup (id : string) : M (S * T) Group :=
  map_err not_found (on_db (Storage.GetGroup id)).

Definition UpdateGroup (now : time) (id : string) (group : Group) : M (S * T) Group :=
  map_err not_found (on_db (Storage.UpdateGroup now id group)).

Definition DeleteGroup (id : string) : M (S * T) unit :=
  _ ← map_err (errorf_v "failed to delete group from db") (on_db (Storage.DeleteGroup id));
  map_err (errorf_v "failed to delete group from authz") (on_authz (authz_DeleteGroup id)).

Definition AddUsersToGroup (now : time) (groupID : string) (userIDs : list string)
    : M (S * T) unit :=
  if decide (userIDs = []) then mret tt
  else map_err (λ err, if errors_is err StorageErrForeignKeyViolation
                       then ESentinel GroupsErrInvalidGroupID
                       else errorf_v "failed to add users to group" err)
         (on_db (Storage.AddUsersToGroup now groupID userIDs)).

Definition ListUsersInGroup (groupID : string) : M (S * T) (list string) :=
  map_err (errorf_w "failed to list users in group") (on_db (Storage.ListUsersInGroup groupID)).

Definition RemoveUsersFromGroup (groupID : string) (users : list string) : M (S * T) unit :=
  map_err (errorf_w "failed to remove users from group")
    (on_db (Storage.RemoveUsersFromGroup groupID users)).

Definition GetGroupsForUser (userID : string) : M (S * T) (list Group) :=
  map_err (errorf_w "failed to get groups for user") (on_db (Storage.GetGroupsForUser userID)).

Definition UpdateGroupsForUser (now : time) (userID : string) (groupIDs : list string)
    : M (S * T) unit :=
  map_err (λ err, if errors_is err StorageErrForeignKeyViolation
                  then ESentinel GroupsErrInvalidGroupID else err)
    (on_db (Storage.UpdateGroupsForUser now userID groupIDs)).

(** The streaming methods work on the connection and on the stream [W]. *)
Definition StreamGroupsForUser {W} (broken : breaks) (tenantID userID : string)
    (fn : Group → M W unit) : M (S * W) unit :=
  map_err (errorf_w "failed to stream groups for user")
    (Storage.StreamGroupsForUser broken tenantID userID fn).

Definition StreamUsersInGroup {W} (broken : breaks) (tenantID groupID : string)
    (fn : string → M W unit) : M (S * W) unit :=
  map_err (errorf_w "failed to stream users in group")
    (Storage.StreamUsersInGroup broken tenantID groupID fn).
End service.
End Service.

(** ** grpc_handlers.go *)

(** [v0_groups.Group]; a getter of an unset field gives the empty string. *)
Record PbGroup := mkPbGroup {
  PbId : string; PbName : string; PbTenantId : string; PbDescription : string;
  PbType : string; PbCreatedAt : time; PbUpdatedAt : time;
}.

Definition to_pb (g : Group) : PbGroup :=
  mkPbGroup (ID g) (Name g) (TenantId g) (Description g) (GroupType_String (Type_ g))
    (CreatedAt g) (UpdatedAt g).

(** The [Data], [Status] and [Message] of a response. *)
Record response (A : Type) := mkResponse { Data : A; Status : Z; RespMessage : string }.
Arguments mkResponse {A}.
Arguments Data {A}.

Definition http_OK : Z := 200.

Definition mapErrorToStatus (err : goerr) (action : string) : status :=
  if errors_is err GroupsErrGroupNotFound then mkStatus NotFound "group not found"
  else if errors_is err GroupsErrDuplicateGroup then mkStatus AlreadyExists "group already exists"
  else if errors_is err GroupsErrUserAlreadyInGroup
  then mkStatus AlreadyExists "user already in group"
  else if errors_is err GroupsErrInvalidGroupName
  then mkStatus InvalidArgument "invalid group name"
  else if errors_is err GroupsErrInvalidGroupType
  then mkStatus InvalidArgument "invalid group type"
  else if errors_is err GroupsErrInvalidTenant then mkStatus InvalidArgument "invalid tenant"
  else if errors_is err GroupsErrInvalidGroupID
  then mkStatus InvalidArgument "invalid group id"
  else if errors_is err GroupsErrInternalServerError
  then mkStatus Internal "internal server error"
  else mkStatus Internal (action +:+ " failed").

Module GrpcServer.
Section grpc.
Context {S T : Type} `{!Engine S} `{GoRange} `{!AuthorizerOps T}.

Definition one (msg : string) (g : Group) : response (list PbGroup) :=
  mkResponse [to_pb g] http_OK msg.
Definition many (msg : string) (gs : list Group) : response (list PbGroup) :=
  mkResponse (to_pb <$> gs) http_OK msg.
Definition nothing (msg : string) (_ : unit) : response unit := mkResponse tt http_OK msg.

(** [req] is the request's group, nil or set. *)
Definition CreateGroup (uuid : result string) (req : option PbGroup)
    : handler (S * T) (response (list PbGroup)) :=
  match req with
  | None => refuse InvalidArgument "group cannot be nil"
  | Some g =>
      match ParseGroupType (PbType g) with
      | (_, Some err) => λ st, (inl (mapErrorToStatus err "create group"), st)
      | (gType, None) =>
          answer (Service.CreateGroup uuid
                    (mkGroup "" (PbName g) DefaultTenantID (PbDescription g) gType
                       time_zero time_zero))
            (λ err, mapErrorToStatus err "create group") (one "Group created")
      end
  end.

Definition GetGroup (id : string) : handler (S * T) (response (list PbGroup)) :=
  answer (Service.GetGroup id) (λ err, mapErrorToStatus err "get group") (one "Group details").

Definition ListGroups : handler (S * T) (response (list PbGroup)) :=
  answer Service.ListGroups (λ err, mapErrorToStatus err "list groups") (many "Group list").

Definition RemoveGroup (id : string) : handler (S * T) (response unit) :=
  answer (Service.DeleteGroup id) (λ err, mapErrorToStatus err "delete group")
    (nothing "Group deleted").

Definition UpdateGroup (now : time) (id : string) (req : option PbGroup)
    : handler (S * T) (response (list PbGroup)) :=
  match req with
  | None => refuse InvalidArgument "group cannot be nil"
  | Some g =>
      if decide (PbName g ≠ "")%string
      then refuse InvalidArgument "group name cannot be updated"
      else
        match ParseGroupType (PbType g) with
        | (_, Some err) => λ st, (inl (mapErrorToStatus err "update group"), st)
        | (gType, None) =>
            answer (Service.UpdateGroup now id
                      (mkGroup "" "" DefaultTenantID (PbDescription g) gType
                         time_zero time_zero))
              (λ err, mapErrorToStatus err "update group") (one "Group updated")
        end
  end.

Definition ListUsersInGroup (id : string) : handler (S * T) (response (list string)) :=
  answer (Service.ListUsersInGroup id) (λ err, mapErrorToStatus err "list users in group")
    (λ users, mkResponse users http_OK "Users in group").

Definition AddUsersToGroup (now : time) (id : string) (userIds : list string)
    : handler (S * T) (response unit) :=
  answer (Service.AddUsersToGroup now id userIds)
    (λ err, mapErrorToStatus err "add user to group") (nothing "Users added to group").

Definition RemoveUserFromGroup (id userId : string) : handler (S * T) (response unit) :=
  answer (Service.RemoveUsersFromGroup id [userId])
    (λ err, mapErrorToStatus err "remove user from group") (nothing "User removed from group").

Definition ListUserGroups (id : string) : handler (S * T) (response (list PbGroup)) :=
  answer (Service.GetGroupsForUser id) (λ err, mapErrorToStatus err "list user groups")
    (many "User group list").

Definition AddUserToGroups (now : time) (id : string) (groupIds : list string)
    : handler (S * T) (response unit) :=
  answer (Service.UpdateGroupsForUser now id groupIds)
    (λ err, mapErrorToStatus err "add user to groups") (nothing "User groups added").
End grpc.
End GrpcServer.

(** ** mapping_grpc_handlers.go *)

Definition mapMappingErrorToStatus (err : goerr) (action : string) : status :=
  if errors_is err GroupsErrInvalidTenant then mkStatus InvalidArgument "invalid tenant"
  else if errors_is err GroupsErrInvalidGroupID
  then mkStatus InvalidArgument "invalid group id"
  else if errors_is err GroupsErrInvalidUserID then mkStatus InvalidArgument "invalid user id"
  else if errors_is err GroupsErrStreamInterrupted
  then mkStatus Internal ("stream interrupted: " +:+ Error err)
  else if errors_is err GroupsErrUnauthorizedStream then mkStatus Unauthenticated "unauthorized"
  else if errors_is err StorageErrNotFound then mkStatus NotFound "not found"
  else mkStatus Internal (action +:+ " failed").

Module MappingGrpcServer.
Section mapping.
Context {S W : Type} `{!Engine S}.

(** [fmt.Errorf("%w: %v", ErrStreamInterrupted, err)] *)
Definition interrupted (err : goerr) : goerr :=
  EWrap "" (ESentinel GroupsErrStreamInterrupted) (": " +:+ Error err).

(** The status a streaming handler ends with: [None] is success. *)
Definition ending (action : string) (r : result unit) : option status :=
  match r with Ok _ => None | Err err => Some (mapMappingErrorToStatus err action) end.

Definition GetGroupsForUser (broken : breaks) (Send : PbGroup → M W unit)
    (tenantId userId : string) (sw : S * W) : option status * (S * W) :=
  if decide (userId = "")%string then
    (Some (mapMappingErrorToStatus (ESentinel GroupsErrInvalidUserID) "stream groups for user"),
     sw)
  else
    let '(r, sw) := Service.StreamGroupsForUser broken tenantId userId
                      (λ g, map_err interrupted (Send (to_pb g))) sw in
    (ending "stream groups for user" r, sw).

Definition GetUsersInGroup (broken : breaks) (Send : string → M W unit)
    (tenantId groupId : string) (sw : S * W) : option status * (S * W) :=
  if decide (groupId = "")%string then
    (Some (mapMappingErrorToStatus (ESentinel GroupsErrInvalidGroupID) "stream users in group"),
     sw)
  else
    let '(r, sw) := Service.StreamUsersInGroup broken tenantId groupId
                      (λ u, map_err interrupted (Send u)) sw in
    (ending "stream users in group" r, sw).
End mapping.
End MappingGrpcServer.

(** ** Programs over both stores, as sequences of statements of the first *)

Section moves.
Context {S T : Type} (R : relation S) `{!PreOrder R}.

Definition on_first : relation (S * T) := λ st st', R st.1 st'.1.

#[export] Instance on_first_preorder : PreOrder on_first.
Proof. split; [by intros ?; red|intros ???; unfold on_first; by etrans]. Qed.

Lemma on_authz_follows {A} (m : M T A) : follows on_first (on_authz m).
Proof. intros [s t] r [s' t'] [_ ->]%on_authz_inv. unfold on_first; cbn. reflexivity. Qed.
Lemma on_db_follows {A} (m : M S A) : follows R m → follows on_first (on_db m).
Proof. intros Hm [s t] r [s' t'] [Hx ->]%on_db_inv. unfold on_first; cbn. by eapply Hm. Qed.
Lemma on_authz_ok {A} (m : M T A) : ok_follows on_first (on_authz m).
Proof. intros [s t] r [s' t'] [_ ->]%on_authz_inv. unfold on_first; cbn. reflexivity. Qed.
Lemma on_db_ok {A} (m : M S A) : ok_follows R m → ok_follows on_first (on_db m).
Proof. intros Hm [s t] r [s' t'] [Hx ->]%on_db_inv. unfold on_first; cbn. by eapply Hm. Qed.
Lemma answer_moves {A B} (m : M (S * T) A) f (g : A → B) st a st' :
  follows on_first m → answer m f g st = (a, st') → on_first st st'.
Proof.
  intros Hm. unfold answer. destruct (m st) as [[x|e] st1] eqn:Hx; intros [= _ <-]; by eapply Hm.
Qed.
End moves.

(** ** Properties *)

Lemma answer_inv {St A B} (m : M St A) ts (f : A → B) st a st' :
  answer m ts f st = (a, st') →
  (∃ x, a = inr (f x) ∧ m st = (Ok x, st')) ∨ (∃ e, a = inl (ts e) ∧ m st = (Err e, st')).
Proof. unfold answer. destruct (m st) as [[x|e] s1]; intros; simplify_eq; eauto. Qed.

Lemma ParseGroupType_err s t e :
  ParseGroupType s = (t, Some e) → e = ESentinel TypesErrInvalidGroupType.
Proof. unfold ParseGroupType. repeat case_decide; intros; by simplify_eq. Qed.

Lemma ParseGroupType_small s t o : ParseGroupType s = (t, o) → smallint t = true.
Proof. unfold ParseGroupType. repeat case_decide; by intros [= <- _]. Qed.

Section properties.
Context {S T : Type} `{EngineLaws S} `{!PgLaws} `{GoRange} `{AuthorizerLaws T}.

(** What the handler asks the storage layer to create. *)
Definition requested_group (g : PbGroup) (ty : Z) : Group :=
  mkGroup "" (PbName g) DefaultTenantID (PbDescription g) ty time_zero time_zero.

Lemma Service_CreateGroup_inv id g ty (s s' : S) (t t' : T) r :
  Service.CreateGroup (Ok id) (requested_group g ty) (s, t) = (r, (s', t')) → t' = t ∧
  ∃ r0, Storage.CreateGroup (Ok id) (requested_group g ty) s = (r0, s') ∧
    r = match r0 with
        | Ok x => Ok x
        | Err e => Err (if errors_is e StorageErrDuplicateKey
                        then ESentinel GroupsErrDuplicateGroup else e)
        end.
Proof.
  unfold Service.CreateGroup. rewrite decide_False by (intros Hn; by apply Hn).
  intros [(x&->&Hx)|(e&->&Hx)]%map_err_inv; apply on_db_inv in Hx as [Hx ->];
    (split; [done|]; eexists; split; [exact Hx|]; done).
Qed.

(** The statuses of an error of the storage layer's [CreateGroup]. *)
Lemma create_status e action :
  (errors_is e StorageErrDuplicateKey = false → ∃ m, e = EText m) →
  Code (mapErrorToStatus (if errors_is e StorageErrDuplicateKey
          then ESentinel GroupsErrDuplicateGroup else e) action) =
  if errors_is e StorageErrDuplicateKey then AlreadyExists else Internal.
Proof. destruct (errors_is e StorageErrDuplicateKey); [done|]. by intros [m ->]. Qed.

(** C29: a request to create a group is answered by the group exactly as it was stored,
    under the fresh id, with the requested name, description and type, in the default
    tenant; a refused request changes nothing.  It is an invalid argument exactly when
    the group is missing; "already exists" exactly when the name in the default tenant, or
    the id, is taken, as long as the name fits its column and the insertion does not fail
    for a reason of the connection; anything else, an unknown type included, is an
    internal error. *)
Theorem CreateGroup_handler id req (s s' : S) (t t' : T) a :
  GrpcServer.CreateGroup (Ok id) req (s, t) = (a, (s', t')) →
  t' = t ∧
  match a with
  | inr resp => ∃ g ty id' now, req = Some g ∧ ParseGroupType (PbType g) = (ty, None) ∧
      uuid_in id = Some id' ∧
      groups (view s') = groups (view s) ++
        [mkGroupRow id' (PbName g) "default" (Some (PbDescription g)) ty (Some now) (Some now)] ∧
      Data resp = [mkPbGroup id (PbName g) "default" (PbDescription g)
                     (GroupType_String ty) now now]
  | inl st => view s' = view s ∧
      (Code st = InvalidArgument ↔ req = None) ∧
      (Code st = AlreadyExists → ∃ g id', req = Some g ∧ uuid_in id = Some id' ∧
         taken (view s) id' "default" (PbName g)) ∧
      (Code st = InvalidArgument ∨ Code st = AlreadyExists ∨ Code st = Internal)
  end ∧
  (∀ g ty id', req = Some g → ParseGroupType (PbType g) = (ty, None) →
     uuid_in id = Some id' → varchar255 (PbName g) = true →
     taken (view s) id' "default" (PbName g) →
     (∃ st, a = inl st ∧ Code st = AlreadyExists) ∨
     ∃ e, (exec (insertion id (requested_group g ty)) s).1 = Err e ∧ operational e) ∧
  (∀ g ty e, req = Some g → ParseGroupType (PbType g) = (ty, Some e) →
     a = inl (mkStatus Internal "create group failed")).
Proof.
  unfold GrpcServer.CreateGroup. destruct req as [g|].
  2: { unfold refuse. intros; simplify_eq. split_and!; by auto. }
  destruct (ParseGroupType (PbType g)) as [ty [e|]] eqn:Hty.
  { pose proof (ParseGroupType_err _ _ _ Hty) as ->. intros; simplify_eq.
    split_and!; try by auto. intros ??? [= <-] ?. congruence. }
  fold (requested_group g ty).
  intros [(x&->&Hx)|(e&->&Hx)]%answer_inv;
    apply Service_CreateGroup_inv in Hx as [-> (r0&Hc&Hr)];
    pose proof Hc as Hout; apply CreateGroup_outcome in Hout;
    destruct r0 as [x0|e0]; simplify_eq; (split; [done|]).
  - split_and!; [| |by intros ??? [= <-] ?; congruence].
    + destruct Hout as (id'&now&?&Hg&_&_&->). exists g, ty, id', now. by split_and!.
    + intros ? ty' id' [= <-] Hty' Hu Hn Ht. rewrite Hty in Hty'. injection Hty' as <-.
      eapply CreateGroup_taken in Hc; [|done..|by eapply ParseGroupType_small].
      destruct Hc as [(?&?&_)|]; [done|by right].
  - destruct Hout as (Hv&Ht&Hd). rewrite (create_status e0) by done.
    split_and!; [done|by destruct (errors_is e0 _)| | | |by intros ??? [= <-] ?; congruence].
    + destruct (errors_is e0 StorageErrDuplicateKey); [|done]. intros _.
      destruct (Hd eq_refl) as (id'&?&?). by exists g, id'.
    + destruct (errors_is e0 _); auto.
    + intros ? ty' id' [= <-] Hty' Hu Hn Htk. rewrite Hty in Hty'. injection Hty' as <-.
      eapply CreateGroup_taken in Hc; [|done..|by eapply ParseGroupType_small].
      destruct Hc as [(?&[= <-]&He)|]; [left|by right]. eexists. split; [done|].
      by rewrite (create_status e0), He.
Qed.

(** An update of a group's description and type, which the API accepts only
    without a name, stores the empty name: the group loses the name it had, and
    the answer shows no name and no creation time. *)
Theorem UpdateGroup_erases_name now id req (s s' : S) (t t' : T) resp :
  GrpcServer.UpdateGroup now id req (s, t) = (inr resp, (s', t')) →
  ∃ g ty id', req = Some g ∧ PbName g = ""%string ∧ ParseGroupType (PbType g) = (ty, None) ∧
    uuid_in id = Some id' ∧ id' ∈ gr_id <$> groups (view s) ∧
    groups (view s') = (λ x, if decide (gr_id x = id')
                             then set_group "" (PbDescription g) ty now x
                             else x) <$> groups (view s) ∧
    Data resp = [mkPbGroup id "" "default" (PbDescription g) (GroupType_String ty)
                   time_zero now].
Proof.
  unfold GrpcServer.UpdateGroup. destruct req as [g|]; [|done].
  case_decide as Hn; [done|].
  destruct (ParseGroupType (PbType g)) as [ty [e|]] eqn:Hty; [done|].
  intros [(x&Hresp&Hx)|(e&?&_)]%answer_inv; [|done]. simplify_eq.
  unfold Service.UpdateGroup in Hx.
  apply map_err_inv in Hx as [(y&Hy&Hx)|(?&?&_)]; simplify_eq.
  apply on_db_inv in Hx as [Hx ->]. apply UpdateGroup_outcome in Hx.
  destruct Hx as (id'&Hu&Hin&Hg&_&_&->). exists g, ty, id'. by split_and!.
Qed.

(** The pairs the database allows are those the authorizer grants. *)
Definition synced (st : S * T) : Prop := granted st.2 (allowed (view st.1)).

(** Deleting a group that exists removes it, its memberships and its allowed
    applications from the database and its grants from the authorizer, and
    nothing else; the two stay in step.  A request that fails has, at most,
    taken away rights. *)
Theorem RemoveGroup_handler id (s s' : S) (t t' : T) a :
  wf (view s) → uuid_in id = Some id → id ≠ ""%string → synced (s, t) →
  GrpcServer.RemoveGroup id (s, t) = (a, (s', t')) →
  match a with
  | inr _ => synced (s', t') ∧
      groups (view s') = filter (λ x, gr_id x ≠ id) (groups (view s)) ∧
      memberships (view s') = filter (λ k, k.1 ≠ id) (memberships (view s)) ∧
      allowed (view s') = filter (λ k, k.1 ≠ id) (allowed (view s))
  | inl st => Code st = Internal ∧
      ∃ A, granted t' A ∧ A ⊆ allowed (view s) ∧ allowed (view s') ⊆ A ∧
        filter (λ k, k.1 ≠ id) (allowed (view s)) ⊆ A
  end.
Proof.
  intros Hwf Hu Hne Hsync Ha. unfold GrpcServer.RemoveGroup, Service.DeleteGroup in Ha.
  assert (∀ e action msg, errors_is (errorf_v msg e) GroupsErrGroupNotFound = false ∧
    mapErrorToStatus (errorf_v msg e) action = mkStatus Internal (action +:+ " failed"))
    as Hst by done.
  apply answer_inv in Ha as [(x&->&Hx)|(e&->&Hx)].
  - apply bind_inv in Hx as [(?&?&_)|([]&[s1 t1]&Hx&Hy)]; [done|].
    apply map_err_inv in Hx as [(?&_&Hx)|(?&?&_)]; [|done].
    apply map_err_inv in Hy as [(?&?&Hy)|(?&?&_)]; [|done]. simplify_eq.
    apply on_db_inv in Hx as [Hx ->]. apply on_authz_inv in Hy as [Hy ->].
    apply DeleteGroup_outcome in Hx as (id'&?&Hg&Hm&Hal); [|done]. simplify_eq.
    rewrite delete_group_law in Hy.
    apply (remove_apps_law _ _ _ _ _ Hne Hsync) in Hy as (A'&HA&_&_&Heq).
    split_and!; [|done..]. unfold synced; cbn. rewrite Hal.
    specialize (Heq eq_refl). cbn in Heq. by rewrite <- Heq.
  - apply bind_inv in Hx as [(e0&He&Hx)|([]&[s1 t1]&Hx&Hy)].
    + apply map_err_inv in Hx as [(?&?&_)|(e1&?&Hx)]; [done|]. simplify_eq.
      apply on_db_inv in Hx as [Hx ->]. apply DeleteGroup_outcome in Hx as ->; [|done].
      split; [done|]. exists (allowed (view s)). split_and!; try done.
      intros p [_ ?]%elem_of_filter. done.
    + apply map_err_inv in Hx as [(?&_&Hx)|(?&?&_)]; [|done].
      apply map_err_inv in Hy as [(?&?&_)|(e1&?&Hy)]; [done|]. simplify_eq.
      apply on_db_inv in Hx as [Hx ->]. apply on_authz_inv in Hy as [Hy ->].
      apply DeleteGroup_outcome in Hx as (id'&?&_&_&Hal); [|done]. simplify_eq.
      rewrite delete_group_law in Hy.
      apply (remove_apps_law _ _ _ _ _ Hne Hsync) in Hy as (A'&HA&Hsub&Hkeep&_).
      split; [done|]. exists A'. by rewrite Hal.
Qed.
End properties.

Section stream_properties.
Context {S W : Type} `{EngineLaws S} `{!PgLaws}.

Lemma map_err_eq {X A} f (m : M X A) x :
  map_err f m x = (match (m x).1 with Ok a => Ok a | Err e => Err (f e) end, (m x).2).
Proof. unfold map_err. by destruct (m x) as [[?|?] ?]. Qed.

(** Sending with the handler's error around it. *)
Lemma for_each_interrupted {A} (Send : A → M W unit) l w :
  for_each (λ x, map_err MappingGrpcServer.interrupted (Send x)) l w =
    (match (for_each Send l w).1 with
     | Ok x => Ok x | Err e => Err (MappingGrpcServer.interrupted e) end,
     (for_each Send l w).2).
Proof.
  revert w. induction l as [|x l IH]; intros w; cbn; [done|].
  unfold mbind, M_bind, map_err. destruct (Send x w) as [[[]|e] w1]; [apply IH|done].
Qed.

(** How a stream of the elements [all] ends: they were sent in order up to the first
    failure, of a send or of the query, and the call succeeds exactly when there was
    none; otherwise it ends with an internal status. *)
Definition streamed {A} (Send : A → M W unit) (broken : breaks) (all : list A) (w : W)
    (o : option status) (w' : W) : Prop :=
  ∃ r, for_each Send (rows_read broken all) w = (r, w') ∧
    (o = None ↔ is_ok r = true ∧ broken = None) ∧
    ∀ st, o = Some st → Code st = Internal.

Lemma ending_streamed {A} (Send : A → M W unit) broken all action msg1 msg2 w r0 w' :
  for_each (λ x, map_err MappingGrpcServer.interrupted (Send x)) (rows_read broken all) w
    = (r0, w') →
  streamed Send broken all w
    (MappingGrpcServer.ending action
       (match iterated broken msg1 r0 with
        | Ok x => Ok x | Err e => Err (errorf_w msg2 e) end)) w'.
Proof.
  rewrite for_each_interrupted. destruct (for_each Send _ w) as [r w1] eqn:Hs. cbn.
  intros [= <- <-]. exists r. split; [done|].
  destruct r as [[]|e], broken as [[n e0]|]; cbn; (split; [naive_solver|]);
    by intros ? [= <-].
Qed.

(** The users of a group, and the groups of a user, that the mapping API sends: of the
    tenant when one is given. *)
Definition users_listing (d : database) (tenantId groupId : string) (us : list string) : Prop :=
  ∃ g', uuid_in groupId = Some g' ∧ NoDup us ∧ StronglySorted collate us ∧
    ∀ u, u ∈ us ↔ ∃ m, m ∈ group_members d ∧ mkey m = (g', u) ∧
                       (tenantId = "" ∨ mr_tenant m = tenantId)%string.
Definition groups_listing (d : database) (tenantId userId : string) (gs : list Group) : Prop :=
  StronglySorted name_le gs ∧
  ∀ x, x ∈ gs ↔ ∃ g, g ∈ groups d ∧ (gr_id g, userId) ∈ memberships d ∧
                     (tenantId = "" ∨ gr_tenant g = tenantId)%string ∧ x = group_of g.

(** The mapping API sends the members of the group; a request without a group id is
    refused without a query. *)
Theorem GetUsersInGroup_stream broken (Send : string → M W unit) tenantId groupId
    (s s' : S) (w w' : W) o :
  wf (view s) →
  MappingGrpcServer.GetUsersInGroup broken Send tenantId groupId (s, w) = (o, (s', w')) →
  view s' = view s ∧
  ((groupId = ""%string ∧ o = Some (mkStatus InvalidArgument "invalid group id") ∧
    s' = s ∧ w' = w) ∨
   (w' = w ∧ (∃ st, o = Some st) ∧
      is_ok (QueryContext (group_users_query tenantId groupId) s).1 = false) ∨
   ∃ us, users_listing (view s) tenantId groupId us ∧ streamed Send broken us w o w').
Proof.
  intros Hwf. unfold MappingGrpcServer.GetUsersInGroup. case_decide as Hg.
  { intros [= <- <- <-]. split; [done|]. left. by split_and!. }
  unfold Service.StreamUsersInGroup. rewrite map_err_eq.
  destruct (StreamUsersInGroup _ _ _ _ _) as [r [s1 w1]] eqn:Hs. intros [= <- <- <-].
  apply StreamUsersInGroup_outcome in Hs as (Hv&Hs); [|done].
  split; [done|right].
  destruct Hs as [(?&->&?)|(g'&us&r0&?&?&?&?&Hf&->)].
  { left. split_and!; [done| |done]. destruct r; [done|]. by eexists. }
  right. exists us. split; [by exists g'|].
  apply (ending_streamed _ _ _ "stream users in group" "error iterating group members"
           "failed to stream users in group") in Hf. done.
Qed.

(** ... and the groups of the user. *)
Theorem GetGroupsForUser_stream broken (Send : PbGroup → M W unit) tenantId userId
    (s s' : S) (w w' : W) o :
  wf (view s) →
  MappingGrpcServer.GetGroupsForUser broken Send tenantId userId (s, w) = (o, (s', w')) →
  view s' = view s ∧
  ((userId = ""%string ∧ o = Some (mkStatus InvalidArgument "invalid user id") ∧
    s' = s ∧ w' = w) ∨
   (w' = w ∧ (∃ st, o = Some st) ∧
      is_ok (QueryContext (user_groups_query tenantId userId) s).1 = false) ∨
   ∃ gs, groups_listing (view s) tenantId userId gs ∧
     streamed (Send ∘ to_pb) broken gs w o w').
Proof.
  intros Hwf. unfold MappingGrpcServer.GetGroupsForUser. case_decide as Hg.
  { intros [= <- <- <-]. split; [done|]. left. by split_and!. }
  unfold Service.StreamGroupsForUser. rewrite map_err_eq.
  destruct (StreamGroupsForUser _ _ _ _ _) as [r [s1 w1]] eqn:Hs. intros [= <- <- <-].
  apply StreamGroupsForUser_outcome in Hs as (Hv&Hs); [|done].
  split; [done|right].
  destruct Hs as [(?&->&?)|(gs&r0&?&?&Hf&->)].
  { left. split_and!; [done| |done]. destruct r; [done|]. by eexists. }
  right. exists gs. split; [by split|].
  apply (ending_streamed (Send ∘ to_pb) _ _ "stream groups for user" "error iterating groups"
           "failed to stream groups for user") in Hf. done.
Qed.
End stream_properties.

(** ** Examples *)

Module Witnesses.
Import TestParams StorageSpec.Witnesses TestServer.
Local Open Scope string_scope.

(** The example database and a server that grants what it allows. *)
Definition t0 : server := mkServer (grant_tuple <$> [("a1", "grafana")]) [].

Lemma d0_t0_synced : synced (d0, t0).
Proof. change (tuples t0 = grant_tuples (allowed d0)). compute_done. Qed.

Definition pb (name ty : string) : PbGroup := mkPbGroup "" name "" "d" ty 0 0.

(** A taken name on a connection that works. *)
Lemma CreateGroup_handler_witness :
  let st := (GrpcServer.CreateGroup (S:=database) (T:=server)
               (Ok "c3") (Some (pb "staff" "local")) (d0, t0)).2 in
  st.2 = t0 ∧ view st.1 = view d0 ∧ taken d0 "c3" "default" "staff".
Proof.
  intros st.
  assert (GrpcServer.CreateGroup (S:=database) (T:=server) (Ok "c3") (Some (pb "staff" "local"))
            (d0, t0) = (inl (mkStatus AlreadyExists "group already exists"), (st.1, st.2))) as Ha
    by (vm_compute; reflexivity).
  clearbody st.
  destruct (CreateGroup_handler (T:=server) "c3" (Some (pb "staff" "local")) d0 st.1 t0 st.2 _ Ha)
    as (Ht&(Hv&_&Htk&_)&_).
  destruct (Htk eq_refl) as (g&id'&Hg&Hid&Hk).
  injection Hg as <-. injection Hid as <-. split; [exact Ht|]. split; [exact Hv|exact Hk].
Defined.

Lemma UpdateGroup_erases_name_witness :
  ∃ resp s', GrpcServer.UpdateGroup 9 "a1" (Some (pb "" "external")) (d0, t0)
               = (inr resp, (s', t0)) ∧
  ∃ g ty id', Some (pb "" "external") = Some g ∧ PbName g = "" ∧
    ParseGroupType (PbType g) = (ty, None) ∧
    uuid_in "a1" = Some id' ∧ id' ∈ gr_id <$> groups (view d0) ∧
    groups (view s') = (λ x, if decide (gr_id x = id')
                             then set_group "" (PbDescription g) ty 9 x
                             else x) <$> groups (view d0) ∧
    Data resp = [mkPbGroup "a1" "" "default" (PbDescription g) (GroupType_String ty)
                   time_zero 9].
Proof.
  eexists _, _. split; [vm_compute; reflexivity|].
  eapply (UpdateGroup_erases_name 9 "a1" (Some (pb "" "external")) d0 _ t0 t0).
  vm_compute. reflexivity.
Defined.

Lemma RemoveGroup_handler_witness :
  let s' := (GrpcServer.RemoveGroup "a1" (d0, t0)).2.1 in
  let t' := (GrpcServer.RemoveGroup "a1" (d0, t0)).2.2 in
  synced (s', t') ∧
  groups (view s') = filter (λ x, gr_id x ≠ "a1") (groups (view d0)) ∧
  memberships (view s') = filter (λ k, k.1 ≠ "a1") (memberships (view d0)) ∧
  allowed (view s') = filter (λ k, k.1 ≠ "a1") (allowed (view d0)).
Proof.
  intros s' t'.
  refine (RemoveGroup_handler "a1" d0 s' t0 t' (inr (mkResponse tt http_OK "Group deleted"))
            d0_wf eq_refl _ d0_t0_synced _); [discriminate|].
  vm_compute. reflexivity.
Defined.

Example both_members_sent :
  MappingGrpcServer.GetUsersInGroup None (λ x sent, (Ok tt, (sent ++ [x])%list)) "" "a1" (d0, [])
    = (None, (d0, ["u"; "v"])).
Proof. vm_compute. reflexivity. Qed.
End Witnesses.
