(* ===== verification/AppAuthz.v ===== *)
(** * pkg/authorization

    [Service] writes every change of the allowed applications twice, to the
    database and to the authorizer (service.go); the gRPC handlers check their
    arguments and map errors to statuses (grpc_handlers.go).  The clock is an
    argument of the insertion. *)

From S2P Require Import Prelude Errors Types Sql Storage StorageSpec Authorizer Grpc Groups.
Open Scope Z_scope.

(** ** service.go *)

Module Service.
Section service.
Context {S T : Type} `{!Engine S} `{!AuthorizerOps T}.

Definition GetAllowedAppsInGroup (groupID : string) : M (S * T) (list string) :=
  on_db (GetAllowedApps groupID).

Definition AddAllowedAppToGroup (now : time) (groupID app : string) : M (S * T) unit :=
  _ ← map_err (λ err,
      if errors_is err StorageErrDuplicateKey then ESentinel AuthzErrAppAlreadyExistsInGroup
      else if errors_is err StorageErrForeignKeyViolation then ESentinel AuthzErrInvalidGroupID
      else err)
    (on_db (AddAllowedApp now groupID app));
  on_authz (authz_AddAllowedAppToGroup groupID app).

Definition RemoveAllAllowedAppsFromGroup (groupID : string) : M (S * T) unit :=
  _ ← on_db (RemoveAllowedApps groupID);
  on_authz (authz_RemoveAllAllowedAppsFromGroup groupID).

Definition RemoveAllowedAppFromGroup (groupID app : string) : M (S * T) unit :=
  _ ← on_db (RemoveAllowedApp groupID app);
  on_authz (authz_RemoveAllowedAppFromGroup groupID app).

Definition GetAllowedGroupsForApp (app : string) : M (S * T) (list string) :=
  on_db (Storage.GetAllowedGroupsForApp app).

Definition RemoveAllAllowedGroupsForApp (app : string) : M (S * T) unit :=
  _ ← on_db (Storage.RemoveAllAllowedGroupsForApp app);
  on_authz (authz_RemoveAllAllowedGroupsForApp app).
End service.
End Service.

(** ** grpc_handlers.go *)

Definition mapErrorToStatus (err : goerr) (action : string) : status :=
  if errors_is err AuthzErrGroupNotFound then mkStatus NotFound "group not found"
  else if errors_is err AuthzErrAppDoesNotExist then mkStatus NotFound "app not found"
  else if errors_is err AuthzErrAppDoesNotExistInGroup then mkStatus NotFound "app not in group"
  else if errors_is err AuthzErrAppAlreadyExistsInGroup
  then mkStatus AlreadyExists "app already exists in group"
  else if errors_is err AuthzErrInternalServerError
  then mkStatus Internal "internal server error"
  else mkStatus Internal (action +:+ " failed").

Module GrpcServer.
Section grpc.
Context {S T : Type} `{!Engine S} `{!AuthorizerOps T}.

Definition nothing (msg : string) (_ : unit) : response unit := mkResponse tt http_OK msg.

(** The lists of [v0_authz.App] and [v0_authz.Group] carry one id each. *)
Definition appsToProto (apps : list string) : list string := apps.
Definition groupsToProto (groups : list string) : list string := groups.

Definition GetAllowedAppsInGroup (groupId : string)
    : handler (S * T) (response (list string)) :=
  if decide (groupId = "")%string then refuse InvalidArgument "group id is empty"
  else answer (Service.GetAllowedAppsInGroup groupId)
         (λ err, mapErrorToStatus err "get allowed apps in group")
         (λ apps, mkResponse (appsToProto apps) http_OK "Allowed apps for group").

(** [app] is the request's application, nil or its client id. *)
Definition AddAllowedAppToGroup (now : time) (groupId : string) (app : option string)
    : handler (S * T) (response unit) :=
  match app with
  | None => refuse InvalidArgument "app is empty"
  | Some clientId =>
      if decide (clientId = "")%string then refuse InvalidArgument "app is empty"
      else if decide (groupId = "")%string then refuse InvalidArgument "group id is empty"
      else answer (Service.AddAllowedAppToGroup now groupId clientId)
             (λ err, mapErrorToStatus err "add allowed app to group")
             (nothing "App added to allowed list in group")
  end.

Definition RemoveAllowedAppFromGroup (groupId appId : string)
    : handler (S * T) (response unit) :=
  if decide (groupId = "")%string then refuse InvalidArgument "group id is empty"
  else if decide (appId = "")%string then refuse InvalidArgument "app id is empty"
  else answer (Service.RemoveAllowedAppFromGroup groupId appId)
         (λ err, mapErrorToStatus err "remove allowed app from group")
         (nothing "App removed from allowed list in group").

Definition RemoveAllowedAppsFromGroup (groupId : string) : handler (S * T) (response unit) :=
  if decide (groupId = "")%string then refuse InvalidArgument "group id is empty"
  else answer (Service.RemoveAllAllowedAppsFromGroup groupId)
         (λ err, mapErrorToStatus err "remove allowed apps from group")
         (nothing "All apps removed from allowed list in group").

Definition GetAllowedGroupsForApp (appId : string) : handler (S * T) (response (list string)) :=
  if decide (appId = "")%string then refuse InvalidArgument "app id is empty"
  else answer (Service.GetAllowedGroupsForApp appId)
         (λ err, mapErrorToStatus err "get allowed groups for app")
         (λ groups, mkResponse (groupsToProto groups) http_OK "List of groups allowed for app").

Definition RemoveAllowedGroupsForApp (appId : string) : handler (S * T) (response unit) :=
  if decide (appId = "")%string then refuse InvalidArgument "app id is empty"
  else answer (Service.RemoveAllAllowedGroupsForApp appId)
         (λ err, mapErrorToStatus err "remove allowed groups for app")
         (nothing "All groups removed from allowed list for app").
End grpc.
End GrpcServer.

(** ** Properties *)

Section properties.
Context {S T : Type} `{EngineLaws S} `{!PgLaws} `{AuthorizerLaws T}.

Lemma RemoveAllowedApp_outcome g a (s s' : S) r :
  RemoveAllowedApp g a s = (r, s') →
  match r with
  | Ok _ => ∃ g', uuid_in g = Some g' ∧ allowed (view s') = allowed (view s) ∖ {[(g', a)]} ∧
      same_but_apps (view s) (view s')
  | Err _ => view s' = view s
  end.
Proof.
  intros Hr%delete_unit_inv. destruct r; [|done]. destruct Hr as (w'&Hw&->).
  bind_inv. exists u. unfold delete_db. split_and!; [done| |done].
  rewrite (allowed_delete (λ k, k.2 = a ∧ k.1 = u)) by (intros; solve_matches).
  apply set_eq. intros k.
  rewrite elem_of_filter, elem_of_difference, elem_of_singleton. destruct k as [k1 k2]; cbn.
  destruct (decide (k1 = u)), (decide (k2 = a)); naive_solver.
Qed.

(** The service's changes of the allowed applications. *)
Inductive change :=
  | CAdd (now : time) (g a : string) | CRemove (g a : string)
  | CRemoveApps (g : string) | CRemoveGroups (a : string).

Definition apply_change (c : change) : M (S * T) unit :=
  match c with
  | CAdd now g a => Service.AddAllowedAppToGroup now g a
  | CRemove g a => Service.RemoveAllowedAppFromGroup g a
  | CRemoveApps g => Service.RemoveAllAllowedAppsFromGroup g
  | CRemoveGroups a => Service.RemoveAllAllowedGroupsForApp a
  end.

(** What a change means. *)
Definition effect (c : change) (X : gset (string * string)) : gset (string * string) :=
  match c with
  | CAdd _ g a => {[(g, a)]} ∪ X
  | CRemove g a => X ∖ {[(g, a)]}
  | CRemoveApps g => filter (λ p, p.1 ≠ g) X
  | CRemoveGroups a => filter (λ p, p.2 ≠ a) X
  end.

(** Group ids are spelled as the database spells them, and no id is empty. *)
Definition well_spelled (c : change) : Prop :=
  match c with
  | CAdd _ g a | CRemove g a => uuid_in g = Some g
  | CRemoveApps g => uuid_in g = Some g ∧ g ≠ ""%string
  | CRemoveGroups a => a ≠ ""%string
  end.

Lemma db_then_authz_inv {A} (m : M (S * T) A) (k : M T unit) s t r s' t' :
  (_ ← m; on_authz k) (s, t) = (r, (s', t')) →
  (∃ e, r = Err e ∧ m (s, t) = (Err e, (s', t'))) ∨
  (∃ x t1, m (s, t) = (Ok x, (s', t1)) ∧ k t1 = (r, t')).
Proof.
  intros [(e&->&Hx)|(x&[s1 t1]&Hx&Hy)]%bind_inv; [left; eauto|right].
  apply on_authz_inv in Hy as [Hy ->]. eauto.
Qed.

(** What a change does to the grants of OpenFGA: a removal of an application's groups
    reaches the groups that its filter finds. *)
Definition authz_effect (c : change) (X : gset (string * string)) : gset (string * string) :=
  match c with
  | CRemoveGroups a => filter (λ p, ¬ (finds_group p.1 = true ∧ p.2 = a)) X
  | _ => effect c X
  end.
Definition reached (c : change) (X : gset (string * string)) : Prop :=
  match c with
  | CRemoveGroups a => ∀ g, (g, a) ∈ X → finds_group g = true
  | _ => True
  end.

Lemma authz_effect_reached c X : reached c X → authz_effect c X = effect c X.
Proof.
  destruct c as [| | |a]; cbn; try done. intros Hr. apply set_eq. intros [g a'].
  rewrite !elem_of_filter; cbn. split; [|naive_solver]. intros [Hn Hin]. split; [|done].
  intros ->. apply Hn. auto.
Qed.

(** How the authorizer's half of a change ends. *)
Lemma authz_change_inv c X (t t' : T) r :
  well_spelled c → granted t X →
  match c with
  | CAdd _ g a => authz_AddAllowedAppToGroup g a
  | CRemove g a => authz_RemoveAllowedAppFromGroup g a
  | CRemoveApps g => authz_RemoveAllAllowedAppsFromGroup g
  | CRemoveGroups a => authz_RemoveAllAllowedGroupsForApp a
  end t = (r, t') →
  ∃ A, granted t' A ∧ effect c X ∩ X ⊆ A ∧ A ⊆ effect c X ∪ X ∧
    (is_ok r = true → A = authz_effect c X).
Proof.
  intros Hw Hsync. destruct c as [now g a|g a|g|a]; cbn in *; intros Hy.
  - destruct (add_law _ _ _ _ _ _ Hsync Hy) as (A&HA&HE).
    exists A. split; [done|]. destruct HE as [-> |[-> ->]]; set_solver.
  - destruct (remove_law _ _ _ _ _ _ Hsync Hy) as (A&HA&HE).
    exists A. split; [done|]. destruct HE as [-> |[-> ->]]; set_solver.
  - destruct (remove_apps_law _ _ _ _ _ (proj2 Hw) Hsync Hy) as (A&HA&?&?&?).
    exists A. split; [done|]. set_solver.
  - destruct (remove_groups_law _ _ _ _ _ Hw Hsync Hy) as (A&HA&?&?&?).
    exists A. split; [done|]. set_solver.
Qed.

(** How a change ends. *)
Definition ended (c : change) (d d' : database) (t' : T) (r : result unit) : Prop :=
  let X := allowed d in
  match r with
  | Ok _ => allowed d' = effect c X ∧ same_but_apps d d' ∧
      granted t' (authz_effect c X) ∧ (reached c X → granted t' (allowed d'))
  | Err _ =>
      (d' = d ∨ (allowed d' = effect c X ∧ same_but_apps d d')) ∧
      ∃ A, granted t' A ∧ effect c X ∩ X ⊆ A ∧ A ⊆ effect c X ∪ X
  end.

(** The database refused, ... *)
Lemma ended_refused c d (t : T) e : granted t (allowed d) → ended c d d t (Err e).
Proof. intros Ht. split; [by left|]. exists (allowed d). set_solver. Qed.
(** ... or its half was done. *)
Lemma ended_done c d d' (t' : T) r :
  allowed d' = effect c (allowed d) → same_but_apps d d' →
  (∃ A, granted t' A ∧ effect c (allowed d) ∩ allowed d ⊆ A ∧
     A ⊆ effect c (allowed d) ∪ allowed d ∧
     (is_ok r = true → A = authz_effect c (allowed d))) →
  ended c d d' t' r.
Proof.
  intros Hal Hs (A&HA&?&?&Heq). destruct r as [u|e]; [|split; [by right|by exists A]].
  rewrite (Heq eq_refl) in HA. split_and!; [done..|]. intros Hre.
  by rewrite Hal, <- authz_effect_reached.
Qed.

Lemma changes_outcome c (s s' : S) (t t' : T) r :
  synced (s, t) → well_spelled c → apply_change c (s, t) = (r, (s', t')) →
  ended c (view s) (view s') t' r.
Proof.
  unfold synced; cbn [fst snd]. intros Hsync Hw Hc.
  destruct c as [now g a|g a|g|a]; cbn [well_spelled apply_change] in Hw, Hc;
    apply db_then_authz_inv in Hc as [(e&->&Hx)|(x&t1&Hx&Hy)];
    try (apply map_err_inv in Hx as [(?&?&Hx)|(?&?&Hx)]; simplify_eq);
    apply on_db_inv in Hx as [Hx ->].
  - apply AddAllowedApp_outcome in Hx as [-> _]. by apply ended_refused.
  - apply AddAllowedApp_outcome in Hx as (g'&?&_&Hal&Hs). simplify_eq.
    apply ended_done; [done..|]. by eapply (authz_change_inv (CAdd now g a)).
  - apply RemoveAllowedApp_outcome in Hx as ->. by apply ended_refused.
  - apply RemoveAllowedApp_outcome in Hx as (g'&?&Hal&Hs). simplify_eq.
    apply ended_done; [done..|]. by eapply (authz_change_inv (CRemove g a)).
  - apply removals_outcome in Hx as ->. by apply ended_refused.
  - destruct Hw as [Hu Hne]. apply removals_outcome in Hx as (g'&?&_&Hal&Hs). simplify_eq.
    apply ended_done; [done..|]. by eapply (authz_change_inv (CRemoveApps g)).
  - apply removals_outcome in Hx as ->. by apply ended_refused.
  - apply removals_outcome in Hx as (_&Hal&Hs).
    apply ended_done; [done..|]. by eapply (authz_change_inv (CRemoveGroups a)).
Qed.

(** C8: with authorization enabled, for a database and an OpenFGA store that agree, and
    a change whose group id is spelled as the database spells it and whose ids are not
    empty.  A change that succeeds has its effect on the allowed applications and on
    nothing else of the database, and on the grants of OpenFGA, and the two agree again;
    the removal of all the groups of an application reaches, in OpenFGA, the groups whose
    grants its filter [group:#member] lists, and the two agree when these are all of them.
    A change that fails, at whatever point, leaves the database alone or has its effect
    there, and of the grants of OpenFGA at most those are added or gone that the change
    was about: only a failed addition can leave a right the database did not have, when
    OpenFGA carried out a write it answered with an error. *)
Theorem changes_stay_synced c (s s' : S) (t t' : T) r :
  let X := allowed (view s) in
  granted t X → well_spelled c → apply_change c (s, t) = (r, (s', t')) →
  match r with
  | Ok _ => allowed (view s') = effect c X ∧ same_but_apps (view s) (view s') ∧
      granted t' (authz_effect c X) ∧ (reached c X → granted t' (allowed (view s')))
  | Err _ =>
      (view s' = view s ∨
       (allowed (view s') = effect c X ∧ same_but_apps (view s) (view s'))) ∧
      ∃ A, granted t' A ∧ effect c X ∩ X ⊆ A ∧ A ⊆ effect c X ∪ X
  end.
Proof. intros X. apply changes_outcome. Qed.

Lemma mapErrorToStatus_not_invalid e action :
  Code (mapErrorToStatus e action) ≠ InvalidArgument.
Proof. unfold mapErrorToStatus. by repeat case_match. Qed.

(** A failed addition, on the database's or on the authorizer's side. *)
Lemma failed_addition now g c (s s' : S) (t t' : T) e :
  granted t (allowed (view s)) → uuid_in g = Some g →
  Service.AddAllowedAppToGroup now g c (s, t) = (Err e, (s', t')) →
  match AddAllowedApp now g c s with
  | (Err e0, _) => view s' = view s ∧ t' = t ∧
      (errors_is e0 StorageErrDuplicateKey = true →
         mapErrorToStatus e "add allowed app to group" =
           mkStatus AlreadyExists "app already exists in group") ∧
      (errors_is e0 StorageErrDuplicateKey = false →
       errors_is e0 StorageErrForeignKeyViolation = true →
         mapErrorToStatus e "add allowed app to group" =
           mkStatus Internal "add allowed app to group failed")
  | (Ok _, s1) => s' = s1 ∧ allowed (view s') = {[(g, c)]} ∪ allowed (view s) ∧
      is_ok (authz_AddAllowedAppToGroup g c t).1 = false ∧
      (granted t' ({[(g, c)]} ∪ allowed (view s)) ∨ granted t' (allowed (view s)))
  end.
Proof.
  intros Hsync Hu Hx. destruct (AddAllowedApp now g c s) as [[[]|e0] s1] eqn:Hadd;
    unfold Service.AddAllowedAppToGroup, on_db, map_err in Hx; cbv [mbind M_bind] in Hx;
    cbn [fst snd] in Hx; rewrite Hadd in Hx.
  - apply on_authz_inv in Hx as [Hy ->].
    apply AddAllowedApp_outcome in Hadd as (g'&?&_&Hal&_). simplify_eq.
    rewrite Hy. split_and!; [done..|].
    destruct (add_law _ _ _ _ _ _ Hsync Hy) as (A&HA&[-> |[_ ->]]); auto.
  - apply AddAllowedApp_outcome in Hadd as [Hv _].
    injection Hx as <- <- <-. split_and!; [done..|by intros ->|by intros -> ->].
Qed.

End properties.

(** ** Examples *)

Module Witnesses.
Import TestParams StorageSpec.Witnesses TestServer Groups.Witnesses.
Local Open Scope string_scope.

Lemma changes_stay_synced_witness :
  let st' := (apply_change (S:=database) (T:=server) (CRemoveGroups "grafana") (d0, t0)).2 in
  allowed (view st'.1) = effect (CRemoveGroups "grafana") (allowed (view d0)) ∧
  granted st'.2 (allowed (view st'.1)).
Proof.
  intros st'.
  destruct (changes_stay_synced (CRemoveGroups "grafana") d0 st'.1 t0 st'.2 (Ok tt)
              d0_t0_synced) as (Hal&_&_&Hs); [discriminate|vm_compute; reflexivity|].
  split; [exact Hal|]. apply Hs. intros g _. reflexivity.
Defined.


(** A request that names the group in upper case reaches the same row of the
    database, but grants the application to another name in OpenFGA: the two
    stores disagree afterwards, and the group's members are not let in. *)
Lemma spelling_breaks_sync :
  let '(r, (s', t')) :=
    apply_change (S:=database) (T:=server) (CAdd 9 "B2" "vault") (d0, t0) in
  r = Ok tt ∧ ("b2", "vault") ∈ allowed (view s') ∧
  (grant_tuple ("b2", "vault") ∉ tuples t') ∧
  (authz_CanAccess "alice" "vault" ["b2"] t').1 ≠ Ok true.
Proof.
  vm_compute (apply_change _ _). split; [reflexivity|]. split; [compute_done|].
  split; [compute_done|]. vm_compute. discriminate.
Qed.

(** A group that does not exist is an internal error, not an invalid argument. *)
Lemma unknown_group_is_internal :
  (GrpcServer.AddAllowedAppToGroup (S:=database) (T:=server) 9 "c3" (Some "vault")
     (d0, t0)).1 = inl (mkStatus Internal "add allowed app to group failed").
Proof. vm_compute. reflexivity. Qed.
End Witnesses.
