(* ===== verification/Management.v ===== *)
(** * The management APIs behind the transaction middleware

    A request of pkg/authorization's API, or of pkg/groups', changes PostgreSQL inside the
    request's transaction (internal/db/middleware.go) and OpenFGA at once.  This file runs
    the handlers that change something as the HTTP server does ([manage] for the four of
    the applications, [manage_groups] for the six of the groups), and says what the two
    stores hold afterwards: a request that is refused changes no right and no row, one
    that is answered with success is in both stores, unless the commit fails after the
    answer, and then an added right stays in OpenFGA alone. *)

From S2P Require Import Prelude Errors Types Sql Storage StorageSpec DbClient Authorizer Grpc Groups AppAuthz.
Open Scope Z_scope.

(** grpc-gateway: 200 for a response, and the HTTP code of an error's status. *)
Class GatewayCodes := { HTTPStatusFromCode : code → Z }.
Class GatewayCodesLaws `{!GatewayCodes} := {
  HTTPStatusFromCode_error c : c ≠ OK → 400 ≤ HTTPStatusFromCode c;
}.

(** The requests that change the allowed applications. *)
Inductive app_request :=
  | AddApp (now : time) (groupId : string) (app : option string)
  | RemoveApp (groupId appId : string)
  | RemoveApps (groupId : string)
  | RemoveGroups (appId : string).

Section requests.
Context {T : Type} `{!PgParams} `{!AuthorizerOps T} `{!GatewayCodes}.

Definition run_request {S} `{!Engine S} (q : app_request) : handler (S * T) (response unit) :=
  match q with
  | AddApp now g app => GrpcServer.AddAllowedAppToGroup now g app
  | RemoveApp g a => GrpcServer.RemoveAllowedAppFromGroup g a
  | RemoveApps g => GrpcServer.RemoveAllowedAppsFromGroup g
  | RemoveGroups a => GrpcServer.RemoveAllowedGroupsForApp a
  end.

Definition gateway_codes {A} (a : status + A) : list Z :=
  [match a with inl st => HTTPStatusFromCode (Code st) | inr _ => 200 end].

(** The handler of a request, on its connection. *)
Definition app_route (q : app_request) : http_handler T := λ x st,
  let '(a, st) := run_request (Engine0 := client_engine x) q st in (Wrote (gateway_codes a), st).

(** The requests that change groups and memberships. *)
Inductive group_request :=
  | CreateGroupRequest (uuid : result string) (g : option PbGroup)
  | UpdateGroupRequest (now : time) (id : string) (g : option PbGroup)
  | RemoveGroupRequest (id : string)
  | AddUsersRequest (now : time) (id : string) (userIds : list string)
  | RemoveUserRequest (id userId : string)
  | AddUserToGroupsRequest (now : time) (id : string) (groupIds : list string).

Definition coded {St A} (h : handler St A) (st : St) : list Z * St :=
  let '(a, st) := h st in (gateway_codes a, st).

Definition run_group_request {S} `{!Engine S} `{!GoRange} (q : group_request)
    : S * T → list Z * (S * T) :=
  match q with
  | CreateGroupRequest uuid g => coded (Groups.GrpcServer.CreateGroup uuid g)
  | UpdateGroupRequest now id g => coded (Groups.GrpcServer.UpdateGroup now id g)
  | RemoveGroupRequest id => coded (Groups.GrpcServer.RemoveGroup id)
  | AddUsersRequest now id us => coded (Groups.GrpcServer.AddUsersToGroup now id us)
  | RemoveUserRequest id u => coded (Groups.GrpcServer.RemoveUserFromGroup id u)
  | AddUserToGroupsRequest now id gs => coded (Groups.GrpcServer.AddUserToGroups now id gs)
  end.

Definition group_route `{!GoRange} (q : group_request) : http_handler T := λ x st,
  let '(codes, st) := run_group_request (Engine0 := client_engine x) q st in (Wrote codes, st).

(** The whole of it. *)
Definition manage_groups `{!GoRange} (method : string) (q : group_request)
    : client * T → served * (client * T) :=
  TransactionMiddleware method (group_route q) background.
Definition manage (method : string) (q : app_request) : client * T → served * (client * T) :=
  TransactionMiddleware method (app_route q) background.
End requests.

(** ** Properties *)

(** The change a request asks for, when its arguments are complete. *)
Definition asks (q : app_request) : option change :=
  match q with
  | AddApp now g (Some a) => if decide (a = "" ∨ g = "")%string then None else Some (CAdd now g a)
  | AddApp _ _ None => None
  | RemoveApp g a => if decide (g = "" ∨ a = "")%string then None else Some (CRemove g a)
  | RemoveApps g => if decide (g = "")%string then None else Some (CRemoveApps g)
  | RemoveGroups a => if decide (a = "")%string then None else Some (CRemoveGroups a)
  end.

(** The group's id is written as PostgreSQL writes it. *)
Definition canonical_id `{PgParams} (q : app_request) : Prop :=
  match q with
  | AddApp _ g _ | RemoveApp g _ | RemoveApps g => uuid_in g = Some g
  | RemoveGroups _ => True
  end.

Section properties.
Context {T : Type} `{PgLaws} `{AuthorizerLaws T} `{GatewayCodesLaws}.

#[local] Ltac refused := intros [= <- <-]; left; split_and!; [done..|by eexists].

(** A request is refused with an error, or is the change it asks for, answered by
    what came of it. *)
Lemma run_request_cases {S} `{!Engine S} q (st : S * T) a st' :
  run_request q st = (a, st') →
  (asks q = None ∧ st' = st ∧ ∃ e, a = inl e ∧ Code e ≠ OK) ∨
  ∃ c, asks q = Some c ∧ ∃ r, apply_change c st = (r, st') ∧
    match r with Ok _ => ∃ x, a = inr x | Err _ => ∃ e, a = inl e ∧ Code e ≠ OK end.
Proof.
  assert (∀ (m : M (S * T) unit) action (f : unit → response unit),
    answer m (λ err, mapErrorToStatus err action) f st = (a, st') →
    ∃ r, m st = (r, st') ∧
      match r with Ok _ => ∃ x, a = inr x | Err _ => ∃ e, a = inl e ∧ Code e ≠ OK end) as Ha.
  { intros m action f. unfold answer. destruct (m st) as [[x|e] st1]; intros [= <- <-];
      eexists; (split; [done|]); [by eexists|]. eexists. split; [done|].
    unfold mapErrorToStatus. by repeat case_match. }
  unfold run_request, refuse, asks. destruct q as [now g [app|]|g app|g|app].
  - unfold GrpcServer.AddAllowedAppToGroup, refuse.
    destruct (decide (app = "")%string); [rewrite decide_True by tauto|].
    { refused. }
    destruct (decide (g = "")%string); [rewrite decide_True by tauto|rewrite decide_False by tauto].
    { refused. }
    intros Hx%Ha. right. by eexists.
  - refused.
  - unfold GrpcServer.RemoveAllowedAppFromGroup, refuse.
    destruct (decide (g = "")%string); [rewrite decide_True by tauto|].
    { refused. }
    destruct (decide (app = "")%string); [rewrite decide_True by tauto|rewrite decide_False by tauto].
    { refused. }
    intros Hx%Ha. right. by eexists.
  - unfold GrpcServer.RemoveAllowedAppsFromGroup, refuse. case_decide.
    { refused. }
    intros Hx%Ha. right. by eexists.
  - unfold GrpcServer.RemoveAllowedGroupsForApp, refuse. case_decide.
    { refused. }
    intros Hx%Ha. right. by eexists.
Qed.

Lemma asks_well_spelled q c : canonical_id q → asks q = Some c → well_spelled c.
Proof.
  destruct q as [now g [a|]|g a|g|a]; cbn; intros Hc; [|done|..]; case_decide; try done;
    intros [= <-]; cbn; tauto.
Qed.

Lemma app_route_confined x q : handler_confined (W:=T) x (app_route q).
Proof.
  intros c t out c' t'. unfold app_route.
  destruct (run_request (Engine0 := client_engine x) q (c, t)) as [a st'] eqn:Hx.
  intros [= <- ->].
  apply (run_request_cases (Engine0 := client_engine x)) in Hx as [(_&[= <- <-]&_)|(ch&_&r&Hx&_)];
    [done|].
  assert (follows (on_first (T:=T) (rtc (step x))) (apply_change (Engine0 := client_engine x) ch)) as Hf.
  { pose proof (step_exec x) as Hexec. pose proof (client_engine x) as E.
    destruct ch; cbn [apply_change];
      unfold Service.AddAllowedAppToGroup, Service.RemoveAllowedAppFromGroup,
        Service.RemoveAllAllowedAppsFromGroup, Service.RemoveAllAllowedGroupsForApp,
        AddAllowedApp, RemoveAllowedApp, RemoveAllowedApps, Storage.RemoveAllAllowedGroupsForApp;
      follow; first [apply on_authz_follows; apply _|apply on_db_follows; follow]. }
  by apply Hf in Hx.
Qed.

(** A change that succeeds has had no failing statement. *)
Lemma apply_change_fit x ch :
  ok_follows (on_first (T:=T) (still_fit x)) (apply_change (Engine0 := client_engine x) ch).
Proof.
  pose proof (exec_fit x) as Hexec. pose proof (client_engine x) as E.
  destruct ch; cbn [apply_change];
    unfold Service.AddAllowedAppToGroup, Service.RemoveAllowedAppFromGroup,
      Service.RemoveAllAllowedAppsFromGroup, Service.RemoveAllAllowedGroupsForApp,
      AddAllowedApp, RemoveAllowedApp, RemoveAllowedApps, Storage.RemoveAllAllowedGroupsForApp;
    follow_ok; first [apply on_authz_ok; apply _|apply on_db_ok; follow_ok].
Qed.

(** The commit of a transaction without a failing statement. *)
Lemma committed_fit c l c0 x c1 :
  WithTx_enter c = (l, c0) → still_fit (contextWithLazyTx x l) c0 c1 →
  committed c (contextWithLazyTx x l) c1 =
  if commit_lost c then primary c else ctx_view (contextWithLazyTx x l) c1.
Proof.
  intros He Hf. unfold committed. by rewrite (Hf (enter_fit _ _ _ _ He)).
Qed.

(** A request of the applications API, through the transaction middleware: it is
    always answered; an error (400 or more) leaves the database as it was, and OpenFGA
    with the grants the database has, but for the pairs the request is about; a success is
    the change that was asked for, done in OpenFGA, and done in the database unless its
    COMMIT is lost, in which case the database is as it was. *)
Theorem management_request method q (c c' : client) (t t' : T) out :
  (method ≠ "GET" ∧ method ≠ "HEAD")%string →
  next (begin_faults c) = None →
  granted t (allowed (primary c)) → canonical_id q →
  manage method q (c, t) = (out, (c', t')) →
  let A := allowed (primary c) in
  ∃ codes, out = Wrote codes ∧
  (400 ≤ statusCode codes → primary c' = primary c ∧ ∃ A', granted t' A' ∧
     match asks q with Some ch => effect ch A ∩ A ⊆ A' ∧ A' ⊆ effect ch A ∪ A | None => A' = A end) ∧
  (statusCode codes < 400 → ∃ ch d', asks q = Some ch ∧
     allowed d' = effect ch A ∧ same_but_apps (primary c) d' ∧ granted t' (authz_effect ch A) ∧
     primary c' = if commit_lost c then primary c else d').
Proof.
  intros Hm Hb Hg Hcan Hx A.
  destruct (TransactionMiddleware_commit _ _ _ _ _ _ _ _ Hm Hb
    (λ l, app_route_confined (contextWithLazyTx background l) q) Hx)
    as (l&c0&c1&He&Hr&Hv&Hp).
  pose proof (engine_laws_of (contextWithLazyTx background l)) as Hlaws.
  specialize (Hlaws ltac:(by split)).
  unfold app_route in Hr.
  destruct (run_request (Engine0 := client_engine _) q (c0, t)) as [a st1] eqn:Hq.
  injection Hr as <- ->. eexists. split; [done|].
  apply (run_request_cases (Engine0 := client_engine _)) in Hq
    as [(Hask&[= <- <-]&e&->&Herr)|(ch&Hask&r&Hc&Hres)].
  - apply HTTPStatusFromCode_error in Herr. rewrite decide_True in Hp by (cbn; lia).
    split; [|cbn; intros; lia]. intros _. split; [done|]. exists A. by rewrite Hask.
  - destruct r as [u|er].
    + pose proof (apply_change_fit _ _ _ _ _ Hc) as Hfit. unfold on_first in Hfit; cbn in Hfit.
      rewrite (committed_fit _ _ _ _ _ He Hfit) in Hp.
      apply (changes_outcome (S:=client) (Engine0 := client_engine _)) in Hc;
        [|unfold synced; cbn [fst snd view client_engine]; by rewrite Hv|by eapply asks_well_spelled].
      destruct Hres as [z ->]. split; [cbn; intros; lia|]. intros _.
      rewrite decide_False in Hp by (cbn; lia).
      destruct Hc as (Hal&Hs&Ht&_). cbn [view client_engine] in *. rewrite Hv in *.
      by exists ch, (ctx_view (contextWithLazyTx background l) c1).
    + destruct Hres as (e&->&Herr). apply HTTPStatusFromCode_error in Herr.
      rewrite decide_True in Hp by (cbn; lia).
      split; [|cbn; intros; lia]. intros _. split; [done|].
      apply (changes_outcome (S:=client) (Engine0 := client_engine _)) in Hc;
        [|unfold synced; cbn [fst snd view client_engine]; by rewrite Hv|by eapply asks_well_spelled].
      destruct Hc as (_&A'&?&?&?). cbn [view client_engine] in *. rewrite Hv in *.
      exists A'. by rewrite Hask.
Qed.
End properties.

(** *** The groups *)

(** What the database becomes when the request is done. *)
Definition stored `{PgParams} (q : group_request) (d d' : database) : Prop :=
  match q with
  | CreateGroupRequest (Ok id) (Some g) => ∃ ty id' now,
      ParseGroupType (PbType g) = (ty, None) ∧ uuid_in id = Some id' ∧
      groups d' = groups d ++
        [mkGroupRow id' (PbName g) "default" (Some (PbDescription g)) ty (Some now) (Some now)] ∧
      group_members d' = group_members d ∧ application_groups d' = application_groups d
  | UpdateGroupRequest now id (Some g) => ∃ ty id',
      PbName g = ""%string ∧ ParseGroupType (PbType g) = (ty, None) ∧ uuid_in id = Some id' ∧
      id' ∈ gr_id <$> groups d ∧
      groups d' = (λ x, if decide (gr_id x = id') then set_group "" (PbDescription g) ty now x
                        else x) <$> groups d ∧
      group_members d' = group_members d ∧ application_groups d' = application_groups d
  | RemoveGroupRequest id =>
      groups d' = filter (λ x, gr_id x ≠ id) (groups d) ∧
      memberships d' = filter (λ k, k.1 ≠ id) (memberships d) ∧
      allowed d' = filter (λ k, k.1 ≠ id) (allowed d)
  | AddUsersRequest _ id us =>
      (us = [] ∧ d' = d) ∨
      ∃ g, uuid_in id = Some g ∧ memberships d' = memberships d ∪ pairs g us ∧ same_but_members d d'
  | RemoveUserRequest id u => ∃ g, uuid_in id = Some g ∧
      memberships d' = memberships d ∖ pairs g [u] ∧ same_but_members d d'
  | AddUserToGroupsRequest _ u gs => ∃ X, canonical gs X ∧
      memberships d' = filter (λ k, k.2 ≠ u) (memberships d) ∪ groups_of_user X u ∧
      same_but_members d d'
  | _ => False
  end.

(** The group's id of a removal is written as PostgreSQL writes it. *)
Definition spelled `{PgParams} (q : group_request) : Prop :=
  match q with RemoveGroupRequest id => uuid_in id = Some id ∧ id ≠ ""%string | _ => True end.

(** The rights a request does not take away. *)
Definition kept_rights (q : group_request) (A : gset (string * string))
    : gset (string * string) :=
  match q with RemoveGroupRequest id => filter (λ p, p.1 ≠ id) A | _ => A end.

Section group_properties.
Context {T : Type} `{PgLaws} `{AuthorizerLaws T} `{GatewayCodesLaws} `{GoRangeLaws}.

Lemma mapErrorToStatus_code e action : Code (Groups.mapErrorToStatus e action) ≠ OK.
Proof. unfold Groups.mapErrorToStatus. by repeat case_match. Qed.

(** An answer of a method of the service that only calls the storage layer. *)
Lemma answer_db {S A B} (m : M S A) f action (g : A → B) (s s' : S) (t t' : T) codes :
  coded (answer (map_err f (on_db m)) (λ e, Groups.mapErrorToStatus e action) g) (s, t)
    = (codes, (s', t')) →
  t' = t ∧ ((codes = [200] ∧ ∃ x, m s = (Ok x, s')) ∨
            (∃ e, codes = [HTTPStatusFromCode (Code e)] ∧ Code e ≠ OK) ∧ ∃ e, m s = (Err e, s')).
Proof.
  unfold coded, answer, map_err, on_db. cbn [fst snd].
  destruct (m s) as [[x|e] s1]; intros [= <- <- <-]; (split; [done|]).
  - left. split; [done|by eexists].
  - right. split; [eexists; split; [done|apply mapErrorToStatus_code]|by eexists].
Qed.

(** How a request ends: with 200 and the change made, in both stores; or with an error,
    and OpenFGA has the grants the database had, but for those of a group to be removed. *)
Definition ended {S} `{!Engine S} (q : group_request) (s s' : S) (t' : T) (codes : list Z) : Prop :=
  (codes = [200] ∧ stored q (view s) (view s') ∧ granted t' (allowed (view s'))) ∨
  ((∃ e, codes = [HTTPStatusFromCode (Code e)] ∧ Code e ≠ OK) ∧
   ∃ A', granted t' A' ∧ kept_rights q (allowed (view s)) ⊆ A' ∧ A' ⊆ allowed (view s)).

Lemma kept_rights_sub q A : kept_rights q A ⊆ A.
Proof. destruct q; cbn; try done. intros p [_ ?]%elem_of_filter. done. Qed.

(** A request that leaves OpenFGA and the allowed applications alone. *)
Lemma ended_db {S A} `{!Engine S} q (m : M S A) (s s' : S) (t t' : T) codes :
  granted t (allowed (view s)) →
  t' = t ∧ ((codes = [200] ∧ ∃ x, m s = (Ok x, s')) ∨
            (∃ e, codes = [HTTPStatusFromCode (Code e)] ∧ Code e ≠ OK) ∧ ∃ e, m s = (Err e, s')) →
  (∀ x, m s = (Ok x, s') → stored q (view s) (view s') ∧
     application_groups (view s') = application_groups (view s)) →
  ended q s s' t' codes.
Proof.
  intros Hg [-> [[-> [x Hx]]|[He _]]] Hok; [left|right; split; [done|]].
  2: { eexists. split; [done|]. split; [apply kept_rights_sub|done]. }
  destruct (Hok x Hx) as [? Ha]. split_and!; [done..|]. unfold allowed. by rewrite Ha.
Qed.

(** *** The handlers *)

Lemma refused_request {S B} `{!Engine S} q st (s s' : S) (t t' : T) codes :
  Code st ≠ OK → granted t (allowed (view s)) →
  coded (A:=B) (λ x, (inl st, x)) (s, t) = (codes, (s', t')) → ended q s s' t' codes.
Proof.
  intros Hc Hg [= <- <- <-]. right. split; [by exists st|].
  eexists. split; [done|]. split; [apply kept_rights_sub|done].
Qed.

Lemma CreateGroup_ended {S} `{!Engine S, !EngineLaws S} uuid g (s s' : S) (t t' : T) codes :
  granted t (allowed (view s)) →
  coded (Groups.GrpcServer.CreateGroup uuid g) (s, t) = (codes, (s', t')) →
  ended (CreateGroupRequest uuid g) s s' t' codes.
Proof.
  intros Hg. unfold Groups.GrpcServer.CreateGroup, refuse. destruct g as [g|]; [|by apply refused_request].
  destruct (ParseGroupType (PbType g)) as [ty [e|]] eqn:Hty.
  { apply refused_request; [apply mapErrorToStatus_code|done]. }
  unfold Service.CreateGroup. rewrite decide_False by (intros Hn; by apply Hn).
  intros Hx%answer_db. eapply ended_db; [done|exact Hx|]. clear Hx codes.
  intros x Hx. destruct uuid as [id|e]; [|done].
  apply CreateGroup_outcome in Hx as (id'&now&?&?&?&?&_). split; [|done].
  exists ty, id', now. by split_and!.
Qed.

Lemma UpdateGroup_ended {S} `{!Engine S, !EngineLaws S} now id g (s s' : S) (t t' : T) codes :
  granted t (allowed (view s)) →
  coded (Groups.GrpcServer.UpdateGroup now id g) (s, t) = (codes, (s', t')) →
  ended (UpdateGroupRequest now id g) s s' t' codes.
Proof.
  intros Hg. unfold Groups.GrpcServer.UpdateGroup, refuse. destruct g as [g|]; [|by apply refused_request].
  case_decide as Hn; [by apply refused_request|].
  destruct (ParseGroupType (PbType g)) as [ty [e|]] eqn:Hty.
  { apply refused_request; [apply mapErrorToStatus_code|done]. }
  intros Hx%answer_db. eapply ended_db; [done|exact Hx|]. clear Hx codes.
  intros x Hx. apply UpdateGroup_outcome in Hx as (id'&?&?&?&?&?&_). split; [|done].
  exists ty, id'. split_and!; try done.
Qed.

Lemma RemoveGroup_ended {S} `{!Engine S, !EngineLaws S} id (s s' : S) (t t' : T) codes :
  wf (view s) → uuid_in id = Some id → id ≠ ""%string → granted t (allowed (view s)) →
  coded (Groups.GrpcServer.RemoveGroup id) (s, t) = (codes, (s', t')) →
  ended (RemoveGroupRequest id) s s' t' codes.
Proof.
  intros Hwf Hu Hne Hg. unfold coded.
  destruct (Groups.GrpcServer.RemoveGroup id (s, t)) as [a [s1 t1]] eqn:Ha. intros [= <- <- <-].
  apply RemoveGroup_handler in Ha; [|done..]. destruct a as [st|x]; [right|left].
  - destruct Ha as (Hc&A&?&?&_&?). split; [exists st; split; [done|by rewrite Hc]|by exists A].
  - by destruct Ha as (?&?&?&?).
Qed.

Lemma members_ended {S} `{!Engine S, !EngineLaws S} q (s s' : S) (t t' : T) codes :
  granted t (allowed (view s)) →
  match q with AddUsersRequest _ _ _ | RemoveUserRequest _ _ | AddUserToGroupsRequest _ _ _ => True
             | _ => False end →
  run_group_request q (s, t) = (codes, (s', t')) → ended q s s' t' codes.
Proof.
  intros Hg Hq. destruct q as [| | |now id us|id u|now u gs]; try done; cbn [run_group_request].
  - unfold Groups.GrpcServer.AddUsersToGroup, Service.AddUsersToGroup. case_decide as Hus.
    { intros [= <- <- <-]. left. split_and!; [done| |done]. by left. }
    intros Hx%answer_db. eapply ended_db; [done|exact Hx|]. clear Hx codes.
    intros x Hx. apply AddUsersToGroup_outcome in Hx as [[-> ->]|(g'&?&?&?&?)]; [done|].
    split; [|done]. right. by exists g'.
  - intros Hx%answer_db. eapply ended_db; [done|exact Hx|]. clear Hx codes.
    intros x Hx. apply RemoveUsersFromGroup_refines in Hx as (g'&?&?&?&?).
    split; [|done]. by exists g'.
  - intros Hx%answer_db. eapply ended_db; [done|exact Hx|]. clear Hx codes.
    intros x Hx. apply UpdateGroupsForUser_outcome in Hx as (X&?&?&?&?).
    split; [|done]. by exists X.
Qed.

Lemma group_request_ended {S} `{!Engine S, !EngineLaws S} q (s s' : S) (t t' : T) codes :
  wf (view s) → spelled q → granted t (allowed (view s)) →
  run_group_request q (s, t) = (codes, (s', t')) → ended q s s' t' codes.
Proof.
  intros Hwf Hs Hg. destruct q; cbn [spelled] in *;
    [by apply CreateGroup_ended|by apply UpdateGroup_ended|
     destruct Hs; by apply RemoveGroup_ended|by apply members_ended..].
Qed.

Lemma group_route_confined x q : handler_confined (W:=T) x (group_route q).
Proof.
  intros c t out c' t'. unfold group_route.
  destruct (run_group_request (Engine0 := client_engine x) q (c, t)) as [codes st'] eqn:Hx.
  intros [= <- ->]. change (on_first (T:=T) (rtc (step x)) (c, t) (c', t')).
  pose proof (step_exec x) as Hexec. pose proof (client_engine x) as E.
  destruct q; cbn [run_group_request] in Hx; unfold coded in Hx;
    match type of Hx with context [let '(_, _) := ?h ?st in _] =>
      destruct (h st) as [a st1] eqn:Ha end; injection Hx as _ ->;
    unfold Groups.GrpcServer.CreateGroup, Groups.GrpcServer.UpdateGroup, refuse in Ha;
    repeat (case_match; simplify_eq; try reflexivity);
    (eapply answer_moves; [|exact Ha]);
    unfold Service.CreateGroup, Service.UpdateGroup, Service.DeleteGroup, Service.AddUsersToGroup,
      Service.RemoveUsersFromGroup, Service.UpdateGroupsForUser, CreateGroup, UpdateGroup, QueryRowContext,
      DeleteGroup, AddUsersToGroup, RemoveUsersFromGroup, UpdateGroupsForUser;
    follow; first [apply on_authz_follows; apply _|apply on_db_follows; follow].
Qed.

(** A request that succeeds has had no failing statement. *)
Lemma coded_ok {St A B} (m : M St A) f (g : A → B) st codes st' :
  coded (answer m f g) st = (codes, st') → (∀ e, Code (f e) ≠ OK) → statusCode codes < 400 →
  ∃ x, m st = (Ok x, st').
Proof.
  unfold coded, answer. destruct (m st) as [[x|e] s1]; intros [= <- <-] Hf; [by eexists|].
  specialize (HTTPStatusFromCode_error _ (Hf e)). cbn. lia.
Qed.

Lemma group_request_fit x q c (t : T) codes c' t' :
  run_group_request (Engine0 := client_engine x) q (c, t) = (codes, (c', t')) →
  statusCode codes < 400 → still_fit x c c'.
Proof.
  intros Hx Hcode. change (on_first (T:=T) (still_fit x) (c, t) (c', t')).
  pose proof (exec_fit x) as Hexec. pose proof (client_engine x) as E.
  destruct q as [uuid [g|]|now id [g|]|id|now id us|id u|now u gs]; cbn [run_group_request] in Hx.
  all: unfold Groups.GrpcServer.CreateGroup, Groups.GrpcServer.UpdateGroup, refuse in Hx.
  2, 4: by injection Hx as _ <- <-.
  2: case_decide; [by injection Hx as _ <- <-|].
  1, 2: destruct (ParseGroupType _) as [ty [e|]]; [by injection Hx as _ <- <-|].
  all: apply coded_ok in Hx as [y Hx]; [|intros ?; apply mapErrorToStatus_code|done].
  all: apply (ok_follows_run _ _ _ _ _ Hx).
  all: unfold Service.CreateGroup, Service.UpdateGroup, Service.DeleteGroup, Service.AddUsersToGroup,
      Service.RemoveUsersFromGroup, Service.UpdateGroupsForUser, CreateGroup, UpdateGroup, QueryRowContext,
      DeleteGroup, AddUsersToGroup, RemoveUsersFromGroup, UpdateGroupsForUser.
  all: follow_ok; first [apply on_authz_ok; apply _|apply on_db_ok; follow_ok].
Qed.

(** A request of the groups API that changes something, through the transaction
    middleware: it is always answered; an error (400 or more) leaves the database as it
    was, whatever part of the work was done before it, and OpenFGA with the grants of the
    database, but for those of a group to be removed; a success is the change that was
    asked for, in OpenFGA and, unless its COMMIT is lost, in the database. *)
Theorem group_request_atomic method q (c c' : client) (t t' : T) out :
  (method ≠ "GET" ∧ method ≠ "HEAD")%string →
  next (begin_faults c) = None →
  wf (primary c) → granted t (allowed (primary c)) → spelled q →
  manage_groups method q (c, t) = (out, (c', t')) →
  let A := allowed (primary c) in
  ∃ codes, out = Wrote codes ∧
  (400 ≤ statusCode codes →
     primary c' = primary c ∧ ∃ A', granted t' A' ∧ kept_rights q A ⊆ A' ∧ A' ⊆ A) ∧
  (statusCode codes < 400 → ∃ d', stored q (primary c) d' ∧ granted t' (allowed d') ∧
     primary c' = if commit_lost c then primary c else d').
Proof.
  intros Hm Hb Hwf Hg Hsp Hx A.
  destruct (TransactionMiddleware_commit _ _ _ _ _ _ _ _ Hm Hb
    (λ l, group_route_confined (contextWithLazyTx background l) q) Hx)
    as (l&c0&c1&He&Hr&Hv&Hp).
  pose proof (engine_laws_of (contextWithLazyTx background l)) as Hlaws.
  specialize (Hlaws ltac:(by split)).
  unfold group_route in Hr.
  destruct (run_group_request (Engine0 := client_engine _) q (c0, t)) as [codes st1] eqn:Hq.
  injection Hr as <- ->. exists codes. split; [done|].
  pose proof (group_request_fit _ _ _ _ _ _ _ Hq) as Hfit.
  apply (group_request_ended (S:=client)) in Hq;
    [|unfold view; cbn [client_engine]; by rewrite Hv|done|unfold view; cbn [client_engine]; by rewrite Hv].
  unfold ended, view in Hq. cbn [client_engine] in Hq. rewrite Hv in Hq.
  destruct Hq as [(->&Hs&Ht)|[(e&->&Herr) HA]].
  - split; [cbn; lia|]. intros _. specialize (Hfit ltac:(cbn; lia)).
    rewrite decide_False, (committed_fit _ _ _ _ _ He Hfit) in Hp by (cbn; lia).
    by eexists.
  - apply HTTPStatusFromCode_error in Herr. rewrite decide_True in Hp by (cbn; lia).
    by split; [|cbn; lia].
Qed.
End group_properties.

(** ** Concrete requests *)

Module Witnesses.
Import TestParams StorageSpec.Witnesses TestServer Groups.Witnesses DbClient.Witnesses.
Local Open Scope string_scope.

#[export] Instance test_codes : GatewayCodes := {|
  HTTPStatusFromCode c := match c with
    | OK => 200 | InvalidArgument => 400 | NotFound => 404 | AlreadyExists => 409
    | Internal => 500 | Unauthenticated => 401 end%Z;
|}.
#[export] Instance test_codes_laws : GatewayCodesLaws.
Proof. split. intros []; cbn; lia || done. Qed.

(** The crew may use vault. *)
Definition allow : app_request := AddApp 9 "b2" (Some "vault").

Lemma management_request_witness :
  let c := client0 [] [] in
  let st' := (manage (T:=server) "PUT" allow (c, t0)).2 in
  (400 ≤ statusCode [200] → primary st'.1 = primary c)%Z ∧
  ∃ ch d', asks allow = Some ch ∧ allowed d' = effect ch (allowed d0) ∧ same_but_apps d0 d' ∧
     granted st'.2 (authz_effect ch (allowed d0)) ∧ primary st'.1 = d'.
Proof.
  intros c st'.
  destruct (management_request "PUT" allow c st'.1 t0 st'.2 (Wrote [200%Z]))
    as (codes&Hc&Herr&Hok); [by split|reflexivity|exact d0_t0_synced|reflexivity|
      vm_compute; reflexivity|].
  injection Hc as <-. split; [intros He; by destruct (Herr He)|]. by apply Hok.
Defined.

(** The commit fails after the answer: the client was told 200, OpenFGA lets the
    members of the group in, and the database does not know of it. *)
Lemma failed_commit_leaves_right :
  let '(out, (c', t')) :=
    manage (T:=server) "PUT" allow (client0 [] [Some (EText "connection lost", false)], t0) in
  out = Wrote [200%Z] ∧ (("b2", "vault") ∉ allowed (primary c')) ∧
  (authz_CanAccess "w" "vault" ["b2"] t').1 = Ok true.
Proof.
  vm_compute (manage _ _ _). split; [reflexivity|]. split; [compute_done|].
  vm_compute. reflexivity.
Qed.
(** Replacing u's groups by an unknown one: the statement that removes the old groups
    succeeds, the one that adds the new one fails, and the transaction takes both back. *)
Definition replace : group_request := AddUserToGroupsRequest 9 "u" ["c3"].

Example replace_removes_first :
  let '(codes, (d', _)) := run_group_request (T:=server) replace (d0, t0) in
  codes = [400%Z] ∧ ("a1", "u") ∈ memberships d0 ∧ (("a1", "u") ∉ memberships d').
Proof. vm_compute (run_group_request _ _). split_and!; [reflexivity|compute_done..]. Qed.

Lemma group_request_atomic_witness :
  let c := client0 [] [] in
  let st' := (manage_groups (T:=server) "PUT" replace (c, t0)).2 in
  primary st'.1 = primary c ∧
  ∃ A', granted st'.2 A' ∧ kept_rights replace (allowed d0) ⊆ A' ∧ A' ⊆ allowed d0.
Proof.
  intros c st'.
  destruct (group_request_atomic "PUT" replace c st'.1 t0 st'.2 (Wrote [400%Z]))
    as (codes&Hc&Herr&_); [by split|reflexivity|exact d0_wf|exact d0_t0_synced|exact I|
      vm_compute; reflexivity|].
  injection Hc as <-. by apply Herr.
Defined.
End Witnesses.
