(* ===== verification/Pool.v ===== *)
(** * internal/pool: the worker pool

    [WorkerPool] as a state machine.  A step is what one goroutine does between
    two points where another may act: a submitter enqueues a job or is told the
    queue is full, an idle worker takes the first job of the buffered channel, a
    worker runs the job it holds to its end, an idle worker sees the shutdown.
    [select] picks any ready case, so after a shutdown an idle worker may still
    take a job.  Every interleaving is a sequence of steps.

    A job's command returns a value or panics (it terminates); its results
    channel has room for its result, as in pkg/hooks where each job has a
    one-element channel of its own.  [results] and [dones] record the sends and
    the calls of [wg.Done] in order. *)

From Stdlib Require Import Relations.
From S2P Require Import Prelude Errors.

Section pool.
Context {V : Type}.

(** The command's type switch: [func()], [func() any], anything else. *)
Inductive outcome (A : Type) := Returns (a : A) | Panics.
Arguments Returns {A}.
Arguments Panics {A}.

Inductive command := CFunc (o : outcome unit) | CFuncAny (o : outcome V) | COther.

(** What a result channel carries: [true] for a [func()], the value otherwise. *)
Inductive payload := PTrue | PValue (v : V).

Record job := mkJob { job_id : nat; job_command : command }.

Record WorkerPool := mkPool {
  workers : nat;                       (** the size asked for *)
  started : bool;                      (** [start] has run *)
  idle : nat;                          (** workers waiting in [select] *)
  running : list job;                  (** a worker in [execute] for each *)
  jobs : list job;                     (** the channel's buffer *)
  shutdown : bool;                     (** [shutdownCtx] is done *)
  wg : nat;                            (** the counter of [p.wg] *)
  results : list (nat * payload);      (** sends on the jobs' channels *)
  dones : list nat;                    (** [wg.Done] of the jobs' groups *)
}.

Definition NewWorkerPool (n : nat) : WorkerPool := mkPool n false 0 [] [] false 0 [] [].

(** [start]. *)
Definition start (p : WorkerPool) : WorkerPool :=
  mkPool (workers p) true (workers p) (running p) (jobs p) (shutdown p)
    (wg p + workers p) (results p) (dones p).

(** [Submit]: a send on the buffered channel, or the default case. *)
Definition Submit (j : job) (p : WorkerPool) : result nat * WorkerPool :=
  if decide (length (jobs p) < 2 * workers p)%nat then
    (Ok (job_id j),
     mkPool (workers p) (started p) (idle p) (running p) (jobs p ++ [j]) (shutdown p)
       (wg p) (results p) (dones p))
  else (Err (EText "WorkerPool queue is full"), p).

(** [Stop], up to its [wg.Wait()]. *)
Definition Stop (p : WorkerPool) : WorkerPool :=
  mkPool (workers p) (started p) (idle p) (running p) (jobs p) true
    (wg p) (results p) (dones p).

(** [case job := <-p.jobs]. *)
Definition take (p : WorkerPool) : option WorkerPool :=
  match idle p, jobs p with
  | Datatypes.S n, j :: js =>
      Some (mkPool (workers p) (started p) n (running p ++ [j]) js (shutdown p)
              (wg p) (results p) (dones p))
  | _, _ => None
  end.

(** [case <-p.shutdownCtx.Done()]. *)
Definition leave (p : WorkerPool) : option WorkerPool :=
  match idle p, shutdown p with
  | Datatypes.S n, true =>
      Some (mkPool (workers p) (started p) n (running p) (jobs p) true
              (Nat.pred (wg p)) (results p) (dones p))
  | _, _ => None
  end.

(** What [execute] sends, and whether the command panicked. *)
Definition execute (shut : bool) (j : job) : option payload * bool :=
  if shut then (None, false)
  else match job_command j with
       | CFunc (Returns _) => (Some PTrue, false)
       | CFuncAny (Returns v) => (Some (PValue v), false)
       | CFunc Panics | CFuncAny Panics => (None, true)
       | COther => (None, false)
       end.

(** The worker that holds the [i]-th running job runs it to its end: the
    deferred [wg.Done] of the job happens in every case; after a panic the
    deferred function of [consume] ends the worker. *)
Definition run_job (i : nat) (p : WorkerPool) : option WorkerPool :=
  j ← running p !! i;
  let '(sent, panicked) := execute (shutdown p) j in
  Some (mkPool (workers p) (started p)
          (if (panicked : bool) then idle p else Datatypes.S (idle p))
          (delete i (running p)) (jobs p) (shutdown p)
          (if (panicked : bool) then Nat.pred (wg p) else wg p)
          (match sent with Some v => results p ++ [(job_id j, v)] | None => results p end)
          (dones p ++ [job_id j])).

(** ** The state machine; [accepted] are the jobs the channel took, in order *)

Inductive internal : relation WorkerPool :=
  | int_start p : started p = false → internal p (start p)
  | int_take p p' : take p = Some p' → internal p p'
  | int_run i p p' : run_job i p = Some p' → internal p p'
  | int_leave p p' : leave p = Some p' → internal p p'.

Inductive reachable (n : nat) : list job → WorkerPool → Prop :=
  | reach_new : reachable n [] (NewWorkerPool n)
  | reach_internal acc p p' : reachable n acc p → internal p p' → reachable n acc p'
  | reach_stop acc p : reachable n acc p → reachable n acc (Stop p)
  | reach_submit acc p j p' :
      reachable n acc p → job_id j ∉ job_id <$> acc →
      Submit j p = (Ok (job_id j), p') → reachable n (acc ++ [j]) p'
  | reach_full acc p j e : reachable n acc p → Submit j p = (Err e, p) → reachable n acc p.

(** What a job promises to send, and the jobs that break the promise: the
    specification of [execute], which does not mention it. *)
Definition returned (j : job) : option payload :=
  match job_command j with
  | CFunc (Returns _) => Some PTrue
  | CFuncAny (Returns v) => Some (PValue v)
  | _ => None
  end.
Definition panics (j : job) : Prop :=
  job_command j = CFunc Panics ∨ job_command j = CFuncAny Panics.

Lemma execute_returned j : (execute false j).1 = returned j.
Proof. unfold execute, returned. by destruct (job_command j) as [[]|[]|]. Qed.
Lemma execute_panics j : (execute false j).2 = false ↔ ¬ panics j.
Proof. unfold execute, panics. destruct (job_command j) as [[]|[]|]; cbn; naive_solver. Qed.

(** ** The invariant *)

Record pool_ok (n : nat) (acc : list job) (p : WorkerPool) : Prop := {
  ok_workers : workers p = n;
  ok_queue : (length (jobs p) ≤ 2 * n)%nat;
  ok_wg : wg p = (idle p + length (running p))%nat;
  ok_live : (wg p ≤ if started p then n else 0)%nat;
  ok_nodup : NoDup (job_id <$> acc);
  ok_fifo : ∃ taken, acc = taken ++ jobs p ∧
    (job_id <$> taken) ≡ₚ dones p ++ (job_id <$> running p) ∧
    (∀ j, j ∈ running p → j ∈ taken);
  ok_results i v : (i, v) ∈ results p → i ∈ dones p ∧
    ∃ j, j ∈ acc ∧ job_id j = i ∧ execute false j = (Some v, false);
  ok_once : NoDup (results p).*1;
}.

Lemma delete_cons_perm (l : list job) i j :
  l !! i = Some j → l ≡ₚ j :: delete i l.
Proof. apply delete_Permutation. Qed.

Lemma new_ok n : pool_ok n [] (NewWorkerPool n).
Proof.
  split; cbn; try done; try lia; try constructor; try set_solver.
  by exists [].
Qed.

Lemma start_ok n acc p : pool_ok n acc p → started p = false → pool_ok n acc (start p).
Proof.
  intros [] Hs. rewrite Hs in *. split; cbn; try done; lia.
Qed.

Lemma stop_ok n acc p : pool_ok n acc p → pool_ok n acc (Stop p).
Proof. intros []. by split. Qed.

Lemma leave_ok n acc p p' : pool_ok n acc p → leave p = Some p' → pool_ok n acc p'.
Proof.
  intros [] Hl. unfold leave in Hl. destruct (idle p) eqn:Hi, (shutdown p); try done.
  simplify_eq. split; cbn; try done; lia.
Qed.

Lemma take_ok n acc p p' : pool_ok n acc p → take p = Some p' → pool_ok n acc p'.
Proof.
  intros [] Ht. unfold take in Ht. destruct (idle p) eqn:Hi, (jobs p) as [|j js] eqn:Hj; try done.
  simplify_eq. split; cbn in *; try done; rewrite ?length_app; cbn; try lia.
  destruct ok_fifo0 as (taken&->&Hp&Hr). exists (taken ++ [j]). split_and!.
  - by rewrite <- app_assoc.
  - by rewrite !fmap_app, Hp, app_assoc.
  - set_solver.
Qed.

Lemma submit_ok n acc p j p' :
  pool_ok n acc p → job_id j ∉ job_id <$> acc → Submit j p = (Ok (job_id j), p') →
  pool_ok n (acc ++ [j]) p'.
Proof.
  intros [] Hn Hs. unfold Submit in Hs. case_decide; [|done]. simplify_eq.
  split; cbn; try done; rewrite ?length_app; cbn; try lia.
  - rewrite fmap_app. by apply NoDup_snoc.
  - destruct ok_fifo0 as (taken&->&Hp&Hr). exists taken. by rewrite <- app_assoc.
  - intros i v Hin. destruct (ok_results0 i v Hin) as (?&j'&?&?). split; [done|].
    exists j'. set_solver.
Qed.

Lemma run_ok n acc p i p' : pool_ok n acc p → run_job i p = Some p' → pool_ok n acc p'.
Proof.
  intros [] Hr. unfold run_job in Hr. destruct (running p !! i) as [j|] eqn:Hi; [|done].
  cbn in Hr. destruct (execute (shutdown p) j) as [sent panicked] eqn:He. simplify_eq.
  pose proof (delete_cons_perm _ _ _ Hi) as Hperm.
  pose proof (Permutation_length Hperm) as Hlen; cbn in Hlen.
  pose proof (fmap_Permutation job_id _ _ Hperm) as Hpf; cbn in Hpf.
  destruct ok_fifo0 as (taken&->&Hp&Hin).
  assert (job_id j ∉ dones p) as Hfresh.
  { intros Hd. rewrite fmap_app in ok_nodup0. apply list.NoDup_app in ok_nodup0 as [Hnd _].
    rewrite Hp, Hperm in Hnd. apply list.NoDup_app in Hnd as (_&Hnd&_).
    apply (Hnd _ Hd). cbn. set_solver. }
  assert (j ∈ taken) as Hjt by (apply Hin; by eapply list_elem_of_lookup_2).
  split; cbn; try done.
  - destruct panicked; lia.
  - destruct panicked; lia.
  - exists taken. split_and!; [done| |].
    + rewrite Hp, Hpf, <- (assoc_L (++)). done.
    + intros j' Hj'. apply Hin. rewrite Hperm. set_solver.
  - intros i' v. destruct sent as [v'|]; [|set_solver].
    rewrite elem_of_app, list_elem_of_singleton. intros [Hv|Hv].
    + destruct (ok_results0 i' v Hv) as (?&?). set_solver.
    + simplify_eq. split; [set_solver|]. exists j. split_and!; [set_solver|done|].
      unfold execute in He. destruct (shutdown p); [done|].
      unfold execute. destruct (job_command j) as [[]|[]|]; by simplify_eq.
  - destruct sent as [v|]; [|done]. rewrite fmap_app. cbn. apply NoDup_snoc; [done|].
    intros ([i' v']&Hi'&Hv)%list_elem_of_fmap. cbn in Hi'. rewrite Hi' in Hfresh.
    by apply ok_results0 in Hv as [??].
Qed.

Lemma internal_ok n acc p p' : pool_ok n acc p → internal p p' → pool_ok n acc p'.
Proof.
  intros Hok Hi. destruct Hi;
    [by apply start_ok|by eapply take_ok|by eapply run_ok|by eapply leave_ok].
Qed.

Lemma reachable_ok n acc p : reachable n acc p → pool_ok n acc p.
Proof.
  induction 1; eauto using new_ok, internal_ok, stop_ok, submit_ok.
Qed.

(** C25: in every state the pool can reach, whatever the interleaving of
    submitters, workers and shutdown: the queue never exceeds twice the number
    of workers and at most that many workers live; jobs are taken first in,
    first out; every accepted job is queued, running or done, and exactly one
    of these; a result is sent at most once, only for a job that is done, and
    it is what the job's command returned. *)
Theorem pool_invariant n acc p :
  reachable n acc p →
  (length (jobs p) ≤ 2 * n)%nat ∧ (idle p + length (running p) ≤ n)%nat ∧
  (job_id <$> acc) ≡ₚ dones p ++ (job_id <$> running p) ++ (job_id <$> jobs p) ∧
  NoDup (dones p ++ (job_id <$> running p) ++ (job_id <$> jobs p)) ∧
  (∃ taken, acc = taken ++ jobs p) ∧
  NoDup (results p).*1 ∧
  (∀ i v, (i, v) ∈ results p → i ∈ dones p ∧
     ∃ j, j ∈ acc ∧ job_id j = i ∧ returned j = Some v).
Proof.
  intros [Hw ? Hwg Hlive Hnd (taken&->&Hp&_) Hres ?]%reachable_ok.
  assert (job_id <$> taken ++ jobs p ≡ₚ
    dones p ++ (job_id <$> running p) ++ (job_id <$> jobs p)) as Hperm
    by (rewrite fmap_app, Hp; by rewrite (assoc_L (++))).
  split_and!; try done.
  - destruct (started p); lia.
  - by rewrite <- Hperm.
  - eauto.
  - intros i v (Hd&j&Hj&Hid&He)%Hres. split; [done|]. exists j.
    by rewrite <- execute_returned, He.
Qed.

(** ** Progress and termination *)

(** Every internal step makes this smaller. *)
Definition work (p : WorkerPool) : nat :=
  (if started p then 0 else Datatypes.S (workers p)) +
  3 * length (jobs p) + 2 * length (running p) + idle p.

Lemma internal_work p p' : internal p p' → (work p' < work p)%nat.
Proof.
  destruct 1 as [p Hs|p p' Ht|i p p' Hr|p p' Hl]; unfold work.
  - cbn. rewrite Hs. lia.
  - unfold take in Ht. destruct (idle p) eqn:Hi, (jobs p) eqn:Hj; try done.
    simplify_eq; cbn. rewrite length_app; cbn. lia.
  - unfold run_job in Hr. destruct (running p !! i) as [j|] eqn:Hi; [|done]. cbn in Hr.
    destruct (execute (shutdown p) j) as [sent panicked]. simplify_eq; cbn.
    pose proof (Permutation_length (delete_cons_perm _ _ _ Hi)) as Hlen; cbn in Hlen.
    destruct panicked; lia.
  - unfold leave in Hl. destruct (idle p) eqn:Hi, (shutdown p); try done.
    simplify_eq; cbn. lia.
Qed.

Lemma internal_steps_work k p p' : nsteps internal k p p' → (k + work p' ≤ work p)%nat.
Proof.
  induction 1 as [|k p q p' Hi _ IH]; [done|]. apply internal_work in Hi. lia.
Qed.

Lemma reachable_steps n acc p p' : reachable n acc p → rtc internal p p' → reachable n acc p'.
Proof. intros Hr Hi. induction Hi; eauto using reach_internal. Qed.

(** A state in which no goroutine of the pool can act. *)
Definition quiescent (p : WorkerPool) : Prop := ∀ q, ¬ internal p q.

Lemma quiescent_spec p :
  quiescent p → started p = true ∧ running p = [] ∧
  (idle p = 0%nat ∨ (jobs p = [] ∧ shutdown p = false)).
Proof.
  intros Hq. split_and!.
  - destruct (started p) eqn:Hs; [done|]. destruct (Hq (start p)). by constructor.
  - destruct (running p) as [|j js] eqn:Hr; [done|].
    destruct (run_job 0 p) as [p'|] eqn:Hp; [by destruct (Hq p'); econstructor|].
    unfold run_job in Hp. rewrite Hr in Hp. cbn in Hp. by destruct (execute (shutdown p) j).
  - destruct (idle p) eqn:Hi; [by left|right]. split.
    + destruct (jobs p) as [|j js] eqn:Hj; [done|]. destruct (take p) as [p'|] eqn:Ht.
      * by destruct (Hq p'); econstructor.
      * unfold take in Ht. by rewrite Hi, Hj in Ht.
    + destruct (shutdown p) eqn:Hs; [|done]. destruct (leave p) as [p'|] eqn:Hl.
      * by destruct (Hq p'); econstructor.
      * unfold leave in Hl. by rewrite Hi, Hs in Hl.
Qed.

(** While nothing shuts the pool down and no command panics, no worker is lost
    and every job that is done has sent what its command returned. *)
Definition undisturbed (n : nat) (acc : list job) (p : WorkerPool) : Prop :=
  shutdown p = false → (∀ j, j ∈ acc → (execute false j).2 = false) →
  (started p = true → (idle p + length (running p) = n)%nat) ∧
  (∀ j v, j ∈ acc → job_id j ∈ dones p → (execute false j).1 = Some v →
     (job_id j, v) ∈ results p).

Lemma internal_undisturbed n acc p p' :
  pool_ok n acc p → undisturbed n acc p → internal p p' → undisturbed n acc p'.
Proof.
  intros Hok Hu Hi Hs Hacc.
  destruct Hi as [p Hst|p p' Ht|i p p' Hr|p p' Hl].
  - destruct (Hu Hs Hacc) as [_ Hres]. cbn in *. split; [|done]. intros _.
    destruct Hok. rewrite Hst in *. lia.
  - unfold take in Ht. destruct (idle p) eqn:Hi, (jobs p) eqn:Hj; try done. simplify_eq.
    destruct (Hu Hs Hacc) as [Hlive Hres]. cbn in *. split; [|done].
    rewrite length_app; cbn. intros Hst. specialize (Hlive Hst). lia.
  - unfold run_job in Hr. destruct (running p !! i) as [j|] eqn:Hi; [|done]. cbn in Hr.
    destruct (execute (shutdown p) j) as [sent panicked] eqn:He. simplify_eq. cbn in Hs.
    destruct (Hu Hs Hacc) as [Hlive Hres]. rewrite Hs in He.
    pose proof (Permutation_length (delete_cons_perm _ _ _ Hi)) as Hlen; cbn in Hlen.
    destruct Hok as [_ _ _ _ Hnd (taken&Htk&Hp&Hin) _ _].
    assert (j ∈ acc) as Hj.
    { rewrite Htk. apply elem_of_app. left. apply Hin. by eapply list_elem_of_lookup_2. }
    specialize (Hacc j Hj). rewrite He in Hacc. cbn in Hacc. subst panicked. cbn.
    split; [intros Hst; specialize (Hlive Hst); lia|].
    intros j' v Hj'. rewrite elem_of_app, list_elem_of_singleton. intros [Hd|Hd] Hv.
    + specialize (Hres j' v Hj' Hd Hv). destruct sent; set_solver.
    + assert (j' = j) as -> by (by eapply (NoDup_fmap_inj_on job_id acc)).
      change ((execute false j).1 = Some v) in Hv. rewrite He in Hv. cbn in Hv.
      subst sent. set_solver.
  - unfold leave in Hl. destruct (idle p) eqn:Hi, (shutdown p); by simplify_eq.
Qed.

Lemma reachable_undisturbed n acc p : reachable n acc p → undisturbed n acc p.
Proof.
  induction 1 as [|acc p p' Hr IH Hi|acc p Hr IH|acc p j p' Hr IH Hn Hs|acc p j e Hr IH Hs].
  - intros _ _. cbn. split; [done|set_solver].
  - eapply internal_undisturbed; eauto using reachable_ok.
  - by intros ?.
  - unfold Submit in Hs. case_decide; [|done]. simplify_eq. intros Hs Hacc.
    destruct (IH Hs) as [Hlive Hres]; [set_solver|]. cbn in *. split; [done|].
    intros j' v [Hj'|Hj']%elem_of_app Hd Hv; [by apply Hres|].
    apply list_elem_of_singleton in Hj' as ->. exfalso.
    apply reachable_ok in Hr as [_ _ _ _ _ (taken&Htk&Hp&_) _ _].
    apply Hn. rewrite Htk, fmap_app, Hp. set_solver.
  - done.
Qed.

(** C17: the pool always comes to rest: from any reachable state it makes a
    bounded number of steps, whatever the order; and when it rests, with no
    shutdown and no command that panics, every job ever accepted is done and
    has sent exactly the value its command returned. *)
Theorem pool_completes n acc p :
  reachable n acc p →
  (∀ k p', nsteps internal k p p' → (k ≤ work p)%nat) ∧
  (∀ p', rtc internal p p' → quiescent p' →
     (0 < n)%nat → shutdown p' = false → (∀ j, j ∈ acc → ¬ panics j) →
     dones p' ≡ₚ job_id <$> acc ∧
     ∀ j v, j ∈ acc → returned j = Some v → (job_id j, v) ∈ results p').
Proof.
  intros Hr. split; [intros k p' Hk%internal_steps_work; lia|].
  intros p' Hsteps Hq Hn Hs Hacc. setoid_rewrite <- execute_panics in Hacc. pose proof (reachable_steps _ _ _ _ Hr Hsteps) as Hr'.
  apply quiescent_spec in Hq as (Hst&Hrun&Hq).
  destruct (reachable_undisturbed _ _ _ Hr' Hs Hacc) as [Hlive Hres].
  specialize (Hlive Hst). rewrite Hrun in Hlive; cbn in Hlive.
  destruct Hq as [?|[Hj _]]; [lia|].
  apply reachable_ok in Hr' as [_ _ _ _ _ (taken&->&Hp&_) _ _].
  rewrite Hrun, Hj, !app_nil_r in *. split; [done|].
  intros j v Hin Hv. rewrite <- execute_returned in Hv. apply Hres; [done| |done].
  rewrite <- Hp. by apply list_elem_of_fmap_2.
Qed.
End pool.

Arguments Returns {A}.
Arguments Panics {A}.

(** ** Examples *)

Module Witnesses.
Definition job1 : job (V:=Z) := mkJob 1 (CFuncAny (Returns 42%Z)).
Definition job2 : job (V:=Z) := mkJob 2 (CFuncAny Panics).

(** One worker, one job, run to its end. *)
Definition after_job1 : WorkerPool (V:=Z) :=
  mkPool 1 true 1 [] [] false 1 [(1%nat, PValue 42%Z)] [1%nat].

Lemma after_job1_reachable : reachable 1 [job1] after_job1.
Proof.
  eapply (reach_internal _ _ (mkPool 1 true 0 [job1] [] false 1 [] []));
    [|by apply (int_run 0)].
  eapply (reach_internal _ _ (mkPool 1 true 1 [] [job1] false 1 [] []));
    [|by apply int_take].
  apply (reach_submit _ [] (mkPool 1 true 1 [] [] false 1 [] [])); [|set_solver|done].
  eapply (reach_internal _ _ (NewWorkerPool 1)); [constructor|by apply int_start].
Qed.

Lemma pool_invariant_witness :
  let p := after_job1 in let acc := [job1] in
  (length (jobs p) ≤ 2 * 1)%nat ∧ (idle p + length (running p) ≤ 1)%nat ∧
  (job_id <$> acc) ≡ₚ dones p ++ (job_id <$> running p) ++ (job_id <$> jobs p) ∧
  NoDup (dones p ++ (job_id <$> running p) ++ (job_id <$> jobs p)) ∧
  (∃ taken, acc = taken ++ jobs p) ∧
  NoDup (results p).*1 ∧
  (∀ i v, (i, v) ∈ results p → i ∈ dones p ∧
     ∃ j, j ∈ acc ∧ job_id j = i ∧ returned j = Some v).
Proof. exact (pool_invariant 1 [job1] after_job1 after_job1_reachable). Defined.

Lemma pool_completes_witness :
  (∀ k p', nsteps internal k after_job1 p' → (k ≤ work after_job1)%nat) ∧
  (∀ p', rtc internal after_job1 p' → quiescent p' →
     (0 < 1)%nat → shutdown p' = false → (∀ j, j ∈ [job1] → ¬ panics j) →
     dones p' ≡ₚ job_id <$> [job1] ∧
     ∀ j v, j ∈ [job1] → returned j = Some v → (job_id j, v) ∈ results p').
Proof. exact (pool_completes 1 [job1] after_job1 after_job1_reachable). Defined.

(** A panicking job costs the pool its worker: a job accepted afterwards stays
    in the queue for ever, and its submitter waits for ever. *)
Definition stuck : WorkerPool (V:=Z) := mkPool 1 true 0 [] [job1] false 0 [] [2%nat].

Lemma panic_starves_the_pool : reachable 1 [job2; job1] stuck ∧ quiescent stuck ∧
  job_id job1 ∉ dones stuck.
Proof.
  split_and!.
  - apply (reach_submit _ [job2] (mkPool 1 true 0 [] [] false 0 [] [2%nat])).
    + eapply (reach_internal _ _ (mkPool 1 true 0 [job2] [] false 1 [] []));
        [|by apply (int_run 0)].
      eapply (reach_internal _ _ (mkPool 1 true 1 [] [job2] false 1 [] []));
        [|by apply int_take].
      apply (reach_submit _ [] (mkPool 1 true 1 [] [] false 1 [] [])); [|set_solver|done].
      eapply (reach_internal _ _ (NewWorkerPool 1)); [constructor|by apply int_start].
    + compute_done.
    + done.
  - intros q Hq. inversion Hq as [| |i p p' Hr|]; subst; done.
  - compute_done.
Qed.
End Witnesses.
