(* ===== verification/Tenants.v ===== *)
(** * internal/tenants: is a user an active member of a tenant?

    [Client] asks the tenant service (client.go), [NoopValidator] accepts every
    one (noop.go).  The interface is the class [TenantValidator].  The service
    itself is a parameter: [LookupTenants identity] is what its RPC returns before
    the client's deadline, an error, no response, or the ids of the identity's
    active tenants. *)

From S2P Require Import Prelude Errors.

(** TenantValidatorInterface; no error is [None]. *)
Class TenantValidator := {
  ValidateMembership (identityID tenantID : string) : option goerr;
}.

Definition tenant_lookup : Type := string → result (option (list string)).

Module Client.
(** [for _, tenant := range resp.GetTenants()] *)
Fixpoint find_tenant (tenants : list string) (tenantID : string) : option goerr :=
  match tenants with
  | [] => Some (ESentinel TenantsErrNotMember)
  | id :: tenants => if decide (id = tenantID) then None else find_tenant tenants tenantID
  end.

Definition ValidateMembership (LookupTenants : tenant_lookup)
    (identityID tenantID : string) : option goerr :=
  match LookupTenants identityID with
  | Err err => Some (errorf_v "cannot look up tenants" err)
  | Ok None => Some (errorf_v "cannot look up tenants" (EText "empty response"))
  | Ok (Some tenants) => find_tenant tenants tenantID
  end.
End Client.

Module NoopValidator.
Definition ValidateMembership (_ _ : string) : option goerr := None.
End NoopValidator.

(** ** grpc.go *)

(** Transport credentials: TLS from 1.2 on ([tls.VersionTLS12] is 0x0303), or none. *)
Inductive credentials := NewTLS (MinVersion : Z) | Insecure.
Record keepalive_params := mkKeepalive { KeepaliveTime : Z; KeepaliveTimeout : Z; PermitWithoutStream : bool }.

(** Durations in nanoseconds. *)
Definition keepaliveTime : Z := 30 * 10 ^ 9.
Definition keepaliveTimeout : Z := 10 * 10 ^ 9.

(** [grpc.NewClient], a parameter: a connection, and what a lookup over it gives before
    a deadline. *)
Class GrpcDial := {
  ClientConn : Type;
  grpc_NewClient : string → credentials → keepalive_params → result ClientConn;
  LookupTenants_over : ClientConn → Z → tenant_lookup;
}.

Definition NewGRPCConn `{!GrpcDial} (address : string) (tlsEnabled : bool) : result ClientConn :=
  let creds := if tlsEnabled then NewTLS 0x0303 else Insecure in
  match grpc_NewClient address creds (mkKeepalive keepaliveTime keepaliveTimeout true) with
  | Err err => Err (errorf_v ("failed to connect to tenant-service at " +:+ address) err)
  | Ok conn => Ok conn
  end.

Definition client_validator (LookupTenants : tenant_lookup) : TenantValidator :=
  {| ValidateMembership := Client.ValidateMembership LookupTenants |}.
Definition noop_validator : TenantValidator :=
  {| ValidateMembership := NoopValidator.ValidateMembership |}.

Lemma find_tenant_spec ts t :
  Client.find_tenant ts t = if decide (t ∈ ts) then None else Some (ESentinel TenantsErrNotMember).
Proof.
  induction ts as [|x ts IH]; cbn; [done|].
  destruct (decide (x = t)) as [->|Hne]; [by rewrite decide_True by set_solver|].
  rewrite IH. destruct (decide (t ∈ ts)); [rewrite decide_True by set_solver|
    rewrite decide_False by set_solver]; done.
Qed.

(** Membership is validated only when the tenant service lists the tenant
    among the user's; "not a member" is reported only when the service answered
    and did not list it; every other failure is an error that is not "not a
    member". *)
Theorem ValidateMembership_spec (LookupTenants : tenant_lookup) identity tenant :
  (Client.ValidateMembership LookupTenants identity tenant = None ↔
     ∃ ts, LookupTenants identity = Ok (Some ts) ∧ tenant ∈ ts) ∧
  ((∃ e, Client.ValidateMembership LookupTenants identity tenant = Some e ∧
         errors_is e TenantsErrNotMember = true) ↔
     ∃ ts, LookupTenants identity = Ok (Some ts) ∧ (tenant ∉ ts)).
Proof.
  unfold Client.ValidateMembership.
  destruct (LookupTenants identity) as [[ts|]|e]; [|naive_solver..].
  rewrite find_tenant_spec. case_decide; split; split.
  - eauto.
  - done.
  - naive_solver.
  - intros (?&[= <-]&?). done.
  - done.
  - intros (?&[= <-]&?). done.
  - eauto.
  - intros _. eexists. split; [done|]. apply errors_is_sentinel.
Qed.
