(* ===== verification/Hooks.v ===== *)
(** * pkg/hooks: the Hydra token hook

    The user of a request (users.go), the groups a user has (local.go,
    service.go), the decision ([ProcessRequest], service.go) and the HTTP handler
    with the token it composes (handlers.go, middlewares.go).

    [ProcessRequest] hands two jobs to the worker pool and waits for them; what
    the pool does to a job is the [fate] of that job, an argument, and what comes
    back through its channel is what [Pool.execute] sends.  [pool_serves_hook]
    ties the two together: whatever the pool does, a job whose [wg.Done] has
    happened left in its channel what some fate says.

    The request type, [IDTokenClaims] and [NewConsentRequestSessionData] are
    Hydra's; JSON text is represented by the value it encodes, so encoding a
    response does not fail.  Log lines and spans are left out. *)

From S2P Require Import Prelude Errors Types Sql Storage StorageSpec Authorizer Grpc Groups Pool Tenants.
Open Scope Z_scope.

(** ** The request (github.com/ory/hydra/v2/oauth2) *)

Abbreviation claims := (gmap string json).

(** [Claims] are the extra claims of the session's [*jwt.IDTokenClaims]. *)
Record DefaultSession := mkDefaultSession { Subject : string; Claims : option claims }.
(** A nil map is [None]. *)
Record Session := mkSession { Default : option DefaultSession; Extra : option claims }.
Record Request := mkRequest {
  ClientID : string; GrantTypes : list string; GrantedAudience : list string }.
Record TokenHookRequest := mkTokenHookRequest {
  req_Session : option Session; req_Request : Request }.

(** [flow.AcceptOAuth2ConsentRequestSession] of the response. *)
Record SessionData := mkSessionData { AccessToken : claims; IDToken : claims }.

Class Hydra := {
  IDTokenClaims : DefaultSession → option claims;
  NewConsentRequestSessionData : SessionData;
  (** [json.Unmarshal] into a request. *)
  Unmarshal : string → result TokenHookRequest;
}.

(** Hydra's documented behaviour: the session's claims, empty ones where there
    are none, and a response with two empty maps. *)
Class HydraLaws `{!Hydra} := {
  IDTokenClaims_some d c : Claims d = Some c → IDTokenClaims d = Some c;
  IDTokenClaims_none d : Claims d = None →
    IDTokenClaims d = None ∨ IDTokenClaims d = Some ∅;
  NewConsentRequestSessionData_empty : NewConsentRequestSessionData = mkSessionData ∅ ∅;
}.

(** [m[k].(string)]: the string at [k]; a nil map has no keys. *)
Definition string_at (k : string) (m : option claims) : option string :=
  match default ∅ m !! k with Some (JString s) => Some s | _ => None end.

(** ** users.go *)

Record User := mkUser { SubjectId : string; ClientId : string; Email : string }.

Definition GetUserId (u : User) : string :=
  if decide (SubjectId u ≠ "")%string then SubjectId u
  else if decide (ClientId u ≠ "")%string then ClientId u
  else "".

Definition GrantTypeClientCredentials : string := "client_credentials".
Definition GrantTypeJWTBearer : string := "urn:ietf:params:oauth:grant-type:jwt-bearer".

Definition exactOne (vs : list string) (v : string) : bool :=
  match vs with [x] => bool_decide (x = v) | _ => false end.

Definition isServiceAccount (grantTypes : list string) : bool :=
  exactOne grantTypes GrantTypeClientCredentials || exactOne grantTypes GrantTypeJWTBearer.

Definition NewUserFromHookRequest (r : TokenHookRequest) : User :=
  if isServiceAccount (GrantTypes (req_Request r))
  then mkUser "" (ClientID (req_Request r)) ""
  else match req_Session r with
       | None => mkUser "" "" ""
       | Some session =>
           match Default session with
           | None => mkUser "" "" ""
           | Some s =>
               match Claims s with
               | None => mkUser (Subject s) "" ""
               | Some extra =>
                   match string_at "email" (Some extra) with
                   | None => mkUser (Subject s) "" ""
                   | Some email => mkUser (Subject s) "" email
                   end
               end
           end
       end.

(** ** local.go *)

(** The name under which a user's groups are stored. *)
Definition group_user (user : User) : string :=
  if decide (ClientId user ≠ "")%string then ClientId user else Email user.

Module StorageHookGroupsClient.
Definition FetchUserGroups {S} `{!Engine S} (user : User) : M S (list Group) :=
  let userId := group_user user in
  if decide (userId = "")%string then mret []
  else GetGroupsForUser userId.
End StorageHookGroupsClient.

(** ** service.go *)

Record HookContext := mkHookContext { hctx_Groups : list Group; TenantID : string }.

Definition extractTenantID (req : TokenHookRequest) : string :=
  match req_Session req with
  | None => ""
  | Some session =>
      match Extra session with
      | None => ""
      | Some extra => default ""%string (string_at "_tenant_id" (Some extra))
      end
  end.

(** What the pool does to a job: its queue is full; no worker ever takes it; a
    worker takes it, before or after the shutdown of the pool began. *)
Inductive fate := Full | Waiting | Taken (shutdown : bool).

#[export] Instance fate_eq_dec : EqDecision fate.
Proof. solve_decision. Defined.

(** What is in the job's channel once its [wg.Wait()] has returned. *)
Definition received {V} (shutdown : bool) (o : outcome V) : option V :=
  match (execute shutdown (mkJob 0 (CFuncAny o))).1 with
  | Some (PValue v) => Some v
  | _ => None
  end.

(** A job's command ends with its value or with a panic. *)
Definition job_outcome {A} (r : result A) : outcome (result A) :=
  match r with Err (EPanic _) => Panics | _ => Returns r end.

(** [if err != nil { return f(err) }], where a panic is not an error. *)
Definition on_error (f : goerr → goerr) (e : goerr) : goerr :=
  match e with EPanic _ => e | _ => f e end.

Record pool_fates := mkFates { groups_fate : fate; tenant_fate : fate }.

Module Service.
Section service.
Context {S T : Type} `{!Engine S} `{!AuthorizerOps T} {VT : TenantValidator}.
(** [s.clients] *)
Context (clients : list (User → M S (list Group))).

Fixpoint fetch_all (cs : list (User → M S (list Group))) (user : User) (ret : list Group)
    : M S (list Group) :=
  match cs with
  | [] => mret ret
  | c :: cs => groups ← c user; fetch_all cs user (ret ++ groups)
  end.

Definition FetchUserGroups (user : User) : M S (list Group) := fetch_all clients user [].

Definition AuthorizeRequest (user : User) (req : TokenHookRequest) (groups : list Group)
    : M T bool :=
  let groupIDs := ID <$> groups in
  let r := req_Request req in
  if negb (isServiceAccount (GrantTypes r))
  then authz_CanAccess (GetUserId user) (ClientID r) groupIDs
  else if decide (0 < length (GrantedAudience r))%nat
  then authz_BatchCanAccess (GetUserId user) (GrantedAudience r) groupIDs
  else mret true.

(** The first job. *)
Definition run_groups (shutdown : bool) (user : User)
    : M (S * T) (option (result (list Group))) := λ st,
  let '(r, s) := FetchUserGroups user st.1 in
  (Ok (received shutdown (job_outcome r)),
   (if shutdown then st.1 else s, st.2)).

(** [tenantErr] after [waitTenant]; [None] if that never returns. *)
Definition waitTenant (f : fate) (user : User) (tenantID : string)
    : option (option goerr) :=
  if decide (tenantID = "")%string then Some None
  else match f with
       | Taken shutdown =>
           Some (mjoin (received shutdown
                          (Returns (ValidateMembership (SubjectId user) tenantID))))
       | _ => None
       end.

(** The statements after the two jobs were submitted. *)
Definition decide_request (shutdown : bool) (user : User) (req : TokenHookRequest)
    (tenantErr : option goerr) : M (S * T) HookContext :=
  r ← run_groups shutdown user;
  match r with
  | None => fail (ESentinel HooksErrTooBusy)
  | Some (Err err) => fail (errorf_v "cannot fetch user groups" err)
  | Some (Ok groups) =>
      allowed ← map_err (on_error (errorf_v "cannot authorize request"))
        (on_authz (AuthorizeRequest user req groups));
      if negb allowed
      then fail (EText ("access denied for user " +:+ GetUserId user +:+ " to client " +:+
                        ClientID (req_Request req)))
      else match tenantErr with
           | Some err =>
               if errors_is err TenantsErrNotMember
               then fail (EWrap ("user " +:+ SubjectId user +:+ " is not a member of tenant " +:+
                                 extractTenantID req +:+ ": ")
                            (ESentinel TenantsErrNotMember) "")
               else fail (errorf_w "cannot validate tenant membership"
                            (ESentinel HooksErrTenantInternal))
           | None => mret (mkHookContext groups (extractTenantID req))
           end
  end.

(** [None]: the call never returns.  The deferred [waitTenant] runs on every
    path once the tenant job is submitted. *)
Definition ProcessRequest (e : pool_fates) (user : User) (req : TokenHookRequest)
    : M (S * T) (option HookContext) :=
  let tenantID := extractTenantID req in
  if decide (groups_fate e = Full) then fail (ESentinel HooksErrTooBusy)
  else if decide (tenantID ≠ ""%string ∧ tenant_fate e = Full) then
    match groups_fate e with
    | Taken shutdown => _ ← run_groups shutdown user; fail (ESentinel HooksErrTooBusy)
    | _ => mret None
    end
  else
    match groups_fate e, waitTenant (tenant_fate e) user tenantID with
    | Taken shutdown, Some tenantErr =>
        h ← decide_request shutdown user req tenantErr; mret (Some h)
    | Taken shutdown, None =>
        _ ← attempt (decide_request shutdown user req None); mret None
    | _, _ => mret None
    end.
End service.
End Service.

(** ** handlers.go *)

Definition StatusOK : Z := 200.
Definition StatusBadRequest : Z := 400.
Definition StatusUnauthorized : Z := 401.
Definition StatusForbidden : Z := 403.
Definition StatusTooManyRequests : Z := 429.
Definition StatusInternalServerError : Z := 500.

Record http_response := mkHttp { StatusCode : Z; Body : option SessionData }.

(** An answer, a panic (net/http closes the connection), or none ever. *)
Inductive reply := Replied (w : http_response) | Crashed | NoReply.

Section handlers.
Context {S T : Type} `{!Engine S} `{!AuthorizerOps T} {VT : TenantValidator} `{!Hydra}
  `{!GoRange}.

(** [maps.Copy(dst, src)] into an empty [dst]; [src] may be nil. *)
Definition copy_claims (dst : claims) (src : option claims) : claims :=
  default ∅ src ∪ dst.

Definition newHookResponse (groups : list Group) (existingAccessToken existingIDToken : option claims)
    : SessionData :=
  let resp := NewConsentRequestSessionData in
  let access := copy_claims (AccessToken resp) existingAccessToken in
  let id := copy_claims (IDToken resp) existingIDToken in
  if decide (length groups = 0%nat) then mkSessionData access id
  else
    let gg := JArray (JString <$> map_keys (list_to_set (Name <$> groups))) in
    mkSessionData (<["groups"%string := gg]> access) (<["groups"%string := gg]> id).

Definition composeTokenResponse (req : TokenHookRequest) (hctx : HookContext) : SessionData :=
  let existingAccessToken :=
    match req_Session req with None => None | Some session => Extra session end in
  let existingIDToken :=
    match req_Session req with
    | None => None
    | Some session => d ← Default session; IDTokenClaims d
    end in
  let resp := newHookResponse (hctx_Groups hctx) existingAccessToken existingIDToken in
  if decide (TenantID hctx ≠ "")%string
  then mkSessionData (<["tenant_id"%string := JString (TenantID hctx)]> (AccessToken resp))
         (<["tenant_id"%string := JString (TenantID hctx)]> (IDToken resp))
  else resp.

Definition error_status (err : goerr) : Z :=
  if errors_is err HooksErrTooBusy then StatusTooManyRequests
  else if errors_is err TenantsErrNotMember then StatusForbidden
  else if errors_is err HooksErrTenantInternal then StatusInternalServerError
  else StatusForbidden.

Context (clients : list (User → M S (list Group))).

(** [body] is what reading the request's body gives. *)
Definition handleHydraHook (e : pool_fates) (body : result string) : S * T → reply * (S * T) :=
  λ st,
  match body with
  | Err _ => (Replied (mkHttp StatusBadRequest None), st)
  | Ok b =>
      match Unmarshal b with
      | Err _ => (Replied (mkHttp StatusBadRequest None), st)
      | Ok req =>
          match Service.ProcessRequest clients e (NewUserFromHookRequest req) req st with
          | (Err (EPanic _), st') => (Crashed, st')
          | (Err err, st') => (Replied (mkHttp (error_status err) None), st')
          | (Ok None, st') => (NoReply, st')
          | (Ok (Some hctx), st') =>
              (Replied (mkHttp StatusOK (Some (composeTokenResponse req hctx))), st')
          end
      end
  end.

(** ** middlewares.go

    [authorization] are the values of the request's Authorization header;
    [r.Header.Get] gives the first one. *)
Definition AuthMiddleware (token : string) (authorization : list string)
    (next : S * T → reply * (S * T)) : S * T → reply * (S * T) := λ st,
  if decide (token = default ""%string (head authorization)) then next st
  else (Replied (mkHttp StatusUnauthorized None), st).

(** [NewRouter] makes a middleware when a token is configured; [RegisterEndpoints]. *)
Definition hook_endpoint (token : string) (authorization : list string) (e : pool_fates)
    (body : result string) : S * T → reply * (S * T) :=
  if decide (token ≠ "")%string
  then AuthMiddleware token authorization (handleHydraHook e body)
  else handleHydraHook e body.
End handlers.

(** [NewRouter]'s group clients: the local storage. *)
Definition groupClients {S} `{!Engine S} : list (User → M S (list Group)) :=
  [StorageHookGroupsClient.FetchUserGroups].

(** ** Properties *)

(** [u] is in a group that may use the application [c], by the memberships of [w] and
    the grants of [A]. *)
Definition may_use_by (w : database) (A : gset (string * string)) (u c : string) : Prop :=
  ∃ g, (g, u) ∈ memberships w ∧ (g, c) ∈ A.

(** Who is entitled to the token of a request: a service account needs every
    application of its audience, anyone else the requesting client. *)
Definition entitled_by (w : database) (A : gset (string * string)) (req : TokenHookRequest) : Prop :=
  let r := req_Request req in
  let u := group_user (NewUserFromHookRequest req) in
  if isServiceAccount (GrantTypes r)
  then ∀ c, c ∈ GrantedAudience r → may_use_by w A u c
  else may_use_by w A u (ClientID r).

(** Whom the database alone entitles. *)
Definition entitled (w : database) (req : TokenHookRequest) : Prop := entitled_by w (allowed w) req.

Lemma received_returns {V} shut (v : V) :
  received shut (Returns v) = if shut then None else Some v.
Proof. by destruct shut. Qed.

Lemma received_job {A} (r : result A) x shut :
  received shut (job_outcome r) = Some x → x = r ∧ shut = false ∧ ∀ m, r ≠ Err (EPanic m).
Proof. destruct shut; [done|]. destruct r as [a|[]]; cbn; intros; simplify_eq; done. Qed.

Section process.
Context {S T : Type} `{EngineLaws S} `{!PgLaws} `{AuthorizerLaws T} {VT : TenantValidator}.
Implicit Types (s : S) (t : T) (st : S * T).

Lemma decide_request_ok clients shut user req te st hctx st' :
  Service.decide_request clients shut user req te st = (Ok hctx, st') →
  shut = false ∧ te = None ∧ ∃ gs s1,
    Service.FetchUserGroups clients user st.1 = (Ok gs, s1) ∧
    Service.AuthorizeRequest user req gs st.2 = (Ok true, st'.2) ∧
    st'.1 = s1 ∧ hctx = mkHookContext gs (extractTenantID req).
Proof.
  destruct st as [s t]. unfold Service.decide_request.
  intros [(?&?&_)|(r&[s1 t1]&Hg&Hx)]%bind_inv; [done|].
  unfold Service.run_groups in Hg; cbn in Hg.
  destruct (Service.FetchUserGroups clients user s) as [r0 s2] eqn:Hf. simplify_eq.
  destruct (received shut (job_outcome r0)) as [r|] eqn:Hr; [|done].
  apply received_job in Hr as (->&->&_). split; [done|].
  destruct r0 as [gs|]; [|done].
  apply bind_inv in Hx as [(?&?&_)|(b&[s3 t3]&Ha&Hx)]; [done|].
  apply map_err_inv in Ha as [(b0&?&Ha)|(?&?&_)]; [|done]. simplify_eq.
  apply on_authz_inv in Ha as [Ha ->]. destruct b0; cbn in Hx; [|done].
  destruct te as [e|]; [by destruct (errors_is e TenantsErrNotMember)|].
  cbv in Hx. simplify_eq. split; [done|]. eauto 10.
Qed.

Lemma ProcessRequest_ok clients e user req st hctx st' :
  Service.ProcessRequest clients e user req st = (Ok (Some hctx), st') →
  groups_fate e = Taken false ∧
  Service.waitTenant (tenant_fate e) user (extractTenantID req) = Some None ∧
  Service.decide_request clients false user req None st = (Ok hctx, st').
Proof.
  unfold Service.ProcessRequest. case_decide; [done|]. case_decide as Ht.
  { destruct (groups_fate e); [done..|].
    by intros [(?&?&_)|(?&?&_&Hx)]%bind_inv. }
  destruct (groups_fate e) as [| |shut]; [done..|].
  destruct (Service.waitTenant _ _ _) as [te|] eqn:Hw.
  - intros [(?&?&_)|(h&st1&Hd&Hx)]%bind_inv; [done|]. cbv in Hx. simplify_eq.
    pose proof Hd as (->&->&_)%decide_request_ok. done.
  - intros [(?&?&_)|(?&?&_&Hx)]%bind_inv; [done|by cbv in Hx].
Qed.

Lemma waitTenant_passed f user tid :
  Service.waitTenant f user tid = Some None ↔
  tid = ""%string ∨ f = Taken true ∨
  (f = Taken false ∧ ValidateMembership (SubjectId user) tid = None).
Proof.
  unfold Service.waitTenant. case_decide; [naive_solver|].
  destruct f as [| |[]]; [naive_solver..|]. rewrite received_returns. cbn.
  destruct (ValidateMembership _ _); naive_solver.
Qed.

(** The groups the hook sees are the user's groups of the database. *)
Lemma FetchUserGroups_outcome user s r s' :
  wf (view s) → Service.FetchUserGroups groupClients user s = (r, s') →
  view s' = view s ∧ ∀ gs, r = Ok gs →
    (∀ g, g ∈ ID <$> gs ↔ group_user user ≠ ""%string ∧ (g, group_user user) ∈ memberships (view s)).
Proof.
  intros Hwf Hf. unfold Service.FetchUserGroups, groupClients in Hf; cbn in Hf.
  unfold StorageHookGroupsClient.FetchUserGroups in Hf.
  case_decide as Hu.
  { cbv in Hf. simplify_eq. split; [done|]. intros gs [= <-] g. cbn. set_solver. }
  apply bind_inv in Hf as [(e&->&Hx)|(gs0&s1&Hx&Hr)];
    apply GetGroupsForUser_outcome in Hx as [Hv Ho]; try done.
  cbv [mret M_ret] in Hr. simplify_eq. split; [done|]. intros gs [= <-] g.
  destruct Ho as [Hin _]. rewrite list_elem_of_fmap. setoid_rewrite Hin. split.
  - intros (x&->&g0&?&?&->). done.
  - intros [_ Hm]. apply elem_of_list_to_set, list_elem_of_fmap in Hm as (row&Hk&Hrow).
    pose proof (wf_mfk _ Hwf _ Hrow) as (g0&Hg0&?)%list_elem_of_fmap.
    exists (group_of g0). cbn. unfold mkey, mfk, gkey in *.
    assert (gr_id g0 = g) as <- by congruence. split; [done|]. exists g0.
    split; [done|]. split; [|done]. apply elem_of_list_to_set, list_elem_of_fmap. by exists row.
Qed.

(** [AuthorizeRequest] on the user's groups of a database, with the grants [A]. *)
Lemma AuthorizeRequest_by user req gs w A t b t' :
  granted t A →
  (∀ g, g ∈ ID <$> gs ↔ group_user user ≠ ""%string ∧ (g, group_user user) ∈ memberships w) →
  user = NewUserFromHookRequest req →
  Service.AuthorizeRequest user req gs t = (Ok b, t') →
  (b = true → entitled_by w A req) ∧
  (isServiceAccount (GrantTypes (req_Request req)) = false → group_user user ≠ ""%string →
   entitled_by w A req → b = true).
Proof.
  intros Hsync Hg -> Ha.
  assert (∀ c, (∃ g, g ∈ ID <$> gs ∧ (g, c) ∈ A) →
    may_use_by w A (group_user (NewUserFromHookRequest req)) c) as Hmay.
  { intros c (g&Hin&?). apply Hg in Hin as [_ ?]. by exists g. }
  unfold Service.AuthorizeRequest, entitled_by in *.
  destruct (isServiceAccount (GrantTypes (req_Request req))) eqn:Hs; cbn [negb] in Ha.
  - split; [|done]. intros -> c Hc. apply Hmay. case_decide as Hl.
    + eapply batch_access_law; eauto.
    + destruct (GrantedAudience (req_Request req)); [set_solver|cbn in Hl; lia].
  - pose proof (can_access_law _ _ _ _ _ _ _ Hsync Ha) as Hb. split.
    + intros Hbt. apply Hmay. by apply Hb.
    + intros _ Hu (g&Hm&Hal). apply Hb. exists g. split; [|done]. by apply Hg.
Qed.

Context `{!Hydra} `{!GoRange}.

Lemma handleHydraHook_200 clients e body st body' st' :
  handleHydraHook clients e body st = (Replied (mkHttp 200 body'), st') →
  ∃ b req hctx, body = Ok b ∧ Unmarshal b = Ok req ∧
    Service.ProcessRequest clients e (NewUserFromHookRequest req) req st = (Ok (Some hctx), st') ∧
    body' = Some (composeTokenResponse req hctx).
Proof.
  unfold handleHydraHook. destruct body as [b|]; [|done].
  destruct (Unmarshal b) as [req|] eqn:Hu; [|done].
  destruct (Service.ProcessRequest _ _ _ _ _) as [[[hctx|]|er] st1] eqn:Hp; [|done|].
  - intros. simplify_eq. by exists b, req, hctx.
  - assert (error_status er ≠ 200) by (unfold error_status; by repeat case_match).
    destruct er; intros; simplify_eq.
Qed.

(** What an answer of 200 means. *)
Lemma hook_grants e body s t A body' s' t' :
  wf (view s) → granted t A →
  handleHydraHook groupClients e body (s, t) = (Replied (mkHttp 200 body'), (s', t')) →
  view s' = view s ∧ ∃ b req, body = Ok b ∧ Unmarshal b = Ok req ∧
    entitled_by (view s) A req ∧
    (extractTenantID req = ""%string ∨ tenant_fate e = Taken true ∨
     ValidateMembership (SubjectId (NewUserFromHookRequest req)) (extractTenantID req) = None).
Proof.
  intros Hwf Hsync (b&req&hctx&->&Hu&Hp&->)%handleHydraHook_200.
  apply ProcessRequest_ok in Hp as (_&Hw%waitTenant_passed&Hd).
  apply decide_request_ok in Hd as (_&_&gs&s1&Hf&Ha&<-&_).
  apply FetchUserGroups_outcome in Hf as [Hv Hg]; [|done].
  specialize (Hg gs eq_refl). split; [done|].
  exists b, req. split_and!; [done..| |tauto].
  by eapply AuthorizeRequest_by.
Qed.

(** C5: with authorization enabled (by default it is not, and then every user is let
    in), a database that satisfies its constraints and an OpenFGA store that holds the
    grants [A] of the service and nothing else, whether or not these are the pairs the
    database allows: when the hook answers 200, the request was well formed, the user is
    by the database in a group that [A] grants the client (a service account: for every
    application of its audience one), and the database was not changed.  A tenant that
    was named has accepted the user, unless its validation was dropped by a pool that
    was shutting down. *)
Theorem hook_sound e body s t A body' s' t' :
  wf (view s) → granted t A →
  handleHydraHook groupClients e body (s, t) = (Replied (mkHttp 200 body'), (s', t')) →
  view s' = view s ∧ ∃ b req, body = Ok b ∧ Unmarshal b = Ok req ∧
    entitled_by (view s) A req ∧
    (extractTenantID req = ""%string ∨ tenant_fate e = Taken true ∨
     ValidateMembership (SubjectId (NewUserFromHookRequest req)) (extractTenantID req) = None).
Proof. apply hook_grants. Qed.

(** The hook moves the database connection only by statements. *)
Section moves.
Context (R : relation S) `{!PreOrder R} (Hexec : ∀ (q : stmt) s1 r s2, exec q s1 = (r, s2) → R s1 s2).

Lemma run_groups_follows shut user : follows (on_first (T:=T) R) (Service.run_groups groupClients shut user).
Proof.
  intros [s t] r [s' t']. unfold Service.run_groups; cbn [fst snd].
  destruct (Service.FetchUserGroups groupClients user s) as [r0 s1] eqn:Hf.
  intros [= _ <- _]. unfold on_first; cbn [fst]. destruct shut; [reflexivity|].
  revert Hf. generalize s r0 s1.
  change (follows R (Service.FetchUserGroups (S:=S) groupClients user)).
  unfold Service.FetchUserGroups, groupClients; cbn [Service.fetch_all].
  unfold StorageHookGroupsClient.FetchUserGroups, GetGroupsForUser. follow.
Qed.

Lemma decide_request_follows shut user req te :
  follows (on_first (T:=T) R) (Service.decide_request groupClients shut user req te).
Proof.
  unfold Service.decide_request. apply follows_bind; [apply _|apply run_groups_follows|].
  intros r. follow. apply (on_authz_follows R).
Qed.

Lemma ProcessRequest_follows e user req :
  follows (on_first (T:=T) R) (Service.ProcessRequest groupClients e user req).
Proof.
  unfold Service.ProcessRequest.
  follow; first [apply run_groups_follows|apply (on_authz_follows R)].
Qed.

Lemma hook_follows e body st a st' :
  handleHydraHook groupClients e body st = (a, st') → on_first (T:=T) R st st'.
Proof.
  unfold handleHydraHook. destruct body as [b|]; [|by intros [= _ <-]].
  destruct (Unmarshal b) as [req|]; [|by intros [= _ <-]].
  destruct (Service.ProcessRequest _ _ _ _ st) as [r st1] eqn:Hp.
  apply ProcessRequest_follows in Hp. repeat case_match; by intros [= _ <-].
Qed.
End moves.

(** What the hook answers when the pool runs its jobs and the stores answer. *)
Definition expected_status (entitled : bool) (tenantErr : option goerr) : Z :=
  if entitled then
    match tenantErr with
    | None => 200
    | Some e => if errors_is e TenantsErrNotMember then 403 else 500
    end
  else 403.

(** C7: the decision is complete too.  With authorization enabled, a database that
    satisfies its constraints and an OpenFGA store that holds exactly the grants [A]: for a
    request that is not a service account's, of a user with a name, when the pool runs both
    jobs and the two stores answer, OpenFGA says yes exactly if the user is in a group that
    [A] grants the client, and the hook then answers 200 to the members of the tenant
    that was named, or when none was, 403 to a user who is not a member, and 500 if the
    membership could not be found out; everyone else gets 403. *)
Theorem hook_decides b req gs s s1 t A ok t1 :
  wf (view s) → granted t A → Unmarshal b = Ok req →
  let user := NewUserFromHookRequest req in
  isServiceAccount (GrantTypes (req_Request req)) = false →
  group_user user ≠ ""%string →
  GetGroupsForUser (group_user user) s = (Ok gs, s1) →
  authz_CanAccess (GetUserId user) (ClientID (req_Request req)) (ID <$> gs) t = (Ok ok, t1) →
  (ok = true ↔ entitled_by (view s) A req) ∧
  ∃ w st', handleHydraHook groupClients (mkFates (Taken false) (Taken false)) (Ok b) (s, t) =
      (Replied w, st') ∧
    StatusCode w = expected_status ok
      (if decide (extractTenantID req = "")%string then None
       else ValidateMembership (SubjectId user) (extractTenantID req)).
Proof.
  intros Hwf Hsync Hu user Hs Hne Hg Hc.
  assert (Service.FetchUserGroups groupClients user s = (Ok gs, s1)) as Hf.
  { unfold Service.FetchUserGroups, groupClients; cbn [Service.fetch_all].
    unfold StorageHookGroupsClient.FetchUserGroups. rewrite decide_False by done.
    cbv [mbind M_bind]. by rewrite Hg. }
  assert (Service.AuthorizeRequest user req gs t = (Ok ok, t1)) as Ha.
  { unfold Service.AuthorizeRequest. by rewrite Hs. }
  pose proof Hf as Hout. apply FetchUserGroups_outcome in Hout as [_ Hout]; [|done].
  specialize (Hout gs eq_refl).
  destruct (AuthorizeRequest_by _ _ _ _ _ _ _ _ Hsync Hout eq_refl Ha) as [He1 He2].
  split; [split; auto|].
  unfold handleHydraHook. rewrite Hu. fold user.
  unfold Service.ProcessRequest. cbn [groups_fate tenant_fate].
  rewrite decide_False by done. rewrite decide_False by naive_solver.
  assert (Service.waitTenant (Taken false) user (extractTenantID req) =
    Some (if decide (extractTenantID req = "")%string then None
          else ValidateMembership (SubjectId user) (extractTenantID req))) as ->.
  { unfold Service.waitTenant. case_decide; [done|]. rewrite received_returns. cbn. done. }
  unfold Service.decide_request, Service.run_groups.
  cbv [mbind M_bind]; cbn [fst snd]. rewrite Hf. cbn [job_outcome received execute fst job_command].
  unfold map_err, on_authz; cbn [fst snd]. rewrite Ha.
  destruct ok; cbn; [|eexists _, _; split; [done|done]].
  case_decide; cbn; [eexists _, _; split; done|].
  destruct (ValidateMembership _ _) as [er|]; cbn; [|eexists _, _; split; done].
  destruct (errors_is er TenantsErrNotMember); cbn; eexists _, _; split; done.
Qed.

(** The first job came back empty-handed. *)
Definition no_groups clients (e : pool_fates) (user : User) (s : S) : Prop :=
  groups_fate e = Taken true ∨
  ∃ m, (Service.FetchUserGroups clients user s).1 = Err (EPanic m).

Lemma decide_request_busy clients shut user req te s t r st' :
  Service.decide_request clients shut user req te (s, t) = (r, st') →
  (∀ er, r = Err er → errors_is er HooksErrTooBusy = true) ∧ is_ok r = false ↔
  shut = true ∨ ∃ m, (Service.FetchUserGroups clients user s).1 = Err (EPanic m).
Proof.
  unfold Service.decide_request, Service.run_groups. cbv [mbind M_bind]. cbn [fst snd].
  destruct (Service.FetchUserGroups clients user s) as [rg s1]. cbn [fst].
  destruct (received shut (job_outcome rg)) as [x|] eqn:Hr.
  - apply received_job in Hr as (->&->&Hnp). intros Hx. split.
    2: { intros [?|(m&->)]; [done|]. by destruct (Hnp m). }
    intros [Her Hok]. exfalso.
    enough (∃ er, r = Err er ∧ errors_is er HooksErrTooBusy = false) as (er&->&Hf)
      by (by rewrite (Her er) in Hf).
    destruct rg as [gs|er]; [|cbv [fail] in Hx; simplify_eq; eauto].
    unfold map_err, on_authz in Hx; cbn in Hx.
    destruct (Service.AuthorizeRequest _ _ _ _) as [[b|er] t2].
    + destruct b; cbn in Hx.
      * destruct te as [er|]; [destruct (errors_is er TenantsErrNotMember)|];
          cbv [fail mret M_ret] in Hx; simplify_eq/=; eauto.
      * cbv [fail] in Hx. simplify_eq. eauto.
    + simplify_eq. destruct er; cbn; eauto.
  - intros Hx. cbv [fail] in Hx. simplify_eq/=. split; [|intros _; split; [|done]].
    + intros _. destruct shut; [by left|right]. destruct rg as [?|[]]; cbn in Hr; eauto; done.
    + by intros ? [= <-].
Qed.

Lemma reply_to_error er (st st' : S * T) a :
  match er with
  | EPanic _ => (Crashed, st)
  | _ => (Replied (mkHttp (error_status er) None), st)
  end = (a, st') →
  a ≠ NoReply ∧ (a = Replied (mkHttp 429 None) ↔ errors_is er HooksErrTooBusy = true).
Proof.
  assert (error_status er = 429 ↔ errors_is er HooksErrTooBusy = true) as He
    by (unfold error_status; repeat case_match; split; intros; done).
  destruct er; intros; simplify_eq; (split; [done|]);
    rewrite <- ?He; split; first [by intros [= ->] | by intros [=] | by intros ->].
Qed.

(** How a request may end: it waits for a job that is never taken, the pool's queue
    was full, or it was decided. *)
Definition waits (e : pool_fates) (req : TokenHookRequest) : Prop :=
  groups_fate e ≠ Full ∧
  (groups_fate e = Waiting ∨ (extractTenantID req ≠ ""%string ∧ tenant_fate e = Waiting)).
Definition queue_full (e : pool_fates) (req : TokenHookRequest) : Prop :=
  groups_fate e = Full ∨ (extractTenantID req ≠ ""%string ∧ tenant_fate e = Full).

Lemma ProcessRequest_cases clients e user req st r st' :
  Service.ProcessRequest clients e user req st = (r, st') →
  (r = Ok None ∧ waits e req) ∨
  (r = Err (ESentinel HooksErrTooBusy) ∧ queue_full e req ∧ ¬ waits e req) ∨
  ∃ shut te r0, groups_fate e = Taken shut ∧ ¬ queue_full e req ∧ ¬ waits e req ∧
    Service.decide_request clients shut user req te st = (r0, st') ∧
    r = match r0 with Ok h => Ok (Some h) | Err er => Err er end.
Proof.
  unfold Service.ProcessRequest, waits, queue_full. case_decide as Hfull.
  { cbv [fail]. intros; simplify_eq. tauto. }
  destruct (groups_fate e) as [| |shut] eqn:Hg; [done| |].
  { case_decide; cbv [mret M_ret]; intros; simplify_eq; tauto. }
  case_decide as Htf.
  { intros Hb. right; left. split_and!; [|tauto|intros [_ [?|[_ ?]]]; [done|destruct Htf; congruence]].
    apply bind_inv in Hb as [(er&->&Hx)|(x&s1&_&Hx)]; [|by cbv [fail] in Hx; simplify_eq].
    unfold Service.run_groups in Hx. by destruct (Service.FetchUserGroups _ _ _). }
  assert (extractTenantID req ≠ ""%string → tenant_fate e ≠ Full) as Hnf by tauto.
  unfold Service.waitTenant. case_decide as Ht; [|destruct (tenant_fate e) as [| |sh] eqn:Hf].
  - intros Hd. right; right. exists shut, None.
    cbv [mbind M_bind mret M_ret] in Hd.
    destruct (Service.decide_request _ _ _ _ _ _) as [r0 s0]. exists r0.
    destruct r0; simplify_eq; split_and!; done || (intros [? [?|[? ?]]]; done) || naive_solver.
  - by destruct Hnf.
  - intros Hb. left. split; [|tauto].
    apply bind_inv in Hb as [(er&->&Hx)|(x&s1&_&Hx)]; [|by cbv in Hx; simplify_eq].
    unfold attempt in Hx. by destruct (Service.decide_request _ _ _ _ _ _).
  - intros Hd. right; right. eexists shut, _.
    cbv [mbind M_bind mret M_ret] in Hd.
    destruct (Service.decide_request _ _ _ _ _ _) as [r0 s0] eqn:Hr. exists r0.
    destruct r0; simplify_eq; split_and!; done || (intros [? [?|[? ?]]]; done) || naive_solver.
Qed.

(** C15: when the hook answers.  It answers nothing at all exactly if a job it put
    into the pool's queue is never taken; and when it does answer, it answers
    429 exactly if the queue was full, or the groups job was dropped by a
    shutdown or panicked. *)
Theorem hook_answers clients e b req s t a st' :
  Unmarshal b = Ok req → handleHydraHook clients e (Ok b) (s, t) = (a, st') →
  let tenant := (extractTenantID req ≠ "")%string in
  (a = NoReply ↔ groups_fate e ≠ Full ∧
     (groups_fate e = Waiting ∨ (tenant ∧ tenant_fate e = Waiting))) ∧
  (a ≠ NoReply → a = Replied (mkHttp 429 None) ↔
     groups_fate e = Full ∨ (tenant ∧ tenant_fate e = Full) ∨
     no_groups clients e (NewUserFromHookRequest req) s).
Proof.
  intros Hu Ha. cbv zeta. unfold handleHydraHook in Ha. rewrite Hu in Ha.
  change (groups_fate e ≠ Full ∧ _) with (waits e req).
  assert (∀ P, (groups_fate e = Full ∨ (extractTenantID req ≠ ""%string ∧ tenant_fate e = Full) ∨ P) ↔
    queue_full e req ∨ P) as -> by (unfold queue_full; tauto).
  destruct (Service.ProcessRequest _ _ _ _ _) as [r st1] eqn:Hp.
  apply ProcessRequest_cases in Hp as [(->&Hw)|[(->&Hf&Hw)|(shut&te&r0&Hg&Hf&Hw&Hd&->)]].
  - simplify_eq. tauto.
  - apply (reply_to_error (ESentinel HooksErrTooBusy)) in Ha as [? ->].
    rewrite errors_is_sentinel. tauto.
  - pose proof (decide_request_busy _ _ _ _ _ _ _ _ _ Hd) as Hb.
    assert (no_groups clients e (NewUserFromHookRequest req) s ↔
      shut = true ∨ ∃ m, (Service.FetchUserGroups clients (NewUserFromHookRequest req) s).1
                         = Err (EPanic m)) as -> by (unfold no_groups; rewrite Hg; naive_solver).
    rewrite <- Hb. destruct r0 as [h|er].
    + simplify_eq. split; [done|]. intros _. split; [done|]. intros [?|[_ ?]]; done.
    + apply reply_to_error in Ha as [Hnr ->]. split; [done|]. intros _. split.
      * intros He. right. split; [by intros ? [= <-]|done].
      * intros [?|[He _]]; [done|by apply He].
Qed.
End process.

Section shutdown.
Context {S T : Type} `{!Engine S} `{!AuthorizerOps T} `{!Hydra} `{!GoRange}.

(** A pool that is shutting down when it takes the tenant job makes the hook
    behave as if tenant validation were switched off: whatever the tenant
    service says, the answer is the one of the validator that accepts every
    one. *)
Theorem shutdown_skips_tenant_check (V : TenantValidator) clients e body (st : S * T) :
  tenant_fate e = Taken true →
  handleHydraHook (VT:=V) clients e body st =
  handleHydraHook (VT:=noop_validator) clients e body st.
Proof.
  intros He. unfold handleHydraHook, Service.ProcessRequest, Service.waitTenant.
  by rewrite He.
Qed.
End shutdown.

Section token.
Context `{HydraLaws} `{GoRangeLaws}.

Definition session_extra (req : TokenHookRequest) : claims :=
  default ∅ (req_Session req ≫= Extra).
Definition id_token_extra (req : TokenHookRequest) : claims :=
  default ∅ (s ← req_Session req; d ← Default s; Claims d).

(** A claim of the token: the hook's own ones, then what the session had. *)
Definition claim (hctx : HookContext) (names : list string) (k : string)
    (old : option json) : option json :=
  if decide (k = "tenant_id"%string ∧ TenantID hctx ≠ ""%string)
  then Some (JString (TenantID hctx))
  else if decide (k = "groups"%string ∧ hctx_Groups hctx ≠ [])
  then Some (JArray (JString <$> names))
  else old.

Lemma IDTokenClaims_lookup d k :
  default ∅ (IDTokenClaims d) !! k = default ∅ (Claims d) !! k.
Proof.
  destruct (Claims d) as [c|] eqn:Hc; [by rewrite (IDTokenClaims_some _ _ Hc)|].
  by destruct (IDTokenClaims_none _ Hc) as [->| ->].
Qed.

Lemma newHookResponse_lookup groups access id k :
  let names := map_keys (list_to_set (Name <$> groups)) in
  let at_k old := if decide (k = "groups"%string ∧ groups ≠ [])
                  then Some (JArray (JString <$> names)) else old in
  AccessToken (newHookResponse groups access id) !! k = at_k (default ∅ access !! k) ∧
  IDToken (newHookResponse groups access id) !! k = at_k (default ∅ id !! k).
Proof.
  unfold newHookResponse, copy_claims. rewrite NewConsentRequestSessionData_empty. cbn.
  rewrite !(right_id_L ∅ (∪)). case_decide as Hl.
  - destruct groups; [|done]. cbn. rewrite !decide_False by naive_solver. done.
  - assert (groups ≠ []) by (by destruct groups). cbn.
    destruct (decide (k = "groups"%string)) as [->|Hk].
    + rewrite !lookup_insert_eq. by rewrite !decide_True by done.
    + rewrite !lookup_insert_ne by done. by rewrite !decide_False by naive_solver.
Qed.

(** C32: the tokens of an answer.  Both carry the tenant that was asked for, the
    names of the user's groups, each once, and every other claim of the session
    unchanged; a user without groups keeps the groups claim the session had. *)
Theorem composeTokenResponse_spec req hctx :
  ∃ names, NoDup names ∧ (∀ x, x ∈ names ↔ x ∈ Name <$> hctx_Groups hctx) ∧
    ∀ k, AccessToken (composeTokenResponse req hctx) !! k =
           claim hctx names k (session_extra req !! k) ∧
         IDToken (composeTokenResponse req hctx) !! k =
           claim hctx names k (id_token_extra req !! k).
Proof.
  exists (map_keys (list_to_set (Name <$> hctx_Groups hctx))). split_and!.
  { rewrite map_keys_perm. apply NoDup_elements. }
  { intros x. rewrite map_keys_perm, elem_of_elements. apply elem_of_list_to_set. }
  intros k. unfold composeTokenResponse, session_extra, id_token_extra, claim.
  set (access := match req_Session req with None => None | Some s => Extra s end).
  set (id := match req_Session req with
             | None => None | Some s => d ← Default s; IDTokenClaims d end).
  assert (default ∅ access = default ∅ (req_Session req ≫= Extra)) as Ha
    by (by destruct (req_Session req)).
  assert (default ∅ id !! k =
          default ∅ (s ← req_Session req; d ← Default s; Claims d) !! k) as Hi.
  { subst id. destruct (req_Session req) as [s|]; [|done]. cbn.
    destruct (Default s) as [d|]; [|done]. apply IDTokenClaims_lookup. }
  rewrite <- Ha, <- Hi.
  destruct (newHookResponse_lookup (hctx_Groups hctx) access id k) as [<- <-].
  case_decide as Ht; cbn.
  - destruct (decide (k = "tenant_id"%string)) as [->|Hk].
    + rewrite !lookup_insert_eq. by rewrite !decide_True by done.
    + rewrite !lookup_insert_ne by done. by rewrite !decide_False by naive_solver.
  - by rewrite !decide_False by tauto.
Qed.
End token.

Section endpoint.
Context {S T : Type} `{!Engine S} `{!AuthorizerOps T} {VT : TenantValidator} `{!Hydra}
  `{!GoRange}.

Lemma handleHydraHook_not_401 clients e body (st : S * T) :
  (handleHydraHook clients e body st).1 ≠ Replied (mkHttp 401 None).
Proof.
  unfold handleHydraHook. destruct body as [b|]; [|done].
  destruct (Unmarshal b) as [req|]; [|done].
  destruct (Service.ProcessRequest _ _ _ _ _) as [[[h|]|er] st1]; [done..|].
  assert (error_status er ≠ 401) by (unfold error_status; by repeat case_match).
  destruct er; by intros [= ?].
Qed.

(** The endpoint is guarded when a token is configured: exactly the requests
    whose Authorization header is not that token get 401, and they do not reach
    the hook; every other request is the hook's. *)
Theorem hook_endpoint_guarded token authorization clients e body (st st' : S * T) a :
  hook_endpoint clients token authorization e body st = (a, st') →
  (a = Replied (mkHttp 401 None) ↔
     token ≠ ""%string ∧ head authorization ≠ Some token) ∧
  (a = Replied (mkHttp 401 None) → st' = st) ∧
  (a ≠ Replied (mkHttp 401 None) → handleHydraHook clients e body st = (a, st')).
Proof.
  pose proof (handleHydraHook_not_401 clients e body st) as Hn.
  unfold hook_endpoint, AuthMiddleware. case_decide as Ht.
  - case_decide as Ha; intros Hx.
    + rewrite Hx in Hn. cbn in Hn. split_and!; [|done..]. split; [done|].
      intros [_ Hh]. destruct authorization; cbn in *; [done|by subst].
    + simplify_eq. split_and!; [|done..]. split; [|done]. intros _. split; [done|].
      destruct authorization; cbn in *; [done|]. by intros [= ->].
  - intros Hx. rewrite Hx in Hn. cbn in Hn. split_and!; [|done..].
    split; [done|]. by intros [? _].
Qed.
End endpoint.

(** The fates cover what the pool does: once a job's [wg.Done] has happened in
    a reachable state of the pool, its channel holds what the job's command sends
    under one of the fates, which is the one without a shutdown when nothing has
    shut the pool down and no command panics. *)
Theorem pool_serves_hook {V} n acc (p : WorkerPool (V:=V)) j (o : outcome V) :
  Pool.reachable n acc p → j ∈ acc → job_command j = CFuncAny o → job_id j ∈ dones p →
  ∃ shut, (Pool.shutdown p = false → (∀ j', j' ∈ acc → ¬ panics j') → shut = false) ∧
    ∀ v, (job_id j, PValue v) ∈ results p ↔ received shut o = Some v.
Proof.
  intros Hr Hj Hc Hd. pose proof (reachable_ok _ _ _ Hr) as Hp.
  assert (∀ v, (job_id j, v) ∈ results p → execute false j = (Some v, false)) as Hres.
  { intros v Hv. destruct (ok_results _ _ _ Hp _ _ Hv) as (_&j'&Hj'&Hid&Hx).
    by rewrite <- (NoDup_fmap_inj_on job_id acc j' j (ok_nodup _ _ _ Hp) Hj' Hj Hid). }
  unfold execute in Hres. rewrite Hc in Hres.
  destruct (decide (job_id j ∈ (results p).*1)) as [Hin|Hnin].
  - exists false. split; [done|]. apply list_elem_of_fmap in Hin as ([i w]&Hi&Hw).
    cbn in Hi. subst i. pose proof (Hres _ Hw) as Hx. intros v. split.
    + intros Hv%Hres. destruct o; cbn in Hv |- *; by simplify_eq.
    + destruct o; cbn; intros; simplify_eq. by simplify_eq/=.
  - exists true. split.
    + intros Hs Hacc. destruct Hnin.
      assert (∀ j', j' ∈ acc → (execute false j').2 = false) as Hacc'
        by (intros; apply execute_panics; auto).
      destruct (reachable_undisturbed _ _ _ Hr Hs Hacc') as [_ Hsent].
      specialize (Hacc j Hj). specialize (Hsent j).
      destruct o as [v|]; [|destruct Hacc; by right].
      apply (list_elem_of_fmap_2 fst _ (job_id j, PValue v)), Hsent; [done..|].
      unfold execute. by rewrite Hc.
    + intros v. split; [|done]. intros Hv. destruct Hnin.
      by apply (list_elem_of_fmap_2 fst) in Hv.
Qed.

(** ** Examples *)

Module Witnesses.
Import TestParams StorageSpec.Witnesses TestServer Groups.Witnesses.
Local Open Scope string_scope.

(** The user u of d0, who logs in to grafana for the tenant acme. *)
Definition req0 : TokenHookRequest :=
  mkTokenHookRequest
    (Some (mkSession
             (Some (mkDefaultSession "kratos-1" (Some {["email" := JString "u"]})))
             (Some {["_tenant_id" := JString "acme"]})))
    (mkRequest "grafana" ["authorization_code"] []).

(** A service account without audience whose session names a group. *)
Definition req1 : TokenHookRequest :=
  mkTokenHookRequest
    (Some (mkSession None (Some {["groups" := JArray [JString "admin"]]})))
    (mkRequest "robot" ["client_credentials"] []).

#[export] Instance test_hydra : Hydra := {|
  IDTokenClaims := Claims;
  NewConsentRequestSessionData := mkSessionData ∅ ∅;
  Unmarshal b := if decide (b = "user") then Ok req0
                 else if decide (b = "robot") then Ok req1
                 else Err (EText "unexpected end of JSON input");
|}.

#[export] Instance test_hydra_laws : HydraLaws.
Proof. split; auto. Qed.

Definition acme : TenantValidator := client_validator (λ _, Ok (Some ["acme"])).
Definition nobody : TenantValidator := client_validator (λ _, Ok (Some [])).
Definition served : pool_fates := mkFates (Taken false) (Taken false).

Abbreviation hook V := (handleHydraHook (S:=database) (T:=server) (VT:=V) groupClients).

(** The group a1 as the storage returns it. *)
Definition staff : Group := mkGroup "a1" "staff" "default" "" 0 0 0.

Lemma hook_sound_witness :
  let answer0 := Some (composeTokenResponse req0 (mkHookContext [staff] "acme")) in
  hook acme served (Ok "user") (d0, t0) = (Replied (mkHttp 200 answer0), (d0, t0)) ∧
  view d0 = view d0 ∧ ∃ b req, Ok "user" = Ok b ∧ Unmarshal b = Ok req ∧
    entitled_by (view d0) (StorageSpec.allowed d0) req ∧
    (extractTenantID req = "" ∨ tenant_fate served = Taken true ∨
     ValidateMembership (TenantValidator:=acme) (SubjectId (NewUserFromHookRequest req))
       (extractTenantID req) = None).
Proof.
  intros answer0. split; [vm_compute; reflexivity|].
  refine (hook_sound (S:=database) (T:=server) (VT:=acme) served (Ok "user") d0 t0
            (StorageSpec.allowed d0) answer0 d0 t0 d0_wf d0_t0_synced _).
  vm_compute. reflexivity.
Defined.

Lemma hook_decides_witness :
  (true = true ↔ entitled_by (view d0) (StorageSpec.allowed d0) req0) ∧
  ∃ w st', hook acme served (Ok "user") (d0, t0) = (Replied w, st') ∧
    StatusCode w = expected_status true None.
Proof.
  refine (hook_decides (S:=database) (T:=server) (VT:=acme) "user" req0
    [staff] d0 d0 t0 (StorageSpec.allowed d0) true t0
    d0_wf d0_t0_synced _ _ _ _ _); vm_compute; try reflexivity; discriminate.
Defined.

Lemma hook_answers_witness :
  let e := mkFates (Taken true) (Taken true) in
  let a := (hook acme e (Ok "user") (d0, t0)).1 in
  (a = NoReply ↔ groups_fate e ≠ Full ∧
     (groups_fate e = Waiting ∨ ("acme" ≠ "" ∧ tenant_fate e = Waiting))) ∧
  (a ≠ NoReply → a = Replied (mkHttp 429 None) ↔
     groups_fate e = Full ∨ ("acme" ≠ "" ∧ tenant_fate e = Full) ∨
     no_groups (S:=database) groupClients e (NewUserFromHookRequest req0) d0).
Proof.
  intros e a.
  refine (hook_answers (S:=database) (T:=server) (VT:=acme) groupClients e "user" req0 d0 t0 a
    (hook acme e (Ok "user") (d0, t0)).2 eq_refl _).
  vm_compute. reflexivity.
Defined.

(** Nobody is a member of acme, and yet the token names it. *)
Lemma shutdown_skips_tenant_check_witness :
  let e := mkFates (Taken false) (Taken true) in
  hook nobody e (Ok "user") (d0, t0) = hook noop_validator e (Ok "user") (d0, t0).
Proof. 
  intros e.
  exact (shutdown_skips_tenant_check (S:=database) (T:=server) nobody groupClients
           e (Ok "user") (d0, t0) eq_refl).
Defined.

Lemma tenant_check_fails_open :
  match (hook nobody (mkFates (Taken false) (Taken true)) (Ok "user") (d0, t0)).1 with
  | Replied (mkHttp 200 (Some data)) =>
      AccessToken data !! "tenant_id" = Some (JString "acme")
  | _ => False
  end.
Proof. vm_compute. reflexivity. Qed.

Lemma composeTokenResponse_spec_witness :
  ∃ names, NoDup names ∧ (∀ x, x ∈ names ↔ x ∈ Name <$> []) ∧
    ∀ k, AccessToken (composeTokenResponse req1 (mkHookContext [] "")) !! k =
           claim (mkHookContext [] "") names k (session_extra req1 !! k) ∧
         IDToken (composeTokenResponse req1 (mkHookContext [] "")) !! k =
           claim (mkHookContext [] "") names k (id_token_extra req1 !! k).
Proof. exact (composeTokenResponse_spec req1 (mkHookContext [] "")). Defined.

(** A user without groups keeps the groups claim of an earlier token. *)
Lemma stale_groups_claim :
  match (hook acme served (Ok "robot") (d0, t0)).1 with
  | Replied (mkHttp 200 (Some data)) =>
      AccessToken data !! "groups" = Some (JArray [JString "admin"])
  | _ => False
  end.
Proof. vm_compute. reflexivity. Qed.

Lemma hook_endpoint_guarded_witness :
  let a := Replied (mkHttp 401 None) in
  (a = Replied (mkHttp 401 None) ↔ "secret" ≠ "" ∧ head ["guess"] ≠ Some "secret") ∧
  (a = Replied (mkHttp 401 None) → (d0, t0) = (d0, t0)) ∧
  (a ≠ Replied (mkHttp 401 None) → hook acme served (Ok "user") (d0, t0) = (a, (d0, t0))).
Proof.
  intros a.
  refine (hook_endpoint_guarded (S:=database) (T:=server) (VT:=acme) "secret" ["guess"] groupClients served (Ok "user")
            (d0, t0) (d0, t0) a _).
  vm_compute. reflexivity.
Defined.

Lemma pool_serves_hook_witness :
  ∃ shut, (Pool.shutdown Pool.Witnesses.after_job1 = false →
      (∀ j', j' ∈ [Pool.Witnesses.job1] → ¬ panics j') → shut = false) ∧
    ∀ v : Z, (1%nat, PValue v) ∈ results Pool.Witnesses.after_job1 ↔
    received shut (Returns 42%Z) = Some v.
Proof.
  refine (pool_serves_hook 1 [Pool.Witnesses.job1] Pool.Witnesses.after_job1
    Pool.Witnesses.job1 (Returns 42%Z) Pool.Witnesses.after_job1_reachable _ _ _);
    [constructor|reflexivity|constructor].
Defined.
End Witnesses.
