(* ===== verification/Concurrent.v ===== *)
(** * The hook among other sessions

    The theorems of [Hooks] take the two stores as they are when the hook starts.  Here
    other requests work in between: before each statement, and before each call of the
    authorizer, any number of them may commit what they like ([session]).  The hook asks
    PostgreSQL for the groups of the user and then OpenFGA about these groups; what its
    answer means is a fact about those two moments ([hook_sound_interleaved]), and not
    about any single one ([never_entitled_yet_served]). *)

From S2P Require Import Prelude Errors Types Sql Storage StorageSpec Authorizer Grpc Groups AppAuthz Pool Tenants Hooks.
Open Scope Z_scope.

(** A store, and what the others do to it before each of our accesses in turn; after
    the last entry they are quiet. *)
Definition session (A : Type) : Type := A * list (A → A).

(** The store at our next access. *)
Definition moment {A} (s : session A) : A :=
  match s.2 with others :: _ => others s.1 | [] => s.1 end.

(** One access. *)
Definition access {A R} (op : A → R * A) (s : session A) : R * session A :=
  let '(r, a) := op (moment s) in (r, (a, tail s.2)).

Section interleaved.
Context `{!PgParams} {T : Type} `{!AuthorizerOps T}.

(** A connection among others: each statement is one access. *)
#[export] Instance session_engine : Engine (session database) := {|
  exec st := access (exec st);
  view s := moment s;
|}.

(** An authorizer among others: each call is one access. *)
#[export] Instance session_authorizer : AuthorizerOps (session T) := {|
  authz_AddAllowedAppToGroup g c := access (authz_AddAllowedAppToGroup g c);
  authz_RemoveAllowedAppFromGroup g c := access (authz_RemoveAllowedAppFromGroup g c);
  authz_RemoveAllAllowedAppsFromGroup g := access (authz_RemoveAllAllowedAppsFromGroup g);
  authz_RemoveAllAllowedGroupsForApp c := access (authz_RemoveAllAllowedGroupsForApp c);
  authz_DeleteGroup g := access (authz_DeleteGroup g);
  authz_CanAccess u c gs := access (authz_CanAccess u c gs);
  authz_BatchCanAccess u cs gs := access (authz_BatchCanAccess u cs gs);
|}.
End interleaved.

(** ** What an answer means *)

Section interleaved_hook.
Context {T : Type} `{PgLaws} `{AuthorizerLaws T} {VT : TenantValidator} `{!Hydra} `{!GoRange}.

Lemma access_inv {A R} (op : A → R * A) s r s' :
  access op s = (r, s') → ∃ a, op (moment s) = (r, a).
Proof. unfold access. destruct (op (moment s)) as [r0 a]. intros [= <- _]. by exists a. Qed.

(** The groups are read in one access. *)
Lemma FetchUserGroups_session user (sd : session database) gs sd' :
  Service.FetchUserGroups (S:=session database) groupClients user sd = (Ok gs, sd') →
  ∃ d', Service.FetchUserGroups (S:=database) groupClients user (moment sd) = (Ok gs, d').
Proof.
  unfold Service.FetchUserGroups, groupClients; cbn [Service.fetch_all].
  unfold StorageHookGroupsClient.FetchUserGroups, GetGroupsForUser, QueryContext.
  case_decide; [intros [= <- _]; by eexists|].
  cbv [mbind M_bind mret M_ret]. cbn [exec session_engine].
  unfold map_err, access.
  destruct (exec _ (moment sd)) as [[[rows|n]|er] d'].
  - cbv [lift]. destruct (scan_rows _ _ rows); [|done]. intros [= <- _]. by eexists.
  - cbv [lift]. cbn. intros [= <- _]. by eexists.
  - done.
Qed.

(** The check is one access, or none. *)
Lemma AuthorizeRequest_session user req gs (st : session T) b st' :
  Service.AuthorizeRequest (T:=session T) user req gs st = (Ok b, st') →
  ∃ t', Service.AuthorizeRequest (T:=T) user req gs (moment st) = (Ok b, t').
Proof.
  unfold Service.AuthorizeRequest.
  case_match; [apply access_inv|]. case_decide; [apply access_inv|].
  intros [= <- _]. by eexists.
Qed.

(** C6: whatever other requests do meanwhile, an answer of 200 means that at the
    moment the hook read the user's groups the user was in a group, and at the moment it
    asked OpenFGA that group was granted the client (a service account: for every
    application of the audience); and the tenant was validated as without the others. *)
Theorem hook_sound_interleaved e body (sd : session database) (st : session T) A body' sd' st' :
  wf (moment sd) → granted (moment st) A →
  handleHydraHook (S:=session database) (T:=session T) groupClients e body (sd, st) =
    (Replied (mkHttp 200 body'), (sd', st')) →
  ∃ b req, body = Ok b ∧ Unmarshal b = Ok req ∧ entitled_by (moment sd) A req ∧
    (extractTenantID req = ""%string ∨ tenant_fate e = Taken true ∨
     ValidateMembership (SubjectId (NewUserFromHookRequest req)) (extractTenantID req) = None).
Proof.
  intros Hwf Hg (b&req&hctx&->&Hu&Hp&->)%handleHydraHook_200.
  apply ProcessRequest_ok in Hp as (_&Hw%waitTenant_passed&Hd).
  apply decide_request_ok in Hd as (_&_&gs&s1&Hf&Ha&_&_). cbn [fst snd] in Hf, Ha.
  apply FetchUserGroups_session in Hf as [d' Hf]. apply AuthorizeRequest_session in Ha as [t' Ha].
  apply (FetchUserGroups_outcome (S:=database)) in Hf as [_ Hin]; [|done].
  exists b, req. split_and!; [done..| |tauto].
  by eapply (AuthorizeRequest_by _ _ _ _ _ _ _ _ Hg (Hin gs eq_refl)).
Qed.
End interleaved_hook.

(** ** A token for a user who was never entitled to it *)

Module Witnesses.
Import TestParams StorageSpec.Witnesses TestServer Groups.Witnesses Hooks.Witnesses.
Local Open Scope string_scope.

(** The timeline: u is in staff, which may not use grafana; u leaves staff; staff is
    allowed grafana.  The stores agree throughout. *)
Definition world0 : database := (RemoveAllowedApp "a1" "grafana" d0).2.
Definition server0 : server := mkServer [] [].
Definition world1 : database := (Storage.RemoveUsersFromGroup "a1" ["u"] world0).2.
Definition final : database * server :=
  (AppAuthz.Service.AddAllowedAppToGroup (S:=database) (T:=server) 9 "a1" "grafana" (world1, server0)).2.

Lemma not_entitled w :
  set_Forall (λ k, k.2 = "u" → (k.1, "grafana") ∉ allowed w) (memberships w) →
  ¬ entitled w req0.
Proof. intros Hf (g&Hm&Ha). by apply (Hf (g, "u") Hm). Qed.

(** The hook reads the groups before u leaves and asks OpenFGA after the grant. *)
Definition interleaved : reply :=
  (handleHydraHook (S:=session database) (T:=session server) (VT:=acme) groupClients served (Ok "user")
     ((world0, []), (server0, [λ _, final.2]))).1.

Lemma never_entitled_yet_served :
  Forall (λ w, ¬ entitled w req0) [world0; world1; final.1] ∧
  synced (S:=database) (T:=server) (world0, server0) ∧ synced (S:=database) (T:=server) final ∧
  match interleaved with Replied w => StatusCode w = 200%Z | _ => False end.
Proof.
  split_and!.
  - repeat constructor; apply not_entitled; apply (bool_decide_unpack _); vm_compute; exact Logic.I.
  - change (tuples server0 = grant_tuples (allowed world0)). compute_done.
  - change (tuples final.2 = grant_tuples (allowed final.1)). compute_done.
  - vm_compute. reflexivity.
Qed.

(** u is in staff, staff may use grafana; another group is deleted meanwhile. *)
Lemma hook_sound_interleaved_witness :
  let others := calls [CDeleteGroup "b2"] in
  let sd : session database := (d0, [others]) in
  let st : session server := (t0, []) in
  let out := handleHydraHook (S:=session database) (T:=session server) (VT:=acme) groupClients
               served (Ok "user") (sd, st) in
  ∃ b req, Ok "user" = Ok b ∧ Unmarshal b = Ok req ∧ entitled_by (moment sd) (allowed d0) req ∧
    (extractTenantID req = "" ∨ tenant_fate served = Taken true ∨
     ValidateMembership (TenantValidator:=acme) (SubjectId (NewUserFromHookRequest req))
       (extractTenantID req) = None).
Proof.
  intros others sd st out.
  assert (out = (Replied (mkHttp 200 (Some (composeTokenResponse req0 (mkHookContext [staff] "acme")))),
                 (out.2.1, out.2.2))) as Hout by (vm_compute; reflexivity).
  assert (wf (moment sd)) as Hwf.
  { apply calls_wf, d0_wf. }
  refine (hook_sound_interleaved (T:=server) (VT:=acme) served (Ok "user") sd st (allowed d0) _ _ _
            Hwf d0_t0_synced Hout).
Defined.
End Witnesses.
