(* ===== verification/Importer.v ===== *)
(** * internal/importer: groups taken from an external directory

    [Run] adds what the driver reports, [Sync] makes the database agree with it
    (importer.go); the Salesforce driver turns team records into mappings
    (salesforce_driver.go).  The SOQL query of the Salesforce client is a
    parameter.

    The clock and the UUID generator are read once or not at all for each group:
    [clock name] and [uuid name] are what they give in the step of the group
    [name].  Where the code logs a failure and goes on, the step returns whether
    it succeeded. *)

From stdpp Require Import pretty.
From S2P Require Import Prelude Errors Types Sql Storage StorageSpec Authorizer Grpc Groups.
Open Scope Z_scope.

(** ** interfaces.go *)

Record UserGroupMapping := mkMapping { UserID : string; GroupName : string }.

Record DriverInterface := mkDriver {
  Prefix : string;
  FetchAllUserGroups : result (list UserGroupMapping);
}.

(** ** salesforce_driver.go *)

Module SalesforceDriver.
Definition allTeamMembersQuery : string :=
  "SELECT fHCM2__Email__c, Department2__c, fHCM2__Team__c FROM fHCM2__Team_Member__c".

Record TeamMemberRecord := mkRecord { Email : string; Department : string; Team : string }.

(** The body of the loop: the mappings appended for one record. *)
Definition record_mappings (r : TeamMemberRecord) : list UserGroupMapping :=
  if decide (Email r = "")%string then []
  else (if decide (Department r = "")%string then []
        else [mkMapping (Email r) (Department r)]) ++
       (if decide (Team r = "")%string then [] else [mkMapping (Email r) (Team r)]).

Definition FetchAllUserGroups (Query : string → result (list TeamMemberRecord))
    : result (list UserGroupMapping) :=
  match Query allTeamMembersQuery with
  | Err err => Err (errorf_w "failed to query salesforce team members" err)
  | Ok records => Ok (foldl (λ mappings r, mappings ++ record_mappings r) [] records)
  end.

Definition NewSalesforceDriver (Query : string → result (list TeamMemberRecord))
    : DriverInterface := mkDriver "salesforce" (FetchAllUserGroups Query).

Lemma foldl_app {A B} (f : A → list B) (l : list A) acc :
  foldl (λ k x, k ++ f x) acc l = acc ++ (l ≫= f).
Proof.
  revert acc. induction l as [|x l IH]; intros acc; cbn; [by rewrite app_nil_r|].
  by rewrite IH, app_assoc.
Qed.

(** The mappings are exactly the departments and teams of the records that
    have an e-mail address; no empty name is ever reported. *)
Theorem FetchAllUserGroups_spec Query :
  match FetchAllUserGroups Query with
  | Ok ms => ∃ records, Query allTeamMembersQuery = Ok records ∧
      ∀ u g, mkMapping u g ∈ ms ↔ u ≠ ""%string ∧ g ≠ ""%string ∧
        ∃ r, r ∈ records ∧ Email r = u ∧ (Department r = g ∨ Team r = g)
  | Err e => ∃ e', Query allTeamMembersQuery = Err e' ∧
      e = errorf_w "failed to query salesforce team members" e'
  end.
Proof.
  unfold FetchAllUserGroups. destruct (Query _) as [rs|e] eqn:Hq; [|by exists e].
  exists rs. split; [done|]. intros u g. rewrite foldl_app. cbn.
  rewrite list_elem_of_bind. unfold record_mappings. split.
  - intros (r&Hm&Hr). case_decide; [set_solver|].
    apply elem_of_app in Hm as [Hm|Hm]; case_decide; try set_solver;
      apply list_elem_of_singleton in Hm; simplify_eq; eauto 7.
  - intros (Hu&Hg&r&Hr&<-&Hn). exists r. split; [|done]. rewrite decide_False by done.
    destruct Hn as [<-|<-]; rewrite elem_of_app; [left|right];
      rewrite decide_False by done; set_solver.
Qed.
End SalesforceDriver.

(** ** importer.go *)

(** [groupUsers], [driverGroups]: the users of each prefixed group name. *)
Definition group_users (prefix : string) (mappings : list UserGroupMapping)
    : gmap string (list string) :=
  foldl (λ m x, let name := prefix +:+ ":" +:+ GroupName x in
                <[name := default [] (m !! name) ++ [UserID x]]> m) ∅ mappings.

(** [existingByName]. *)
Definition by_name (gs : list Group) : gmap string Group :=
  foldl (λ m g, <[Name g := g]> m) ∅ gs.

Definition new_group (name : string) : Group :=
  mkGroup "" name DefaultTenantID "" GroupTypeLocal time_zero time_zero.

Section importer.
Context {S T : Type} `{!Engine S} `{!AuthorizerOps T} `{GoRange}.
Context (clock : string → time) (uuid : string → result string).

(** [for name := range names { if !step(name) { failures++ } }] *)
Fixpoint each {St} (step : string → M St bool) (names : list string) : M St nat :=
  match names with
  | [] => mret 0%nat
  | name :: names =>
      b ← step name;
      n ← each step names;
      mret (if (b : bool) then n else Datatypes.S n)
  end.

(** [CreateGroup] and [AddUsersToGroup] of a group that is not there. *)
Definition create_with (name : string) (users : list string) : M S bool :=
  r ← attempt (CreateGroup (uuid name) (new_group name));
  match r with
  | Err _ => mret false
  | Ok group =>
      r ← attempt (AddUsersToGroup (clock name) (ID group) users);
      mret (is_ok r)
  end.

(** The body of the loop of [Run]. *)
Definition import_group (users : gmap string (list string)) (name : string) : M S bool :=
  let userIDs := default [] (users !! name) in
  r ← attempt (GetGroupByName name DefaultTenantID);
  match r with
  | Ok group =>
      r ← attempt (AddUsersToGroup (clock name) (ID group) userIDs);
      mret (is_ok r)
  | Err _ => create_with name userIDs
  end.

(** The result is the number of groups [Run] could not import, which it logs; it
    returns no error for them. *)
Definition Run (d : DriverInterface) : M S nat :=
  match FetchAllUserGroups d with
  | Err err => fail (errorf_w "failed to fetch user groups from driver" err)
  | Ok mappings =>
      let users := group_users (Prefix d) mappings in
      each (import_group users) (map_keys (dom users))
  end.

(** The bodies of the two loops of [Sync]. *)
Definition reconcile_group (users : gmap string (list string))
    (existing : gmap string Group) (name : string) : M S bool :=
  let userIDs := default [] (users !! name) in
  match existing !! name with
  | Some g =>
      r ← attempt (SyncGroupMembers (clock name) (ID g) userIDs);
      mret (is_ok r)
  | None => create_with name userIDs
  end.

Definition delete_stale (users : gmap string (list string))
    (existing : gmap string Group) (name : string) : M (S * T) bool :=
  match existing !! name with
  | None => mret true
  | Some g =>
      if decide (is_Some (users !! name)) then mret true
      else
        r ← attempt (on_db (Storage.DeleteGroup (ID g)));
        match r with
        | Err _ => mret false
        | Ok _ =>
            r ← attempt (on_authz (authz_DeleteGroup (ID g)));
            mret (is_ok r)
        end
  end.

Definition Sync (d : DriverInterface) : M (S * T) unit :=
  match FetchAllUserGroups d with
  | Err err => fail (errorf_w "failed to fetch user groups from driver" err)
  | Ok mappings =>
      let users := group_users (Prefix d) mappings in
      gs ← map_err (errorf_v "failed to list existing groups by prefix")
        (on_db (ListGroupsByPrefix (Prefix d +:+ ":") DefaultTenantID));
      let existing := by_name gs in
      failures ← on_db (each (reconcile_group users existing) (map_keys (dom users)));
      failures' ← each (delete_stale users existing) (map_keys (dom existing));
      let failures := (failures + failures')%nat in
      if decide (0 < failures)%nat
      then fail (EText ("sync completed with " +:+ pretty (N.of_nat failures) +:+
                        " failure(s); see logs for details"))
      else mret tt
  end.
End importer.

(** ** Facts about the storage operations [Run] and [Sync] use *)

Section operations.
Context {S : Type} `{EngineLaws S} `{!PgLaws} `{GoRangeLaws}.
Implicit Types (s : S) (w : database).

Lemma GetGroupByName_outcome name tenant s r s' :
  wf (view s) → GetGroupByName name tenant s = (r, s') →
  view s' = view s ∧ ∀ g, r = Ok g → ∃ x, x ∈ groups (view s) ∧
    guniq x = (or_default_tenant tenant, name) ∧ g = group_of x.
Proof.
  intros Hwf Hr. unfold GetGroupByName in Hr.
  assert (∃ r0, QueryRowContext scanGroup
    (Select FromGroups group_columns
       [PEq (Col c_name) name; PEq (Col c_tenant_id) (or_default_tenant tenant)] None) s
    = (r0, s') ∧ ∀ g, r = Ok g → r0 = Ok g) as (r0&Hq&Hok).
  { apply map_err_inv in Hr as [(g&->&Hr)|(e&->&Hr)]; eauto. eexists. by split. }
  unfold QueryRowContext in Hq.
  apply bind_inv in Hq as [(e&->&Hx)|(rs&s1&Hx&Hq)].
  { split; [|by intros g Hg%Hok].
    apply QueryContext_inv in Hx as [(?&?&?&?)|(?&?&?&_)]; done. }
  assert (view s' = view s1 ∧ ∀ g, r = Ok g → ∃ row rest, rs = row :: rest ∧
    scanGroup row = Ok g) as [Hv Hrow].
  { destruct rs as [|row rs]; cbv [fail lift] in Hq; simplify_eq;
      (split; [done|]); intros g Hg; specialize (Hok g Hg); eauto; done. }
  apply QueryContext_inv in Hx as [(now&q&Hx&Hrs)|(?&?&?&_)]; [|done].
  apply run_select_inv in Hx as (Hv1&w'&Hw&->). rewrite Hv, Hv1. split; [done|].
  assert (rs = project group_columns <$> select_rows FromGroups w' None (view s))
    as -> by congruence. clear Hrs Hq.
  intros g Hg. destruct (Hrow g Hg) as (row&rest&Hrows&Hscan). bind_inv.
  unfold select_rows, order_by, source_rows in Hrows.
  rewrite filter_map, <- list_fmap_compose in Hrows.
  assert (∃ x, x ∈ filter (λ x, holds_all (plain (group_column x))
      [PEq (Col c_name) name; PEq (Col c_tenant_id) (or_default_tenant tenant)])
      (groups (view s)) ∧ row = project group_columns (plain (group_column x))) as (x&Hx&->).
  { destruct (filter _ (groups (view s))) as [|x l]; [done|].
    exists x. split; [set_solver|]. by injection Hrows as <- _. }
  apply list_elem_of_filter in Hx as [Hx Hin].
  rewrite Is_true_true, !holds_all_cons in Hx.
  rewrite (holds_eq _ _ _ (gr_name x)), (holds_eq _ _ _ (gr_tenant x)) in Hx by done.
  destruct Hx as (<-&<-&_). exists x. split; [done|]. split; [done|].
  assert (complete x) as Hc by (by eapply wf_complete).
  pose proof (scan_group_row x Hc) as Hs. congruence.
Qed.
End operations.

(** ** A database, group by group

    A group is known by its tenant and name; [has w k g]: it has the row [g]. *)

Definition has (w : database) (k : string * string) (g : group_row) : Prop :=
  g ∈ groups w ∧ guniq g = k.

(** The group [k] is the same in both: its row, its members and its applications. *)
Definition same (k : string * string) (w w' : database) : Prop :=
  (∀ g, has w' k g ↔ has w k g) ∧
  ∀ g x, has w k g →
    ((gr_id g, x) ∈ memberships w' ↔ (gr_id g, x) ∈ memberships w) ∧
    ((gr_id g, x) ∈ allowed w' ↔ (gr_id g, x) ∈ allowed w).

#[export] Instance same_preorder k : PreOrder (same k).
Proof.
  split; unfold same; [done|]. intros w1 w2 w3 [H1 H2] [H3 H4]. split.
  - intros g. by rewrite H3, H1.
  - intros g x Hg. assert (has w2 k g) as Hg2 by by apply H1.
    destruct (H2 g x Hg) as [<- <-]. by apply H4.
Qed.

(** No two groups, whatever their tenants, share an id, and ids are spelled the
    way the database spells them. *)
Record good `{PgParams} (w : database) : Prop := {
  good_wf : wf w;
  good_ids : NoDup (gr_id <$> groups w);
  good_id g : g ∈ groups w → uuid_in (gr_id g) = Some (gr_id g) ∧ gr_id g ≠ ""%string;
}.

(** The UUIDs that are generated are new and differ from each other. *)
Record supply_ok `{PgParams} (uuid : string → result string) (w : database) : Prop := {
  supply_new name id c : uuid name = Ok id → uuid_in id = Some c →
    c ≠ ""%string ∧ (c ∉ gr_id <$> groups w);
  supply_inj n n' i i' c : uuid n = Ok i → uuid n' = Ok i' →
    uuid_in i = Some c → uuid_in i' = Some c → n = n';
}.

Section by_group.
Context `{PgLaws}.
Implicit Types (w : database).

Lemma has_inj w k k' g g' :
  good w → has w k g → has w k' g' → gr_id g = gr_id g' → g = g' ∧ k = k'.
Proof.
  intros Hw [Hg <-] [Hg' <-] He.
  by rewrite (NoDup_fmap_inj_on _ _ _ _ (good_ids w Hw) Hg Hg' He).
Qed.

Lemma has_fun w k g g' : wf w → has w k g → has w k g' → g = g'.
Proof.
  intros Hw [Hg Hk] [Hg' Hk'].
  apply (NoDup_fmap_inj_on _ _ _ _ (wf_guniq w Hw) Hg Hg'). congruence.
Qed.

Lemma member_known w gid u :
  wf w → (gid, u) ∈ memberships w → gid ∈ gr_id <$> groups w.
Proof.
  intros Hw Hm. apply elem_of_list_to_set, list_elem_of_fmap in Hm as (row&Hk&Hrow).
  apply (wf_mfk _ Hw), list_elem_of_fmap in Hrow as (g&Hg&Hin).
  apply list_elem_of_fmap. exists g. unfold mfk, gkey, mkey in *. split; [congruence|done].
Qed.

(** What a step for the group [name] may do. *)
Record changes (uuid : string → result string) (name : string) (w w' : database) : Prop := {
  ch_good : good w';
  ch_ids c : c ∈ gr_id <$> groups w' →
    c ∈ gr_id <$> groups w ∨ ∃ id, uuid name = Ok id ∧ uuid_in id = Some c;
  ch_same k : k ≠ (DefaultTenantID, name) → same k w w';
  ch_keep g : has w (DefaultTenantID, name) g → has w' (DefaultTenantID, name) g;
  ch_allowed : allowed w' = allowed w;
}.

Lemma changes_refl uuid name w : good w → changes uuid name w w.
Proof. intros Hw. split; auto. intros k _. reflexivity. Qed.

Lemma changes_trans uuid name w1 w2 w3 :
  changes uuid name w1 w2 → changes uuid name w2 w3 → changes uuid name w1 w3.
Proof.
  intros H1 H2. split.
  - apply H2.
  - intros c [?|?]%(ch_ids _ _ _ _ H2); [by apply (ch_ids _ _ _ _ H1)|by right].
  - intros k Hk. etrans; [by apply (ch_same _ _ _ _ H1)|by apply (ch_same _ _ _ _ H2)].
  - intros g Hg. by apply (ch_keep _ _ _ _ H2), (ch_keep _ _ _ _ H1).
  - etrans; [apply H2|apply H1].
Qed.

Lemma members_changes uuid name w w' g :
  good w → wf w' → same_but_members w w' → has w (DefaultTenantID, name) g →
  (∀ i x, i ≠ gr_id g → (i, x) ∈ memberships w' ↔ (i, x) ∈ memberships w) →
  changes uuid name w w'.
Proof.
  intros Hw Hw' [Hg Ha] Hname Hm.
  assert (∀ k g', has w' k g' ↔ has w k g') as Hhas by (intros; unfold has; by rewrite Hg).
  assert (allowed w' = allowed w) as Hal by (unfold allowed; by rewrite Ha).
  split.
  - split; [done|rewrite Hg; apply Hw|rewrite Hg; apply Hw].
  - rewrite Hg. auto.
  - intros k Hk. split; [apply Hhas|]. intros g' x Hg'. rewrite Hal. split; [|done].
    apply Hm. intros He. destruct Hk. by eapply has_inj.
  - intros g'. by rewrite Hhas.
  - done.
Qed.
End by_group.

(** ** The steps *)

Section steps.
Context {S : Type} `{EngineLaws S} `{!PgLaws} `{GoRangeLaws}.
Context (clock : string → time) (uuid : string → result string).
Implicit Types (s : S) (w : database).

Abbreviation key name := (DefaultTenantID, name) (only parsing).

(** The members a step leaves the group [name] with are those of [P]. *)
Definition members_are (name : string) (P : database → group_row → string → Prop)
    (w w' : database) : Prop :=
  ∃ g, has w' (key name) g ∧ ∀ u, (gr_id g, u) ∈ memberships w' ↔ P w g u.

(** With the members it had before, or none when it is new. *)
Definition with_users (name : string) (users : list string)
    : database → group_row → string → Prop := λ w g u,
  (has w (key name) g ∧ (gr_id g, u) ∈ memberships w) ∨ u ∈ users.
Definition exactly (users : list string) : database → group_row → string → Prop :=
  λ _ _ u, u ∈ users.

(** The id a new group would get is not taken. *)
Definition fresh_id (name : string) (w : database) : Prop := ∀ id c,
  uuid name = Ok id → uuid_in id = Some c → c ≠ ""%string ∧ (c ∉ gr_id <$> groups w).

Lemma AddUsers_changes name g id us s r s' :
  good (view s) → has (view s) (key name) g → uuid_in id = Some (gr_id g) →
  AddUsersToGroup (clock name) id us s = (r, s') →
  changes uuid name (view s) (view s') ∧
  (is_ok r = true → ∀ u, (gr_id g, u) ∈ memberships (view s') ↔
     (gr_id g, u) ∈ memberships (view s) ∨ u ∈ us).
Proof.
  intros Hw Hg Hid Hx.
  assert (wf (view s')) as Hw'.
  { pose proof (after_wf (CAddUsersToGroup (clock name) id us) s (good_wf _ Hw)) as Hwf.
    cbn in Hwf. by rewrite Hx in Hwf. }
  apply AddUsersToGroup_outcome in Hx. destruct r as [[]|e].
  - destruct Hx as [[-> ->]|(g'&?&Hm&Hs)].
    + split; [by apply changes_refl|set_solver].
    + simplify_eq. split.
      * eapply members_changes; [done..|]. intros i x Hi. rewrite Hm, elem_of_union, elem_of_pairs.
        naive_solver.
      * intros _ u. rewrite Hm, elem_of_union, elem_of_pairs. naive_solver.
  - destruct Hx as [-> _]. by split; [apply changes_refl|].
Qed.

Lemma SyncMembers_changes name g us s r s' :
  good (view s) → has (view s) (key name) g →
  SyncGroupMembers (clock name) (gr_id g) us s = (r, s') →
  changes uuid name (view s) (view s') ∧
  (is_ok r = true → ∀ u, (gr_id g, u) ∈ memberships (view s') ↔ u ∈ us).
Proof.
  intros Hw Hg Hx.
  assert (wf (view s')) as Hw'.
  { pose proof (after_wf (CSyncGroupMembers (clock name) (gr_id g) us) s (good_wf _ Hw)) as Hwf.
    cbn in Hwf. by rewrite Hx in Hwf. }
  assert (uuid_in (gr_id g) = Some (gr_id g)) as Hid by (apply (good_id _ Hw), Hg).
  apply SyncGroupMembers_outcome in Hx. destruct r as [[]|e].
  - destruct Hx as (g'&?&Hm&Hs). simplify_eq. split.
    + eapply members_changes; [done..|]. intros i x Hi.
      rewrite Hm, elem_of_union, elem_of_pairs, elem_of_filter. cbn. naive_solver.
    + intros _ u. rewrite Hm, elem_of_union, elem_of_pairs, elem_of_filter. cbn. naive_solver.
  - destruct Hx as [->|(g'&?&Hm&Hs)]; simplify_eq; (split; [|done]); [by apply changes_refl|].
    eapply members_changes; [done..|]. intros i x Hi. rewrite Hm, elem_of_filter. cbn. naive_solver.
Qed.

Lemma CreateGroup_changes name s r s' :
  good (view s) → fresh_id name (view s) →
  CreateGroup (uuid name) (new_group name) s = (r, s') →
  changes uuid name (view s) (view s') ∧
  ∀ x, r = Ok x → ∃ g, has (view s') (key name) g ∧ uuid_in (ID x) = Some (gr_id g) ∧
    (∀ g', ¬ has (view s) (key name) g') ∧ ∀ u, ((gr_id g, u) ∉ memberships (view s')).
Proof.
  intros Hw Hfresh Hx. pose proof Hx as Hx0.
  destruct (uuid name) as [id|e] eqn:Huuid; cbn in Hx.
  2: { cbv [fail] in Hx. simplify_eq. by split; [apply changes_refl|]. }
  assert (wf (view s')) as Hw'.
  { pose proof (after_wf (CCreateGroup (Ok id) (new_group name)) s (good_wf _ Hw)) as Hwf.
    cbn in Hwf. by rewrite Hx in Hwf. }
  apply CreateGroup_outcome in Hx0. destruct r as [x|e].
  2: { destruct Hx0 as [-> _]. by split; [apply changes_refl|]. }
  destruct Hx0 as (c&now&Hc&Hg&Hm&Ha&->). cbn in Hg.
  destruct (Hfresh id c Huuid Hc) as [Hne Hnew].
  set (row := mkGroupRow c name DefaultTenantID (Some "") GroupTypeLocal (Some now) (Some now)) in *.
  assert (allowed (view s') = allowed (view s)) as Hal by (unfold allowed; by rewrite Ha).
  assert (memberships (view s') = memberships (view s)) as Hmem by (unfold memberships; by rewrite Hm).
  assert (∀ k g, has (view s') k g ↔ has (view s) k g ∨ (g = row ∧ k = key name)) as Hhas.
  { intros k g. unfold has. rewrite Hg, elem_of_app, list_elem_of_singleton. naive_solver. }
  split; [split|].
  - split; [done|rewrite Hg, fmap_app; apply NoDup_snoc; [apply Hw|done]|].
    intros g. rewrite Hg, elem_of_app, list_elem_of_singleton. intros [Hin| ->].
    + by apply (good_id _ Hw).
    + split; [by eapply uuid_in_canonical|done].
  - intros i. rewrite Hg, fmap_app, elem_of_app. intros [?|Hi]; [by left|right].
    apply list_elem_of_singleton in Hi as ->. eauto.
  - intros k Hk. split; [intros g; rewrite Hhas; naive_solver|]. intros g x _.
    by rewrite Hal, Hmem.
  - intros g Hin. apply Hhas. by left.
  - done.
  - intros ? [= <-]. exists row. split; [apply Hhas; by right|]. split; [done|]. split.
    + intros g' Hg'. assert (g' = row) as ->.
      { eapply (has_fun (view s') (key name)); [done| |]; apply Hhas; [by left|by right]. }
      destruct Hnew. apply list_elem_of_fmap. exists row. split; [done|apply Hg'].
    + intros u Hu. rewrite Hmem in Hu. apply member_known in Hu; [done|apply Hw].
Qed.

(** A step: it never fails itself, it reports whether it did what it should. *)
Definition step_law (step : string → M S bool) (pre : string → database → Prop)
    (P : string → database → group_row → string → Prop) : Prop :=
  ∀ name s r s', good (view s) → fresh_id name (view s) → pre name (view s) →
    step name s = (r, s') →
    ∃ b, r = Ok b ∧ changes uuid name (view s) (view s') ∧
      (b = true → members_are name (P name) (view s) (view s')).

Lemma create_with_law name us s r s' :
  good (view s) → fresh_id name (view s) → create_with clock uuid name us s = (r, s') →
  ∃ b, r = Ok b ∧ changes uuid name (view s) (view s') ∧
    (b = true → (∀ g, ¬ has (view s) (key name) g) ∧
                members_are name (exactly us) (view s) (view s')).
Proof.
  intros Hw Hf Hx. unfold create_with, attempt in Hx.
  cbv [mbind M_bind mret M_ret] in Hx.
  destruct (CreateGroup (uuid name) (new_group name) s) as [r1 s1] eqn:Hc.
  apply CreateGroup_changes in Hc as [Hch Hr]; [|done..].
  destruct r1 as [x|e]; [|simplify_eq; by exists false].
  destruct (AddUsersToGroup (clock name) (ID x) us s1) as [r2 s2] eqn:Ha. simplify_eq.
  destruct (Hr x eq_refl) as (g&Hg&Hid&Hno&Hnone).
  eapply (AddUsers_changes name g) in Ha as [Hch2 Hm]; [|apply Hch|done..].
  exists (is_ok r2). split; [done|]. split; [by eapply changes_trans|]. intros Hok.
  split; [done|]. exists g. split; [by apply (ch_keep _ _ _ _ Hch2)|]. intros u.
  rewrite (Hm Hok). unfold exactly. specialize (Hnone u). tauto.
Qed.

Lemma import_group_law users :
  step_law (import_group clock uuid users) (λ _ _, True)
    (λ name, with_users name (default [] (users !! name))).
Proof.
  intros name s r s' Hw Hf _ Hx. unfold import_group, attempt in Hx.
  cbv [mbind M_bind mret M_ret] in Hx.
  destruct (GetGroupByName name DefaultTenantID s) as [r1 s1] eqn:Hg.
  apply GetGroupByName_outcome in Hg as [Hv Hr]; [|apply Hw].
  destruct r1 as [x|e].
  - destruct (Hr x eq_refl) as (g&Hin&Hk&->).
    destruct (AddUsersToGroup (clock name) (ID (group_of g)) _ s1) as [r2 s2] eqn:Ha.
    simplify_eq. rewrite <- Hv in Hw, Hin.
    assert (has (view s1) (key name) g) as Hhas by done.
    eapply (AddUsers_changes name g) in Ha as [Hch Hm]; [|done..|by apply (good_id _ Hw)].
    exists (is_ok r2). rewrite <- Hv. split; [done|]. split; [done|]. intros Hok.
    exists g. split; [by apply (ch_keep _ _ _ _ Hch)|]. intros u. rewrite (Hm Hok).
    unfold with_users. tauto.
  - rewrite <- Hv in Hw, Hf. rewrite <- Hv.
    apply create_with_law in Hx as (b&->&Hch&Hm); [|done..]. exists b. split; [done|].
    split; [done|]. intros [Hno (g&Hg&Hu)]%Hm. exists g. split; [done|]. intros u.
    rewrite Hu. unfold exactly, with_users. naive_solver.
Qed.

(** [existingByName] agrees with the database about the group [name]. *)
Definition known (existing : gmap string Group) (name : string) (w : database) : Prop :=
  ∀ x, existing !! name = Some x → ∃ g, has w (key name) g ∧ ID x = gr_id g.

Lemma reconcile_group_law users existing :
  step_law (reconcile_group clock uuid users existing) (known existing)
    (λ name, exactly (default [] (users !! name))).
Proof.
  intros name s r s' Hw Hf Hk Hx. unfold reconcile_group, attempt in Hx.
  destruct (existing !! name) as [x|] eqn:He.
  - destruct (Hk x He) as (g&Hg&Hid). rewrite Hid in Hx.
    cbv [mbind M_bind mret M_ret] in Hx.
    destruct (SyncGroupMembers (clock name) (gr_id g) _ s) as [r1 s1] eqn:Hy. simplify_eq.
    eapply SyncMembers_changes in Hy as [Hch Hm]; [|done..].
    exists (is_ok r1). split; [done|]. split; [done|]. intros Hok. exists g.
    split; [by apply (ch_keep _ _ _ _ Hch)|]. by apply Hm.
  - apply create_with_law in Hx as (b&->&Hch&Hm); [|done..]. exists b. naive_solver.
Qed.

(** The state after the steps of [names]: other groups are as before; when no
    step failed, each name's step did its work on the group as it was at the
    start, and no later step undid it. *)
Definition after_steps (P : string → database → group_row → string → Prop)
    (names : list string) (n : nat) w w' : Prop :=
  good w' ∧ allowed w' = allowed w ∧
  (∀ k, (k.1 = DefaultTenantID → k.2 ∉ names) → same k w w') ∧
  (∀ name g, name ∈ names → has w (key name) g → has w' (key name) g) ∧
  (n = 0%nat → ∀ name, name ∈ names → ∃ w1 w2, same (key name) w w1 ∧
     members_are name (P name) w1 w2 ∧ good w2 ∧ same (key name) w2 w').

Lemma fresh_after name name' w w' :
  (∀ n n' i i' c, uuid n = Ok i → uuid n' = Ok i' →
     uuid_in i = Some c → uuid_in i' = Some c → n = n') →
  name ≠ name' → changes uuid name w w' → fresh_id name' w → fresh_id name' w'.
Proof.
  intros Hinj Hne Hch Hf id c Hu Hc. destruct (Hf id c Hu Hc) as [? Hn]. split; [done|].
  intros [?|(i&Hi&Hic)]%(ch_ids _ _ _ _ Hch); [done|]. destruct Hne. by eapply Hinj.
Qed.

Lemma each_law step pre P names s r s' :
  step_law step pre P →
  (∀ name name' w w', name ≠ name' → changes uuid name w w' → pre name' w → pre name' w') →
  (∀ n n' i i' c, uuid n = Ok i → uuid n' = Ok i' →
     uuid_in i = Some c → uuid_in i' = Some c → n = n') →
  NoDup names → good (view s) →
  (∀ name, name ∈ names → fresh_id name (view s) ∧ pre name (view s)) →
  each step names s = (r, s') →
  ∃ n, r = Ok n ∧ after_steps P names n (view s) (view s').
Proof.
  intros Hstep Hpre Hinj. revert s r s'.
  induction names as [|name names IH]; intros s r s' Hnd Hw Hnames Hx.
  { cbv in Hx. simplify_eq. exists 0%nat. split; [done|]. unfold after_steps.
    split_and!; [done|done| |set_solver|set_solver]. intros k _. reflexivity. }
  apply list.NoDup_cons in Hnd as [Hn Hnd]. cbn [each] in Hx.
  cbv [mbind M_bind mret M_ret] in Hx.
  destruct (step name s) as [r1 s1] eqn:Hs.
  destruct (Hnames name ltac:(set_solver)) as [Hf Hp].
  apply Hstep in Hs as (b&->&Hch&Hb); [|done..].
  destruct (each step names s1) as [r2 s2] eqn:He.
  apply IH in He as (n&->&Hg2&Hal2&Hsame2&Hkeep2&Hdone2); [|done|apply Hch|].
  2: { intros name' Hin. assert (name ≠ name') by set_solver.
       destruct (Hnames name' ltac:(set_solver)) as [Hf' Hp'].
       split; [by eapply fresh_after|by eapply Hpre]. }
  simplify_eq. eexists. split; [done|]. unfold after_steps. split_and!.
  - done.
  - rewrite Hal2. apply Hch.
  - intros k Hk. assert (same k (view s) (view s1)).
    { apply (ch_same _ _ _ _ Hch). intros ->. destruct (Hk eq_refl). cbn. set_solver. }
    assert (same k (view s1) (view s')) by (apply Hsame2; intros Hd; specialize (Hk Hd); set_solver).
    by etrans.
  - intros name' g [->|Hin]%elem_of_cons Hg.
    + apply (ch_keep _ _ _ _ Hch) in Hg. assert (same (key name) (view s1) (view s')) as [Hhas _].
      { apply Hsame2. done. }
      by apply Hhas.
    + apply Hkeep2; [done|]. assert (same (key name') (view s) (view s1)) as [Hhas _].
      { apply (ch_same _ _ _ _ Hch). intros [= ->]. done. }
      by apply Hhas.
  - intros Hn0 name' Hin. destruct b; [|done]. apply elem_of_cons in Hin as [->|Hin].
    + exists (view s), (view s1). split; [reflexivity|]. split; [by apply Hb|].
      split; [apply Hch|]. by apply Hsame2.
    + destruct (Hdone2 Hn0 name' Hin) as (w1&w2&H1'&H2'&H3'&H4').
      exists w1, w2. split_and!; [|done..]. etrans; [|exact H1'].
      apply (ch_same _ _ _ _ Hch). intros [= ->]. done.
Qed.
End steps.

(** ** What the driver reports *)

(** The user [u] belongs, by the driver, to the group the importer calls [name]. *)
Definition reported (prefix : string) (ms : list UserGroupMapping) (name u : string) : Prop :=
  ∃ g, name = prefix +:+ ":" +:+ g ∧ mkMapping u g ∈ ms.

Lemma group_users_snoc prefix ms m :
  group_users prefix (ms ++ [m]) =
  (let name := prefix +:+ ":" +:+ GroupName m in
   <[name := default [] (group_users prefix ms !! name) ++ [UserID m]]> (group_users prefix ms)).
Proof. unfold group_users. by rewrite foldl_app. Qed.

Lemma group_users_spec prefix ms name :
  (is_Some (group_users prefix ms !! name) ↔ ∃ u, reported prefix ms name u) ∧
  ∀ u, u ∈ default [] (group_users prefix ms !! name) ↔ reported prefix ms name u.
Proof.
  unfold reported. induction ms as [|m ms IH] using rev_ind.
  { cbn. rewrite lookup_empty. split; [split; [by intros []|intros (?&?&?&?); set_solver]|].
    intros u. cbn. split; [set_solver|intros (?&?&?); set_solver]. }
  rewrite group_users_snoc. cbn. destruct IH as [IH1 IH2].
  setoid_rewrite elem_of_app. setoid_rewrite list_elem_of_singleton.
  destruct m as [u0 g0]; cbn.
  destruct (decide (name = prefix +:+ ":" +:+ g0)) as [->|Hne].
  - rewrite lookup_insert_eq. split.
    + split; [|done]. intros _. exists u0, g0. auto.
    + intros u. cbn. rewrite elem_of_app, list_elem_of_singleton, IH2. split.
      * intros [(g&?&?)| ->]; [exists g; auto|exists g0; auto].
      * intros (g&?&[?|[= -> ->]]); [left; eauto|by right].
  - rewrite lookup_insert_ne by congruence. split.
    + rewrite IH1. split; intros (u&g&->&Hin); exists u, g; (split; [done|]); [by left|].
      destruct Hin as [?|[= -> ->]]; done.
    + intros u. rewrite IH2. split; intros (g&->&Hin); exists g; (split; [done|]); [by left|].
      destruct Hin as [?|[= -> ->]]; done.
Qed.

Lemma by_name_spec gs name x :
  by_name gs !! name = Some x → x ∈ gs ∧ Name x = name.
Proof.
  unfold by_name. induction gs as [|g gs IH] using rev_ind; [done|].
  rewrite foldl_app. cbn. destruct (decide (Name g = name)) as [<-|Hne].
  - rewrite lookup_insert_eq. intros [= <-]. set_solver.
  - rewrite lookup_insert_ne by done. intros [? ?]%IH. set_solver.
Qed.

Lemma by_name_some gs g : g ∈ gs → is_Some (by_name gs !! Name g).
Proof.
  unfold by_name. induction gs as [|g' gs IH] using rev_ind; [set_solver|].
  rewrite foldl_app. cbn. intros [Hin|Hin]%elem_of_app.
  - destruct (decide (Name g' = Name g)) as [->|]; [by rewrite lookup_insert_eq|].
    rewrite lookup_insert_ne by done. by apply IH.
  - apply list_elem_of_singleton in Hin as ->. by rewrite lookup_insert_eq.
Qed.

(** ** Properties *)

Lemma map_keys_dom `{GoRangeLaws} {A} (m : gmap string A) :
  NoDup (map_keys (dom m)) ∧ ∀ name, name ∈ map_keys (dom m) ↔ is_Some (m !! name).
Proof.
  split; [rewrite map_keys_perm; apply NoDup_elements|].
  intros name. rewrite map_keys_perm, elem_of_elements. apply elem_of_dom.
Qed.

Section run.
Context {S : Type} `{EngineLaws S} `{!PgLaws} `{GoRangeLaws}.
Context (clock : string → time) (uuid : string → result string).
Implicit Types (s : S) (w : database).

(** C31: what an import does.  It only fails when the directory cannot be read,
    and then it has done nothing.  Otherwise it touches no group but those the
    directory reports, grants nothing, and, when it logged no failure, every
    reported group exists and has the members it had before together with the
    reported ones. *)
Theorem Run_imports d s r s' :
  good (view s) → supply_ok uuid (view s) → Run clock uuid d s = (r, s') →
  match FetchAllUserGroups d with
  | Err e => r = Err (errorf_w "failed to fetch user groups from driver" e) ∧ s' = s
  | Ok ms => ∃ n, r = Ok n ∧ good (view s') ∧ allowed (view s') = allowed (view s) ∧
      (∀ k, ¬ (k.1 = DefaultTenantID ∧ ∃ u, reported (Prefix d) ms k.2 u) →
         same k (view s) (view s')) ∧
      (n = 0%nat → ∀ name u0, reported (Prefix d) ms name u0 →
         ∃ g, has (view s') (DefaultTenantID, name) g ∧
           ∀ u, (gr_id g, u) ∈ memberships (view s') ↔
             (has (view s) (DefaultTenantID, name) g ∧ (gr_id g, u) ∈ memberships (view s)) ∨
             reported (Prefix d) ms name u)
  end.
Proof.
  intros Hw Hsup Hx. unfold Run in Hx.
  destruct (FetchAllUserGroups d) as [ms|e]; [|cbv [fail] in Hx; by simplify_eq].
  set (users := group_users (Prefix d) ms) in *.
  destruct (map_keys_dom users) as [Hnd Hnames].
  apply (each_law clock uuid _ _ _ _ _ _ _ (import_group_law clock uuid users))
    in Hx as (n&->&Hg&Hal&Hsame&_&Hdone); [|done|apply Hsup|done..|].
  2: { intros name _. split; [|done]. intros id c. apply (supply_new _ _ Hsup). }
  exists n. split_and!; [done|done|done| |].
  - intros k Hk. apply Hsame. intros Hd Hin. apply Hk. split; [done|].
    apply group_users_spec. by apply Hnames.
  - intros Hn name u0 Hu0.
    assert (name ∈ map_keys (dom users)) as Hin by (apply Hnames, group_users_spec; eauto).
    destruct (Hdone Hn name Hin) as (w1&w2&[Hh1 Hm1]&(g&Hg2&Hmem)&_&[Hh2 Hm2]).
    exists g. split; [by apply Hh2|]. intros u. rewrite (proj1 (Hm2 g u Hg2)), Hmem.
    unfold with_users.
    rewrite Hh1, (proj2 (group_users_spec _ _ _) u : u ∈ default [] (users !! name) ↔ _).
    split; (intros [[Hhas Hin']|?]; [left|by right]); (split; [done|]);
      by apply (proj1 (Hm1 g u Hhas)).
Qed.
End run.

Section sync.
Context {S T : Type} `{EngineLaws S} `{!PgLaws} `{!AuthorizerOps T} `{GoRangeLaws}.
Context (clock : string → time) (uuid : string → result string).
Implicit Types (s : S) (t : T) (w : database).

Abbreviation key name := (DefaultTenantID, name) (only parsing).

Lemma DeleteGroup_known name g s r s' :
  good (view s) → has (view s) (key name) g → Storage.DeleteGroup (gr_id g) s = (r, s') →
  good (view s') ∧
  match r with
  | Ok _ => (∀ g', ¬ has (view s') (key name) g') ∧
      (∀ k, k ≠ key name → same k (view s) (view s')) ∧
      allowed (view s') = filter (λ p, p.1 ≠ gr_id g) (allowed (view s))
  | Err _ => view s' = view s
  end.
Proof.
  intros Hw Hg Hx. destruct (good_id _ Hw g (proj1 Hg)) as [Hid _].
  assert (wf (view s')) as Hw'.
  { pose proof (after_wf (CDeleteGroup (gr_id g)) s (good_wf _ Hw)) as Hwf.
    cbn in Hwf. by rewrite Hx in Hwf. }
  apply DeleteGroup_outcome in Hx; [|apply Hw]. destruct r as [[]|e]; [|by rewrite Hx].
  destruct Hx as (i&?&Hgs&Hm&Ha). simplify_eq.
  assert (∀ k g', has (view s') k g' ↔ has (view s) k g' ∧ gr_id g' ≠ gr_id g) as Hhas.
  { intros k g'. unfold has. rewrite Hgs, list_elem_of_filter. tauto. }
  split; [split; [done|rewrite Hgs; by apply NoDup_fmap_filter, Hw|]|].
  { intros g'. rewrite Hgs, list_elem_of_filter. intros [_ Hin]. by apply (good_id _ Hw). }
  split; [|split; [|done]].
  - intros g' [Hg' Hne]%Hhas. destruct Hne. f_equal. eapply has_fun; [apply Hw|done..].
  - intros k Hk. assert (∀ g', has (view s) k g' → gr_id g' ≠ gr_id g) as Hne.
    { intros g' Hg' He. destruct Hk. by eapply (has_inj _ _ _ g' g). }
    split; [intros g'; rewrite Hhas; naive_solver|]. intros g' x Hg'.
    rewrite Hm, Ha, !elem_of_filter. cbn. naive_solver.
Qed.

(** The two calls for a stale group, or none. *)
Lemma delete_stale_inv users existing name s t r s' t' :
  delete_stale users existing name (s, t) = (r, (s', t')) →
  (r = Ok true ∧ s' = s ∧ t' = t ∧ (existing !! name = None ∨ is_Some (users !! name))) ∨
  ∃ x r1, existing !! name = Some x ∧ users !! name = None ∧
    Storage.DeleteGroup (ID x) s = (r1, s') ∧
    match r1 with
    | Err _ => r = Ok false ∧ t' = t
    | Ok _ => ∃ r2, authz_DeleteGroup (ID x) t = (r2, t') ∧ r = Ok (is_ok r2)
    end.
Proof.
  intros Hx. unfold delete_stale in Hx.
  destruct (existing !! name) as [x|] eqn:He; [|cbv in Hx; simplify_eq; left; by split_and!; auto].
  case_decide as Hu; [cbv [mret M_ret] in Hx; simplify_eq; left; by split_and!; auto|right].
  unfold attempt, on_db, on_authz in Hx. cbv [mbind M_bind mret M_ret] in Hx. cbn [fst snd] in Hx.
  exists x. destruct (Storage.DeleteGroup (ID x) s) as [[[]|e] s1] eqn:Hd; cbn [fst snd] in Hx.
  - destruct (authz_DeleteGroup (ID x) t) as [r2 t2] eqn:Ha. simplify_eq. exists (Ok tt).
    split_and!; [done|by apply eq_None_not_Some|done|by exists r2].
  - simplify_eq. exists (Err e). by split_and!; [|apply eq_None_not_Some|..].
Qed.

Lemma known_same (existing : gmap string Group) name w w' :
  known existing name w → same (key name) w w' → known existing name w'.
Proof.
  intros Hk [Hhas _] x Hx. destruct (Hk x Hx) as (g&Hg&?). exists g. split; [|done].
  by apply Hhas.
Qed.

Lemma delete_stale_law users existing name s t r s' t' :
  good (view s) → known existing name (view s) →
  delete_stale users existing name (s, t) = (r, (s', t')) →
  ∃ b, r = Ok b ∧ good (view s') ∧
    (∀ k, ¬ (k = key name ∧ users !! name = None) → same k (view s) (view s')) ∧
    (b = true → users !! name = None → is_Some (existing !! name) →
       ∀ g, ¬ has (view s') (key name) g).
Proof.
  intros Hw Hk [(->&->&->&Hno)|(x&r1&He&Hu&Hd&Hr)]%delete_stale_inv.
  { exists true. split_and!; try done. intros _ Hu [y Hy].
    destruct Hno as [Hno|Hno]; [congruence|rewrite Hu in Hno; by destruct Hno]. }
  destruct (Hk x He) as (g&Hg&Hid). rewrite Hid in Hd.
  apply DeleteGroup_known with (name := name) in Hd as [Hw1 Hd]; [|done..].
  destruct r1 as [[]|e].
  - destruct Hd as (Hgone&Hsame&_), Hr as (r2&_&->). exists (is_ok r2).
    split_and!; try done. intros k Hkk. apply Hsame. intros ->. by apply Hkk.
  - destruct Hr as [-> _]. exists false. rewrite Hd. by split_and!.
Qed.

(** After the second loop, over [names]. *)
Lemma delete_loop users existing names s t r s' t' :
  good (view s) → NoDup names → (∀ name, name ∈ names → known existing name (view s)) →
  each (delete_stale users existing) names (s, t) = (r, (s', t')) →
  ∃ n, r = Ok n ∧ good (view s') ∧
    (∀ k, ¬ (k.1 = DefaultTenantID ∧ k.2 ∈ names ∧ users !! k.2 = None) →
       same k (view s) (view s')) ∧
    (n = 0%nat → ∀ name, name ∈ names → users !! name = None → is_Some (existing !! name) →
       ∀ g, ¬ has (view s') (key name) g).
Proof.
  revert s t r s' t'. induction names as [|name names IH];
    intros s t r s' t' Hw Hnd Hknown Hx.
  { cbv in Hx. simplify_eq. exists 0%nat. split_and!; try done. set_solver. }
  apply list.NoDup_cons in Hnd as [Hn Hnd]. cbn [each] in Hx.
  cbv [mbind M_bind mret M_ret] in Hx.
  destruct (delete_stale users existing name (s, t)) as [r1 [s1 t1]] eqn:Hs.
  eapply delete_stale_law in Hs as (b&->&Hw1&Hsame1&Hgone1);
    [|done|apply Hknown; by constructor].
  destruct (each (delete_stale users existing) names (s1, t1)) as [r2 [s2 t2]] eqn:He.
  eapply IH in He as (n&->&Hw2&Hsame2&Hgone2); [|done..|].
  2: { intros name' Hin. eapply known_same; [by apply Hknown; constructor|].
       apply Hsame1. intros [[= ->] _]. done. }
  simplify_eq. eexists. split_and!; try done.
  - intros k Hk. assert (same k (view s) (view s1)).
    { apply Hsame1. intros [-> ?]. apply Hk. split; [done|]. split; [by constructor|done]. }
    assert (same k (view s1) (view s')); [|by etrans].
    apply Hsame2. intros (?&?&?). apply Hk. split; [done|]. split; [by constructor|done].
  - intros Hn0 name' Hin Hnone Hsome g. destruct b; [|done].
    apply elem_of_cons in Hin as [->|Hin]; [|by apply Hgone2].
    assert (same (key name) (view s1) (view s')) as [Hhas _].
    { apply Hsame2. cbn. tauto. }
    rewrite Hhas. by apply Hgone1.
Qed.

(** The groups the importer owns: those of the default tenant whose name starts
    with the driver's prefix. *)
Definition managed (prefix : string) (k : string * string) : Prop :=
  k.1 = DefaultTenantID ∧ HasPrefix k.2 (prefix +:+ ":") = true.

Lemma reported_managed prefix ms name u :
  reported prefix ms name u → managed prefix (key name).
Proof.
  intros (g&->&_). split; [done|]. cbn. apply HasPrefix_spec. exists g.
  by rewrite string_app_assoc.
Qed.

(** [existingByName], just after the query. *)
Lemma existing_spec prefix s r s' :
  good (view s) → ListGroupsByPrefix (prefix +:+ ":") DefaultTenantID s = (r, s') →
  view s' = view s ∧ ∀ gs, r = Ok gs →
    (∀ name, known (by_name gs) name (view s)) ∧
    (∀ name, is_Some (by_name gs !! name) → managed prefix (key name)) ∧
    ∀ name g, managed prefix (key name) → has (view s) (key name) g →
      is_Some (by_name gs !! name).
Proof.
  intros Hw Hx. apply ListGroupsByPrefix_outcome in Hx as [Hv Hr]; [|apply Hw].
  split; [done|]. intros gs ->. destruct Hr as [Hp _].
  assert (∀ x, x ∈ gs ↔ ∃ g, x = group_of g ∧ has (view s) (key (gr_name g)) g ∧
    managed prefix (key (gr_name g))) as Hin.
  { intros x. rewrite Hp, list_elem_of_fmap. setoid_rewrite list_elem_of_filter.
    unfold has, managed, guniq. cbn. split; intros (g&->&Hg); exists g; [|naive_solver].
    destruct Hg as [[-> ?] ?]. done. }
  split_and!.
  - intros name x [Hx <-]%by_name_spec. apply Hin in Hx as (g&->&Hg&_). by exists g.
  - intros name [x [Hx <-]%by_name_spec]. by apply Hin in Hx as (g&->&_&?).
  - intros name g Hm Hg. assert (gr_name g = name) as <-.
    { destruct Hg as [_ Hk]. unfold guniq in Hk. congruence. }
    apply (by_name_some gs (group_of g)). apply Hin. by exists g.
Qed.

Lemma known_changes (existing : gmap string Group) name name' w w' :
  name ≠ name' → changes uuid name w w' → known existing name' w → known existing name' w'.
Proof.
  intros Hne Hch Hk. eapply known_same; [done|]. apply (ch_same _ _ _ _ Hch). congruence.
Qed.

(** What the two loops of [Sync] leave, from [w] over [w1] to [w2]. *)
Lemma loops_converge prefix ms (existing : gmap string Group) n w w1 w2 :
  good w1 → good w2 →
  (∀ name, is_Some (existing !! name) → managed prefix (key name)) →
  (∀ name g, managed prefix (key name) → has w (key name) g → is_Some (existing !! name)) →
  let users := group_users prefix ms in
  after_steps (λ name, exactly (default [] (users !! name))) (map_keys (dom users)) n w w1 →
  (∀ k, ¬ (k.1 = DefaultTenantID ∧ k.2 ∈ map_keys (dom existing) ∧ users !! k.2 = None) →
     same k w1 w2) →
  (∀ k, ¬ managed prefix k → same k w w2) ∧
  (n = 0%nat →
   (∀ name, name ∈ map_keys (dom existing) → users !! name = None →
      is_Some (existing !! name) → ∀ g, ¬ has w2 (key name) g) →
   ∀ name, managed prefix (key name) →
     ((∃ g, has w2 (key name) g) ↔ ∃ u, reported prefix ms name u) ∧
     (∀ g, has w2 (key name) g →
        ∀ u, (gr_id g, u) ∈ memberships w2 ↔ reported prefix ms name u) ∧
     (∀ g u, has w (key name) g → reported prefix ms name u → has w2 (key name) g)).
Proof.
  intros Hw1 Hw2 Hman Hall users (_&_&Hsame1&Hkeep&Hdone) Hsame2.
  destruct (map_keys_dom users) as [_ Hnames]. destruct (map_keys_dom existing) as [_ Hex].
  assert (∀ name, name ∈ map_keys (dom users) ↔ ∃ u, reported prefix ms name u) as Hrep.
  { intros name. rewrite Hnames. apply group_users_spec. }
  split.
  - intros k Hk. transitivity w1.
    + apply Hsame1. intros Hd Hin. apply Hrep in Hin as [u Hu]. apply Hk.
      destruct k; cbn in *. subst. by eapply reported_managed.
    + apply Hsame2. intros (Hd&Hin&_). apply Hk. apply Hex, Hman in Hin.
      destruct k; cbn in *. by subst.
  - intros Hn Hgone name Hm.
    destruct (decide (name ∈ map_keys (dom users))) as [Hin|Hnin].
    + assert (is_Some (users !! name)) as Hs by by apply Hnames.
      assert (same (key name) w1 w2) as [Hh2 Hm2].
      { apply Hsame2. cbn. intros (_&_&Hnone). rewrite Hnone in Hs. by destruct Hs. }
      destruct (Hdone Hn name Hin) as (v1&v2&_&(g&Hg&Hmem)&_&[Hh Hmm]).
      assert (has w2 (key name) g) as Hg2 by by apply Hh2, Hh.
      pose proof Hin as Hex'. apply Hrep in Hex' as [u0 Hu0]. split_and!.
      * split; eauto.
      * intros g' Hg' u. assert (g' = g) as -> by (eapply has_fun; [apply Hw2|done..]).
        rewrite (proj1 (Hm2 g u (proj2 (Hh g) Hg))), (proj1 (Hmm g u Hg)), Hmem.
        apply group_users_spec.
      * intros g' u Hg' _. apply Hh2. by apply Hkeep.
    + assert (users !! name = None) as Hnone by (apply eq_None_not_Some; by rewrite <- Hnames).
      assert (∀ g, ¬ has w2 (key name) g) as Hno.
      { destruct (existing !! name) as [x|] eqn:He.
        - apply Hgone; [apply Hex|done|]; by rewrite He.
        - intros g Hg.
          assert (same (key name) w1 w2) as [Hh2 _].
          { apply Hsame2. cbn. intros (_&Hi&_). apply Hex in Hi. rewrite He in Hi. by destruct Hi. }
          assert (same (key name) w w1) as [Hh1 _] by (apply Hsame1; auto).
          apply Hh2, Hh1, Hall in Hg; [|done]. rewrite He in Hg. by destruct Hg. }
      assert (∀ u, ¬ reported prefix ms name u) as Hnr by (intros u Hu; apply Hnin, Hrep; eauto).
      split_and!; [naive_solver..].
Qed.

(** The phases of a synchronisation whose driver answered: it ends before it changes
    anything, or both loops run, from groups that are known. *)
Lemma Sync_phases d ms s t r s' t' :
  good (view s) → supply_ok uuid (view s) → FetchAllUserGroups d = Ok ms →
  Sync clock uuid d (s, t) = (r, (s', t')) →
  (is_ok r = false ∧ view s' = view s ∧ t' = t) ∨
  ∃ existing n1 n2 s2,
    let users := group_users (Prefix d) ms in
    (∀ name, is_Some (existing !! name) → managed (Prefix d) (key name)) ∧
    (∀ name g, managed (Prefix d) (key name) → has (view s) (key name) g →
       is_Some (existing !! name)) ∧
    after_steps (λ name, exactly (default [] (users !! name))) (map_keys (dom users)) n1
      (view s) (view s2) ∧
    (∀ name, known existing name (view s2)) ∧
    each (delete_stale users existing) (map_keys (dom existing)) (s2, t) = (Ok n2, (s', t')) ∧
    (r = Ok tt → n1 = 0 ∧ n2 = 0)%nat.
Proof.
  intros Hw Hsup Hms Hx. unfold Sync in Hx. rewrite Hms in Hx.
  apply bind_inv in Hx as [(e&->&Hx)|(gs&[s1 t1]&Hx&Hy)].
  { apply map_err_inv in Hx as [(?&?&_)|(e'&_&Hx)]; [done|].
    apply on_db_inv in Hx as [Hx ->]. apply existing_spec in Hx as [Hv _]; [|done]. by left. }
  apply map_err_inv in Hx as [(gs'&Hgs&Hx)|(?&?&_)]; [|done]. injection Hgs as <-.
  apply on_db_inv in Hx as [Hx ->]. apply existing_spec in Hx as [Hv Hex]; [|done].
  destruct (Hex gs eq_refl) as (Hknown&Hman&Hall). rewrite <- Hv in *. right.
  set (existing := by_name gs) in *. set (users := group_users (Prefix d) ms) in *.
  destruct (map_keys_dom users) as [Hnd Hnames]. destruct (map_keys_dom existing) as [Hndx _].
  destruct (each (reconcile_group clock uuid users existing) (map_keys (dom users)) s1)
    as [r1 s2] eqn:He.
  pose proof He as Hloop. apply (each_law clock uuid _ _ _ _ _ _ _
    (reconcile_group_law clock uuid users existing)) in Hloop as (n1&->&Hsteps);
    [|apply known_changes|apply Hsup|done|done|].
  2: { intros name _. split; [intros id c; apply (supply_new _ _ Hsup)|apply Hknown]. }
  pose proof Hsteps as (Hw2&Hal2&Hsame2&Hkeep2&_).
  assert (∀ name, known existing name (view s2)) as Hknown2.
  { intros name x Hlk. destruct (Hknown name x Hlk) as (g&Hg&?). exists g. split; [|done].
    destruct (decide (name ∈ map_keys (dom users))); [by apply Hkeep2|].
    destruct (Hsame2 (key name)) as [Hhas _]; [done|]. by apply Hhas. }
  unfold on_db in Hy; cbv [mbind M_bind] in Hy; cbn [fst snd] in Hy. rewrite He in Hy.
  destruct (each (delete_stale users existing) (map_keys (dom existing)) (s2, t))
    as [r2 [s3 t3]] eqn:Hd.
  pose proof Hd as Hdel. apply delete_loop in Hdel as (n2&->&_); [|done..].
  assert (s3 = s' ∧ t3 = t' ∧ (r = Ok tt → n1 = 0 ∧ n2 = 0)%nat) as (->&->&Hr).
  { case_decide; cbv [fail mret M_ret] in Hy; simplify_eq; (split_and!; [done..|]); [done|lia]. }
  by exists existing, n1, n2, s2.
Qed.

(** C9: what a synchronisation does to the database, whatever authorizer it was built
    with (the command builds the no-op one, unless it panics), when the ids of groups are
    distinct and spelled as the database spells them, and the UUIDs that are generated
    are new and distinct.  When the directory cannot be read it fails with that error
    and does nothing.  Otherwise it never touches a group that is not the importer's, its members or its
    allowed applications, whatever fails.  When it reports success, the importer's groups
    are exactly those the directory reports, each with exactly the reported members, and a
    group that was there is still the same one. *)
Theorem Sync_converges d s t r s' t' :
  good (view s) → supply_ok uuid (view s) →
  Sync clock uuid d (s, t) = (r, (s', t')) →
  match FetchAllUserGroups d with
  | Err e => r = Err (errorf_w "failed to fetch user groups from driver" e) ∧
      (s', t') = (s, t)
  | Ok ms =>
      good (view s') ∧
      (∀ k, ¬ managed (Prefix d) k → same k (view s) (view s')) ∧
      (r = Ok tt → ∀ name, managed (Prefix d) (key name) →
         ((∃ g, has (view s') (key name) g) ↔ ∃ u, reported (Prefix d) ms name u) ∧
         (∀ g, has (view s') (key name) g →
            ∀ u, (gr_id g, u) ∈ memberships (view s') ↔ reported (Prefix d) ms name u) ∧
         (∀ g u, has (view s) (key name) g → reported (Prefix d) ms name u →
            has (view s') (key name) g))
  end.
Proof.
  intros Hw Hsup Hx. destruct (FetchAllUserGroups d) as [ms|e] eqn:Hms.
  2: { unfold Sync in Hx. rewrite Hms in Hx. cbv [fail] in Hx. by simplify_eq. }
  destruct (Sync_phases _ _ _ _ _ _ _ Hw Hsup Hms Hx)
    as [(Hr&->&_)|(existing&n1&n2&s2&Hman&Hall&Hsteps&Hknown&Hd&Hr)].
  { split_and!; [done|done|by intros ->]. }
  pose proof Hsteps as (Hw2&_).
  apply delete_loop in Hd as (n&[= <-]&Hw3&Hsame3&Hgone); [|done|apply map_keys_dom|done].
  destruct (loops_converge (Prefix d) ms existing n1 _ _ _ Hw2 Hw3 Hman Hall Hsteps)
    as [Hout Hin].
  { intros k Hk. apply Hsame3. tauto. }
  split_and!; [done..|]. intros Hzero%Hr. apply Hin; [lia|]. apply Hgone. lia.
Qed.
End sync.

(** *** The grants, with an authorizer that works on OpenFGA *)

Section sync_grants.
Context {S T : Type} `{EngineLaws S} `{!PgLaws} `{AuthorizerLaws T} `{GoRangeLaws}.
Context (clock : string → time) (uuid : string → result string).
Implicit Types (s : S) (t : T).

Lemma delete_stale_grants users existing name s t r s' t' A :
  good (view s) → known existing name (view s) → granted t A → allowed (view s) ⊆ A →
  delete_stale users existing name (s, t) = (r, (s', t')) →
  ∃ A', granted t' A' ∧ allowed (view s') ⊆ A' ∧ A' ⊆ A ∧
    (r = Ok true → A = allowed (view s) → A' = allowed (view s')).
Proof.
  intros Hw Hk Ht Hsub [(->&->&->&_)|(x&r1&He&Hu&Hd&Hr)]%delete_stale_inv.
  { by exists A. }
  destruct (Hk x He) as (g&Hg&Hid). rewrite Hid in *.
  destruct (good_id _ Hw g (proj1 Hg)) as [_ Hne].
  apply DeleteGroup_known with (name := name) in Hd as [_ Hd]; [|done..].
  destruct r1 as [[]|e]; [|destruct Hr as [-> ->]; rewrite Hd; by exists A].
  destruct Hd as (_&_&Hal), Hr as (r2&Ha&->). rewrite delete_group_law in Ha.
  destruct (remove_apps_law _ _ _ _ _ Hne Ht Ha) as (A'&Ht'&HsubA&Hkeep&Heq).
  exists A'. rewrite Hal. split_and!; try done.
  - etrans; [|exact Hkeep]. intros p [??]%elem_of_filter. apply elem_of_filter. auto.
  - intros [= Hok] ->. by apply Heq.
Qed.

Lemma delete_loop_grants users existing names s t n s' t' A :
  good (view s) → NoDup names → (∀ name, name ∈ names → known existing name (view s)) →
  granted t A → allowed (view s) ⊆ A →
  each (delete_stale users existing) names (s, t) = (Ok n, (s', t')) →
  ∃ A', granted t' A' ∧ allowed (view s') ⊆ A' ∧ A' ⊆ A ∧
    (n = 0%nat → A = allowed (view s) → A' = allowed (view s')).
Proof.
  revert s t A n s' t'. induction names as [|name names IH];
    intros s t A n s' t' Hw Hnd Hknown Ht Hsub Hx.
  { cbv in Hx. simplify_eq. by exists A. }
  apply list.NoDup_cons in Hnd as [Hn Hnd]. cbn [each] in Hx.
  cbv [mbind M_bind mret M_ret] in Hx.
  destruct (delete_stale users existing name (s, t)) as [r1 [s1 t1]] eqn:Hs.
  pose proof Hs as Hg. eapply delete_stale_grants in Hg as (A1&Ht1&Hsub1&HA1&Hb1);
    [|done|apply Hknown; by constructor|done..].
  destruct (delete_stale_law clock uuid _ _ _ _ _ _ _ _ Hw (Hknown name ltac:(by constructor)) Hs)
    as (b&->&Hw1&Hsame1&_).
  destruct (each (delete_stale users existing) names (s1, t1)) as [[m|] [s2 t2]] eqn:He;
    simplify_eq.
  eapply IH in He as (A2&Ht2&Hsub2&HA2&Hb2); [|done..| |done|done].
  2: { intros name' Hin. eapply known_same; [by apply Hknown; constructor|].
       apply Hsame1. intros [[= ->] _]. done. }
  exists A2. split_and!; [done|done|by etrans|].
  intros Hn0 ->. destruct b; [|done]. apply Hb2; [done|]. by apply Hb1.
Qed.

(** A synchronisation leaves OpenFGA the grants the database has left and adds none;
    from a store in step with the database, one that reports success ends in step. *)
Theorem Sync_grants d s t A r s' t' :
  good (view s) → supply_ok uuid (view s) → granted t A → allowed (view s) ⊆ A →
  Sync clock uuid d (s, t) = (r, (s', t')) →
  ∃ A', granted t' A' ∧ allowed (view s') ⊆ A' ∧ A' ⊆ A ∧
    (r = Ok tt → A = allowed (view s) → A' = allowed (view s')).
Proof.
  intros Hw Hsup Ht Hsub Hx. destruct (FetchAllUserGroups d) as [ms|e] eqn:Hms.
  2: { unfold Sync in Hx. rewrite Hms in Hx. cbv [fail] in Hx. simplify_eq. by exists A. }
  destruct (Sync_phases _ _ _ _ _ _ _ _ _ Hw Hsup Hms Hx)
    as [(Hr&->&->)|(existing&n1&n2&s2&Hman&Hall&Hsteps&Hknown&Hd&Hr)].
  { exists A. by split_and!; [..|intros ->]. }
  pose proof Hsteps as (Hw2&Hal2&_). rewrite <- Hal2 in Hsub |- *.
  eapply delete_loop_grants in Hd as (A'&?&?&?&Hz); [|done|apply map_keys_dom|done..].
  exists A'. split_and!; [done..|]. intros Hr0 ->. apply Hz; [apply Hr|]; done.
Qed.
End sync_grants.

(** ** Examples *)

Module Witnesses.
Import TestParams StorageSpec.Witnesses TestServer Groups.Witnesses.
Local Open Scope string_scope.

(** d0 with two groups of an earlier import, one of them gone from the directory. *)
Definition d1 : database := calls
  [CCreateGroup (Ok "e5") (new_group "salesforce:Eng");
   CAddUsersToGroup 5 "e5" ["ann"; "bob"];
   CCreateGroup (Ok "f6") (new_group "salesforce:Old");
   CAddUsersToGroup 5 "f6" ["bob"]; CAddAllowedApp 5 "f6" "vault"] d0.
Definition t1 : server :=
  mkServer (grant_tuple <$> [("f6", "vault"); ("a1", "grafana")]) [].

Definition ms : list UserGroupMapping :=
  [mkMapping "ann" "Eng"; mkMapping "ann" "Ops"; mkMapping "eve" "Eng"].
Definition sf : DriverInterface := mkDriver "salesforce" (Ok ms).

Lemma sf_driver : sf = SalesforceDriver.NewSalesforceDriver (λ _, Ok
  [SalesforceDriver.mkRecord "ann" "Eng" "Ops"; SalesforceDriver.mkRecord "eve" "Eng" "";
   SalesforceDriver.mkRecord "" "Eng" "Ops"]).
Proof. reflexivity. Qed.
Definition clock (_ : string) : time := 9.
Definition uuid (name : string) : result string :=
  if decide (name = "salesforce:Ops") then Ok "c3" else Err (EText "entropy").

Lemma d1_good : good (view d1).
Proof.
  split; [apply calls_wf, d0_wf|compute_done|].
  assert (Forall (λ g, uuid_in (gr_id g) = Some (gr_id g) ∧ gr_id g ≠ "") (groups d1)) as Hf
    by compute_done.
  intros g Hg. by eapply list.Forall_forall in Hf.
Qed.

Lemma d1_supply : supply_ok uuid (view d1).
Proof.
  split; unfold uuid.
  - intros name id c. case_decide; [|done]. intros [= <-] [= <-]. split; [done|]. compute_done.
  - intros n n' i i' c. by repeat case_decide; intros; simplify_eq.
Qed.

Lemma d1_t1_synced : synced (d1, t1).
Proof. change (tuples t1 = grant_tuples (allowed d1)). compute_done. Qed.

Lemma Run_imports_witness :
  let s' := (Run (S:=database) clock uuid sf d1).2 in
  ∃ n, Ok 0%nat = Ok n ∧ good (view s') ∧ allowed (view s') = allowed (view d1) ∧
    (∀ k, ¬ (k.1 = DefaultTenantID ∧ ∃ u, reported (Prefix sf) ms k.2 u) →
       same k (view d1) (view s')) ∧
    (n = 0%nat → ∀ name u0, reported (Prefix sf) ms name u0 →
       ∃ g, has (view s') (DefaultTenantID, name) g ∧
         ∀ u, (gr_id g, u) ∈ memberships (view s') ↔
           (has (view d1) (DefaultTenantID, name) g ∧ (gr_id g, u) ∈ memberships (view d1)) ∨
           reported (Prefix sf) ms name u).
Proof.
  intros s'.
  assert (Run (S:=database) clock uuid sf d1 = (Ok 0%nat, s')) as Hr
    by (vm_compute; reflexivity).
  clearbody s'. exact (Run_imports clock uuid sf d1 (Ok 0%nat) s' d1_good d1_supply Hr).
Defined.

Lemma Sync_converges_witness :
  let st := (Sync (S:=database) (T:=server) clock uuid sf (d1, t1)).2 in
  good (view st.1) ∧
  (∀ k, ¬ managed (Prefix sf) k → same k (view d1) (view st.1)) ∧
  (Ok tt = Ok tt → ∀ name, managed (Prefix sf) (DefaultTenantID, name) →
     ((∃ g, has (view st.1) (DefaultTenantID, name) g) ↔ ∃ u, reported (Prefix sf) ms name u) ∧
     (∀ g, has (view st.1) (DefaultTenantID, name) g →
        ∀ u, (gr_id g, u) ∈ memberships (view st.1) ↔ reported (Prefix sf) ms name u) ∧
     (∀ g u, has (view d1) (DefaultTenantID, name) g → reported (Prefix sf) ms name u →
        has (view st.1) (DefaultTenantID, name) g)).
Proof.
  intros st.
  assert (Sync (S:=database) (T:=server) clock uuid sf (d1, t1) = (Ok tt, (st.1, st.2))) as Hr
    by (vm_compute; reflexivity).
  clearbody st.
  exact (Sync_converges clock uuid sf d1 t1 (Ok tt) st.1 st.2 d1_good d1_supply Hr).
Defined.

(** What the example ends with. *)
Lemma Sync_example :
  let s' := (Sync (S:=database) (T:=server) clock uuid sf (d1, t1)).2.1 in
  (gr_name <$> groups s') = ["staff"; "crew"; "salesforce:Eng"; "salesforce:Ops"] ∧
  memberships s' = list_to_set [("a1", "u"); ("a1", "v"); ("e5", "ann"); ("e5", "eve");
                                ("c3", "ann")].
Proof. split; [vm_compute; reflexivity|compute_done]. Qed.
End Witnesses.
