(* ===== verification/Typing.v ===== *)
(** * The types of stored groups

    A column of PostgreSQL holds any integer as a group's type, and [GroupType_String]
    has a third answer, "unknown".  The program never stores such a type, and stores
    groups of one tenant only: [management_well_typed], over any sequence of requests to
    the two management APIs and of imports.  The proof is a small logic of pre- and
    postconditions for code in the monad [M] ([post]). *)

From S2P Require Import Prelude Errors Types Sql Storage StorageSpec Authorizer Grpc Groups AppAuthz Importer.
Open Scope Z_scope.

(** ** The logic: [m] keeps [I], and what it returns satisfies [P] *)

Definition post {S A} (I : S → Prop) (m : M S A) (P : A → Prop) : Prop :=
  ∀ s r s', I s → m s = (r, s') → I s' ∧ ∀ a, r = Ok a → P a.

Section logic.
Context {S : Type} (I : S → Prop).

Lemma post_ret {A} (a : A) (P : A → Prop) : P a → post I (mret a) P.
Proof. intros HP s r s' Hs Hm. cbv in Hm. simplify_eq. split; [done|]. by intros ? [= <-]. Qed.
Lemma post_fail {A} e (P : A → Prop) : post I (fail e) P.
Proof. intros s r s' Hs Hm. cbv in Hm. by simplify_eq. Qed.
Lemma post_lift {A} r (P : A → Prop) : (∀ a, r = Ok a → P a) → post I (lift r) P.
Proof. intros HP s r' s' Hs Hm. cbv in Hm. by simplify_eq. Qed.
Lemma post_bind {A B} (m : M S A) (k : A → M S B) Q P :
  post I m Q → (∀ a, Q a → post I (k a) P) → post I (m ≫= k) P.
Proof.
  intros Hm Hk s r s' Hs [(e&->&Hx)|(a&s1&Hx&Hx')]%bind_inv.
  - apply Hm in Hx as [? _]; [|done]. by split.
  - apply Hm in Hx as [? Ha]; [|done]. eapply Hk; eauto.
Qed.
Lemma post_map_err {A} f (m : M S A) P : post I m P → post I (map_err f m) P.
Proof.
  intros Hm s r s' Hs [(x&->&Hx)|(e&->&Hx)]%map_err_inv; apply Hm in Hx as [? Ha]; done.
Qed.
Lemma post_attempt {A} (m : M S A) P :
  post I m P → post I (attempt m) (λ r, ∀ a, r = Ok a → P a).
Proof.
  intros Hm s r s' Hs. unfold attempt. destruct (m s) as [r0 s0] eqn:Hx.
  intros [= <- <-]. apply Hm in Hx as [? Ha]; [|done]. split; [done|]. by intros ? [= <-].
Qed.
Lemma post_weaken {A} (m : M S A) (Q P : A → Prop) :
  (∀ a, Q a → P a) → post I m Q → post I m P.
Proof. intros HQ Hm s r s' Hs [? Ha]%Hm; [|done]. split; eauto. Qed.
Lemma post_any {A} (m : M S A) P : post I m P → post I m (λ _, True).
Proof. by apply post_weaken. Qed.

Lemma post_each (step : string → M S bool) names :
  (∀ name, post I (step name) (λ _, True)) → post I (each step names) (λ _, True).
Proof.
  intros Hs. induction names as [|name names IH]; cbn [each]; [by apply post_ret|].
  eapply post_bind; [apply Hs|intros b _]. eapply post_bind; [apply IH|intros n _].
  by apply post_ret.
Qed.
End logic.

Section both.
Context {S T : Type} (I : S → Prop).

(** The condition on the pair of the connection and the authorizer. *)
Definition on_conn : S * T → Prop := λ st, I st.1.

Lemma post_on_db {A} (m : M S A) P : post I m P → post on_conn (on_db m) P.
Proof. intros Hm [s t] r [s' t'] Hs [Hx ->]%on_db_inv. by apply Hm in Hx. Qed.
Lemma post_on_authz {A} (m : M T A) : post on_conn (on_authz m) (λ _, True).
Proof. intros [s t] r [s' t'] Hs [Hx ->]%on_authz_inv. by split. Qed.

(** A handler's response. *)
Definition hpost {A} (h : handler (S * T) A) (P : A → Prop) : Prop :=
  ∀ st a st', on_conn st → h st = (a, st') → on_conn st' ∧ ∀ x, a = inr x → P x.

Lemma hpost_answer {A B} (m : M (S * T) A) ts (f : A → B) Q (P : B → Prop) :
  post on_conn m Q → (∀ x, Q x → P (f x)) → hpost (answer m ts f) P.
Proof.
  intros Hm Hf st a st' Hs [(x&->&Hx)|(e&->&Hx)]%answer_inv; apply Hm in Hx as [? Ha]; try done.
  split; [done|]. intros ? [= <-]. by apply Hf, Ha.
Qed.
Lemma hpost_refuse {A} c msg (P : A → Prop) : hpost (refuse c msg) P.
Proof. intros st a st' Hs [= <- <-]. by split. Qed.
Lemma hpost_error {A} (e : status) (P : A → Prop) : hpost (λ st, (inl e, st)) P.
Proof. intros st a st' Hs [= <- <-]. by split. Qed.
End both.

(** ** Well-typed databases *)

Definition well_typed (d : database) : Prop :=
  ∀ r, r ∈ groups d → valid_GroupType (gr_type r) ∧ gr_tenant r = "default"%string.

Definition typed_group (g : Group) : Prop :=
  valid_GroupType (Type_ g) ∧ TenantId g = "default"%string.

(** The statements that may be sent. *)
Definition typed_stmt (st : stmt) : Prop :=
  match st with
  | InsertGroup g => valid_GroupType (ig_type g) ∧ ig_tenant g = "default"%string
  | UpdateGroups _ _ ty _ _ => valid_GroupType ty
  | _ => True
  end.

Section storage.
Context {S : Type} `{EngineLaws S} `{GoRange}.

Lemma run_typed now st d r d' :
  typed_stmt st → run now st d = (r, d') → well_typed d → well_typed d'.
Proof.
  intros Hst Hr Hd. destruct st as [f cols w o|g|rows oc|rows oc|n de ty u w|t w ret]; cbn in Hr.
  - destruct (bind_preds f w); [case_decide|]; by simplify_eq.
  - destruct (insert_group_db now g d) as [d1|] eqn:Hi; simplify_eq; [|done].
    unfold insert_group_db in Hi. repeat case_match; simplify_eq.
    intros x [Hx|Hx]%elem_of_app; [by apply Hd|]. apply list_elem_of_singleton in Hx as ->. done.
  - destruct (insert_members rows oc d) as [d1|] eqn:Hi; simplify_eq; [|done].
    unfold insert_members in Hi. repeat case_match; by simplify_eq.
  - destruct (insert_apps rows oc d) as [d1|] eqn:Hi; simplify_eq; [|done].
    unfold insert_apps in Hi. repeat case_match; by simplify_eq.
  - destruct (bind_preds _ w); [|by simplify_eq].
    destruct (update_groups_db _ _ _ _ _ d) as [[d1 k]|] eqn:Hi; simplify_eq; [|done].
    unfold update_groups_db in Hi. repeat case_match; simplify_eq.
    all: intros x (y&->&Hy)%list_elem_of_fmap. destruct (Hd y Hy) as [Ht Hn].
    destruct (group_matches _ y); [|done]. by split.
  - destruct (bind_preds _ w); simplify_eq; [|done].
    destruct t; cbn; [|done..]. intros x Hx. apply Hd.
    unfold delete_groups_db in Hx. cbn in Hx. by apply list_elem_of_filter in Hx as [_ ?].
Qed.

(** The condition on a connection. *)
Definition holds_typed (s : S) : Prop := well_typed (view s).

Lemma post_Exec st : typed_stmt st → post holds_typed (ExecContext st) (λ _, True).
Proof.
  intros Hst s r s' Hs [(now&q&Hx&_)|(e&_&Hv&_)]%ExecContext_inv; (split; [|done]);
    unfold holds_typed; [by eapply run_typed|by rewrite Hv].
Qed.
Lemma post_Query st : typed_stmt st → post holds_typed (QueryContext st) (λ _, True).
Proof.
  intros Hst s r s' Hs [(now&q&Hx&_)|(e&_&Hv&_)]%QueryContext_inv; (split; [|done]);
    unfold holds_typed; [by eapply run_typed|by rewrite Hv].
Qed.

(** The rows of the queries for groups scan into well-typed groups. *)
Definition rows_typed (rows : list (list value)) : Prop :=
  ∀ row g, row ∈ rows → scanGroup row = Ok g → typed_group g.

Lemma scan_typed (x : group_row) g :
  valid_GroupType (gr_type x) ∧ gr_tenant x = "default"%string →
  scanGroup (project group_columns (plain (group_column x))) = Ok g → typed_group g.
Proof.
  destruct x as [????? c u]; cbn. intros Hx Hs.
  destruct gr_description as [?|], c as [?|], u as [?|]; cbn in Hs; simplify_eq. done.
Qed.

Lemma select_typed now f cols w o d q d' :
  (f = FromGroups ∧ cols = group_columns ∨ f = FromGroupsJoinMembers ∧ cols = g_columns) →
  well_typed d → run now (Select f cols w o) d = (Ok q, d') →
  ∃ rows, q = Rows rows ∧ rows_typed rows.
Proof.
  intros Hf Hd (->&w'&_&->)%run_select_inv. eexists. split; [done|].
  intros row g (r&->&Hr)%list_elem_of_fmap Hs.
  assert (r ∈ source_rows f d) as Hin.
  { unfold select_rows, order_by in Hr. destruct o; [rewrite merge_sort_Permutation in Hr|];
      by apply list_elem_of_filter in Hr as [_ ?]. }
  destruct Hf as [[-> ->]|[-> ->]]; cbn in Hin.
  - apply list_elem_of_fmap in Hin as (x&->&Hx). by eapply scan_typed; [apply Hd|].
  - apply list_elem_of_fmap in Hin as ([x m]&->&[Hx _]%join_pairs_elem).
    eapply scan_typed; [by apply Hd|]. exact Hs.
Qed.

Lemma post_Query_groups f cols w o :
  (f = FromGroups ∧ cols = group_columns ∨ f = FromGroupsJoinMembers ∧ cols = g_columns) →
  post holds_typed (QueryContext (Select f cols w o)) rows_typed.
Proof.
  intros Hf s r s' Hs [(now&q&Hx&->)|(e&->&Hv&_)]%QueryContext_inv; unfold holds_typed.
  - pose proof Hx as Hx'. eapply run_typed in Hx'; [|done|done]. split; [done|].
    eapply select_typed in Hx as (rows&->&Hr); [|done|done]. by intros ? [= <-].
  - by rewrite Hv.
Qed.

Lemma scan_rows_typed msg rows gs :
  rows_typed rows → scan_rows scanGroup msg rows = Ok gs → Forall typed_group gs.
Proof.
  revert gs. induction rows as [|row rows IH]; intros gs Hr Hs; cbn in Hs; [by simplify_eq|].
  destruct (scanGroup row) as [g|] eqn:Hg; [|done].
  destruct (scan_rows scanGroup msg rows) as [gs'|] eqn:Hgs; [|done]. simplify_eq.
  constructor.
  - eapply Hr; [|done]. set_solver.
  - apply IH; [|done]. intros row' g' ?. apply Hr. set_solver.
Qed.

(** *** The methods of the storage layer *)

(** The groups of a list query. *)
Lemma post_list f cols w c m1 m2 :
  (f = FromGroups ∧ cols = group_columns ∨ f = FromGroupsJoinMembers ∧ cols = g_columns) →
  post holds_typed
    (rows ← map_err (errorf_v m1) (QueryContext (Select f cols w (Some c)));
     lift (scan_rows scanGroup m2 rows)) (Forall typed_group).
Proof.
  intros Hf. eapply post_bind; [by apply post_map_err, post_Query_groups|].
  intros rows Hr. apply post_lift. intros gs. by apply scan_rows_typed.
Qed.

Lemma post_one f cols w :
  (f = FromGroups ∧ cols = group_columns ∨ f = FromGroupsJoinMembers ∧ cols = g_columns) →
  post holds_typed (QueryRowContext scanGroup (Select f cols w None)) typed_group.
Proof.
  intros Hf. eapply post_bind; [by apply post_Query_groups|].
  intros [|row rows] Hr; [apply post_fail|]. apply post_lift. intros g Hg.
  eapply Hr; [|done]. set_solver.
Qed.

Lemma post_ListGroups : post holds_typed Storage.ListGroups (Forall typed_group).
Proof. apply post_list. by left. Qed.
Lemma post_GetGroupsForUser u : post holds_typed (Storage.GetGroupsForUser u) (Forall typed_group).
Proof. apply post_list. by right. Qed.
Lemma post_ListGroupsByPrefix p t : post holds_typed (ListGroupsByPrefix p t) (Forall typed_group).
Proof. apply post_list. by left. Qed.
Lemma post_GetGroup id : post holds_typed (Storage.GetGroup id) typed_group.
Proof. apply post_map_err, post_one. by left. Qed.
Lemma post_GetGroupByName n t : post holds_typed (GetGroupByName n t) typed_group.
Proof. apply post_map_err, post_one. by left. Qed.

Lemma post_CreateGroup uuid g :
  typed_group g → post holds_typed (Storage.CreateGroup uuid g) typed_group.
Proof.
  intros [Ht Hn]. unfold Storage.CreateGroup. destruct uuid as [id|e]; [|apply post_fail].
  eapply (post_bind _ _ _ (λ _, True)); [|intros ts _; by apply post_ret].
  apply post_map_err. eapply post_bind; [by apply post_Query|].
  intros [|row rows] _; [apply post_fail|by apply post_lift].
Qed.
Lemma post_UpdateGroup now id g :
  typed_group g → post holds_typed (Storage.UpdateGroup now id g) typed_group.
Proof.
  intros [Ht Hn]. eapply (post_bind _ _ _ (λ _, True)); [by apply post_map_err, post_Exec|].
  intros n _. case_decide; [apply post_fail|by apply post_ret].
Qed.
End storage.

(** A method none of whose statements touches the groups' columns, and whose result
    has no type to keep. *)
Ltac untyped :=
  repeat first
    [ apply post_ret; exact Logic.I | apply post_fail | apply post_lift; intros; exact Logic.I
    | apply post_map_err | apply post_on_db | apply post_on_authz
    | apply post_Exec; exact Logic.I | apply post_Query; exact Logic.I
    | eapply (post_bind _ _ _ (λ _, True)); [|intros ? _]
    | case_decide ].

(** ** The requests *)

(** The calls of the two management APIs, and an import. *)
Inductive request :=
  | RCreateGroup (uuid : result string) (req : option PbGroup)
  | RGetGroup (id : string) | RListGroups | RRemoveGroup (id : string)
  | RUpdateGroup (now : time) (id : string) (req : option PbGroup)
  | RListUsersInGroup (id : string)
  | RAddUsersToGroup (now : time) (id : string) (userIds : list string)
  | RRemoveUserFromGroup (id userId : string)
  | RListUserGroups (id : string)
  | RAddUserToGroups (now : time) (id : string) (groupIds : list string)
  | RGetAllowedApps (id : string)
  | RAddAllowedApp (now : time) (id : string) (app : option string)
  | RRemoveAllowedApp (id app : string) | RRemoveAllowedApps (id : string)
  | RGetAllowedGroups (app : string) | RRemoveAllowedGroups (app : string)
  | RRun (clock : string → time) (uuid : string → result string) (d : DriverInterface)
  | RSync (clock : string → time) (uuid : string → result string) (d : DriverInterface).

Section requests.
Context {S T : Type} `{!PgParams} `{!Engine S} `{!GoRange} `{!AuthorizerOps T}.

(** The groups in an answer. *)
Definition shows (h : handler (S * T) (response (list PbGroup))) : S * T → list PbGroup * (S * T) :=
  λ st, match h st with
        | (inr resp, st) => (Data resp, st)
        | (inl _, st) => ([], st)
        end.
Definition shows_none {A} (h : handler (S * T) A) : S * T → list PbGroup * (S * T) :=
  λ st, ([], (h st).2).
Definition imports {A} (m : M (S * T) A) : S * T → list PbGroup * (S * T) :=
  λ st, ([], (m st).2).

Definition serve (q : request) : S * T → list PbGroup * (S * T) :=
  match q with
  | RCreateGroup uuid req => shows (Groups.GrpcServer.CreateGroup uuid req)
  | RGetGroup id => shows (Groups.GrpcServer.GetGroup id)
  | RListGroups => shows Groups.GrpcServer.ListGroups
  | RRemoveGroup id => shows_none (Groups.GrpcServer.RemoveGroup id)
  | RUpdateGroup now id req => shows (Groups.GrpcServer.UpdateGroup now id req)
  | RListUsersInGroup id => shows_none (Groups.GrpcServer.ListUsersInGroup id)
  | RAddUsersToGroup now id us => shows_none (Groups.GrpcServer.AddUsersToGroup now id us)
  | RRemoveUserFromGroup id u => shows_none (Groups.GrpcServer.RemoveUserFromGroup id u)
  | RListUserGroups id => shows (Groups.GrpcServer.ListUserGroups id)
  | RAddUserToGroups now id gs => shows_none (Groups.GrpcServer.AddUserToGroups now id gs)
  | RGetAllowedApps id => shows_none (AppAuthz.GrpcServer.GetAllowedAppsInGroup id)
  | RAddAllowedApp now id app => shows_none (AppAuthz.GrpcServer.AddAllowedAppToGroup now id app)
  | RRemoveAllowedApp id app => shows_none (AppAuthz.GrpcServer.RemoveAllowedAppFromGroup id app)
  | RRemoveAllowedApps id => shows_none (AppAuthz.GrpcServer.RemoveAllowedAppsFromGroup id)
  | RGetAllowedGroups app => shows_none (AppAuthz.GrpcServer.GetAllowedGroupsForApp app)
  | RRemoveAllowedGroups app => shows_none (AppAuthz.GrpcServer.RemoveAllowedGroupsForApp app)
  | RRun clock uuid d => imports (on_db (Run clock uuid d))
  | RSync clock uuid d => imports (Sync clock uuid d)
  end.

(** Requests one after the other, with all the groups they show. *)
Fixpoint serve_all (qs : list request) (st : S * T) : list PbGroup * (S * T) :=
  match qs with
  | [] => ([], st)
  | q :: qs =>
      let '(shown, st) := serve q st in
      let '(rest, st) := serve_all qs st in (shown ++ rest, st)
  end.
End requests.

(** ** Every request keeps the types *)

(** What a client may be shown. *)
Definition typed_pb (g : PbGroup) : Prop :=
  (PbType g = "local" ∨ PbType g = "external")%string ∧ PbTenantId g = "default"%string.

Lemma to_pb_typed g : typed_group g → typed_pb (to_pb g).
Proof. intros [[Ht|Ht] Hn]; split; cbn; rewrite ?Ht; auto. Qed.

Section typing.
Context {S T : Type} `{EngineLaws S} `{!GoRange} `{!AuthorizerOps T}.

Abbreviation C := (on_conn (T:=T) (holds_typed (S:=S))).

Lemma shows_typed h :
  hpost (holds_typed (S:=S)) h (λ resp, Forall typed_pb (Data resp)) →
  ∀ st : S * T, C st → let '(shown, st') := shows h st in C st' ∧ Forall typed_pb shown.
Proof.
  intros Hh st Hst. unfold shows. destruct (h st) as [[e|resp] st'] eqn:Hx;
    apply Hh in Hx as [? Ha]; try done. split; [done|]. by apply Ha.
Qed.

Lemma shows_none_typed {A} (h : handler (S * T) A) :
  hpost (holds_typed (S:=S)) h (λ _, True) →
  ∀ st : S * T, C st → let '(shown, st') := shows_none h st in C st' ∧ Forall typed_pb shown.
Proof.
  intros Hh st Hst. unfold shows_none. destruct (h st) as [a st'] eqn:Hx.
  apply Hh in Hx as [? _]; [|done]. by split.
Qed.

Lemma imports_typed {A} (m : M (S * T) A) :
  post C m (λ _, True) →
  ∀ st : S * T, C st → let '(shown, st') := imports m st in C st' ∧ Forall typed_pb shown.
Proof.
  intros Hm st Hst. unfold imports. destruct (m st) as [a st'] eqn:Hx.
  apply Hm in Hx as [? _]; [|done]. by split.
Qed.

(** *** The importer *)

Lemma create_with_typed clock uuid name us :
  post (holds_typed (S:=S)) (create_with clock uuid name us) (λ _, True).
Proof.
  unfold create_with. eapply post_bind.
  { apply post_attempt, post_CreateGroup. by split; [left|]. }
  intros [g|e] _; [|by apply post_ret]. eapply (post_bind _ _ _ (λ _, True)).
  - eapply post_any, post_attempt. unfold Storage.AddUsersToGroup. untyped.
  - intros r _. by apply post_ret.
Qed.

Lemma import_group_typed clock uuid users name :
  post (holds_typed (S:=S)) (import_group clock uuid users name) (λ _, True).
Proof.
  unfold import_group. eapply post_bind; [apply post_attempt, post_GetGroupByName|].
  intros [g|e] _; [|apply create_with_typed]. eapply (post_bind _ _ _ (λ _, True)).
  - eapply post_any, post_attempt. unfold Storage.AddUsersToGroup. untyped.
  - intros r _. by apply post_ret.
Qed.

Lemma reconcile_group_typed clock uuid users existing name :
  post (holds_typed (S:=S)) (reconcile_group clock uuid users existing name) (λ _, True).
Proof.
  unfold reconcile_group. destruct (existing !! name); [|apply create_with_typed].
  eapply (post_bind _ _ _ (λ _, True)).
  - eapply post_any, post_attempt. unfold SyncGroupMembers. untyped.
  - intros r _. by apply post_ret.
Qed.

Lemma delete_stale_typed users existing name :
  post C (delete_stale users existing name) (λ _, True).
Proof.
  unfold delete_stale. destruct (existing !! name) as [g|]; [|by apply post_ret].
  case_decide; [by apply post_ret|]. eapply (post_bind _ _ _ (λ _, True)).
  { eapply post_any, post_attempt, post_on_db. unfold Storage.DeleteGroup. untyped. }
  intros [u|e] _; [|by apply post_ret]. eapply (post_bind _ _ _ (λ _, True)).
  - eapply post_any, post_attempt, post_on_authz.
  - intros r _. by apply post_ret.
Qed.

Lemma Run_typed clock uuid d : post C (on_db (Run clock uuid d)) (λ _, True).
Proof.
  apply post_on_db. unfold Run. destruct (FetchAllUserGroups d); [|apply post_fail].
  apply post_each. intros name. apply import_group_typed.
Qed.

Lemma Sync_typed clock uuid d : post C (Sync clock uuid d) (λ _, True).
Proof.
  unfold Sync. destruct (FetchAllUserGroups d); [|apply post_fail].
  eapply post_bind; [apply post_map_err, post_on_db, post_ListGroupsByPrefix|]. intros gs _.
  eapply (post_bind _ _ _ (λ _, True)).
  { apply post_on_db, post_each. intros name. apply reconcile_group_typed. }
  intros n _. eapply (post_bind _ _ _ (λ _, True)).
  { apply post_each. intros name. apply delete_stale_typed. }
  intros n' _. case_decide; [apply post_fail|by apply post_ret].
Qed.

(** *** The handlers *)

Lemma CreateGroup_typed uuid req :
  hpost (holds_typed (S:=S)) (Groups.GrpcServer.CreateGroup (T:=T) uuid req)
    (λ resp, Forall typed_pb (Data resp)).
Proof.
  unfold Groups.GrpcServer.CreateGroup. destruct req as [g|]; [|apply hpost_refuse].
  pose proof (ParseGroupType_valid (PbType g)) as Hty.
  destruct (ParseGroupType (PbType g)) as [ty [e|]]; [apply hpost_error|].
  eapply hpost_answer; [|intros x Hx; constructor; [by apply to_pb_typed|constructor]].
  unfold Groups.Service.CreateGroup. case_decide; [apply post_fail|].
  by apply post_map_err, post_on_db, post_CreateGroup.
Qed.

Lemma UpdateGroup_typed now id req :
  hpost (holds_typed (S:=S)) (Groups.GrpcServer.UpdateGroup (T:=T) now id req)
    (λ resp, Forall typed_pb (Data resp)).
Proof.
  unfold Groups.GrpcServer.UpdateGroup. destruct req as [g|]; [|apply hpost_refuse].
  case_decide; [apply hpost_refuse|].
  pose proof (ParseGroupType_valid (PbType g)) as Hty.
  destruct (ParseGroupType (PbType g)) as [ty [e|]]; [apply hpost_error|].
  eapply hpost_answer; [|intros x Hx; constructor; [by apply to_pb_typed|constructor]].
  by apply post_map_err, post_on_db, post_UpdateGroup.
Qed.

(** The handlers whose answer shows no group. *)
Ltac quiet :=
  apply shows_none_typed; unfold AppAuthz.GrpcServer.GetAllowedAppsInGroup,
    AppAuthz.GrpcServer.AddAllowedAppToGroup, AppAuthz.GrpcServer.RemoveAllowedAppFromGroup,
    AppAuthz.GrpcServer.RemoveAllowedAppsFromGroup, AppAuthz.GrpcServer.GetAllowedGroupsForApp,
    AppAuthz.GrpcServer.RemoveAllowedGroupsForApp;
  repeat case_decide; try apply hpost_refuse;
  eapply (hpost_answer _ _ _ _ (λ _, True)); [|done];
  unfold Groups.Service.DeleteGroup, Groups.Service.ListUsersInGroup,
    Groups.Service.AddUsersToGroup, Groups.Service.RemoveUsersFromGroup,
    Groups.Service.UpdateGroupsForUser, AppAuthz.Service.GetAllowedAppsInGroup,
    AppAuthz.Service.AddAllowedAppToGroup, AppAuthz.Service.RemoveAllowedAppFromGroup,
    AppAuthz.Service.RemoveAllAllowedAppsFromGroup, AppAuthz.Service.GetAllowedGroupsForApp,
    AppAuthz.Service.RemoveAllAllowedGroupsForApp,
    Storage.DeleteGroup, Storage.ListUsersInGroup, Storage.AddUsersToGroup,
    Storage.RemoveUsersFromGroup, Storage.UpdateGroupsForUser, GetAllowedApps, AddAllowedApp,
    RemoveAllowedApp, RemoveAllowedApps, Storage.GetAllowedGroupsForApp,
    Storage.RemoveAllAllowedGroupsForApp; untyped.

Lemma serve_typed q (st : S * T) :
  C st → let '(shown, st') := serve q st in C st' ∧ Forall typed_pb shown.
Proof.
  destruct q; cbn [serve]; revert st.
  - apply shows_typed, CreateGroup_typed.
  - apply shows_typed. eapply hpost_answer; [apply post_map_err, post_on_db, post_GetGroup|].
    intros x Hx. constructor; [by apply to_pb_typed|constructor].
  - apply shows_typed. eapply hpost_answer; [apply post_on_db, post_ListGroups|].
    intros x Hx. apply Forall_fmap. by eapply list.Forall_impl; [exact Hx|apply to_pb_typed].
  - quiet.
  - apply shows_typed, UpdateGroup_typed.
  - quiet.
  - quiet.
  - quiet.
  - apply shows_typed.
    eapply hpost_answer; [apply post_map_err, post_on_db, post_GetGroupsForUser|].
    intros x Hx. apply Forall_fmap. by eapply list.Forall_impl; [exact Hx|apply to_pb_typed].
  - quiet.
  - quiet.
  - destruct app; [|apply shows_none_typed, hpost_refuse]. quiet.
  - quiet.
  - quiet.
  - quiet.
  - quiet.
  - apply imports_typed, Run_typed.
  - apply imports_typed, Sync_typed.
Qed.

(** C11: types are an invariant of the service: over any sequence of requests to the
    management APIs and of imports, whatever their arguments and however the stores
    fail, every group in the database stays of the type "local" or "external" and of the
    default tenant, and no group is ever shown with another type, "unknown" in
    particular, or of another tenant. *)
Theorem management_well_typed (qs : list request) (s : S) (t : T) :
  well_typed (view s) →
  let '(shown, (s', _)) := serve_all qs (s, t) in
  well_typed (view s') ∧
  ∀ g, g ∈ shown → (PbType g = "local" ∨ PbType g = "external")%string ∧
                   PbTenantId g = "default"%string.
Proof.
  intros Hs. assert (∀ st, C st → let '(shown, st') := serve_all qs st in
    C st' ∧ Forall typed_pb shown) as Hall.
  { induction qs as [|q qs IH]; intros st Hst; cbn [serve_all]; [by split|].
    pose proof (serve_typed q st Hst) as Hq. destruct (serve q st) as [shown st1].
    destruct Hq as [Hc1 Hf1]. specialize (IH st1 Hc1).
    destruct (serve_all qs st1) as [rest st2]. destruct IH as [Hc2 Hf2].
    split; [done|]. by apply Forall_app_2. }
  specialize (Hall (s, t) Hs). destruct (serve_all qs (s, t)) as [shown [s' t']].
  destruct Hall as [Hw Hf]. split; [done|]. by apply list.Forall_forall.
Qed.
End typing.

Module Witnesses.
Import TestParams StorageSpec.Witnesses TestServer Groups.Witnesses.
Local Open Scope string_scope.

(** A group is created with a type of its own, one without, one with none that is
    known; all are listed. *)
Definition session : list request :=
  [RCreateGroup (Ok "c1") (Some (pb "ops" "external")); RCreateGroup (Ok "c2") (Some (pb "dev" ""));
   RCreateGroup (Ok "c3") (Some (pb "odd" "dynamic")); RUpdateGroup 9 "c1" (Some (pb "" "local"));
   RListGroups].

Lemma management_well_typed_witness :
  let '(shown, (s', _)) := serve_all (S:=database) (T:=server) session (empty_db, t0) in
  well_typed (view s') ∧
  ∀ g, g ∈ shown → (PbType g = "local" ∨ PbType g = "external") ∧ PbTenantId g = "default".
Proof.
  refine (management_well_typed (S:=database) (T:=server) session empty_db t0 _).
  intros r Hr. by apply not_elem_of_nil in Hr.
Defined.

Example types_shown :
  PbType <$> (serve_all (S:=database) (T:=server) session (empty_db, t0)).1 =
  ["external"; "local"; "local"; "local"; "local"].
Proof. vm_compute. reflexivity. Qed.
End Witnesses.
