(* ===== verification/Authn.v ===== *)
(** * pkg/authentication: who may call the management APIs

    [VerifyToken] (verifier.go, noop.go), the HTTP middleware (middleware.go), the
    gRPC stream interceptor (grpc_interceptor.go), the set-up of a verifier
    (authenticator.go) and the parsing of its configuration (cmd/serve.go).

    The signature and issuer check and the decoding of a token's claims are
    go-oidc's: class [Oidc].  Log lines and the security log are left out. *)

From S2P Require Import Prelude Errors Logging Storage StorageSpec Grpc.

Local Open Scope nat_scope.

(** ** The strings package *)

(** The UTF-8 encodings of the code points of unicode.IsSpace.  Each starts with
    a byte that is no continuation byte, so looking for them byte by byte finds
    what decoding the string finds. *)
Definition bytes (l : list nat) : string :=
  String.string_of_list_ascii (Ascii.ascii_of_nat <$> l).
Definition spaces : list string :=
  (bytes <$> [[9]; [10]; [11]; [12]; [13]; [32]; [194; 133]; [194; 160]; [225; 154; 128];
              [226; 128; 168]; [226; 128; 169]; [226; 128; 175]; [226; 129; 159];
              [227; 128; 128]]) ++
  ((λ n, bytes [226; 128; 128 + n]) <$> seq 0 11).

(** The length of the white-space character [s] starts with, 0 if with none. *)
Definition space_len (s : string) : nat :=
  match filter (λ p, String.prefix p s = true) spaces with
  | p :: _ => String.length p
  | [] => 0
  end.

Definition word (cur : string) : list string := if decide (cur = "")%string then [] else [cur].

(** [strings.Fields]: [skip] bytes belong to a white-space character already
    seen, [cur] is the word read so far. *)
Fixpoint fields_from (skip : nat) (cur s : string) : list string :=
  match s with
  | "" => word cur
  | String a s' =>
      match skip with
      | Datatypes.S n => fields_from n cur s'
      | 0 => match space_len s with
             | 0 => fields_from 0 (cur +:+ String a "") s'
             | Datatypes.S n => (word cur ++ fields_from n "" s')%list
             end
      end
  end%string.
Definition Fields (s : string) : list string := fields_from 0 "" s.

(** [strings.TrimSpace] *)
Fixpoint trim_left (skip : nat) (s : string) : string :=
  match s with
  | "" => ""
  | String a s' =>
      match skip with
      | Datatypes.S n => trim_left n s'
      | 0 => match space_len s with 0 => s | Datatypes.S n => trim_left n s' end
      end
  end%string.
Fixpoint trim_right (s : string) : string :=
  match s with
  | "" => ""
  | String a s' => if decide (Fields s = []) then "" else String a (trim_right s')
  end%string.
Definition TrimSpace (s : string) : string := trim_right (trim_left 0 s).

(** [strings.TrimPrefix] *)
Definition TrimPrefix (s prefix : string) : string :=
  if String.prefix prefix s
  then String.substring (String.length prefix) (String.length s - String.length prefix) s
  else s.

(** ** verifier.go *)

Record jwt_claims := mkClaims { Subject : string; Scope : string; Scopes : list string }.

Class Oidc := {
  idtoken : Type;
  Verify : string → result idtoken;
  Claims : idtoken → result jwt_claims;
}.

(** TokenVerifierInterface. *)
Class TokenVerifier := { VerifyToken : string → result bool }.

Record JWTVerifier := mkVerifier { allowedSubjects : list string; requiredScope : string }.

Module JWT.
Definition subject_allowed (v : JWTVerifier) (claims : jwt_claims) : bool :=
  bool_decide (0 < length (allowedSubjects v))%nat
  && bool_decide (Subject claims ∈ allowedSubjects v).

Definition scope_granted (v : JWTVerifier) (claims : jwt_claims) : bool :=
  bool_decide (requiredScope v ≠ "")%string
  && ((bool_decide (Scope claims ≠ "")%string
       && bool_decide (requiredScope v ∈ Fields (Scope claims)))
      || bool_decide (requiredScope v ∈ Scopes claims)).

Definition VerifyToken `{Oidc} (v : JWTVerifier) (rawToken : string) : result bool :=
  match Verify rawToken with
  | Err err => Err err
  | Ok token =>
      match Claims token with
      | Err err => Err err
      | Ok claims =>
          if subject_allowed v claims then Ok true
          else if scope_granted v claims then Ok true
          (* The last two cases, no criterion configured or none met, differ in
             what they log. *)
          else Ok false
      end
  end.

(** What the same call writes, in order. *)
Definition VerifyToken_logs `{Oidc} `{Zap} (logger : Logger) (v : JWTVerifier)
    (rawToken : string) : list (list Field) :=
  match Verify rawToken with
  | Err _ => []
  | Ok token =>
      match Claims token with
      | Err err => log_Debug logger ("Failed to extract claims: " +:+ Error err)
      | Ok claims =>
          if subject_allowed v claims then []
          else if scope_granted v claims then []
          else if bool_decide (length (allowedSubjects v) = 0)%nat
                  && bool_decide (requiredScope v = "")%string
          then log_Debug logger "No authorization criteria configured" ++
               AuthzFailure (security logger) (Subject claims) "jwt_api_access" []
          else AuthzFailure (security logger) (Subject claims) "jwt_api_access" []
      end
  end.
End JWT.

(** ** noop.go *)

Module NoopVerifier.
Definition VerifyToken (_ : string) : result bool := Ok true.
End NoopVerifier.

Definition jwt_verifier `{Oidc} (v : JWTVerifier) : TokenVerifier :=
  {| VerifyToken := JWT.VerifyToken v |}.
Definition noop_verifier : TokenVerifier := {| VerifyToken := NoopVerifier.VerifyToken |}.

(** ** middleware.go *)

(** [http.Header.Get] on the values of the header. *)
Definition header_get (values : list string) : string := default ""%string (head values).

Definition getBearerToken (authorization : list string) : option string :=
  let bearer := header_get authorization in
  if decide (bearer = "")%string then None
  else if negb (HasPrefix bearer "Bearer ") then None
  else Some (TrimPrefix bearer "Bearer ").

(** The middleware lets a request through or answers 401 with a message. *)
Inductive verdict := Passes | Unauthorized (message : string).

Definition Authenticate `{TokenVerifier} (authorization : list string) : verdict :=
  match getBearerToken authorization with
  | None => Unauthorized "missing authorization header"
  | Some token =>
      match VerifyToken token with
      | Err _ => Unauthorized "invalid token"
      | Ok authorized => if negb authorized then Unauthorized "unauthorized" else Passes
      end
  end.

(** ** grpc_interceptor.go *)

(** [md] are the values of the call's "authorization" metadata, if it has
    metadata at all. *)
Definition StreamAuthenticate `{TokenVerifier} (md : option (list string)) : option status :=
  match md with
  | None => Some (mkStatus Unauthenticated "missing metadata")
  | Some [] => Some (mkStatus Unauthenticated "missing authorization header")
  | Some (bearer :: _) =>
      if negb (HasPrefix bearer "Bearer ")
      then Some (mkStatus Unauthenticated "invalid authorization format")
      else
        match VerifyToken (TrimPrefix bearer "Bearer ") with
        | Err _ => Some (mkStatus Unauthenticated "invalid token")
        | Ok authorized =>
            if negb authorized then Some (mkStatus Unauthenticated "unauthorized") else None
        end
  end.

(** ** authenticator.go *)

(** Where the keys come from; a provider is discovered over the network. *)
Class OidcSources := {
  jwks_oidc (issuer jwksURL : string) : Oidc;
  discover (issuer : string) : result Oidc;
}.

(** provider.go *)
Definition NewProvider `{OidcSources} (issuer : string) : result Oidc :=
  match discover issuer with
  | Err err => Err (errorf_v "failed to create OIDC provider" err)
  | Ok provider => Ok provider
  end.
Definition NewProviderWithJWKS `{OidcSources} (issuer jwksURL : string) : result Oidc :=
  Ok (jwks_oidc issuer jwksURL).

Definition NewJWTAuthenticator `{OidcSources} (issuer jwksURL : string)
    (allowedSubjects : list string) (requiredScope : string) : result TokenVerifier :=
  if decide (issuer = "")%string
  then Err (EText "issuer is required for JWT authentication")
  else if decide (jwksURL ≠ "")%string
  then match NewProviderWithJWKS issuer jwksURL with
       | Err err => Err (errorf_v "failed to create JWKS verifier" err)
       | Ok o => Ok (jwt_verifier (H:=o) (mkVerifier allowedSubjects requiredScope))
       end
  else match NewProvider issuer with
       | Err err => Err (errorf_v "failed to create OIDC provider" err)
       | Ok o => Ok (jwt_verifier (H:=o) (mkVerifier allowedSubjects requiredScope))
       end.

(** ** cmd/serve.go: AUTHENTICATION_ALLOWED_SUBJECTS *)

Definition parse_subjects (s : string) : list string :=
  if decide (s ≠ "")%string
  then filter (λ trimmed, trimmed ≠ ""%string) (TrimSpace <$> Split ","%char s)
  else [].

(** ** Lemmas on the strings functions *)

(** The characters of scopes and names: ASCII, neither blank nor control. *)
Definition token_char (a : ascii) : bool :=
  bool_decide (33 ≤ Ascii.nat_of_ascii a ≤ 126).
Fixpoint token (s : string) : bool :=
  match s with "" => true | String a s => token_char a && token s end%string.

Lemma space_len_token a s : token_char a = true → space_len (String a s) = 0.
Proof. by destruct a as [[] [] [] [] [] [] [] []]. Qed.

Lemma space_len_blank s : space_len (String " " s) = 1.
Proof. by destruct s. Qed.

Lemma fields_token w cur s :
  token w = true → fields_from 0 cur (w +:+ s) = fields_from 0 (cur +:+ w) s.
Proof.
  revert cur. induction w as [|a w IH]; intros cur Hw; [by rewrite string_app_nil_r|].
  cbn in Hw. apply andb_true_iff in Hw as [Ha Hw].
  rewrite string_app_cons. cbn [fields_from]. rewrite space_len_token by done.
  rewrite IH by done. f_equal. by rewrite string_app_assoc.
Qed.

Lemma Fields_token w : token w = true → Fields w = word w.
Proof.
  intros Hw. unfold Fields. rewrite <- (string_app_nil_r w) at 1.
  by rewrite fields_token, string_app_nil_l by done.
Qed.

(** Reading back a blank-separated list of scopes. *)
Lemma Fields_concat ws :
  Forall (λ w, token w = true ∧ w ≠ ""%string) ws → Fields (String.concat " " ws) = ws.
Proof.
  induction 1 as [|w ws [Hw Hne] Hws IH]; [done|].
  destruct ws as [|w' ws].
  - change (String.concat " " [w]) with w. rewrite Fields_token by done.
    unfold word. by rewrite decide_False by done.
  - change (String.concat " " (w :: w' :: ws)) with (w +:+ " " +:+ String.concat " " (w' :: ws)).
    unfold Fields. rewrite fields_token, string_app_nil_l by done.
    rewrite string_app_cons, string_app_nil_l. cbn [fields_from]. rewrite space_len_blank.
    unfold word. rewrite decide_False by done. cbn. f_equal. exact IH.
Qed.

Lemma trim_right_token w : token w = true → trim_right w = w.
Proof.
  induction w as [|a w IH]; [done|]. intros Hw. cbn [trim_right].
  rewrite Fields_token by done. unfold word. rewrite (decide_False (P:=String a w = _)) by done.
  rewrite decide_False by done. cbn in Hw. apply andb_true_iff in Hw as [_ Hw]. by rewrite IH.
Qed.

Lemma trim_left_token w : token w = true → trim_left 0 w = w.
Proof.
  destruct w as [|a w]; [done|]. intros Hw. cbn in Hw. apply andb_true_iff in Hw as [Ha _].
  cbn [trim_left]. by rewrite space_len_token.
Qed.

Lemma TrimSpace_token w : token w = true → TrimSpace w = w.
Proof. intros Hw. unfold TrimSpace. by rewrite trim_left_token, trim_right_token. Qed.

Lemma TrimSpace_blank w : token w = true → TrimSpace (String " " w) = w.
Proof.
  intros Hw. unfold TrimSpace. cbn [trim_left]. rewrite space_len_blank.
  by rewrite trim_left_token, trim_right_token.
Qed.

Lemma Split_concat (ws : list string) w :
  without ","%char w → Forall (without ","%char) ws →
  Split ","%char (String.concat ", " (w :: ws)) = w :: ((λ x, String " " x) <$> ws).
Proof.
  intros Hw Hws. revert w Hw. unfold Split. induction Hws as [|w' ws Hw' Hws IH]; intros w Hw.
  - change (String.concat ", " [w]) with w. rewrite <- (string_app_nil_r w) at 1.
    by rewrite split_without, string_app_nil_l by done.
  - change (String.concat ", " (w :: w' :: ws)) with (w +:+ ", " +:+ String.concat ", " (w' :: ws)).
    rewrite split_without, string_app_nil_l by done.
    change (", " +:+ String.concat ", " (w' :: ws))
      with (String ","%char (String " "%char (String.concat ", " (w' :: ws)))).
    cbn [split_from]. rewrite decide_True by done. rewrite fmap_cons. f_equal.
    rewrite decide_False by done. specialize (IH (String " " w')).
    destruct ws as [|w'' ws]; (apply IH; unfold without in *; cbn; set_solver).
Qed.

Lemma TrimPrefix_app p s : TrimPrefix (p +:+ s) p = s.
Proof.
  unfold TrimPrefix. replace (String.prefix p (p +:+ s)) with true
    by (symmetry; apply HasPrefix_app).
  assert (String.substring 0 (String.length s) s = s) as Hs.
  { induction s as [|a s IH]; [done|]. cbn. by rewrite IH. }
  induction p as [|a p IH]; cbn; [by rewrite Nat.sub_0_r|]. exact IH.
Qed.

(** ** What the verifiers and the guards decide *)

(** Whom [v] authorises. *)
Definition authorised (v : JWTVerifier) (c : jwt_claims) : Prop :=
  Subject c ∈ allowedSubjects v
  ∨ (requiredScope v ≠ ""%string
     ∧ (requiredScope v ∈ Fields (Scope c) ∨ requiredScope v ∈ Scopes c)).

Lemma Fields_nil : Fields "" = [].
Proof. reflexivity. Qed.

(** The claims decide [VerifyToken] once the token is genuine. *)
Lemma verify_claims `{Oidc} v raw token c :
  Verify raw = Ok token → Claims token = Ok c →
  ∃ b, JWT.VerifyToken v raw = Ok b ∧ (b = true ↔ authorised v c).
Proof.
  intros Hv Hc. unfold JWT.VerifyToken, JWT.subject_allowed, JWT.scope_granted, authorised. rewrite Hv, Hc.
  destruct (decide (Subject c ∈ allowedSubjects v)) as [Hs|Hs].
  - exists true. split; [|naive_solver].
    rewrite (bool_decide_eq_true_2 (Subject c ∈ _)) by done.
    rewrite bool_decide_eq_true_2; [done|].
    destruct (allowedSubjects v); [by apply not_elem_of_nil in Hs|cbn; lia].
  - rewrite (bool_decide_eq_false_2 (Subject c ∈ _)), andb_false_r by done.
    destruct (decide (requiredScope v = ""%string)) as [Hr|Hr].
    { rewrite bool_decide_eq_false_2 by tauto. exists false. split; [done|]. naive_solver. }
    rewrite bool_decide_eq_true_2 by done. rewrite andb_true_l.
    assert ((bool_decide (Scope c ≠ "")%string && bool_decide (requiredScope v ∈ Fields (Scope c)))
            = bool_decide (requiredScope v ∈ Fields (Scope c))) as ->.
    { destruct (decide (Scope c = ""%string)) as [->|?].
      - rewrite Fields_nil. by rewrite (bool_decide_eq_false_2 (_ ∈ [])) by apply not_elem_of_nil.
      - by rewrite bool_decide_eq_true_2 by done. }
    destruct (_ || _) eqn:Hb; eexists; (split; [reflexivity|]).
    + apply orb_true_iff in Hb as [Hb%bool_decide_eq_true|Hb%bool_decide_eq_true]; naive_solver.
    + apply orb_false_iff in Hb as [Hb1%bool_decide_eq_false Hb2%bool_decide_eq_false].
      naive_solver.
Qed.

Lemma VerifyToken_true `{Oidc} v raw :
  JWT.VerifyToken v raw = Ok true ↔
    ∃ token c, Verify raw = Ok token ∧ Claims token = Ok c ∧ authorised v c.
Proof.
  destruct (Verify raw) as [token|e] eqn:Hv; [destruct (Claims token) as [c|e] eqn:Hc|].
  - destruct (verify_claims v raw token c Hv Hc) as (b & -> & Hb). split.
    + intros [= ->]. exists token, c. by rewrite <- Hb.
    + intros (token'&c'&[= <-]&Hc'&Ha). rewrite Hc in Hc'. injection Hc' as <-.
      f_equal. by apply Hb.
  - unfold JWT.VerifyToken. rewrite Hv, Hc. split; [done|].
    intros (?&c'&[= <-]&Hc'&_). congruence.
  - unfold JWT.VerifyToken. rewrite Hv. split; [done|]. by intros (?&?&?&_).
Qed.

(** C33: a verifier grants access exactly when the token's signature and claims
    are good and its subject is one of the allowed ones or it carries the
    required scope, in either form; it errs exactly when the token or its claims
    cannot be read; without a criterion it grants nothing. *)
Theorem VerifyToken_spec `{Oidc} (v : JWTVerifier) (raw : string) :
  (JWT.VerifyToken v raw = Ok true ↔
     ∃ token c, Verify raw = Ok token ∧ Claims token = Ok c ∧ authorised v c) ∧
  (∀ e, JWT.VerifyToken v raw = Err e ↔
     Verify raw = Err e ∨ ∃ token, Verify raw = Ok token ∧ Claims token = Err e) ∧
  JWT.VerifyToken (mkVerifier [] "") raw ≠ Ok true.
Proof.
  split; [apply VerifyToken_true|split].
  - intros e. unfold JWT.VerifyToken. destruct (Verify raw) as [token|e'] eqn:Hv.
    2:{ split; [intros [= ->]; by left|]. by intros [[= ->]|(?&?&_)]. }
    destruct (Claims token) as [c|e'] eqn:Hc.
    + split; [by intros; repeat case_match|]. intros [?|(?&[= <-]&?)]; congruence.
    + split; [intros [= <-]; eauto|]. intros [?|(?&[= <-]&?)]; congruence.
  - rewrite VerifyToken_true. intros (token&c&_&_&Ha). unfold authorised in Ha; cbn in Ha.
    destruct Ha as [Ha|[? _]]; [by apply not_elem_of_nil in Ha|done].
Qed.

(** C26: what a token that is genuine but not authorised leaves in the logs: whatever
    the log level and the verifier's criteria, one line of the security log marked
    CRITICAL that names its subject, at the end; a token that is let in or cannot be
    read leaves no line of the security log. *)
Theorem refusals_are_audited `{Oidc} `{ZapLaws} level v raw :
  let out := JWT.VerifyToken_logs (NewLogger level) v raw in
  match JWT.VerifyToken v raw with
  | Ok false =>
      ∃ token c before last,
        Verify raw = Ok token ∧ Claims token = Ok c ∧ out = before ++ [last] ∧
        (∀ l, l ∈ before → ("type", "service")%string ∈ l) ∧
        reported "CRITICAL" ("authz_fail:" +:+ Subject c +:+ ",jwt_api_access") [] [last]
  | _ => ∀ l, l ∈ out → ("type", "service")%string ∈ l
  end.
Proof.
  assert (∀ m l, l ∈ log_Debug (NewLogger level) m → ("type", "service")%string ∈ l) as Hd.
  { intros m l. unfold log_Debug, write, NewLogger; cbn [SugaredLogger].
    destruct (decide (severity (service_level level) ≤ severity DebugLevel)%Z).
    - rewrite zap_enabled by done. rewrite list_elem_of_singleton. intros ->. cbn. set_solver.
    - rewrite zap_disabled by (cbn in *; lia). by intros ?%not_elem_of_nil. }
  cbv zeta. unfold JWT.VerifyToken, JWT.VerifyToken_logs.
  destruct (Verify raw) as [token|e] eqn:Hv; [|by intros ? ?%not_elem_of_nil].
  destruct (Claims token) as [c|e] eqn:Hc; [|apply Hd].
  destruct (JWT.subject_allowed v c); [by intros ? ?%not_elem_of_nil|].
  destruct (JWT.scope_granted v c); [by intros ? ?%not_elem_of_nil|].
  set (none := bool_decide (length (allowedSubjects v) = 0)%nat
               && bool_decide (requiredScope v = "")%string).
  set (bf := if none then log_Debug (NewLogger level) "No authorization criteria configured"
             else []).
  destruct (event_critical level ("User " +:+ Subject c +:+
      " attempted to access resource jwt_api_access without entitlement")
      ("authz_fail:" +:+ Subject c +:+ ",jwt_api_access")
      ("authz_fail:" +:+ Subject c +:+ ",jwt_api_access") "" [])
    as (msg&rest&Hout); [by rewrite string_app_nil_r|].
  exists token, c, bf. eexists. split_and!; [done..| | |].
  - assert (AuthzFailure (security (NewLogger level)) (Subject c) "jwt_api_access" [] = _) as ->
      by exact Hout.
    subst bf. destruct none; [done|by rewrite app_nil_l].
  - subst bf. destruct none; [apply Hd|by intros ? ?%not_elem_of_nil].
  - by exists msg, rest.
Qed.

(** What a guard of either API wants to see. *)
Definition bearer_ok `{TokenVerifier} (authorization : list string) : Prop :=
  ∃ t, head authorization = Some ("Bearer " +:+ t) ∧ VerifyToken t = Ok true.

(** A header of the wanted form, and its token. *)
Lemma bearer_cases (b : string) :
  (HasPrefix b "Bearer " = false ∧ ∀ t, b ≠ "Bearer " +:+ t) ∨
  (∃ t, b = "Bearer " +:+ t ∧ HasPrefix b "Bearer " = true ∧ TrimPrefix b "Bearer " = t).
Proof.
  destruct (HasPrefix b "Bearer ") eqn:Hb.
  - right. apply HasPrefix_spec in Hb as [t ->]. exists t.
    split; [done|split; [done|apply TrimPrefix_app]].
  - left. split; [done|]. intros t ->. by rewrite HasPrefix_app in Hb.
Qed.

Lemma bearer_ok_cons `{TokenVerifier} t rest :
  bearer_ok (("Bearer " +:+ t) :: rest) ↔ VerifyToken t = Ok true.
Proof.
  unfold bearer_ok. split; [|by exists t]. by intros (t' & [= <-%string_app_inj_l] & ?).
Qed.
Lemma bearer_ok_not `{TokenVerifier} b rest :
  (∀ t, b ≠ "Bearer " +:+ t) → ¬ bearer_ok (b :: rest).
Proof. intros Hno (t&[= Hb]&_). by apply (Hno t). Qed.

Lemma Authenticate_iff `{TokenVerifier} authorization :
  Authenticate authorization = Passes ↔ bearer_ok authorization.
Proof.
  unfold Authenticate, getBearerToken, header_get.
  destruct authorization as [|b rest]; cbn [head default from_option id].
  { rewrite decide_True by done. split; [done|by intros (?&?&_)]. }
  destruct (bearer_cases b) as [[Hp Hno]|(t & -> & Hp & Htrim)].
  - rewrite Hp. cbn [negb]. split; [by case_decide|by intros ?%bearer_ok_not].
  - rewrite decide_False by done. rewrite Hp, Htrim, bearer_ok_cons. cbn [negb].
    by destruct (VerifyToken t) as [[]|e].
Qed.

Lemma StreamAuthenticate_iff `{TokenVerifier} authorization :
  StreamAuthenticate (Some authorization) = None ↔ bearer_ok authorization.
Proof.
  unfold StreamAuthenticate. destruct authorization as [|b rest].
  { split; [done|by intros (?&?&_)]. }
  destruct (bearer_cases b) as [[Hp Hno]|(t & -> & Hp & Htrim)]; rewrite Hp; cbn [negb].
  - split; [done|by intros ?%bearer_ok_not].
  - rewrite Htrim, bearer_ok_cons. by destruct (VerifyToken t) as [[]|e].
Qed.

(** The HTTP middleware and the gRPC interceptor let the same calls through:
    those whose first authorization value is "Bearer " followed by a token the
    verifier accepts. *)
Theorem guards_agree `{TokenVerifier} (authorization : list string) :
  (Authenticate authorization = Passes ↔ bearer_ok authorization) ∧
  (StreamAuthenticate (Some authorization) = None ↔ bearer_ok authorization) ∧
  StreamAuthenticate None ≠ None.
Proof. split; [apply Authenticate_iff|split; [apply StreamAuthenticate_iff|done]]. Qed.

(** With authentication disabled the management API takes every HTTP call
    (its middleware is not installed), yet the gRPC interceptor, which is always
    installed, still refuses every stream without a bearer header. *)
Theorem noop_still_needs_bearer (authorization : list string) :
  StreamAuthenticate (H:=noop_verifier) (Some authorization) = None ↔
  ∃ t, head authorization = Some ("Bearer " +:+ t).
Proof.
  unfold StreamAuthenticate. destruct authorization as [|b rest]; cbn [head]; [naive_solver|].
  destruct (bearer_cases b) as [[Hp Hno]|(t & -> & Hp & Htrim)]; rewrite Hp; cbn; naive_solver.
Qed.

(** The names an allow-list may hold: not empty, no blank, no comma. *)
Definition name_ok (w : string) : Prop :=
  w ≠ ""%string ∧ token w = true ∧ without ","%char w.

(** The allow-list of subjects written with commas, each optionally followed
    by a blank, is read back as written; an empty name, which every token
    without a subject would match, never enters it. *)
Theorem parse_subjects_roundtrip (names : list string) (any : string) :
  Forall name_ok names →
  parse_subjects (String.concat ", " names) = names ∧ ""%string ∉ parse_subjects any.
Proof.
  intros Hn. split.
  2:{ unfold parse_subjects. case_decide; [|apply not_elem_of_nil].
      rewrite list_elem_of_filter. naive_solver. }
  unfold parse_subjects. destruct Hn as [|w ws (Hw0 & Hwt & Hwc) Hws]; [done|].
  rewrite decide_True.
  2:{ destruct w as [|a w]; [done|]. by destruct ws. }
  rewrite Split_concat; [|done|eapply list.Forall_impl; [exact Hws|by intros ? (?&?&?)]].
  rewrite fmap_cons, TrimSpace_token, filter_cons_True by done. f_equal.
  clear -Hws. induction Hws as [|w ws (Hw0 & Hwt & Hwc) Hws IH]; [done|].
  rewrite !fmap_cons, TrimSpace_blank, filter_cons_True by done. by rewrite IH.
Qed.

(** ** Concrete calls *)

Module Witnesses.
#[local] Instance oidc : Oidc := {|
  idtoken := string;
  Verify := λ t, if decide (t = "forged")%string then Err (EText "bad signature") else Ok t;
  Claims := λ t, Ok (mkClaims t "openid groups:write" []);
|}.
Definition by_scope : JWTVerifier := mkVerifier ["alice"%string] "groups:write".

Example scope_grants : JWT.VerifyToken by_scope "bob" = Ok true.
Proof. vm_compute. reflexivity. Qed.
Example subject_decides :
  JWT.VerifyToken (mkVerifier ["alice"%string] "") "bob" = Ok false.
Proof. vm_compute. reflexivity. Qed.
Example forged_is_an_error :
  Authenticate (H:=jwt_verifier by_scope) ["Bearer forged"%string]
  = Unauthorized "invalid token".
Proof. vm_compute. reflexivity. Qed.
Example blanks_and_empty_names :
  parse_subjects " alice ,,bob," = ["alice"; "bob"]%string.
Proof. vm_compute. reflexivity. Qed.

Lemma parse_subjects_roundtrip_witness :
  Forall name_ok ["alice"; "ci-bot"]%string ∧
  parse_subjects (String.concat ", " ["alice"; "ci-bot"]%string) = ["alice"; "ci-bot"]%string ∧
  ""%string ∉ parse_subjects ",,".
Proof.
  assert (Forall name_ok ["alice"; "ci-bot"]%string) as Hn.
  { repeat constructor; try done; unfold without; cbn; set_solver. }
  split; [exact Hn|]. exact (parse_subjects_roundtrip _ ",," Hn).
Defined.

(** Even with the log level "error", bob's refusal is on record. *)
Lemma refusals_are_audited_witness :
  ∃ token c before last,
    Verify "bob"%string = Ok token ∧ Claims token = Ok c ∧
    JWT.VerifyToken_logs (H0 := Logging.Witnesses.test_zap)
      (NewLogger (H := Logging.Witnesses.test_zap) "error")
      (mkVerifier ["alice"%string] "") "bob" = before ++ [last] ∧
    (∀ l, l ∈ before → ("type", "service")%string ∈ l) ∧
    reported "CRITICAL" ("authz_fail:" +:+ Subject c +:+ ",jwt_api_access") [] [last].
Proof.
  exact (refusals_are_audited (H0 := Logging.Witnesses.test_zap)
    (H1 := Logging.Witnesses.test_zap_laws)
    "error" (mkVerifier ["alice"%string] "") "bob").
Defined.
End Witnesses.
