(* ===== verification/Serve.v ===== *)
(** * cmd/serve.go and pkg/web/router.go: what the server is made of

    [serve_start] builds what cmd/serve.go builds before it listens: the database
    client, the authorizer and its check of the deployed model, the tenant
    validator, the verifier of tokens and the worker pool.  [authzRouter] and
    [mapping_stream] put the guards of authentication in front of the management
    APIs as [NewRouter] and the gRPC server do: each guard starts a span first, which
    panics when there is no tracer.

    The network is a parameter: the SDK's constructor, the connection to the tenant
    service, the OIDC provider, PostgreSQL's answers.  The whole handler is in [Router],
    what happens once the servers listen in [Shutdown], the process in [Main]. *)

From Stdlib Require Import SpecFloat.
From S2P Require Import Prelude Errors Logging Sql Storage StorageSpec Tracing DbClient Fga AuthModel Authorizer Grpc Tenants Authn Config.

(** ** The parts of a server *)

Definition dbConfig (specs : EnvSpec) : DbClient.Config := {|
  DSN := spec_DSN specs; MaxConns := spec_DBMaxConns specs; MinConns := spec_DBMinConns specs;
  MaxConnLifetime := spec_DBMaxConnLifetime specs;
  MaxConnIdleTime := spec_DBMaxConnIdleTime specs;
  TracingEnabled := spec_TracingEnabled specs;
  ReplicaDSN := spec_ReplicaDSN specs; ReplicaMaxConns := spec_ReplicaDBMaxConns specs;
  ReplicaMinConns := spec_ReplicaDBMinConns specs;
  ReplicaMaxConnLifetime := spec_ReplicaDBMaxConnLifetime specs;
  ReplicaMaxConnIdleTime := spec_ReplicaDBMaxConnIdleTime specs;
  MaxReplicaLagMs := spec_MaxReplicaLagMs specs;
  ReplicaPoolSizeMultiplier := spec_ReplicaPoolSizeMultiplier specs;
|}.

(** How a step of the start ends: the process exits ([logger.Fatalf]), panics,
    [serve] returns an error, or there is a value to go on with. *)
Inductive started (A : Type) :=
  | Exits (msg : string) | Panics (msg : string) | Fails (e : goerr) | Up (a : A).
Arguments Exits {A}.
Arguments Panics {A}.
Arguments Fails {A}.
Arguments Up {A}.

Section start.
Context {T TD : Type} `{!SdkFactory T TD} `{!Transformer TD} `{!Validator} `{!OidcSources} `{!GrpcDial}.
(** The tracer, which every operation starts a span on. *)
Context (tracer : option Tracer).
(** The largest channel the runtime allocates. *)
Context (maxChan : Z).

Definition serve_authorizer (specs : EnvSpec) (t : T) : started (AuthzClient T TD) * T :=
  if spec_AuthorizationEnabled specs then
    match NewClient (NewConfig (spec_OpenfgaApiScheme specs) (spec_OpenfgaApiHost specs)
                       (spec_OpenfgaStoreId specs) (spec_OpenfgaApiToken specs)
                       (spec_OpenfgaModelId specs) (spec_Debug specs)) with
    | Err err => (Panics (Error err), t)
    | Ok ofga =>
        let authorizer := client_AuthzClient (FgaSdk0:=ofga) in
        match Start tracer "authorization.Authorizer.ValidateModel" with
        | Err err => (Panics (Error err), t)
        | Ok _ =>
            match ValidateModel (AuthzClient0:=authorizer) t with
            | (Err (EPanic msg), t) => (Panics msg, t)
            | (Err _, t) => (Panics "Invalid authorization model provided", t)
            | (Ok _, t) => (Up authorizer, t)
            end
        end
    end
  else (Up noop_AuthzClient, t).

Definition serve_tenants (specs : EnvSpec) : started TenantValidator :=
  if decide (spec_TenantServiceGRPCAddress specs ≠ "")%string then
    match NewGRPCConn (spec_TenantServiceGRPCAddress specs) (spec_TenantServiceTLSEnabled specs) with
    | Err err => Fails err
    | Ok conn => Up (client_validator (LookupTenants_over conn (spec_TenantServiceGRPCTimeout specs)))
    end
  else Up noop_validator.

Definition serve_verifier (specs : EnvSpec) : started TokenVerifier :=
  if spec_AuthenticationEnabled specs then
    match NewJWTAuthenticator (spec_AuthenticationIssuer specs)
            (spec_AuthenticationJwksURL specs)
            (parse_subjects (spec_AuthenticationAllowedSubjects specs))
            (spec_AuthenticationRequiredScope specs) with
    | Err err => Fails (errorf_v "failed to setup JWT authenticator" err)
    | Ok v => Up v
    end
  else Up noop_verifier.

(** The buffer of [NewWorkerPool]: [make(chan *job, 2*workers)]. *)
Definition serve_pool (specs : EnvSpec) : started Z :=
  let n := spec_HookMaxConcurrent specs in
  let size := (2 * n + 2 ^ 63) `mod` 2 ^ 64 - 2 ^ 63 in
  if decide (0 ≤ size ≤ maxChan) then Up n else Panics "makechan: size out of range".

Record server := mkServer {
  srv_db : client; srv_authz : AuthzClient T TD; srv_tenants : TenantValidator;
  srv_verifier : TokenVerifier; srv_workers : Z;
}.

Definition and_then {A B} (x : started A) (f : A → started B) : started B :=
  match x with Exits m => Exits m | Panics m => Panics m | Fails e => Fails e | Up a => f a end.

Definition serve_db (specs : EnvSpec) (a : pgx_answers) (d rd : database) : started client :=
  match NewDBClient (dbConfig specs) a d rd with
  | Fatal msg => Exits msg
  | Started (Err err) => Fails (errorf_v "failed to create database client" err)
  | Started (Ok c) => Up c
  end.

Definition serve_start (specs : EnvSpec) (a : pgx_answers) (d rd : database) (t : T)
    : started server * T :=
  match serve_db specs a d rd with
  | Up dbClient =>
      let '(authorizer, t) := serve_authorizer specs t in
      (and_then authorizer (λ authorizer,
       and_then (serve_tenants specs) (λ tenantValidator,
       and_then (serve_verifier specs) (λ jwtVerifier,
       and_then (serve_pool specs) (λ wpool,
       Up (mkServer dbClient authorizer tenantValidator jwtVerifier wpool))))), t)
  | Exits m => (Exits m, t)
  | Panics m => (Panics m, t)
  | Fails e => (Fails e, t)
  end.
End start.
Arguments server : clear implicits.

(** ** The guards in front of the management APIs *)

(** [NewRouter]: everything mounted under /api/v0/authz. *)
Definition authzRouter {W} (tracer : option Tracer) (authenticationEnabled : bool)
    (jwtVerifier : TokenVerifier) (authorization : list string) (gateway : http_handler W)
    : http_handler W := λ x st,
  if authenticationEnabled then
    match Start tracer "authentication.Middleware.Authenticate" with
    | Err err => (Panicked (Error err), st)
    | Ok _ =>
        match Authenticate (H:=jwtVerifier) authorization with
        | Passes => gateway x st
        | Unauthorized _ => (Wrote [401], st)
        end
    end
  else gateway x st.

(** What comes of a stream: how it ended, well when there is no status, or a panic in
    its goroutine, which nothing recovers. *)
Inductive stream_answer := StreamEnds (st : option status) | StreamPanics (msg : string).

(** The chain of stream interceptors. *)
Definition mapping_stream {St} (tracer : option Tracer) (jwtVerifier : TokenVerifier)
    (fullMethod : string) (md : option (list string)) (stream : ctx → St → option status * St)
    (x : ctx) (s : St) : stream_answer * St :=
  match Start tracer "authentication.GrpcInterceptor.StreamAuthenticate" with
  | Err err => (StreamPanics (Error err), s)
  | Ok _ =>
      match StreamAuthenticate (H:=jwtVerifier) md with
      | Some st => (StreamEnds (Some st), s)
      | None =>
          let '(st, s) := StreamReplicaRoutingInterceptor fullMethod stream x s in
          (StreamEnds st, s)
      end
  end.

(** ** Properties *)

Lemma Authenticate_cases `{TokenVerifier} authorization :
  bearer_ok authorization ∧ Authenticate authorization = Passes ∨
  ¬ bearer_ok authorization ∧ ∃ m, Authenticate authorization = Unauthorized m.
Proof.
  pose proof (Authenticate_iff authorization) as Hi.
  destruct (Authenticate authorization) as [|m]; [left; by rewrite <- Hi|right].
  split; [by rewrite <- Hi|eauto].
Qed.

Lemma StreamAuthenticate_cases `{TokenVerifier} authorization :
  bearer_ok authorization ∧ StreamAuthenticate (Some authorization) = None ∨
  ¬ bearer_ok authorization ∧
    ∃ m, StreamAuthenticate (Some authorization) = Some (mkStatus Unauthenticated m).
Proof.
  pose proof (StreamAuthenticate_iff authorization) as Hi.
  destruct (StreamAuthenticate (Some authorization)) as [st|] eqn:Hs;
    [right|left; by rewrite <- Hi].
  split; [by rewrite <- Hi|]. unfold StreamAuthenticate in Hs. repeat case_match; naive_solver.
Qed.

Section properties.
Context {T TD : Type} `{!SdkFactory T TD} `{!Transformer TD} `{!Validator} `{!OidcSources} `{!GrpcDial}.
Context (tracer : option Tracer) (maxChan : Z).
Implicit Types (specs : EnvSpec) (t : T).

(** The pieces of a server that started. *)
Lemma serve_start_inv specs a d rd t srv t' :
  serve_start tracer maxChan specs a d rd t = (Up srv, t') →
  serve_db specs a d rd = Up (srv_db srv) ∧
  serve_authorizer tracer specs t = (Up (srv_authz srv), t') ∧
  serve_tenants specs = Up (srv_tenants srv) ∧
  serve_verifier specs = Up (srv_verifier srv).
Proof.
  unfold serve_start, and_then. intros Hs.
  destruct (serve_db specs a d rd) as [?|?|?|c]; try done.
  destruct (serve_authorizer tracer specs t) as [[?|?|?|z] t1]; try done.
  destruct (serve_tenants specs) as [?|?|?|tv]; try done.
  destruct (serve_verifier specs) as [?|?|?|v]; try done.
  destruct (serve_pool maxChan specs) as [?|?|?|n]; try done.
  by simplify_eq.
Qed.

(** The tokens a configuration accepts: genuine for its issuer, and of an
    allowed subject or scope. *)
Definition accepted specs (raw : string) : Prop :=
  ∃ o : Oidc,
    (o = jwks_oidc (spec_AuthenticationIssuer specs) (spec_AuthenticationJwksURL specs) ∨
     discover (spec_AuthenticationIssuer specs) = Ok o) ∧
    ∃ token c, Verify raw = Ok token ∧ Claims token = Ok c ∧
      authorised (mkVerifier (parse_subjects (spec_AuthenticationAllowedSubjects specs))
                    (spec_AuthenticationRequiredScope specs)) c.

Lemma verifier_accepts specs v raw :
  spec_AuthenticationEnabled specs = true → serve_verifier specs = Up v →
  VerifyToken (TokenVerifier:=v) raw = Ok true → accepted specs raw.
Proof.
  intros Hen. unfold serve_verifier, NewJWTAuthenticator, NewProviderWithJWKS, NewProvider. rewrite Hen.
  case_decide; [done|]. case_decide as Hu; [|destruct (discover _) as [o|e] eqn:Hd; [|done]].
  - intros [= <-] Hv. exists (jwks_oidc (spec_AuthenticationIssuer specs)
      (spec_AuthenticationJwksURL specs)). split; [by left|].
    by apply VerifyToken_true in Hv.
  - intros [= <-] Hv. exists o. split; [by right|]. by apply VerifyToken_true in Hv.
Qed.

(** The model of the program, as the transformer reads it. *)
Definition program_model : result (AuthorizationModel TD) :=
  (GetModel (NewAuthorizationModelProvider "v0")).1.

(** When the deployed model passes: equal definitions are reported different. *)
Lemma validated sdk t r t' :
  ValidateModel (AuthzClient0:=client_AuthzClient (FgaSdk0:=sdk)) t = (r, t') →
  is_ok r = true ↔
    ∃ model m, program_model = Ok model ∧
      sdk_ReadAuthorizationModel (FgaSdk:=sdk) t = (Ok m, t') ∧
      SchemaVersion m = SchemaVersion model ∧ TypeDefinitions m ≠ TypeDefinitions model.
Proof.
  unfold ValidateModel. fold program_model. cbv [mbind M_bind lift].
  destruct program_model as [model|e] eqn:Hm.
  2: { intros [= <- <-]. split; [done|]. by intros (?&?&?&_). }
  cbn [ac_CompareModel client_AuthzClient].
  unfold Client.CompareModel, Client.ReadModel. cbv [mbind M_bind].
  destruct (sdk_ReadAuthorizationModel t) as [[m|e] t1].
  2: { intros [= <- <-]. split; [done|]. by intros (?&?&_&[= ?]&_). }
  unfold DeepEqual. case_decide as Hs; [|case_bool_decide as Hd]; cbn; intros [= <- <-].
  - split; [done|]. by intros (?&?&[= <-]&[= <-]&?&_).
  - split; [done|]. by intros (?&?&[= <-]&[= <-]&_&?).
  - split; [intros _|done]. exists model, m. by split_and!.
Qed.

(** C34: with authorization enabled the start of the server passes the authorizer
    exactly when there is a tracer, the OpenFGA client can be made, the program's own
    model can be read, and the store has a model of the same schema version whose type
    definitions are not deeply equal to the program's; otherwise it panics.  A store
    that gives the program's own definitions back therefore stops the server, and one
    with any other definitions does not: a deployment comes up only because what its
    OpenFGA server returns is not deeply equal to what was written. *)
Theorem serve_authorizer_spec specs t :
  spec_AuthorizationEnabled specs = true →
  ∃ o t', serve_authorizer tracer specs t = (o, t') ∧
  ((∃ z, o = Up z) ∨ ∃ msg, o = Panics msg) ∧
  ((∃ z, o = Up z) ↔
     is_Some tracer ∧ ∃ sdk model m,
       NewClient (NewConfig (spec_OpenfgaApiScheme specs) (spec_OpenfgaApiHost specs)
                    (spec_OpenfgaStoreId specs) (spec_OpenfgaApiToken specs)
                    (spec_OpenfgaModelId specs) (spec_Debug specs)) = Ok sdk ∧
       program_model = Ok model ∧
       sdk_ReadAuthorizationModel (FgaSdk:=sdk) t = (Ok m, t') ∧
       SchemaVersion m = SchemaVersion model ∧ TypeDefinitions m ≠ TypeDefinitions model).
Proof.
  intros Hen. unfold serve_authorizer. rewrite Hen.
  destruct (NewClient _) as [sdk|e].
  2: { do 2 eexists. split; [reflexivity|]. split; [eauto|]. split; [by intros [? ?]|].
       by intros (_&?&?&?&?&_). }
  destruct (Start tracer _) as [x|e] eqn:Hst.
  2: { do 2 eexists. split; [reflexivity|]. split; [eauto|]. split; [by intros [? ?]|].
       intros [[? ->] _]. done. }
  assert (is_Some tracer) as Htr by (destruct tracer; [eauto|done]).
  destruct (ValidateModel (AuthzClient0:=client_AuthzClient (FgaSdk0:=sdk)) t)
    as [r t1] eqn:Hr.
  pose proof (validated sdk t r t1 Hr) as Hi.
  assert (∃ o, (match (r, t1) with
      | (Err (EPanic msg), t) => (Panics msg, t)
      | (Err _, t) => (Panics "Invalid authorization model provided", t)
      | (Ok _, t) => (Up (client_AuthzClient (FgaSdk0:=sdk)), t)
      end) = (o, t1) ∧ ((∃ z, o = Up z) ∨ ∃ msg, o = Panics msg) ∧
      ((∃ z, o = Up z) ↔ is_ok r = true)) as (o&->&Ho&Hup).
  { destruct r as [u|e]; [|destruct e]; eexists; (split; [reflexivity|]); (split; [eauto|]);
      split; intros Hx; first [done|by destruct Hx|by eauto]. }
  exists o, t1. split_and!; [done..|]. rewrite Hup, Hi. naive_solver.
Qed.
End properties.

(** ** A concrete start *)

Module Witnesses.
Import Authn.Witnesses.

#[export] Instance sdk : FgaSdk unit nat := {
  sdk_Write _ _ := mret tt;
  sdk_Check _ _ _ _ := mret (Some false);
  sdk_GetAuthorizationModelId := mret "01"%string;
  sdk_BatchCheck _ _ := mret [];
  sdk_Read _ _ _ _ := mret ([], ""%string);
  sdk_ListObjects _ _ _ := mret [];
  sdk_ListUsers _ _ _ _ _ := mret [];
  sdk_CreateStore _ := mret "01"%string;
  sdk_ReadAuthorizationModel := mret (mkModel "1.1" 7%nat);
  sdk_WriteAuthorizationModel _ := mret "01"%string;
}.
#[export] Instance factory : SdkFactory unit nat := {|
  NewSdkClient _ := Ok sdk; SetStoreId _ c := c; SetAuthorizationModelId _ c := c;
|}.
#[export] Instance validator : Validator :=
  {| Struct fields := if decide (""%string ∈ fields) then Some (EText "required") else None |}.
#[export] Instance sources : OidcSources :=
  {| jwks_oidc _ _ := oidc; discover _ := Err (EText "no network") |}.

Definition tracer0 : option Tracer := Some (mkTracer (NoopTracer service_name) NewNoopLogger).

(** A transformer that gives the file these type definitions. *)
Definition gives (n : nat) : Transformer nat := {|
  Proto := string; TransformDSLToProto := Ok; protojson_Marshal := Ok;
  json_Unmarshal _ := Ok (mkModel "1.1"%string n);
|}.
#[export] Instance dial : GrpcDial := {|
  ClientConn := string; grpc_NewClient a _ _ := Ok a; LookupTenants_over _ _ _ := Ok (Some []);
|}.
Definition no_faults : pgx_answers := mkPgx None None None None None None None [] [] [].
Definition specs (authz : bool) : EnvSpec := {|
  spec_OtelGRPCEndpoint := ""; spec_OtelHTTPEndpoint := ""; spec_TracingEnabled := false;
  spec_LogLevel := "error"; spec_Debug := false;
  spec_Port := 8080; spec_GRPCPort := 9090; spec_GRPCMaxConcurrentStreams := 100;
  spec_ApiToken := "s3cret";
  spec_OpenfgaApiScheme := "http"; spec_OpenfgaApiHost := "fga:8080";
  spec_OpenfgaApiToken := "secret"; spec_OpenfgaStoreId := "store"; spec_OpenfgaModelId := "model";
  spec_SalesforceDomain := ""; spec_SalesforceConsumerKey := ""; spec_SalesforceConsumerSecret := "";
  spec_AuthorizationEnabled := authz; spec_OpenFGAWorkersTotal := 150;
  spec_AuthenticationEnabled := true; spec_AuthenticationIssuer := "https://issuer";
  spec_AuthenticationJwksURL := "https://issuer/jwks";
  spec_AuthenticationAllowedSubjects := "alice, bob"; spec_AuthenticationRequiredScope := "";
  spec_DSN := "postgres://db"; spec_DBMaxConns := 25; spec_DBMinConns := 2;
  spec_DBMaxConnLifetime := 0; spec_DBMaxConnIdleTime := 0;
  spec_TenantServiceGRPCAddress := ""; spec_TenantServiceGRPCTimeout := 0;
  spec_TenantServiceTLSEnabled := false;
  spec_ReplicaDSN := ""; spec_ReplicaDBMaxConns := 0; spec_ReplicaDBMinConns := 0;
  spec_ReplicaDBMaxConnLifetime := 0; spec_ReplicaDBMaxConnIdleTime := 0;
  spec_MaxReplicaLagMs := 1000; spec_ReplicaPoolSizeMultiplier := S754_zero false;
  spec_StreamTimeout := 30 * second; spec_HookMaxConcurrent := 150;
|}.

Lemma serve_authorizer_spec_witness :
  ∃ o t', serve_authorizer (Transformer0 := gives 8) tracer0 (specs true) tt = (o, t') ∧
  ((∃ z, o = Up z) ∨ ∃ msg, o = Panics msg) ∧
  ((∃ z, o = Up z) ↔
     is_Some tracer0 ∧ ∃ (c : FgaSdk unit nat) model m,
       NewClient (NewConfig "http" "fga:8080" "store" "secret" "model" false) = Ok c ∧
       program_model (Transformer0 := gives 8) = Ok model ∧
       sdk_ReadAuthorizationModel tt = (Ok m, t') ∧
       SchemaVersion m = SchemaVersion model ∧ TypeDefinitions m ≠ TypeDefinitions model).
Proof.
  exact (serve_authorizer_spec (Transformer0 := gives 8) tracer0 (specs true) tt eq_refl).
Defined.

(** The deployed model is the program's: the server does not start. *)
Example deployed_model_stops_serve :
  (serve_start (Transformer0 := gives 7) tracer0 1000 (specs true) no_faults empty_db empty_db tt).1
  = Panics "Invalid authorization model provided".
Proof. vm_compute. reflexivity. Qed.
End Witnesses.
