(* ===== verification/Router.v ===== *)
(** * pkg/web/router.go, pkg/status, pkg/metrics: the handler of the HTTP server

    [NewRouter] composes what the other files model: the middlewares in the order of
    router.go (metrics, CORS, transaction), the hook behind its token, the endpoints
    for metrics and status, and the gRPC gateway behind authentication.  A request runs
    over the database client, the authorizer's store, the bodies written so far and the
    monitor.

    chi's matching of paths, go-chi/cors, the page of promhttp and grpc-gateway are
    parameters.  The identifier [middleware.RequestID] gives a request and the debug
    line of [middleware.RequestLogger] ([Logging.request_log_only_debug]) do not reach
    any handler; otelhttp, a parameter too, wraps the router. *)

From Stdlib Require Import SpecFloat.
From S2P Require Import Prelude Errors Logging Types Sql Storage StorageSpec Tracing DbClient Monitoring Authorizer Grpc Groups Pool Tenants Hooks Authn Config Serve.
Open Scope Z_scope.

(** ** The request *)

Record http_request := mkReq {
  r_Method : string; r_Path : string;
  r_Authorization : list string;      (** the values of the header *)
  r_Body : result string;             (** what reading the body gives *)
}.

(** ** Bodies, and the state of a request *)

(** pkg/status: [BuildInfo] and [Status]. *)
Record status_BuildInfo := mkStatusBuildInfo { Version : string; CommitHash : string; Name : string }.
Record Status := mkStatusBody { status_Status : string; status_Build : option status_BuildInfo }.

Inductive body :=
  | HookBody (d : SessionData) | StatusBody (s : Status) | VersionBody (i : status_BuildInfo)
  | OtherBody (text : string).

(** ** pkg/status *)

Definition status_gitRevision (settings : list (string * string)) : string :=
  Tracing.gitRevision settings.

Definition buildInfo (info : option Tracing.BuildInfo) : option status_BuildInfo :=
  match info with
  | None => None
  | Some info =>
      Some (mkStatusBuildInfo version_Version (status_gitRevision (info_Settings info))
              (info_Main_Path info))
  end.

Definition zero_BuildInfo : status_BuildInfo := mkStatusBuildInfo "" "" "".

(** ** pkg/web/middlewares.go *)

Record cors_Options := mkCors {
  AllowedOrigins : list string; AllowedMethods : list string; AllowedHeaders : list string;
  AllowCredentials : bool; MaxAge : Z;
}.

Definition middlewareCORS (origins : list string) : cors_Options := {|
  AllowedOrigins := origins;
  AllowedMethods := ["HEAD"; "GET"; "POST"; "PUT"; "PATCH"; "DELETE"; "OPTIONS"]%string;
  AllowedHeaders := ["*"%string]; AllowCredentials := true; MaxAge := 300;
|}.

(** go-chi/cors: the codes of a preflight request it answers itself. *)
Class Cors := { preflight : cors_Options → http_request → option (list Z) }.
Class CorsLaws `{!Cors} := {
  preflight_options o r codes : preflight o r = Some codes → r_Method r = "OPTIONS"%string;
}.

(** ** chi *)

(** A route for one method and a path without parameters, or everything under a prefix. *)
Inductive pattern := Exact (method path : string) | Mount (prefix : string).

Definition admits (p : pattern) (method path : string) : Prop :=
  match p with
  | Exact m q => method = m ∧ path = q
  | Mount q => path = q ∨ ∃ rest, path = (q +:+ "/" +:+ rest)%string
  end.

Inductive routed := Route (i : nat) | NotFound | MethodNotAllowed.

Class Chi := { find_route : list pattern → string → string → routed }.

(** A request goes to a pattern that admits it; when exactly one does, to that one. *)
Class ChiLaws `{!Chi} := {
  find_route_sound ps m p i : find_route ps m p = Route i → ∃ q, ps !! i = Some q ∧ admits q m p;
  find_route_unique ps m p i q : ps !! i = Some q → admits q m p →
    (∀ j q', ps !! j = Some q' → admits q' m p → j = i) → find_route ps m p = Route i;
}.

Section router.
Context {T Mon : Type} `{!PgParams} `{!AuthorizerOps T} {VT : TenantValidator} `{!Hydra} `{!GoRange}
  `{!MonitorInterface Mon} `{!ChiWriter} `{!Cors} `{!Chi} `{!Otel} `{!Otelhttp}.

(** What a handler works on besides the client. *)
Abbreviation world := (T * list body)%type.
Abbreviation route_handler := (http_request → http_handler world).

Definition write_body (b : body) (st : client * world) : client * world :=
  (st.1, (st.2.1, st.2.2 ++ [b])).

(** [net/http.Error] with a text. *)
Definition http_Error (text : string) (code : Z) (st : client * world)
    : served * (client * world) :=
  (Wrote [code], write_body (OtherBody text) st).

(** *** pkg/status/handlers.go *)

Definition alive (tracer : option Tracer) (info : option Tracing.BuildInfo) : route_handler :=
  λ _ _ st,
    match Start tracer "buildInfo" with
    | Err (EPanic m) => (Panicked m, st)
    | _ => (Wrote [200], write_body (StatusBody (mkStatusBody "ok" (buildInfo info))) st)
    end.

Definition version (info : option Tracing.BuildInfo) : route_handler := λ _ _ st,
  (Wrote [200], write_body (VersionBody (default zero_BuildInfo (buildInfo info))) st).

(** *** pkg/hooks *)

(** The handler of the hook on a request's connection, behind the span it starts. *)
Definition hook_handler (tracer : option Tracer) (e : pool_fates) (r : http_request) (x : ctx)
    : client * T → reply * (client * T) := λ st,
  match Start tracer "hooks.API.handleHydraHook" with
  | Err _ => (Crashed, st)
  | Ok _ => handleHydraHook (groupClients (Engine0 := client_engine x))
              e (r_Body r) st
  end.

(** [hooks.NewAPI(...).RegisterEndpoints]: behind the middleware when there is a token. *)
Definition hook_route (token : string) (tracer : option Tracer) (e : pool_fates) : route_handler :=
  λ r x st,
    let next := hook_handler tracer e r x in
    let '(a, (c, t)) :=
      (if decide (token ≠ "")%string then AuthMiddleware token (r_Authorization r) next else next)
        (st.1, st.2.1) in
    match a with
    | Replied w =>
        (Wrote [StatusCode w],
         (c, (t, st.2.2 ++ match Body w with Some d => [HookBody d] | None => [] end)))
    | Crashed => (Panicked "hook", (c, (t, st.2.2)))
    | NoReply => (Hangs, (c, (t, st.2.2)))
    end.

(** *** pkg/web/router.go *)

(** Everything under /api/v0/authz. *)
Definition authz_route (authenticationEnabled : bool) (jwtVerifier : TokenVerifier)
    (tracer : option Tracer) (gateway : route_handler) : route_handler := λ r,
  authzRouter tracer authenticationEnabled jwtVerifier (r_Authorization r) (gateway r).

Context (promhttp gateway : route_handler).

(** The routes in the order they are registered. *)
Definition routes (token : string) (authenticationEnabled : bool) (jwtVerifier : TokenVerifier)
    (tracer : option Tracer) (info : option Tracing.BuildInfo) (e : pool_fates)
    : list (pattern * route_handler) := [
  (Exact "POST" "/api/v0/hook/hydra", hook_route token tracer e);
  (Exact "GET" "/api/v0/metrics", promhttp);
  (Exact "GET" "/api/v0/status", alive tracer info);
  (Exact "GET" "/api/v0/version", version info);
  (Mount "/api/v0/authz", authz_route authenticationEnabled jwtVerifier tracer gateway) ]%string.

(** chi's [Mux.ServeHTTP] after the middlewares. *)
Definition route_request (table : list (pattern * route_handler)) : route_handler := λ r x st,
  match find_route table.*1 (r_Method r) (r_Path r) with
  | Route i =>
      match table !! i with
      | Some (_, h) => h r x st
      | None => http_Error "404 page not found" 404 st
      end
  | NotFound => http_Error "404 page not found" 404 st
  | MethodNotAllowed => (Wrote [405], st)
  end.

(** [e] and [elapsed] are what the worker pool and the clock do with this request. *)
Definition NewRouter (token : string) (authenticationEnabled : bool) (jwtVerifier : TokenVerifier)
    (tracer : option Tracer) (info : option Tracing.BuildInfo) (e : pool_fates)
    (elapsed : spec_float) (r : http_request)
    : (client * world) * Mon → served * ((client * world) * Mon) :=
  OpenTelemetry (ResponseTime (r_Method r) (r_Path r) elapsed (λ st,
    match preflight (middlewareCORS ["*"%string]) r with
    | Some codes => (Wrote codes, st)
    | None =>
        TransactionMiddleware (r_Method r)
          (route_request (routes token authenticationEnabled jwtVerifier tracer info e) r)
          background st
    end)).
End router.

(** ** Properties *)

Section hook.
Context {T Mon : Type} `{PgLaws} `{AuthorizerLaws T} {VT : TenantValidator} `{!Hydra} `{!GoRange}
  `{!MonitorInterface Mon} `{!ChiWriter} `{CorsLaws} `{ChiLaws} `{!Otel} `{OtelhttpLaws}.
Implicit Types (c : client) (t : T) (w : list body) (r : http_request).

(** What an answer of 200 of the hook's route means. *)
Lemma hook_route_200 token tracer e r x c t w c' t' w' :
  hook_route token tracer e r x (c, (t, w)) = (Wrote [200], (c', (t', w'))) →
  (token = "" ∨ head (r_Authorization r) = Some token)%string ∧
  ∃ d, w' = w ++ (match d with Some d => [HookBody d] | None => [] end) ∧
    handleHydraHook (groupClients (Engine0 := client_engine x)) e (r_Body r) (c, t) =
      (Replied (mkHttp 200 d), (c', t')).
Proof.
  unfold hook_route, AuthMiddleware, hook_handler. cbn [fst snd].
  assert (∀ st, (match Start tracer "hooks.API.handleHydraHook" with
      | Err _ => (Crashed, (c, t))
      | Ok _ => handleHydraHook (groupClients (Engine0 := client_engine x)) e (r_Body r) (c, t)
      end) = st →
    (let '(a, (c, t)) := st in
     match a with
     | Replied w0 => (Wrote [StatusCode w0],
         (c, (t, w ++ match Body w0 with Some d => [HookBody d] | None => [] end)))
     | Crashed => (Panicked "hook", (c, (t, w)))
     | NoReply => (Hangs, (c, (t, w)))
     end) = (Wrote [200], (c', (t', w'))) →
    ∃ d, w' = w ++ (match d with Some d => [HookBody d] | None => [] end) ∧
      handleHydraHook (groupClients (Engine0 := client_engine x)) e (r_Body r) (c, t) =
        (Replied (mkHttp 200 d), (c', t'))) as Hh.
  { intros [a [c1 t1]] Ha. destruct (Start tracer _) as [?|?]; [|by simplify_eq].
    destruct a as [[code d]| |]; [|done..]. cbn. intros [= -> -> -> <-]. by exists d. }
  case_decide as Ht.
  - case_decide as Ha; [|done]. intros Hx. split.
    + right. destruct (r_Authorization r); cbn in *; [done|by subst].
    + by eapply Hh.
  - intros Hx. split; [left; by destruct (decide (token = ""%string))|]. by eapply Hh.
Qed.

Lemma hook_route_confined token tracer e r x :
  handler_confined x (hook_route (T:=T) token tracer e r).
Proof.
  intros c [t w] out c' [t' w']. unfold hook_route, AuthMiddleware, hook_handler; cbn [fst snd].
  assert (∀ a c1 t1, handleHydraHook (T:=T) (groupClients (Engine0 := client_engine x)) e (r_Body r)
            (c, t) = (a, (c1, t1)) → rtc (step x) c c1) as Hf.
  { intros a c1 t1 Hx. eapply (hook_follows (S:=client) (T:=T) (Engine0 := client_engine x)
      (rtc (step x)) (step_exec x)) in Hx. exact Hx. }
  intros Hx.
  match type of Hx with (let '(_, _) := ?y in _) = _ => destruct y as [a [c1 t1]] eqn:Ha end.
  assert (rtc (step x) c c1) as Hc1.
  { repeat case_decide; try destruct (Start tracer _); simplify_eq; first [reflexivity|by eapply Hf]. }
  by destruct a; simplify_eq.
Qed.

Context (promhttp gateway : http_request → http_handler (T * list body)).

Lemma hook_is_routed token en v tracer info e r x st :
  r_Method r = "POST"%string → r_Path r = "/api/v0/hook/hydra"%string →
  route_request (routes promhttp gateway token en v tracer info e) r x st =
  hook_route token tracer e r x st.
Proof.
  intros Hm Hp. unfold route_request. rewrite Hm, Hp.
  erewrite (find_route_unique _ "POST" "/api/v0/hook/hydra" 0%nat); [done|done|by split|].
  intros j q Hj. destruct j as [|[|[|[|[|j]]]]]; cbn in Hj; simplify_eq; [done|..];
    cbn; intros Ha; first [destruct Ha as [Ha|[rest Ha]]|destruct Ha as [Ha _]]; discriminate Ha.
Qed.

(** What the requester of a token showed, against the database [d] and the grants [A]
    of the authorizer. *)
Definition justified (d : database) (A : gset (string * string)) (token : string) (e : pool_fates) (r : http_request) : Prop :=
  (token = "" ∨ list.head (r_Authorization r) = Some token)%string ∧
  ∃ b req, r_Body r = Ok b ∧ Unmarshal b = Ok req ∧ entitled_by d A req ∧
    (extractTenantID req = ""%string ∨ tenant_fate e = Taken true ∨
     ValidateMembership (SubjectId (NewUserFromHookRequest req)) (extractTenantID req) = None).

(** The bodies an answer adds. *)
Definition hook_body (d : option SessionData) : list body :=
  match d with Some d => [HookBody d] | None => [] end.

Lemma hook_route_sound token tracer e r x c0 c t A w codes c1 t1 w1 :
  ctx_simple x → ctx_view x c0 = primary c → wf (primary c) → granted t A →
  hook_route token tracer e r x (c0, (t, w)) = (Wrote codes, (c1, (t1, w1))) →
  list.head codes = Some 200 →
  codes = [200] ∧ justified (primary c) A token e r ∧ (∃ d, w1 = w ++ hook_body d) ∧
  ctx_view x c1 = primary c.
Proof.
  intros Hsimple Hv Hwf Hg Hr Hcodes.
  assert (codes = [200]) as ->.
  { unfold hook_route in Hr.
    match type of Hr with (let '(_, _) := ?y in _) = _ => destruct y as [[w0| |] [c5 t5]] end;
      [|done..]. injection Hr as <- _ _ _. cbn in Hcodes. by injection Hcodes as ->. }
  apply hook_route_200 in Hr as (Htok&d&->&Hh). split; [done|].
  pose proof (engine_laws_of x Hsimple) as Hlaws.
  eapply (hook_grants (S:=client) (Engine0 := client_engine x)) in Hh as [Hv1 Hj].
  - cbn [view client_engine] in Hv1, Hj. rewrite Hv in Hv1, Hj.
    split_and!; [by split|by exists d|done].
  - cbn [view client_engine]. by rewrite Hv.
  - done.
Qed.

(** A request that is not a preflight: the middleware of the metrics around the
    transaction. *)
Lemma NewRouter_inv token en v tracer info e elapsed r cw m codes cw' m' :
  r_Method r ≠ "OPTIONS"%string →
  NewRouter promhttp gateway token en v tracer info e elapsed r (cw, m) =
    (Wrote codes, (cw', m')) →
  TransactionMiddleware (r_Method r)
    (route_request (routes promhttp gateway token en v tracer info e) r) background cw
    = (Wrote codes, cw') ∧
  m' = (SetResponseTimeMetric (response_tags (r_Method r) (r_Path r) codes) elapsed m).2.
Proof.
  intros Hm. unfold NewRouter, OpenTelemetry. rewrite !otelhttp_law. unfold ResponseTime. cbn [fst snd].
  destruct (preflight _ r) as [?|] eqn:Hpre; [by apply preflight_options in Hpre|].
  destruct (TransactionMiddleware _ _ _ _) as [[cs|?|] st]; [|done..].
  destruct (SetResponseTimeMetric _ _ _) as [[?|[]] ?] eqn:Hset; intros; simplify_eq;
    by rewrite Hset.
Qed.

(** C1: the hook, from the socket to the stores, of a server with authorization enabled
    (by default it is not) over a well-formed database and an OpenFGA store that holds
    the grants [A], whether those are the database's or not.  When it answers 200 to a
    POST of the hook's path, the request carried the configured token, if one is
    configured; the body was a request of Hydra's; its user is a member, by the
    committed database, of groups that [A] grants the client, or all of the audience it
    was granted when it is a service account; the tenant it names has accepted the user,
    unless the pool was shutting down; nothing but the response was written; the request
    was counted once; and, unless the server failed to begin the transaction, the
    database is as it was. *)
Theorem hook_end_to_end token en v tracer info e elapsed r c t A w m codes c' t' w' m' :
  r_Method r = "POST"%string → r_Path r = "/api/v0/hook/hydra"%string →
  wf (primary c) → granted t A →
  NewRouter promhttp gateway token en v tracer info e elapsed r ((c, (t, w)), m) =
    (Wrote codes, ((c', (t', w')), m')) →
  list.head codes = Some 200 →
  justified (primary c) A token e r ∧
  (∃ d, w' = w ++ hook_body d) ∧
  m' = (SetResponseTimeMetric (response_tags "POST" "/api/v0/hook/hydra" [200]) elapsed m).2 ∧
  (next (begin_faults c) = None → primary c' = primary c).
Proof.
  intros Hm Hp Hwf Hg [Htx Hm']%NewRouter_inv Hcodes; [|by rewrite Hm].
  rewrite Hm, Hp in *.
  assert ("POST" ≠ "GET" ∧ "POST" ≠ "HEAD")%string as Hpost by (split; discriminate).
  destruct (TransactionMiddleware_run _ _ _ _ _ _ _ _ Hpost Htx) as (l&c0&c1&He&Hr&_).
  rewrite hook_is_routed in Hr by done.
  eapply hook_route_sound in Hr as (->&?&?&_);
    [|by split|by eapply enter_view|done..].
  split_and!; [done..|]. intros Hb.
  assert (∀ l, handler_confined (contextWithLazyTx background l)
    (route_request (routes promhttp gateway token en v tracer info e) r)) as Hconf.
  { intros l' c3 w3 out3 c4 w4. rewrite hook_is_routed by done. apply hook_route_confined. }
  destruct (TransactionMiddleware_outcome _ _ _ _ _ _ _ _ Hpost Hb Hconf Htx)
    as (l2&c02&c12&Hr2&Hv2&[Hp2|[_ ->]]); [done|].
  rewrite hook_is_routed in Hr2 by done.
  by eapply hook_route_sound in Hr2 as (_&_&_&?); [|by split|done..].
Qed.

(** C40: a service whose exporter of traces cannot be made hands
    out no token: every POST of the hook's path ends in a panic, except those that the
    token refuses. *)
Theorem broken_exporter_disables_hook `{!Zap} token en v info cfg g err e elapsed r cw m out st' :
  Enabled cfg = true → new_exporter cfg = Err err →
  r_Method r = "POST"%string → r_Path r = "/api/v0/hook/hydra"%string →
  NewRouter promhttp gateway token en v (NewTracer info cfg g).1.1 info e elapsed r (cw, m)
    = (out, st') →
  (∃ msg, out = Panicked msg) ∨
  out = Wrote [401] ∧ token ≠ ""%string ∧ list.head (r_Authorization r) ≠ Some token.
Proof.
  intros Hen Hex Hm Hp. unfold NewTracer. rewrite Hen, Hex. cbn [negb fst].
  assert (∀ x c0 t w, hook_route token None e r x (c0, (t, w)) = (Panicked "hook", (c0, (t, w))) ∨
    hook_route token None e r x (c0, (t, w)) = (Wrote [401], (c0, (t, w ++ []))) ∧
    token ≠ ""%string ∧ list.head (r_Authorization r) ≠ Some token) as Hroute.
  { intros x c0 t w. unfold hook_route, AuthMiddleware, hook_handler. cbn [Start fst snd].
    case_decide; [|by left]. case_decide as Ha; [by left|right]. split; [done|]. split; [done|].
    destruct (r_Authorization r); [done|]. cbn in *. by intros [= ->]. }
  unfold NewRouter, OpenTelemetry. rewrite !otelhttp_law. unfold ResponseTime. cbn [fst snd].
  destruct (preflight _ r) as [?|] eqn:Hpre.
  { apply preflight_options in Hpre. by rewrite Hm in Hpre. }
  destruct cw as [c [t w]]. rewrite Hm, Hp.
  destruct (TransactionMiddleware "POST" _ background (c, (t, w))) as [o [c2 [t2 w2]]] eqn:Htx.
  assert ("POST" ≠ "GET" ∧ "POST" ≠ "HEAD")%string as Hpost by (split; discriminate).
  destruct (TransactionMiddleware_run _ _ _ _ _ _ _ _ Hpost Htx) as (l&c0&c1&_&Hr&_).
  rewrite hook_is_routed in Hr by done.
  destruct (Hroute (contextWithLazyTx background l) c0 t w) as [Hx|[Hx ?]];
    rewrite Hx in Hr; injection Hr as <- _ _ _.
  - intros [= <- _]. left. by eexists.
  - destruct (SetResponseTimeMetric _ _ _) as [[?|[]] ?]; intros [= <- _]; eauto.
Qed.
End hook.

Section gateway.
Context {T Mon : Type} `{!PgParams} `{!AuthorizerOps T} {VT : TenantValidator} `{!Hydra} `{!GoRange}
  `{!MonitorInterface Mon} `{!ChiWriter} `{!Cors} `{ChiLaws} `{!Otel} `{OtelhttpLaws}.

Lemma TransactionMiddleware_ext {W} method (h h' : http_handler W) x st :
  (∀ x st, h x st = h' x st) →
  TransactionMiddleware method h x st = TransactionMiddleware method h' x st.
Proof.
  intros Hh. unfold TransactionMiddleware. case_decide; [by rewrite Hh|].
  destruct (WithTx_enter _). by rewrite Hh.
Qed.

(** The management APIs cannot be reached around authentication: with it
    enabled, what the server does with a request that is not under /api/v0/authz, or
    whose header holds no acceptable bearer token, does not depend on them at all. *)
Theorem gateway_guarded (promhttp gateway gateway' : http_request → http_handler (T * list body))
    token v tracer info e elapsed r (st : client * (T * list body) * Mon) :
  (admits (Mount "/api/v0/authz") (r_Method r) (r_Path r) →
   ¬ bearer_ok (H:=v) (r_Authorization r)) →
  NewRouter promhttp gateway token true v tracer info e elapsed r st =
  NewRouter promhttp gateway' token true v tracer info e elapsed r st.
Proof.
  intros Hno.
  assert (∀ x cw, route_request (routes promhttp gateway token true v tracer info e) r x cw =
                  route_request (routes promhttp gateway' token true v tracer info e) r x cw) as Hr.
  { intros x cw. unfold route_request.
    change ((routes promhttp gateway' token true v tracer info e).*1)
      with ((routes promhttp gateway token true v tracer info e).*1).
    destruct (find_route _ _ _) as [i| |] eqn:Hf; [|done..].
    apply find_route_sound in Hf as (q&Hq&Ha).
    destruct i as [|[|[|[|[|i]]]]]; cbn in Hq; [done..| |done]. simplify_eq.
    cbn [lookup list_lookup routes]. unfold authz_route, authzRouter.
    destruct (Start tracer _) as [?|?]; [|done].
    destruct (Authenticate_cases (H:=v) (r_Authorization r)) as [[? _]|[_ [msg Hm]]];
      [by destruct Hno|]. change (Authenticate (r_Authorization r) = Unauthorized msg) in Hm.
    by rewrite Hm. }
  unfold NewRouter, OpenTelemetry. rewrite !otelhttp_law. unfold ResponseTime. cbn [fst snd].
  destruct (preflight _ r); [done|].
  by rewrite (TransactionMiddleware_ext _ _ _ _ _ Hr).
Qed.
End gateway.

(** ** A request through the router *)

Module Witnesses.
Import TestParams StorageSpec.Witnesses DbClient.Witnesses TestServer Groups.Witnesses Hooks.Witnesses
  Monitoring.Witnesses Tracing.Witnesses.
Local Open Scope string_scope.

#[export] Instance test_cors : Cors :=
  {| preflight _ r := if decide (r_Method r = "OPTIONS") then Some [200%Z] else None |}.
#[export] Instance test_cors_laws : CorsLaws.
Proof. split. intros o r codes. cbn. by case_decide. Qed.

Definition admitsb (p : pattern) (m path : string) : bool :=
  match p with
  | Exact m' q => bool_decide (m = m' ∧ path = q)
  | Mount q => bool_decide (path = q) || String.prefix (q +:+ "/") path
  end.

Lemma admitsb_iff p m path : admitsb p m path = true ↔ admits p m path.
Proof.
  destruct p as [m' q|q]; cbn; [apply bool_decide_eq_true|].
  change (String.prefix ?p ?s) with (HasPrefix s p).
  rewrite orb_true_iff, bool_decide_eq_true, HasPrefix_spec. setoid_rewrite string_app_assoc. done.
Qed.

Fixpoint first_route (i : nat) (ps : list pattern) (m path : string) : routed :=
  match ps with
  | [] => NotFound
  | p :: ps => if admitsb p m path then Route i else first_route (S i) ps m path
  end.

Lemma first_route_iff i ps m path :
  match first_route i ps m path with
  | Route j => ∃ k q, j = (i + k)%nat ∧ ps !! k = Some q ∧ admits q m path
  | _ => ∀ k q, ps !! k = Some q → ¬ admits q m path
  end.
Proof.
  revert i. induction ps as [|p ps IH]; intros i; cbn; [by intros ? ? ?|].
  destruct (admitsb p m path) eqn:Hp.
  - exists 0%nat, p. split; [lia|]. split; [done|by apply admitsb_iff].
  - specialize (IH (S i)). destruct (first_route (S i) ps m path) as [j| |].
    + destruct IH as (k&q&->&Hk&Hq). exists (S k), q. split; [lia|]. by split.
    + intros [|k] q Hk; cbn in Hk; [|by eapply IH].
      simplify_eq. rewrite <- admitsb_iff, Hp. done.
    + intros [|k] q Hk; cbn in Hk; [|by eapply IH].
      simplify_eq. rewrite <- admitsb_iff, Hp. done.
Qed.

#[export] Instance test_chi : Chi := {| find_route := first_route 0 |}.
#[export] Instance test_chi_laws : ChiLaws.
Proof.
  split; intros ps m p i; cbn; pose proof (first_route_iff 0 ps m p) as Hf.
  - intros Hi. rewrite Hi in Hf. destruct Hf as (k&q&->&Hk&Hq). by exists q.
  - intros q Hq Ha Hu. destruct (first_route 0 ps m p) as [j| |].
    + destruct Hf as (k&q'&->&Hk&Hq'). by rewrite (Hu _ _ Hk Hq').
    + by destruct (Hf _ _ Hq).
    + by destruct (Hf _ _ Hq).
Qed.

Definition page : http_request → http_handler (server * list body) :=
  λ _ _ st, (Wrote [200%Z], st).

(** Hydra asks for a token for the user u of d0, who is a member of acme. *)
Definition ask : http_request :=
  mkReq "POST" "/api/v0/hook/hydra" ["s3cret"] (Ok "user").

Definition tracer0 : option Tracer := Some (mkTracer (NoopTracer service_name) NewNoopLogger).

Abbreviation serve_test r st :=
  (NewRouter (T:=server) (Mon:=Monitor) (VT:=acme) page page "s3cret" true noop_verifier tracer0 None
     served (S754_zero false) r st).

Lemma hook_end_to_end_witness :
  let c := client0 [] [] in
  let st' := (serve_test ask ((c, (t0, [])), monitor0)).2 in
  justified (VT:=acme) (primary c) (StorageSpec.allowed d0) "s3cret" served ask ∧
  (∃ d, st'.1.2.2 = ([] ++ hook_body d)%list) ∧
  st'.2 = (SetResponseTimeMetric (response_tags "POST" "/api/v0/hook/hydra" [200%Z])
             (S754_zero false) monitor0).2 ∧
  (next (begin_faults c) = None → primary st'.1.1 = primary c).
Proof.
  intros c st'.
  refine (hook_end_to_end (T:=server) (Mon:=Monitor) (VT:=acme) page page "s3cret" true noop_verifier
    tracer0 None served (S754_zero false) ask c t0 (StorageSpec.allowed d0) [] monitor0 [200%Z] st'.1.1 st'.1.2.1 st'.1.2.2 st'.2
    eq_refl eq_refl d0_wf d0_t0_synced _ eq_refl).
  vm_compute. reflexivity.
Defined.

(** Whom nobody vouched for: the same answer whatever the gateway would do. *)
Lemma gateway_guarded_witness :
  let r := mkReq "DELETE" "/api/v0/authz/groups/a1" [] (Ok "") in
  let st := ((client0 [] [], (t0, [])), monitor0) in
  let deletes : http_request → http_handler (server * list body) :=
    λ _ _ st, (Wrote [204%Z], (set_primary empty_db st.1, st.2)) in
  NewRouter (VT:=acme) page page "s3cret" true noop_verifier tracer0 None served (S754_zero false) r st =
  NewRouter (VT:=acme) page deletes "s3cret" true noop_verifier tracer0 None served (S754_zero false) r st.
Proof.
  intros r st deletes.
  refine (gateway_guarded (VT:=acme) page page deletes "s3cret" noop_verifier tracer0 None served
            (S754_zero false) r st _).
  intros _ (tok&Hh&_). discriminate Hh.
Defined.

Lemma broken_exporter_disables_hook_witness :
  let cfg := NewConfig true "::bad" "" NewNoopLogger in
  let run := NewRouter (T:=server) (Mon:=Monitor) (VT:=acme) page page "s3cret" true noop_verifier
      (NewTracer (H0 := Logging.Witnesses.test_zap) None cfg (mkGlobals None [])).1.1
      None served (S754_zero false) ask ((client0 [] [], (t0, [])), monitor0) in
  (∃ msg, run.1 = Panicked msg) ∨
  run.1 = Wrote [401%Z] ∧ "s3cret" ≠ "" ∧ list.head (r_Authorization ask) ≠ Some "s3cret".
Proof.
  intros cfg run.
  refine (broken_exporter_disables_hook (T:=server) (Mon:=Monitor) (VT:=acme)
    (H12 := Logging.Witnesses.test_zap) page page "s3cret" true noop_verifier
    None cfg (mkGlobals None []) (EText "parse error") served (S754_zero false) ask
    (client0 [] [], (t0, [])) monitor0 run.1 run.2 eq_refl eq_refl eq_refl eq_refl _).
  apply surjective_pairing.
Defined.

(** The version endpoint needs no token; an unknown path is 404, a wrong method is
    not served. *)
Example version_is_public :
  (serve_test (mkReq "GET" "/api/v0/version" [] (Ok "")) ((client0 [] [], (t0, [])), monitor0)).1
  = Wrote [200%Z].
Proof. vm_compute. reflexivity. Qed.
Example unknown_path :
  (serve_test (mkReq "GET" "/api/v0/nothing" [] (Ok "")) ((client0 [] [], (t0, [])), monitor0)).1
  = Wrote [404%Z].
Proof. vm_compute. reflexivity. Qed.
End Witnesses.
