(* ===== verification/Shutdown.v ===== *)
(** * cmd/serve.go: the life of the two servers

    After the set-up [serve] runs three goroutines under an errgroup: one serves
    HTTP, one gRPC, one waits for a signal.  The first that returns an error
    cancels the context of the group; the others see it, stop and return; [serve]
    returns what [eg.Wait()] gives, nothing when that is the shutdown signal.

    [step] is one move of one goroutine: what its [select] saw, or the end of its
    server's shutdown.  [run] is a sequence of moves, in any order the program's
    [select]s allow.  errgroup (golang.org/x/sync) is the class [ErrGroup]; what a
    server or a shutdown returns is part of a move. *)

From S2P Require Import Prelude Errors.

(** ** errgroup *)

Class ErrGroup := {
  Group : Type;
  WithContext : Group;
  (** a goroutine of the group returned *)
  eg_return (e : option goerr) (g : Group) : Group;
  (** [ctx.Done()] is closed *)
  eg_done (g : Group) : bool;
  (** what [Wait] returns, all goroutines having returned *)
  eg_Wait (g : Group) : option goerr;
}.

(** The documentation of [WithContext] and [Wait]: the context is cancelled the
    first time a goroutine returns an error, and [Wait] returns that error. *)
Class ErrGroupLaws `{!ErrGroup} := {
  new_done : eg_done WithContext = false;
  new_wait : eg_Wait WithContext = None;
  return_done e g : eg_done (eg_return e g) = bool_decide (is_Some e) || eg_done g;
  return_wait e g : eg_Wait (eg_return e g) = match eg_Wait g with Some e' => Some e' | None => e end;
}.

(** ** The three goroutines *)

(** A server's goroutine: in its [select], shutting its server down, or over. *)
Inductive phase := Serving | Stopping | Over.
#[export] Instance phase_eq_dec : EqDecision phase.
Proof. solve_decision. Defined.

(** The body of the first goroutine: [case err := <-errChan]. *)
Definition http_returned (err : option goerr) : option goerr :=
  match err with
  | Some err => if errors_is err HttpErrServerClosed then None
                else Some (errorf_w "HTTP server error" err)
  | None => None
  end.
(** [httpServer.Shutdown(shutdownCtx)] *)
Definition http_shut_down (err : option goerr) : option goerr :=
  errorf_w "HTTP server shutdown error" <$> err.
Definition grpc_returned (err : option goerr) : option goerr :=
  match err with
  | Some err => if errors_is err GrpcErrServerStopped then None
                else Some (errorf_w "gRPC server error" err)
  | None => None
  end.

Section lifecycle.
Context `{!ErrGroup}.

Record lifecycle := mkLife { http : phase; grpc : phase; waiting : bool; group : Group }.
Definition start : lifecycle := mkLife Serving Serving true WithContext.

Inductive move :=
  | HttpReturns (err : option goerr)   (** [ListenAndServe] *)
  | HttpCancelled                      (** [<-ctx.Done()] *)
  | HttpShutDown (err : option goerr)  (** [Shutdown], at most 15 seconds later *)
  | GrpcReturns (err : option goerr)   (** [grpcSrv.Serve] *)
  | GrpcCancelled
  | GrpcStopped        (** [GracefulStop], or [Stop] after 15 seconds *)
  | SignalReceived
  | SignalCancelled.

(** [None]: the goroutine is not where it could make this move. *)
Definition step (m : move) (s : lifecycle) : option lifecycle :=
  match m with
  | HttpReturns err =>
      if decide (http s = Serving)
      then Some (mkLife Over (grpc s) (waiting s) (eg_return (http_returned err) (group s)))
      else None
  | HttpCancelled =>
      if decide (http s = Serving ∧ eg_done (group s) = true)
      then Some (mkLife Stopping (grpc s) (waiting s) (group s)) else None
  | HttpShutDown err =>
      if decide (http s = Stopping)
      then Some (mkLife Over (grpc s) (waiting s) (eg_return (http_shut_down err) (group s)))
      else None
  | GrpcReturns err =>
      if decide (grpc s = Serving)
      then Some (mkLife (http s) Over (waiting s) (eg_return (grpc_returned err) (group s)))
      else None
  | GrpcCancelled =>
      if decide (grpc s = Serving ∧ eg_done (group s) = true)
      then Some (mkLife (http s) Stopping (waiting s) (group s)) else None
  | GrpcStopped =>
      if decide (grpc s = Stopping)
      then Some (mkLife (http s) Over (waiting s) (eg_return None (group s))) else None
  | SignalReceived =>
      if waiting s
      then Some (mkLife (http s) (grpc s) false
                   (eg_return (Some (ESentinel ErrShutdownSignal)) (group s)))
      else None
  | SignalCancelled =>
      if waiting s && eg_done (group s)
      then Some (mkLife (http s) (grpc s) false
                   (eg_return (Some (ESentinel ContextCanceled)) (group s)))
      else None
  end.

Fixpoint run (ms : list move) (s : lifecycle) : option lifecycle :=
  match ms with [] => Some s | m :: ms => step m s ≫= run ms end.

(** Every goroutine of the group has returned. *)
Definition finished (s : lifecycle) : Prop := http s = Over ∧ grpc s = Over ∧ waiting s = false.

(** [if err := eg.Wait(); ...] *)
Definition serve_result (s : lifecycle) : option goerr :=
  match eg_Wait (group s) with
  | None => None
  | Some err => if errors_is err ErrShutdownSignal then None else Some err
  end.

(** ** Properties *)

(** What ends the service: a server that returns an error other than the one that says
    it was closed, or a signal. *)
Inductive ends_with : move → goerr → Prop :=
  | http_server_failed err : errors_is err HttpErrServerClosed = false →
      ends_with (HttpReturns (Some err)) (errorf_w "HTTP server error" err)
  | grpc_server_failed err : errors_is err GrpcErrServerStopped = false →
      ends_with (GrpcReturns (Some err)) (errorf_w "gRPC server error" err)
  | signal_received : ends_with SignalReceived (ESentinel ErrShutdownSignal).

(** The first move that ends the service ends it with [err]; no move does. *)
Definition goes_on (ms : list move) : Prop := ∀ m err, m ∈ ms → ¬ ends_with m err.
Definition ends_first (ms : list move) (err : goerr) : Prop :=
  ∃ before m after, ms = before ++ m :: after ∧ goes_on before ∧ ends_with m err.

(** The same as the goroutines have it. *)
Definition ends_service (m : move) : option goerr :=
  match m with
  | HttpReturns err => http_returned err
  | GrpcReturns err => grpc_returned err
  | SignalReceived => Some (ESentinel ErrShutdownSignal)
  | _ => None
  end.
Definition first_end (ms : list move) : option goerr := head (omap ends_service ms).

Lemma ends_service_iff m err : ends_service m = Some err ↔ ends_with m err.
Proof.
  split.
  - destruct m as [[e|]| | |[e|]| | | |]; cbn; try done.
    + destruct (errors_is e HttpErrServerClosed) eqn:He; [done|]. intros [= <-]. by constructor.
    + destruct (errors_is e GrpcErrServerStopped) eqn:He; [done|]. intros [= <-]. by constructor.
    + intros [= <-]. constructor.
  - by intros [e He|e He|]; cbn; rewrite ?He.
Qed.

Lemma goes_on_cons m ms : goes_on (m :: ms) ↔ ends_service m = None ∧ goes_on ms.
Proof.
  unfold goes_on. setoid_rewrite <- ends_service_iff. split.
  - intros Hg. split; [|intros m' e Hm'; apply Hg; by right].
    destruct (ends_service m) eqn:He; [|done]. by destruct (Hg m g); [constructor|].
  - intros [Hm Hg] m' e Hin. apply elem_of_cons in Hin as [->|?]; [by rewrite Hm|by apply Hg].
Qed.

Lemma first_end_cases ms :
  match first_end ms with Some err => ends_first ms err | None => goes_on ms end.
Proof.
  unfold first_end. induction ms as [|m ms IH]; cbn; [by intros ???%elem_of_nil|].
  destruct (ends_service m) as [e|] eqn:Hm; cbn.
  - exists [], m, ms. split_and!; [done|by intros ??[]%elem_of_nil|by apply ends_service_iff].
  - destruct (head (omap ends_service ms)) as [e|]; [|by apply goes_on_cons].
    destruct IH as (b&m'&a&->&Hb&He). exists (m :: b), m', a.
    split_and!; [done|by apply goes_on_cons|done].
Qed.

Lemma first_end_iff ms err : first_end ms = Some err ↔ ends_first ms err.
Proof.
  split; [intros He; pose proof (first_end_cases ms) as Hc; by rewrite He in Hc|].
  intros (b&m&a&->&Hb&He%ends_service_iff). unfold first_end. induction b as [|m' b IH]; cbn.
  - by rewrite He.
  - apply goes_on_cons in Hb as [-> Hb]. by apply IH.
Qed.

Lemma first_end_none ms : goes_on ms ↔ first_end ms = None.
Proof.
  pose proof (first_end_cases ms) as Hc. destruct (first_end ms) as [e|] eqn:He; [|done].
  split; [|done]. intros Hg. destruct Hc as (b&m&a&->&_&Hm).
  destruct (Hg m e); [apply elem_of_app; right; by left|done].
Qed.

(** Moves left to a goroutine. *)
Definition phase_work (p : phase) : nat :=
  match p with Serving => 2 | Stopping => 1 | Over => 0 end.
Definition work (s : lifecycle) : nat :=
  (phase_work (http s) + phase_work (grpc s) + (if waiting s then 1 else 0))%nat.

Lemma step_work m s s' : step m s = Some s' → (work s' < work s)%nat.
Proof.
  unfold step, work. destruct m; repeat case_decide; try done;
    try (destruct (waiting s) eqn:Hw; [|done]); try (destruct (eg_done _); [|done]);
    intros; simplify_eq/=; destruct_and?;
    repeat match goal with H : http _ = _ |- _ => rewrite H | H : grpc _ = _ |- _ => rewrite H end;
    cbn; lia.
Qed.

Lemma run_work ms s s' : run ms s = Some s' → (length ms + work s' ≤ work s)%nat.
Proof.
  revert s. induction ms as [|m ms IH]; intros s; cbn; [intros; by simplify_eq|].
  destruct (step m s) as [s1|] eqn:Hs; [|done]. cbn. intros Hr%IH.
  apply step_work in Hs. lia.
Qed.

Context `{!ErrGroupLaws}.

(** As long as nothing ended the service nothing is stopping, and what [Wait]
    will return is what ended it first. *)
Definition course (e : option goerr) (s : lifecycle) : Prop :=
  eg_Wait (group s) = e ∧ eg_done (group s) = bool_decide (is_Some e) ∧
  (e = None → http s ≠ Stopping ∧ grpc s ≠ Stopping ∧ waiting s = true).

Lemma course_start : course None start.
Proof. split; [apply new_wait|]. split; [apply new_done|done]. Qed.

Definition or_else (e e' : option goerr) : option goerr :=
  match e with Some _ => e | None => e' end.

(** A goroutine that returns [r] where [r] ends the service or it has ended. *)
Lemma course_return e r s h g w :
  course e s →
  (or_else e r = None → h ≠ Stopping ∧ g ≠ Stopping ∧ w = true) →
  course (or_else e r) (mkLife h g w (eg_return r (group s))).
Proof.
  intros (Hw&Hd&_) Hn. split_and!; cbn; [|..|done].
  - rewrite return_wait, Hw. by destruct e.
  - rewrite return_done, Hd. by destruct e, r.
Qed.

Lemma course_after x r s h g w :
  course (Some x) s → course (Some x) (mkLife h g w (eg_return r (group s))).
Proof. intros Hc. by apply (course_return (Some x) r). Qed.

Lemma course_step m e s s' :
  course e s → step m s = Some s' → course (or_else e (ends_service m)) s'.
Proof.
  intros Hc Hs. pose proof Hc as (Hw&Hd&Hn).
  assert (eg_done (group s) = true → is_Some e) as Hdone.
  { intros Ht. rewrite Ht in Hd. symmetry in Hd. by apply bool_decide_eq_true in Hd. }
  destruct m; cbn [step ends_service] in *.
  - case_decide; [|done]. injection Hs as <-. apply course_return; [done|].
    intros He. destruct e; [done|]. by destruct Hn as (?&?&?).
  - case_decide as Hcd; [|done]. injection Hs as <-. destruct Hcd as [_ [x ->]%Hdone]. done.
  - case_decide as Hcd; [|done]. injection Hs as <-.
    destruct e as [x|]; [|by destruct Hn]. by apply course_after.
  - case_decide; [|done]. injection Hs as <-. apply course_return; [done|].
    intros He. destruct e; [done|]. by destruct Hn as (?&?&?).
  - case_decide as Hcd; [|done]. injection Hs as <-. destruct Hcd as [_ [x ->]%Hdone]. done.
  - case_decide as Hcd; [|done]. injection Hs as <-.
    destruct e as [x|]; [|by destruct Hn as (_&?&_)]. by apply course_after.
  - destruct (waiting s); [|done]. injection Hs as <-. apply course_return; [done|]. by destruct e.
  - destruct (waiting s); [|done]. destruct (eg_done (group s)) eqn:Ht; [|done].
    cbn in Hs. injection Hs as <-. destruct Hdone as [x ->]; [done|]. by apply course_after.
Qed.

Lemma course_run ms e s s' :
  course e s → run ms s = Some s' → course (or_else e (first_end ms)) s'.
Proof.
  revert e s. induction ms as [|m ms IH]; intros e s Hc; cbn.
  { intros; simplify_eq. by destruct e. }
  destruct (step m s) as [s1|] eqn:Hs; [|done]. cbn. intros Hr.
  specialize (IH _ _ (course_step _ _ _ _ Hc Hs) Hr).
  unfold first_end in *. cbn. destruct (ends_service m), e; done.
Qed.

(** C18: [serve] always comes to an end once a signal arrived or a server returned an
    error other than the one of a server that was closed: no more than five moves are
    ever made, and while a goroutine is left it has a move of its own to make; what it
    returns is decided by what came first: that error, reported under the server's name
    whatever happens during the shutdown, or the signal, reported as success even if the
    shutdown then fails.  Until then it does not return: a server that was only closed
    ends nothing. *)
Theorem serve_ends ms s :
  run ms start = Some s →
  (length ms ≤ 5)%nat ∧
  (∀ err, ends_first ms err →
     serve_result s = (if errors_is err ErrShutdownSignal then None else Some err) ∧
     (finished s ∨ ∃ m s', m ∈ [HttpCancelled; HttpShutDown None; GrpcCancelled; GrpcStopped;
                                 SignalCancelled] ∧ step m s = Some s')) ∧
  (goes_on ms → ¬ finished s).
Proof.
  intros Hr. pose proof (course_run _ _ _ _ course_start Hr) as (Hw&Hd&Hn).
  apply run_work in Hr. cbn in Hr. split; [lia|]. cbn [or_else] in *. split.
  - intros err He%first_end_iff. rewrite He in *. unfold serve_result. rewrite Hw. split; [done|].
    rewrite bool_decide_true in Hd by done.
    destruct (http s) eqn:Hh; [right..|].
    + exists HttpCancelled. eexists. split; [set_solver|]. cbn. by rewrite decide_True.
    + exists (HttpShutDown None). eexists. split; [set_solver|]. cbn. by rewrite decide_True.
    + destruct (grpc s) eqn:Hg; [right..|].
      * exists GrpcCancelled. eexists. split; [set_solver|]. cbn. by rewrite decide_True.
      * exists GrpcStopped. eexists. split; [set_solver|]. cbn. by rewrite decide_True.
      * destruct (waiting s) eqn:Hwt; [right|by left].
        exists SignalCancelled. eexists. split; [set_solver|]. cbn. by rewrite Hwt, Hd.
  - intros He%first_end_none (_&_&Hf). rewrite He in Hn. destruct Hn as (_&_&?); [done|congruence].
Qed.
End lifecycle.

(** ** A concrete shutdown *)

Module Witnesses.
#[export] Instance eg : ErrGroup := {|
  Group := option goerr; WithContext := None;
  eg_return e g := match g with Some _ => g | None => e end;
  eg_done g := bool_decide (is_Some g);
  eg_Wait g := g;
|}.
#[export] Instance eg_laws : ErrGroupLaws.
Proof. split; try done; by intros [] []. Qed.

Definition failing_shutdown : list move :=
  [SignalReceived; GrpcCancelled; HttpCancelled; HttpShutDown (Some (EText "timeout")); GrpcStopped].

(** A shutdown that fails is reported as a success. *)
Lemma serve_ends_witness :
  ∃ s, run failing_shutdown start = Some s ∧ serve_result s = None ∧
  (length failing_shutdown ≤ 5)%nat ∧
  (∀ err, ends_first failing_shutdown err →
     serve_result s = (if errors_is err ErrShutdownSignal then None else Some err) ∧
     (finished s ∨ ∃ m s', m ∈ [HttpCancelled; HttpShutDown None; GrpcCancelled; GrpcStopped;
                                 SignalCancelled] ∧ step m s = Some s')) ∧
  (goes_on failing_shutdown → ¬ finished s).
Proof.
  eexists. split; [vm_compute; reflexivity|]. split; [vm_compute; reflexivity|].
  apply (serve_ends failing_shutdown). vm_compute. reflexivity.
Defined.

Example port_in_use :
  serve_result <$> run [HttpReturns (Some (EText "address already in use")); SignalReceived;
                        GrpcCancelled; GrpcStopped] start
  = Some (Some (errorf_w "HTTP server error" (EText "address already in use"))).
Proof. vm_compute. reflexivity. Qed.
End Witnesses.
