(* ===== verification/Cmd.v ===== *)
(** * cmd: the commands

    users.go and groups_cmd.go (memberships straight in the database), import.go,
    migrate.go and createFgaModel.go.  A command reads its flags, works on its store
    and prints; [Run] is the [Run] field of its cobra.Command: the exit code and what
    goes to the two streams.  What is printed is a line or a value given to
    [json.NewEncoder(out).Encode], whose text is the standard library's (writing it
    is taken to succeed).

    cobra's argument check, goose and [%q] are parameters. *)

From Stdlib Require Import SpecFloat.
From stdpp Require Import pretty.
From S2P Require Import Prelude Errors Types Sql Storage StorageSpec DbClient Fga AuthModel Authorizer Config Importer.

(** ** Output *)

Inductive printed :=
  | Line (s : string)
  | EncodeStrings (fields : list (string * string))
  | EncodeMembers (key id : string) (n : nat)
  | EncodeUserGroups (userID : string) (groups : list string)
  | EncodeList (l : list string)
  | EncodeGroups (l : list Group).

Record run_end := mkEnd { exit_code : Z; stdout : list printed; stderr : list string }.

(** [if err := run(...); err != nil { print; os.Exit(1) }]; a panic exits with 2. *)
Definition Run (prefix : string) (r : result (list printed)) : run_end :=
  match r with
  | Ok out => mkEnd 0 out []
  | Err (EPanic msg) => mkEnd 2 [] ["panic: " +:+ msg]
  | Err err => mkEnd 1 [] [prefix +:+ Error err]
  end.

(** root.go: what [Execute] makes of a command whose [RunE] returned; cobra prints
    the error. *)
Definition Execute (r : result (list printed)) : run_end := Run "Error: " r.

(** version.go *)
Definition run_version : run_end :=
  mkEnd 0 [Line ("App Version: " +:+ version_Version)] [].

(** [strconv.Quote]; the tables of printable characters are not reproduced. *)
Class Strconv := { Quote : string → string }.

(** ** newStorageFromCmd *)

Definition cmd_dbConfig (dsn : string) : DbClient.Config :=
  mkConfig dsn 10 1 0 0 false "" 0 0 0 0 0 (S754_zero false).

Definition newStorageFromCmd (dsn : string) (a : pgx_answers) (d : database) : start_outcome :=
  if decide (dsn = "")%string then Started (Err (EText "--dsn is required"))
  else match NewDBClient (cmd_dbConfig dsn) a d d with
       | Started (Err err) => Started (Err (errorf_v "failed to connect to database" err))
       | o => o
       end.

(** ** users.go and groups_cmd.go, over a storage *)

Section memberships.
Context {S : Type} `{!Engine S} `{!GoRange} `{!Strconv}.
Context (now : time) (format : string).

Definition json : bool := bool_decide (format = "json")%string.

Definition runUsersDelete (userID : string) : M S (list printed) :=
  _ ← map_err (errorf_v ("failed to delete user " +:+ Quote userID))
        (RemoveUserFromAllGroups userID);
  mret (if json then [EncodeStrings [("user_id", userID); ("status", "deleted")]]
        else [Line ("Deleted user " +:+ userID +:+ " from all groups")])%string.

Definition runUsersListGroups (userID : string) : M S (list printed) :=
  groups ← map_err (errorf_v ("failed to list groups for user " +:+ Quote userID))
             (GetGroupsForUser userID);
  mret (if json then [EncodeGroups groups] else Line ∘ Name <$> groups).

Definition runUsersSetGroups (userID : string) (groupIDs : list string) : M S (list printed) :=
  _ ← map_err (errorf_v ("failed to set groups for user " +:+ Quote userID))
        (UpdateGroupsForUser now userID groupIDs);
  mret (if json then [EncodeUserGroups userID groupIDs]
        else [Line ("Updated groups for user " +:+ userID)]).

Definition runGroupsAddUsers (groupID : string) (userIDs : list string) : M S (list printed) :=
  _ ← map_err (errorf_v ("failed to add users to group " +:+ Quote groupID))
        (AddUsersToGroup now groupID userIDs);
  mret (if json then [EncodeMembers "users_added" groupID (length userIDs)]
        else [Line ("Added " +:+ pretty (length userIDs) +:+ " users to group " +:+ groupID)]).

Definition runGroupsRemoveUsers (groupID : string) (userIDs : list string) : M S (list printed) :=
  _ ← map_err (errorf_v ("failed to remove users from group " +:+ Quote groupID))
        (RemoveUsersFromGroup groupID userIDs);
  mret (if json then [EncodeMembers "users_removed" groupID (length userIDs)]
        else [Line ("Removed " +:+ pretty (length userIDs) +:+ " users from group " +:+ groupID)]).

Definition runGroupsListUsers (groupID : string) : M S (list printed) :=
  userIDs ← map_err (errorf_v ("failed to list users in group " +:+ Quote groupID))
              (ListUsersInGroup groupID);
  mret (if json then [EncodeList userIDs] else Line <$> userIDs).

(** The subcommands and their arguments. *)
Inductive subcommand :=
  | UsersDelete (userID : string)
  | UsersListGroups (userID : string)
  | UsersSetGroups (userID : string) (groupIDs : list string)
  | GroupsAddUsers (groupID : string) (userIDs : list string)
  | GroupsRemoveUsers (groupID : string) (userIDs : list string)
  | GroupsListUsers (groupID : string).

Definition dispatch (c : subcommand) : M S (list printed) :=
  match c with
  | UsersDelete u => runUsersDelete u
  | UsersListGroups u => runUsersListGroups u
  | UsersSetGroups u gs => runUsersSetGroups u gs
  | GroupsAddUsers g us => runGroupsAddUsers g us
  | GroupsRemoveUsers g us => runGroupsRemoveUsers g us
  | GroupsListUsers g => runGroupsListUsers g
  end.
End memberships.

(** A whole command: the storage it opens is outside any transaction. *)
Definition run_subcommand `{PgParams} `{!GoRange} `{!Strconv} (now : time)
    (dsn format : string) (a : pgx_answers) (c : subcommand) (d : database)
    : run_end * database :=
  match newStorageFromCmd dsn a d with
  | Fatal msg => (mkEnd 1 [] [], d)
  | Started (Err err) => (Execute (Err err), d)
  | Started (Ok s) =>
      let '(r, s') := dispatch (Engine0 := client_engine background) now format c s in
      (Execute r, primary s')
  end.

(** ** import.go *)

(** The Authorizer's operations over the client it holds; [fuel] bounds the pages
    its loops read. *)
Definition NewAuthorizer {T TD} (fuel : T → nat) (c : AuthzClient T TD) : AuthorizerOps T := {|
  authz_AddAllowedAppToGroup := AddAllowedAppToGroup (AuthzClient0:=c);
  authz_RemoveAllowedAppFromGroup := RemoveAllowedAppFromGroup (AuthzClient0:=c);
  authz_RemoveAllAllowedAppsFromGroup g t :=
    finished (RemoveAllAllowedAppsFromGroup (AuthzClient0:=c) (fuel t) g) t;
  authz_RemoveAllAllowedGroupsForApp a t :=
    finished (RemoveAllAllowedGroupsForApp (AuthzClient0:=c) (fuel t) a) t;
  authz_DeleteGroup g t := finished (DeleteGroup (AuthzClient0:=c) (fuel t) g) t;
  authz_CanAccess := CanAccess (AuthzClient0:=c);
  authz_BatchCanAccess := BatchCanAccess (AuthzClient0:=c);
|}.

Record import_flags := mkImportFlags {
  flag_driver : string; flag_domain : string; flag_consumer_key : string;
  flag_consumer_secret : string; flag_sync : bool;
  flag_openfga_host : string; flag_openfga_store_id : string;
  flag_openfga_token : string; flag_openfga_model_id : string;
}.

Section import.
Context {T TD : Type} `{!SdkFactory T TD} `{!Validator} `{PgParams} `{!GoRange} `{!Strconv}.
Context (fuel : T → nat) (clock : string → time) (uuid : string → result string).
(** The Salesforce library: logging in gives the queries. *)
Context (Init : string → string → string →
           result (string → result (list SalesforceDriver.TeamMemberRecord))).

Definition buildAuthorizer (f : import_flags) : result (AuthorizerOps T) :=
  if decide (flag_openfga_host f = "")%string
  then Ok (NewAuthorizer fuel (noop_AuthzClient (TD:=TD)))
  else match NewClient (NewConfig "" (flag_openfga_host f) (flag_openfga_store_id f)
                          (flag_openfga_token f) (flag_openfga_model_id f) false) with
       | Err err => Err err
       | Ok ofga => Ok (NewAuthorizer fuel (client_AuthzClient (FgaSdk0:=ofga)))
       end.

(** internal/salesforce: the library's client, a panic if it cannot be made, and the
    client that leaves the records it is to fill as they are. *)
Definition NewSalesforceClient (domain consumerKey consumerSecret : string)
    : result (string → result (list SalesforceDriver.TeamMemberRecord)) :=
  Init domain consumerKey consumerSecret.
Definition salesforce_NoopClient_Query (q : string) (r : list SalesforceDriver.TeamMemberRecord)
    : result (list SalesforceDriver.TeamMemberRecord) := Ok r.
Definition salesforce_NewClient (domain consumerKey consumerSecret : string)
    : result (string → result (list SalesforceDriver.TeamMemberRecord)) :=
  match NewSalesforceClient domain consumerKey consumerSecret with
  | Err err => Err (EPanic (Error (errorf_v "failed to initialize salesforce client" err)))
  | Ok c => Ok c
  end.

Definition buildSalesforceDriver (f : import_flags) : result DriverInterface :=
  if decide (flag_domain f = "" ∨ flag_consumer_key f = "" ∨ flag_consumer_secret f = "")%string
  then Err (EText "salesforce driver requires --domain, --consumer-key, and --consumer-secret flags")
  else match salesforce_NewClient (flag_domain f) (flag_consumer_key f) (flag_consumer_secret f) with
       | Err err => Err err
       | Ok sfClient => Ok (SalesforceDriver.NewSalesforceDriver sfClient)
       end.

Definition import_driver (f : import_flags) : result DriverInterface :=
  if decide (flag_driver f = "salesforce")%string then buildSalesforceDriver f
  else Err (EText ("unsupported driver: " +:+ Quote (flag_driver f) +:+ " (supported: salesforce)")).

(** [imp.Sync] or [imp.Run]; neither prints. *)
Definition run_importer (authorizer : AuthorizerOps T) (d : DriverInterface) (sync : bool)
    : M (client * T) (list printed) :=
  if sync
  then _ ← Sync (Engine0 := client_engine background) (AuthorizerOps0 := authorizer) clock uuid d;
       mret []
  else λ st, let '(r, s) := Importer.Run (Engine0 := client_engine background) clock uuid d st.1 in
             (match r with Ok _ => Ok [] | Err e => Err e end, (s, st.2)).

Definition runImport (dsn : string) (a : pgx_answers) (f : import_flags) (d : database) (t : T)
    : run_end * (database * T) :=
  let failed err := Run "Import failed: " (Err err) in
  match NewDBClient (cmd_dbConfig dsn) a d d with
  | Fatal msg => (mkEnd 1 [] [], (d, t))
  | Started (Err err) => (failed (errorf_v "failed to connect to database" err), (d, t))
  | Started (Ok s) =>
      match import_driver f with
      | Err err => (failed err, (d, t))
      | Ok importDriver =>
          match buildAuthorizer f with
          | Err err => (failed err, (d, t))
          | Ok authorizer =>
              let '(r, (s', t')) := run_importer authorizer importDriver (flag_sync f) (s, t) in
              (Run "Import failed: " r, (primary s', t'))
          end
      end
  end.
End import.

(** ** migrate.go *)

(** [strconv.Atoi] on a 64-bit machine. *)
Definition decimal (a : ascii) : option Z :=
  let n := Z.of_nat (Ascii.nat_of_ascii a) - 48 in
  if decide (0 ≤ n ≤ 9) then Some n else None.
Fixpoint digits_from (acc : Z) (s : string) : option Z :=
  match s with
  | "" => Some acc
  | String a s => match decimal a with Some n => digits_from (10 * acc + n) s | None => None end
  end%string.
Definition digits (s : string) : option Z :=
  if decide (s = "")%string then None else digits_from 0 s.
Definition int64_ok (z : Z) : bool := bool_decide (- 2 ^ 63 ≤ z < 2 ^ 63).
Definition signed (s : string) : option Z :=
  match s with
  | String a s' =>
      if decide (a = "-"%char) then Z.opp <$> digits s'
      else if decide (a = "+"%char) then digits s' else digits s
  | "" => None
  end%string.
(** The value and whether it is good: a number out of range gives the nearest
    one, anything else 0. *)
Definition Atoi (s : string) : Z * bool :=
  match signed s with
  | Some z => if int64_ok z then (z, true) else (if decide (0 < z) then 2 ^ 63 - 1 else - 2 ^ 63, false)
  | None => (0, false)
  end.

(** cobra's [RangeArgs(min, max)]. *)
Class Cobra := { RangeArgs (min max : nat) (args : list string) : option goerr }.
Class CobraLaws `{!Cobra} := {
  range_law min max args : RangeArgs min max args = None ↔ (min ≤ length args ≤ max)%nat;
}.

(** goose's provider over the state [S] of the database. *)
Class Goose (S : Type) := {
  MigrationResult : Type;
  MigrationStatus : Type;
  status_path : MigrationStatus → string;
  status_applied : MigrationStatus → option string;  (** the time, formatted *)
  goose_Up : M S (list MigrationResult);
  goose_Down : M S MigrationResult;
  goose_DownTo (version : Z) : M S (list MigrationResult);
  goose_Status : M S (list MigrationStatus);
  goose_HasPending : M S bool;
  goose_GetDBVersion : M S Z;
  goose_NoVersion : Z;  (** the version returned with an error *)
}.

Section migrate.
Context {S : Type} `{!Goose S} `{!Cobra} `{!Strconv}.

(** [fmt.Errorf("%q", args)] of a list. *)
Definition quote_list (args : list string) : string :=
  "[" +:+ String.concat " " (Quote <$> args) +:+ "]".

Definition customValidArgs (args : list string) : option goerr :=
  match args with
  | [] => None
  | first :: _ =>
      match RangeArgs 0 2 args with
      | Some err => Some err
      | None =>
          if decide (first ∈ ["up"; "down"; "status"; "check"]%string) then
            match args with
            | [_; second] =>
                if decide (first ≠ "down")%string
                then Some (EText ("invalid argument combination: " +:+ quote_list args))
                else let '(version, ok) := Atoi second in
                     if decide (ok = false ∨ version < 0)
                     then Some (EText ("invalid version number: " +:+ Quote second))
                     else None
            | _ => None
            end
          else Some (EText ("invalid first argument: " +:+ Quote first))
      end
  end.

(** What the command prints: a value encoded as JSON, or lines. *)
Inductive migrate_output :=
  | Applied (l : list MigrationResult)
  | Statuses (l : list MigrationStatus)
  | Checked (status : string) (version : Z)
  | Text (s : string).

Context (format : string).
Definition as_json : bool := bool_decide (format = "json")%string.

Definition runUp : M S (list migrate_output) :=
  results ← goose_Up;
  mret (if as_json then [Applied results] else []).

Definition runDown (version : Z) : M S (list migrate_output) :=
  results ← (if decide (version = -1) then (result ← goose_Down; mret [result])
             else goose_DownTo version);
  mret (if as_json then [Applied results] else []).

(** [%-24s] *)
Definition pad (n : nat) (s : string) : string :=
  s +:+ String.concat "" (replicate (n - String.length s) " "%string).
Definition status_line (s : MigrationStatus) : migrate_output :=
  Text ("    " +:+ pad 24 (default "Pending"%string (status_applied s)) +:+ " -- " +:+ status_path s).

Definition runStatus : M S (list migrate_output) :=
  statuses ← goose_Status;
  mret (if as_json then [Statuses statuses]
        else Text "    Applied At                  Migration"
             :: Text "    =======================================" :: (status_line <$> statuses)).

Definition runCheck : M S (list migrate_output) :=
  hasPending ← map_err (errorf_w "failed to check pending migrations") goose_HasPending;
  if (hasPending : bool) then
    r ← attempt goose_GetDBVersion;
    match r with
    | Err err => fail (EText ("migrations are pending (failed to get current version: "
                              +:+ Error err +:+ ")"))
    | Ok current =>
        if as_json then mret [Checked "pending" current]
        else fail (EText ("migrations are pending: current version " +:+ pretty current))
    end
  else
    r ← attempt goose_GetDBVersion;
    mret match r with
         | Ok current =>
             if as_json then [Checked "ok" current]
             else [Text ("Database is up to date (version " +:+ pretty current +:+ ")")]
         | Err _ =>
             if as_json then [Checked "unknown" goose_NoVersion] else [Text "Database is up to date"]
         end.

(** What reaching the database and making goose's provider answer. *)
Record migrate_answers := mkMigrateAnswers {
  mg_parse : option goerr; mg_ping : option goerr; mg_dialect : option goerr;
  mg_provider : option goerr;
}.
Definition migrate_setup (a : migrate_answers) : option goerr :=
  match mg_parse a, mg_ping a, mg_dialect a, mg_provider a with
  | Some err, _, _, _ => Some (errorf_v "DSN validation failed, shutting down, err" err)
  | _, Some err, _, _ => Some (errorf_v "DB connection failed, shutting down, err" err)
  | _, _, Some err, _ => Some err
  | _, _, _, Some err => Some (errorf_w "failed to create goose provider" err)
  | _, _, _, _ => None
  end.

(** [migrate], once the database is reached and the provider made ([setup]). *)
Definition migrate (setup : option goerr) (command : string) (version : Z)
    : M S (list migrate_output) :=
  match setup with
  | Some err => fail err
  | None =>
      if decide (command = "up")%string then runUp
      else if decide (command = "down")%string then runDown version
      else if decide (command = "status")%string then runStatus
      else if decide (command = "check")%string then runCheck
      else mret []
  end.

Definition runMigrate (setup : option goerr) (args : list string) : M S (list migrate_output) :=
  let command := default "up"%string (head args) in
  let version := match args with
                 | _ :: second :: _ => (Atoi second).1
                 | _ => -1
                 end in
  migrate setup command version.

(** The command: cobra checks the arguments first. *)
Definition migrate_command (setup : option goerr) (args : list string)
    : M S (list migrate_output) :=
  match customValidArgs args with
  | Some err => fail err
  | None => runMigrate setup args
  end.
End migrate.

(** ** createFgaModel.go *)

(** [fgaClient] is the client after [SetStoreID]. *)
Section create_model.
Context {T TD : Type} `{!SdkFactory T TD} `{!Transformer TD}.
(** [url.Parse], and the two fields of a URL that are read. *)
Context {URL : Type} (url_Parse : string → result URL) (Scheme Host : URL → string).

Definition parseURL (s : string) : M T (string * string) :=
  u ← lift (url_Parse s); mret (Scheme u, Host u).

Definition StoreName : string := "hook-service".

Definition createModel (apiUrl apiToken storeId : string) (verbose : bool)
    : M T (string * string) :=
  p ← map_err (errorf_w "failed to parse url") (parseURL apiUrl);
  let cfg := mkFgaConfig p.1 p.2 storeId apiToken "" verbose in
  fgaClient ← lift (NewClient (Some cfg));
  q ← (if decide (storeId = "")%string
       then storeId ← map_err (errorf_w "failed to create store")
                        (Client.CreateStore (FgaSdk0:=fgaClient) StoreName);
            mret (SetStoreID storeId fgaClient, storeId)
       else mret (fgaClient, storeId));
  authzModel ← lift (GetModel (NewAuthorizationModelProvider "v0")).1;
  modelId ← map_err (errorf_w "failed to write model")
              (Client.WriteModel (FgaSdk0:=q.1) authzModel);
  mret (modelId, q.2).

(** The [Run] of the command; cobra's [cmd.Printf] writes to the standard error. *)
Definition create_fga_model (apiUrl apiToken storeId format : string) (verbose : bool) (t : T)
    : run_end * T :=
  match createModel apiUrl apiToken storeId verbose t with
  | (Ok (modelId, finalStoreId), t) =>
      (if decide (format = "json")%string
       then mkEnd 0 [EncodeStrings [("store_id", finalStoreId); ("model_id", modelId)]%string] []
       else mkEnd 0 [] (("Created model: " +:+ modelId)
              :: (if decide (storeId = "")%string then ["Created store: " +:+ finalStoreId] else [])), t)
  | (Err err, t) => (Run "" (Err err), t)
  end.
End create_model.

(** ** The membership commands *)

(** What a command does to the memberships when it succeeds. *)
Definition effect `{PgParams} (c : subcommand) (M M' : gset (string * string)) : Prop :=
  match c with
  | UsersDelete u => M' = filter (λ k, k.2 ≠ u) M
  | UsersSetGroups u gs => ∃ X, canonical gs X ∧ M' = filter (λ k, k.2 ≠ u) M ∪ groups_of_user X u
  | GroupsAddUsers g us =>
      (us = [] ∧ M' = M) ∨ ∃ g', uuid_in g = Some g' ∧ M' = M ∪ pairs g' us
  | GroupsRemoveUsers g us => ∃ g', uuid_in g = Some g' ∧ M' = M ∖ pairs g' us
  | UsersListGroups _ | GroupsListUsers _ => M' = M
  end.

(** What a failed command may have done: setting a user's groups may already have
    removed the groups that are not to be kept. *)
Definition partial_effect `{PgParams} (c : subcommand) (M M' : gset (string * string)) : Prop :=
  match c with
  | UsersSetGroups u gs => ∃ X, canonical gs X ∧ M' = filter (λ k, k.2 = u → k.1 ∈ X) M
  | _ => False
  end.

(** What a command that succeeds prints, in the format and over the database given. *)
Definition prints `{PgParams} (format : string) (c : subcommand) (w : database)
    (out : list printed) : Prop :=
  let either (a b : list printed) := if decide (format = "json")%string then a else b in
  match c with
  | UsersDelete u =>
      out = either [EncodeStrings [("user_id", u); ("status", "deleted")]]
                   [Line ("Deleted user " +:+ u +:+ " from all groups")]
  | UsersListGroups u => ∃ gs, out = either [EncodeGroups gs] (Line ∘ Name <$> gs) ∧
      (∀ x, x ∈ gs ↔ ∃ g, g ∈ groups w ∧ (gr_id g, u) ∈ memberships w ∧ x = group_of g) ∧
      StronglySorted name_le gs
  | UsersSetGroups u gs =>
      out = either [EncodeUserGroups u gs] [Line ("Updated groups for user " +:+ u)]
  | GroupsAddUsers g us =>
      out = either [EncodeMembers "users_added" g (length us)]
                   [Line ("Added " +:+ pretty (length us) +:+ " users to group " +:+ g)]
  | GroupsRemoveUsers g us =>
      out = either [EncodeMembers "users_removed" g (length us)]
                   [Line ("Removed " +:+ pretty (length us) +:+ " users from group " +:+ g)]
  | GroupsListUsers g => ∃ g' us, uuid_in g = Some g' ∧
      out = either [EncodeList us] (Line <$> us) ∧
      NoDup us ∧ ∀ u, u ∈ us ↔ (g', u) ∈ memberships w
  end%string.

Section membership_properties.
Context {S : Type} `{EngineLaws S} `{!PgLaws} `{GoRangeLaws} `{!Strconv}.

(** A command whose storage operation returns nothing. *)
Lemma unit_command {A} (f : goerr → goerr) (m : M S unit) (out : A) s r s' :
  (_ ← map_err f m; mret out) s = (r, s') →
  ∃ r0, m s = (r0, s') ∧ (r = Ok out ∧ r0 = Ok tt ∨ ∃ e, r = Err (f e) ∧ r0 = Err e).
Proof.
  cbv [mbind M_bind map_err mret M_ret]. destruct (m s) as [[[]|e] s1]; cbn;
    intros [= <- <-]; eauto 7.
Qed.

Lemma list_command {A B} (f : goerr → goerr) (m : M S A) (out : A → B) s r s' :
  (x ← map_err f m; mret (out x)) s = (r, s') →
  ∃ r0, m s = (r0, s') ∧
    ((∃ x, r = Ok (out x) ∧ r0 = Ok x) ∨ ∃ e, r = Err (f e) ∧ r0 = Err e).
Proof.
  cbv [mbind M_bind map_err mret M_ret]. destruct (m s) as [[x|e] s1]; cbn;
    intros [= <- <-]; eauto 7.
Qed.

(** The members of one group are different users. *)
Lemma one_group_NoDup d g (P : member_row → Prop) `{!∀ m, Decision (P m)} k :
  k ≡ₚ filter P (group_members d) → (∀ m, P m → mr_group m = g) → wf d →
  NoDup (mr_user <$> k).
Proof.
  intros Hk HP Hwf. rewrite Hk. clear k Hk. pose proof (wf_mkey _ Hwf) as Hnd.
  induction (group_members d) as [|m l IH]; [constructor|].
  cbn in Hnd. apply list.NoDup_cons in Hnd as [Hm Hnd]. rewrite filter_cons.
  case_decide as Hg; [|auto]. cbn. apply list.NoDup_cons. split; [|auto].
  intros (m'&Hu&[Hg' Hin]%list_elem_of_filter)%list_elem_of_fmap. destruct Hm.
  apply list_elem_of_fmap. exists m'. split; [|done]. unfold mkey. f_equal; [|done].
  by rewrite (HP m Hg), (HP m' Hg').
Qed.

Lemma ListUsersInGroup_outcome g s r (s' : S) :
  wf (view s) → ListUsersInGroup g s = (r, s') →
  view s' = view s ∧
  match r with
  | Ok us => ∃ g', uuid_in g = Some g' ∧ NoDup us ∧ ∀ u, u ∈ us ↔ (g', u) ∈ memberships (view s)
  | Err _ => True
  end.
Proof.
  intros Hwf Hr.
  apply (query_scan_inv (λ m, plain (member_column m)) group_members mr_user) in Hr
    as [Hv Hr]; [|done..].
  split; [done|]. destruct r as [us|]; [|done]. destruct Hr as (w'&k&Hw&->&Hp&_).
  bind_inv. exists u.
  assert (∀ m, holds_all (plain (member_column m)) [PEq (Col c_group_id) u] = true
               ↔ mr_group m = u) as Hh.
  { intros m. rewrite holds_all_cons, holds_all_nil, (holds_eq _ _ _ (mr_group m)) by done. tauto. }
  split_and!; [done|by eapply one_group_NoDup; [exact Hp|intros m Hm; apply Hh, Is_true_true|]|].
  intros x. rewrite list_elem_of_fmap, elem_of_memberships, list_elem_of_fmap. split.
  - intros (m&->&Hm). rewrite Hp in Hm. apply list_elem_of_filter in Hm as [Hm ?].
    exists m. split; [|done]. apply Is_true_true, Hh in Hm. by unfold mkey; rewrite Hm.
  - intros (m&[= -> ->]&Hm). exists m. split; [done|]. rewrite Hp.
    apply list_elem_of_filter. split; [|done]. apply Is_true_true. by apply Hh.
Qed.

Lemma dispatch_outcome now format c s r (s' : S) :
  wf (view s) → dispatch now format c s = (r, s') →
  match r with
  | Ok out => effect c (memberships (view s)) (memberships (view s')) ∧
      same_but_members (view s) (view s') ∧
      prints format c (view s) out
  | Err _ => view s' = view s ∨
      (partial_effect c (memberships (view s)) (memberships (view s')) ∧
       same_but_members (view s) (view s'))
  end.
Proof.
  intros Hwf.
  assert (∀ a b : list printed, (if json format then a else b) =
            if decide (format = "json"%string) then a else b) as Hj.
  { intros a b. unfold json. case_bool_decide; by case_decide. }
  destruct c as [u|u|u gs|g us|g us|g]; cbn [dispatch effect partial_effect prints];
    rewrite <- ?Hj.
  - intros (r0&Hm&Hr)%unit_command. apply RemoveUserFromAllGroups_refines in Hm.
    destruct Hr as [[-> ->]|(e&->&->)]; [|by left]. destruct Hm. by split_and!.
  - intros (r0&Hm&Hr)%list_command. apply GetGroupsForUser_outcome in Hm as [Hv Hm]; [|done].
    destruct Hr as [(gs&->&->)|(e&->&->)]; [|by left]. rewrite Hv. split_and!; [done..|].
    exists gs. destruct Hm. by split_and!; [apply Hj| |].
  - intros (r0&Hm&Hr)%unit_command. apply UpdateGroupsForUser_outcome in Hm.
    destruct Hr as [[-> ->]|(e&->&->)].
    + destruct Hm as (X&?&?&?). split_and!; eauto.
    + destruct Hm as [|(X&?&?&?)]; [by left|right]. split; [|done]. by exists X.
  - intros (r0&Hm&Hr)%unit_command. apply AddUsersToGroup_outcome in Hm.
    destruct Hr as [[-> ->]|(e&->&->)]; [|left; by destruct Hm].
    destruct Hm as [[-> ->]|(g'&?&?&?)]; [by split_and!; [left| |]|].
    split_and!; [right|done|done]. by exists g'.
  - intros (r0&Hm&Hr)%unit_command. apply RemoveUsersFromGroup_refines in Hm.
    destruct Hr as [[-> ->]|(e&->&->)]; [|by left].
    destruct Hm as (g'&?&?&?). split_and!; eauto.
  - intros (r0&Hm&Hr)%list_command. apply ListUsersInGroup_outcome in Hm as [Hv Hm]; [|done].
    destruct Hr as [(us&->&->)|(e&->&->)]; [|by left]. rewrite Hv. split_and!; [done..|].
    destruct Hm as (g'&?&?&?). exists g', us. by split_and!; [|apply Hj| |].
Qed.

(** Every command is one call of the storage layer. *)
Lemma dispatch_wf now format c s r (s' : S) :
  wf (view s) → dispatch now format c s = (r, s') → wf (view s').
Proof.
  intros Hwf Hd.
  set (k := match c with
            | UsersDelete u => CRemoveUserFromAllGroups u
            | UsersListGroups u => CGetGroupsForUser u
            | UsersSetGroups u gs => CUpdateGroupsForUser now u gs
            | GroupsAddUsers g us => CAddUsersToGroup now g us
            | GroupsRemoveUsers g us => CRemoveUsersFromGroup g us
            | GroupsListUsers g => CListUsersInGroup g
            end).
  replace s' with (after k s); [by apply after_wf|].
  destruct c; cbn [dispatch] in Hd;
    (apply unit_command in Hd as (r0&Hm&_) || apply list_command in Hd as (r0&Hm&_));
    cbn; by rewrite Hm.
Qed.
End membership_properties.

Section commands.
Context `{PgLaws} `{GoRangeLaws} `{!Strconv}.

Lemma run_subcommand_inv now dsn format a c d e d' :
  wf d → run_subcommand now dsn format a c d = (e, d') →
  wf d' ∧
  ((∃ out, e = mkEnd 0 out [] ∧ effect c (memberships d) (memberships d') ∧
     same_but_members d d' ∧ prints format c d out) ∨
   (exit_code e ≠ 0 ∧ stdout e = [] ∧
     (d' = d ∨ partial_effect c (memberships d) (memberships d') ∧ same_but_members d d'))).
Proof.
  intros Hwf. unfold run_subcommand.
  assert (∀ x, exit_code (Run "Error: " (Err x)) ≠ 0 ∧ stdout (Run "Error: " (Err x)) = []) as Hx.
  { by intros []. }
  destruct (newStorageFromCmd dsn a d) as [msg|[s|err]] eqn:Hs.
  { intros [= <- <-]. split; [done|]. right. by split_and!; [| |left]. }
  2:{ intros [= <- <-]. split; [done|]. right. destruct (Hx err). eauto. }
  assert (ctx_view background s = d) as Hd.
  { unfold newStorageFromCmd, NewDBClient in Hs.
    repeat (case_match; simplify_eq/=; try done). }
  destruct (dispatch _ _ _ _) as [r s'] eqn:Hr. intros [= <- <-].
  pose proof (@dispatch_wf client _ _ (engine_laws_of background I) _ _ now format c s r s')
    as Hwf'.
  pose proof (@dispatch_outcome client _ _ (engine_laws_of background I) _ _ _ _ now format c s r s')
    as Ho.
  change (view s') with (primary s') in *. change (view s) with (ctx_view background s) in *.
  rewrite Hd in *. split; [auto|]. specialize (Ho Hwf Hr).
  destruct r as [out|err]; [left; by exists out|right]. destruct (Hx err). eauto.
Qed.

(** C22: a membership command, over a well-formed database and whatever PostgreSQL
    fails, when the command connects or at any later statement.  When it exits 0 it has
    done exactly what it says to the memberships and nothing to the rest of the
    database, and printed exactly its output in the format asked for: in JSON or as
    text, a listing being the groups of the user in the order of their names, or the
    users of the group, each once.  When it exits with another code it printed nothing
    on the standard output and changed nothing, save that setting a user's groups may
    have removed those that were not to be kept. *)
Theorem membership_command_spec now dsn format a c d e d' :
  wf d → run_subcommand now dsn format a c d = (e, d') →
  (exit_code e = 0 → effect c (memberships d) (memberships d') ∧
     same_but_members d d' ∧ prints format c d (stdout e)) ∧
  (exit_code e ≠ 0 → stdout e = [] ∧
     (d' = d ∨ partial_effect c (memberships d) (memberships d') ∧ same_but_members d d')).
Proof.
  intros Hwf [_ [(out&->&Hr)|(?&?&?)]]%run_subcommand_inv; [|done..]; split; try done.
Qed.

(** What "users set-groups" stores "users list-groups" prints: the names of
    exactly the groups given, whatever the spelling of their ids. *)
Theorem set_groups_then_list now now' dsn a u gs d e1 d1 e2 d2 :
  wf d →
  run_subcommand now dsn "text" a (UsersSetGroups u gs) d = (e1, d1) → exit_code e1 = 0 →
  run_subcommand now' dsn "text" a (UsersListGroups u) d1 = (e2, d2) → exit_code e2 = 0 →
  ∃ X names, canonical gs X ∧ stdout e2 = Line <$> names ∧
    ∀ n, n ∈ names ↔ ∃ g, g ∈ groups d ∧ gr_id g ∈ X ∧ n = Name (group_of g).
Proof.
  intros Hwf [Hwf1 [(out1&->&(X&HX&HM)&[Hg _]&_)|(?&_)]]%run_subcommand_inv He1; [|done..].
  intros [_ [(out2&->&_&_&Hr)|(?&_)]]%run_subcommand_inv He2; [|done..].
  destruct Hr as (xs&->&Hxs&_). exists X, (Name <$> xs).
  split; [done|]. split; [by rewrite <- list_fmap_compose|].
  intros n. rewrite list_elem_of_fmap. setoid_rewrite Hxs. rewrite Hg, HM.
  setoid_rewrite elem_of_union. setoid_rewrite elem_of_filter.
  setoid_rewrite elem_of_groups_of_user. cbn. split.
  - intros (x&->&g&Hgs&[[? _]|[? _]]&->); [done|]. by exists g.
  - intros (g&Hgs&Hin&->). exists (group_of g). split; [done|]. exists g. by eauto.
Qed.
End commands.

(** ** The migrate command *)

(** What a command line asks for, and what the provider is then told to do. *)
Inductive request := RUp | RDown | RDownTo (version : Z) | RStatus | RCheck.

Inductive spells : list string → request → Prop :=
  | sp_none : spells [] RUp
  | sp_up : spells ["up"%string] RUp
  | sp_down : spells ["down"%string] RDown
  | sp_down_to s n : Atoi s = (n, true) → 0 ≤ n → spells ["down"%string; s] (RDownTo n)
  | sp_status : spells ["status"%string] RStatus
  | sp_check : spells ["check"%string] RCheck.

Section migrate_properties.
Context {S : Type} `{!Goose S} `{CobraLaws} `{!Strconv}.
Context (format : string).

(** What is to come of a request, from what the provider answers: its error, or what it
    did, which is printed as JSON only; the table of the migrations; or whether some are
    pending, which is a failure in text and not in JSON. *)
Definition perform (r : request) (s : S) : result (list migrate_output) * S :=
  let either {A} (a b : A) : A := if decide (format = "json"%string) then a else b in
  let applied (x : result (list MigrationResult)) :=
    match x with Ok l => Ok (either [Applied l] []) | Err e => Err e end in
  match r with
  | RUp => let '(x, s') := goose_Up s in (applied x, s')
  | RDown => let '(x, s') := goose_Down s in
             (applied match x with Ok m => Ok [m] | Err e => Err e end, s')
  | RDownTo n => let '(x, s') := goose_DownTo n s in (applied x, s')
  | RStatus =>
      let '(x, s') := goose_Status s in
      (match x with
       | Err e => Err e
       | Ok l => Ok (either [Statuses l]
           (Text "    Applied At                  Migration"
            :: Text "    ======================================="
            :: ((λ m, Text ("    " +:+ pad 24 (default "Pending" (status_applied m)) +:+ " -- " +:+
                         status_path m)) <$> l)))
       end, s')
  | RCheck =>
      match goose_HasPending s with
      | (Err e, s') => (Err (errorf_w "failed to check pending migrations" e), s')
      | (Ok pending, s') =>
          let '(v, s') := goose_GetDBVersion s' in
          (match pending, v with
           | true, Err e => Err (EText ("migrations are pending (failed to get current version: "
                                        +:+ Error e +:+ ")"))
           | true, Ok n => either (Ok [Checked "pending" n])
                             (Err (EText ("migrations are pending: current version " +:+ pretty n)))
           | false, Ok n => Ok (either [Checked "ok" n]
                              [Text ("Database is up to date (version " +:+ pretty n +:+ ")")])
           | false, Err _ => Ok (either [Checked "unknown" goose_NoVersion]
                               [Text "Database is up to date"])
           end, s')
      end
  end%string.

(** The lines the argument check lets through are those that ask for something. *)
Lemma valid_args args :
  customValidArgs args = None ↔ ∃ r, spells args r.
Proof.
  pose proof (range_law 0 2 args) as Hlaw. split.
  - unfold customValidArgs. destruct args as [|first rest]; [by eauto using sp_none|].
    destruct (RangeArgs 0 2 (first :: rest)) eqn:Hr; [done|].
    destruct Hlaw as [Hlaw _]. specialize (Hlaw eq_refl). cbn in Hlaw.
    case_decide as Hf; [|done]. rewrite !elem_of_cons in Hf.
    destruct rest as [|second [|]]; [|case_decide as Hd; [done|]|cbn in Hlaw; lia].
    + destruct Hf as [->|[->|[->|[->|[]%not_elem_of_nil]]]]; eauto using spells.
    + intros Hv. destruct (Atoi second) as [n ok] eqn:Ha. case_decide as Hn; [done|].
      assert (first = "down"%string) as -> by (by destruct (decide (first = "down"%string))).
      destruct ok; [|tauto]. exists (RDownTo n). constructor; [done|]. lia.
  - intros [r Hs]. unfold customValidArgs.
    destruct args as [|first rest]; [done|].
    replace (RangeArgs 0 2 (first :: rest)) with (@None goerr)
      by (symmetry; apply Hlaw; inversion Hs; cbn; lia).
    inversion Hs as [| | |x n Ha Hn| |]; subst; cbn; try done. rewrite Ha.
    rewrite decide_True by set_solver. rewrite decide_False by tauto.
    by rewrite decide_False by (intros [?|?]; [done|lia]).
Qed.

Lemma as_json_either {A} (a b : A) :
  (if as_json format then a else b) = if decide (format = "json"%string) then a else b.
Proof. unfold as_json. case_bool_decide; by case_decide. Qed.

Ltac run_request := cbv [mbind M_bind map_err attempt mret M_ret fail perform].

Lemma runUp_performs s : runUp format s = perform RUp s.
Proof.
  unfold runUp. run_request. destruct (goose_Up s) as [[?|?] ?]; by rewrite ?as_json_either.
Qed.

Lemma runDown_performs s : runDown format (-1) s = perform RDown s.
Proof.
  unfold runDown. rewrite decide_True by done. run_request.
  destruct (goose_Down s) as [[?|?] ?]; by rewrite ?as_json_either.
Qed.

Lemma runDownTo_performs n s : 0 ≤ n → runDown format n s = perform (RDownTo n) s.
Proof.
  intros Hn. unfold runDown. rewrite decide_False by lia. run_request.
  destruct (goose_DownTo n s) as [[?|?] ?]; by rewrite ?as_json_either.
Qed.

Lemma runStatus_performs s : runStatus format s = perform RStatus s.
Proof.
  unfold runStatus. run_request. destruct (goose_Status s) as [[?|?] ?]; by rewrite ?as_json_either.
Qed.

Lemma runCheck_performs s : runCheck format s = perform RCheck s.
Proof.
  unfold runCheck. run_request. destruct (goose_HasPending s) as [[[]|?] s1]; [..|done];
    destruct (goose_GetDBVersion s1) as [[?|?] ?]; rewrite ?as_json_either; [|done| |];
    by case_decide.
Qed.

Lemma run_valid args r s :
  spells args r → runMigrate format None args s = perform r s.
Proof.
  intros Hs. unfold runMigrate, migrate.
  inversion Hs as [| | |x n Ha Hn| |]; subst; cbn [head default from_option id]; try rewrite Ha;
    repeat first [rewrite decide_True by done | rewrite decide_False by done].
  - apply runUp_performs.
  - apply runUp_performs.
  - apply runDown_performs.
  - by apply runDownTo_performs.
  - apply runStatus_performs.
  - apply runCheck_performs.
Qed.

(** C36: a command line that asks for something (nothing, up, down, down to a version,
    status, check) and whose database is reached makes goose's provider do exactly that
    and prints what it answered, as text or as JSON; when the database is not reached,
    the DSN is malformed or the provider cannot be made, it fails with that error and
    does nothing.  Any other line is refused before the database is reached. *)
Theorem migrate_command_spec args :
  (∃ r, spells args r ∧ ∀ setup s,
     migrate_command format setup args s =
     match setup with None => perform r s | Some err => (Err err, s) end) ∨
  ((¬ ∃ r, spells args r) ∧ ∃ err, ∀ setup s, migrate_command format setup args s = (Err err, s)).
Proof.
  unfold migrate_command. pose proof (valid_args args) as Hv.
  destruct (customValidArgs args) as [err|].
  - right. split; [by intros ?%Hv|]. by exists err.
  - left. destruct Hv as [[r Hr] _]; [done|]. exists r. split; [done|].
    intros [err|] s; [done|]. by apply run_valid.
Qed.

(** "migrate check" exits 0 exactly when nothing is pending, or when
    something is pending and the output is JSON: in that format the exit code
    does not report pending migrations. *)
Theorem check_exit_code s r s' :
  runCheck format s = (r, s') →
  (is_ok r = true ↔
     ∃ s1, goose_HasPending s = (Ok false, s1) ∨
       (as_json format = true ∧ goose_HasPending s = (Ok true, s1) ∧
        ∃ v, goose_GetDBVersion s1 = (Ok v, s'))).
Proof.
  unfold runCheck. cbv [mbind M_bind map_err attempt mret M_ret fail].
  destruct (goose_HasPending s) as [[[]|e] s1].
  - destruct (goose_GetDBVersion s1) as [[v|e] s2] eqn:Hv; [destruct (as_json format) eqn:Hj|];
      intros [= <- <-]; cbn; (split; [try done|]).
    + intros _. exists s1. right. by eauto.
    + done.
    + intros (?&[[= ?]|(?&_)]); done.
    + intros (s3&[[= ?]|(_&He&?&Hg)]). injection He as <-. rewrite Hv in Hg. done.
  - destruct (goose_GetDBVersion s1) as [[v|e] s2]; destruct (as_json format);
      intros [= <- <-]; cbn; (split; [intros _; exists s1; by left|done]).
  - intros [= <- <-]; cbn. split; [done|]. by intros (?&[[= ?]|(_&[= ?]&_)]).
Qed.
End migrate_properties.

(** ** The import command *)

Section import_properties.
Context {T TD : Type} `{!SdkFactory T TD} `{ValidatorLaws} `{PgParams} `{!GoRange} `{!Strconv}.
Context (fuel : T → nat) (clock : string → time) (uuid : string → result string).
Context (Init : string → string → string →
           result (string → result (list SalesforceDriver.TeamMemberRecord))).

(** An import succeeds only from Salesforce with all its credentials, and
    with an OpenFGA host it never gets to importing: the client's configuration
    lacks the API scheme, so building it panics. *)
Theorem runImport_needs dsn a f d t e d' t' :
  runImport (TD:=TD) fuel clock uuid Init dsn a f d t = (e, (d', t')) →
  (exit_code e = 0 → flag_driver f = "salesforce"%string ∧ flag_domain f ≠ ""%string ∧
     flag_consumer_key f ≠ ""%string ∧ flag_consumer_secret f ≠ ""%string) ∧
  (flag_openfga_host f ≠ ""%string → exit_code e ≠ 0 ∧ d' = d ∧ t' = t).
Proof.
  match goal with |- _ → ?G =>
    assert (∀ p x, (Run p (Err x), (d, t)) = (e, (d', t')) → G) as Hfail
  end.
  { intros p x He. assert (exit_code (Run p (Err x)) ≠ 0) by (by destruct x).
    assert (e = Run p (Err x) ∧ d' = d ∧ t' = t) as (->&->&->) by (by injection He). tauto. }
  unfold runImport. destruct (NewDBClient _ _ _ _) as [msg|[s|err]].
  { intros [= <- <- <-]. by split. }
  2:{ apply Hfail. }
  unfold import_driver, buildSalesforceDriver.
  case_decide as Hd.
  2:{ apply Hfail. }
  case_decide as Hc.
  { apply Hfail. }
  destruct (salesforce_NewClient _ _ _ _) as [q|err].
  2:{ apply Hfail. }
  intros He. split; [intros _; tauto|]. intros Hh.
  unfold buildAuthorizer, NewConfig in He. rewrite decide_False in He by done.
  destruct (Struct _) as [err|] eqn:Hs.
  2:{ apply required_law in Hs. set_solver. }
  cbn in He. by simplify_eq.
Qed.
End import_properties.

(** ** Concrete commands *)

Module Witnesses.
Import TestParams StorageSpec.Witnesses.
Local Open Scope string_scope.

#[local] Instance quote : Strconv := {| Quote s := s |}.
Definition healthy : pgx_answers := mkPgx None None None None None None None [] [] [].

Lemma membership_command_spec_witness :
  let run := run_subcommand 6 "postgres://db" "text" healthy (GroupsAddUsers "B2" ["w"]) d0 in
  exit_code run.1 = 0 ∧
  (exit_code run.1 = 0 →
     effect (GroupsAddUsers "B2" ["w"]) (memberships d0) (memberships run.2) ∧
     same_but_members d0 run.2 ∧
     prints "text" (GroupsAddUsers "B2" ["w"]) d0 (stdout run.1)) ∧
  (exit_code run.1 ≠ 0 → stdout run.1 = [] ∧
     (run.2 = d0 ∨
      partial_effect (GroupsAddUsers "B2" ["w"]) (memberships d0) (memberships run.2) ∧
      same_but_members d0 run.2)).
Proof.
  intros run. split; [vm_compute; reflexivity|].
  refine (membership_command_spec 6 "postgres://db" "text" healthy (GroupsAddUsers "B2" ["w"])
            d0 run.1 run.2 d0_wf _).
  unfold run. by destruct (run_subcommand _ _ _ _ _ _).
Defined.

Lemma set_groups_then_list_witness :
  let r1 := run_subcommand 6 "postgres://db" "text" healthy (UsersSetGroups "u" ["B2"]) d0 in
  let r2 := run_subcommand 7 "postgres://db" "text" healthy (UsersListGroups "u") r1.2 in
  exit_code r1.1 = 0 ∧ stdout r2.1 = [Line "crew"] ∧
  ∃ X names, canonical ["B2"] X ∧ stdout r2.1 = Line <$> names ∧
    ∀ n, n ∈ names ↔ ∃ g, g ∈ groups d0 ∧ gr_id g ∈ X ∧ n = Name (group_of g).
Proof.
  intros r1 r2. split; [vm_compute; reflexivity|]. split; [vm_compute; reflexivity|].
  refine (set_groups_then_list 6 7 "postgres://db" healthy "u" ["B2"] d0 r1.1 r1.2 r2.1 r2.2
            d0_wf _ _ _ _); vm_compute; reflexivity.
Defined.

(** A database three migrations long. *)
#[local] Instance three : Goose Z := {|
  MigrationResult := Z; MigrationStatus := Z;
  status_path := pretty; status_applied _ := None;
  goose_Up v := (Ok (seqZ v (3 - v)), 3);
  goose_Down v := if decide (v = 0) then (Err (EText "no migrations"), v) else (Ok v, v - 1);
  goose_DownTo n v := (Ok (seqZ n (v - n)), Z.min n v);
  goose_Status v := (Ok (seqZ 1 3), v);
  goose_HasPending v := (Ok (bool_decide (v < 3)), v);
  goose_GetDBVersion v := (Ok v, v);
  goose_NoVersion := -1;
|}.
#[local] Instance cobra : Cobra := {|
  RangeArgs min max args :=
    if decide (min ≤ length args ≤ max)%nat then None else Some (EText "accepts between");
|}.
#[local] Instance cobra_laws : CobraLaws.
Proof. split. intros. cbn. case_decide; naive_solver. Qed.

Example down_to_one : migrate_command (S:=Z) "text" None ["down"; "1"] 3 = (Ok [], 1).
Proof. vm_compute. reflexivity. Qed.
Example no_negative_version :
  (migrate_command (S:=Z) "text" None ["down"; "-1"] 3).2 = 3.
Proof. vm_compute. reflexivity. Qed.
Example out_of_range : Atoi "9223372036854775808" = (2 ^ 63 - 1, false).
Proof. vm_compute. reflexivity. Qed.

Lemma migrate_command_spec_witness :
  (∃ r, spells ["down"; "1"] r ∧ ∀ setup s,
     migrate_command (S:=Z) "text" setup ["down"; "1"] s =
     match setup with None => perform "text" r s | Some err => (Err err, s) end) ∨
  ((¬ ∃ r, spells ["down"; "1"] r) ∧
   ∃ err, ∀ setup s, migrate_command (S:=Z) "text" setup ["down"; "1"] s = (Err err, s)).
Proof. exact (migrate_command_spec (S:=Z) "text" ["down"; "1"]). Defined.

Lemma check_exit_code_witness :
  runCheck (S:=Z) "json" 1 = (Ok [Checked "pending" 1], 1) ∧
  (true = true ↔ ∃ s1, goose_HasPending (1 : Z) = (Ok false, s1) ∨
     (as_json "json" = true ∧ goose_HasPending (1 : Z) = (Ok true, s1) ∧
      ∃ v, goose_GetDBVersion s1 = (Ok v, 1))).
Proof.
  split; [vm_compute; reflexivity|].
  refine (check_exit_code (S:=Z) "json" 1 (Ok [Checked "pending" 1]) 1 _).
  vm_compute. reflexivity.
Defined.

#[local] Instance tags : Validator :=
  {| Struct fields := if decide (""%string ∈ fields) then Some (EText "required") else None |}.
#[local] Instance tags_laws : ValidatorLaws.
Proof. split. intros. cbn. case_decide; naive_solver. Qed.
#[local] Instance factory : SdkFactory unit nat := {|
  NewSdkClient _ := Err (EText "no network"); SetStoreId _ c := c; SetAuthorizationModelId _ c := c;
|}.
Definition with_openfga : import_flags :=
  mkImportFlags "salesforce" "acme.my" "key" "secret" false "fga:8080" "store" "token" "model".

Lemma runImport_needs_witness :
  let run := runImport (TD:=nat) (λ _, 1%nat) (λ _, 6) (λ _, Ok "c3")
               (λ _ _ _, Ok (λ _, Ok [])) "postgres://db" healthy with_openfga d0 tt in
  run = (mkEnd 2 [] ["panic: OpenFGA config missing"], (d0, tt)) ∧
  (exit_code run.1 = 0 → "salesforce" = "salesforce" ∧ "acme.my" ≠ "" ∧ "key" ≠ "" ∧ "secret" ≠ "") ∧
  ("fga:8080" ≠ "" → exit_code run.1 ≠ 0 ∧ run.2.1 = d0 ∧ run.2.2 = tt).
Proof.
  intros run. split; [vm_compute; reflexivity|].
  refine (runImport_needs (TD:=nat) (λ _, 1%nat) (λ _, 6) (λ _, Ok "c3")
            (λ _ _ _, Ok (λ _, Ok [])) "postgres://db" healthy with_openfga d0 tt
            run.1 run.2.1 run.2.2 _).
  vm_compute. reflexivity.
Defined.
End Witnesses.
