(* ===== verification/Main.v ===== *)
(** * cmd/serve.go, [serve] and [main]: the process of the server

    [serve_setup] is [serve] up to the moment the servers listen: the environment
    ([Config]), the logger, the monitor and the tracer, the parts of [Serve], and the
    port of the gRPC server.  [process_handler] and [process_stream] are what the two
    servers then answer with ([Router], [Serve.mapping_stream]); [main] is the exit of
    the whole process, after a run of the three goroutines of [Shutdown] and the streams
    that come meanwhile: a panic of a stream, which grpc does not recover from, ends the
    process, one of an HTTP handler only its connection. *)

From Stdlib Require Import SpecFloat.
From stdpp Require Import pretty.
From S2P Require Import Prelude Errors Config Logging Sql Storage StorageSpec Tracing DbClient Monitoring Fga AuthModel Authorizer Grpc Groups Pool Tenants Hooks Authn Serve Router Shutdown Cmd.
Open Scope Z_scope.

Section process.
Context {T TD : Type} `{!PgParams} `{!SdkFactory T TD} `{!Transformer TD} `{!Validator}
  `{!OidcSources} `{!GrpcDial} `{!Envconfig} `{!Zap} `{!Prometheus} `{!Otel} `{!ErrGroup}
  `{!Hydra} `{!GoRange} `{!ChiWriter} `{!Cors} `{!Chi} `{!Otelhttp}.

(** What a process finds when it starts. *)
Record surroundings := mkSurroundings {
  environment : gmap string string;
  build_info : option Tracing.BuildInfo;
  otel_globals : globals;
  postgres : pgx_answers; primary_db : database; replica_db : database;
  openfga_server : T;
  Listen : Z → option goerr;      (** [net.Listen] on a port of every address *)
}.

Record process := mkProcess {
  p_specs : EnvSpec; p_logger : Logger; p_monitor : Monitor; p_tracer : option Tracer;
  p_server : server T TD;
}.

(** The fuel of the authorizer's loops; the largest channel; [%v] of the configuration. *)
Context (fuel : T → nat) (maxChan : Z) (show_specs : EnvSpec → string).

(** The end of the start: the port of the gRPC server, and the lines that say so. *)
Definition listen (w : surroundings) (specs : EnvSpec) (logger : Logger)
    : option goerr * list line :=
  match Listen w (spec_GRPCPort specs) with
  | Some err =>
      (Some (errorf_v ("failed to listen on gRPC port " +:+ pretty (spec_GRPCPort specs)) err), [])
  | None =>
      (None, log_Info logger ("Starting HTTP server on port " +:+ pretty (spec_Port specs)) ++
             log_Info logger ("Starting gRPC server on port " +:+ pretty (spec_GRPCPort specs)))%list
  end.

(** What comes of the start, the lines logged, the OpenFGA server's state. *)
Definition serve_setup (w : surroundings) : started process * list line * T :=
  match Process (environment w) with
  | Err err =>
      (Panics ("issues with environment sourcing: " +:+ Error err), [], openfga_server w)
  | Ok specs =>
      let logger := NewLogger (spec_LogLevel specs) in
      let env_vars := log_Debug logger ("env vars: " +:+ show_specs specs) in
      let '(l1, monitor) := NewMonitor "hook-service" logger in
      let '(tracer, l2, _) :=
        NewTracer (build_info w)
          (Tracing.NewConfig (spec_TracingEnabled specs) (spec_OtelGRPCEndpoint specs)
             (spec_OtelHTTPEndpoint specs) logger) (otel_globals w) in
      let '(o, t) := serve_start tracer maxChan specs (postgres w) (primary_db w) (replica_db w)
                       (openfga_server w) in
      match o with
      | Up srv =>
          let '(err, l3) := listen w specs logger in
          (match err with
           | Some err => Fails err
           | None => Up (mkProcess specs logger monitor tracer srv)
           end, env_vars ++ l1 ++ l2 ++ l3, t)
      | Exits msg => (Exits msg, env_vars ++ l1 ++ l2, t)
      | Panics msg => (Panics msg, env_vars ++ l1 ++ l2, t)
      | Fails err => (Fails err, env_vars ++ l1 ++ l2, t)
      end
  end%list.

(** The handler of the HTTP server: a request over the process' client, the OpenFGA
    server, the bodies written and the monitor.  [e] and [elapsed] as in [NewRouter]. *)
Definition process_handler (p : process) (info : option Tracing.BuildInfo)
    (promhttp gateway : http_request → http_handler (T * list body)) (e : pool_fates)
    (elapsed : spec_float) (r : http_request)
    : (client * (T * list body)) * Monitor → served * ((client * (T * list body)) * Monitor) :=
  NewRouter (AuthorizerOps0 := NewAuthorizer fuel (srv_authz (p_server p)))
    (VT := srv_tenants (p_server p)) promhttp gateway
    (spec_ApiToken (p_specs p)) (spec_AuthenticationEnabled (p_specs p))
    (srv_verifier (p_server p)) (p_tracer p) info e elapsed r.

(** A stream of the gRPC server. *)
Definition process_stream {St} (p : process) (fullMethod : string) (md : option (list string))
    (stream : ctx → St → option status * St) (s : St) : stream_answer * St :=
  mapping_stream (p_tracer p) (srv_verifier (p_server p)) fullMethod md stream background s.

(** *** [main] *)

Definition main_exit (r : option goerr) : run_end :=
  match r with
  | None => mkEnd 0 [] []
  | Some err => mkEnd 1 [] ["Fatal error: " +:+ Error err]
  end.

#[local] Instance finished_dec (s : lifecycle) : Decision (Shutdown.finished s).
Proof. unfold Shutdown.finished. apply _. Defined.

(** What happens to a process that is up: a move of one of its goroutines, or a stream
    that a client opened and its handler. *)
Inductive event :=
  | Move (m : move)
  | Stream (fullMethod : string) (md : option (list string)) (handler : ctx → option status).

(** The lifecycle after some events, or the end of the process by a panic, after which
    there are no more; [None] when the process cannot see these events. *)
Fixpoint live (p : process) (evs : list event) (s : lifecycle) : option (run_end + lifecycle) :=
  match evs with
  | [] => Some (inr s)
  | Move m :: evs => step m s ≫= live p evs
  | Stream fullMethod md handler :: evs =>
      if decide (Shutdown.finished s) then None
      else match (process_stream p fullMethod md (λ x u, (handler x, u)) tt).1 with
           | StreamPanics msg => Some (inl (mkEnd 2 [] ["panic: " +:+ msg]))
           | StreamEnds _ => live p evs s
           end
  end.

(** The exit of a process that sees the events [evs] once its servers listen; [None]
    while some goroutine has not returned. *)
Definition main (w : surroundings) (evs : list event) : option run_end :=
  match (serve_setup w).1.1 with
  | Exits _ => Some (mkEnd 1 [] [])
  | Panics msg => Some (mkEnd 2 [] ["panic: " +:+ msg])
  | Fails err => Some (main_exit (Some err))
  | Up p =>
      r ← live p evs start;
      match r with
      | inl e => Some e
      | inr s => if decide (Shutdown.finished s) then Some (main_exit (serve_result s)) else None
      end
  end.
End process.
Arguments process : clear implicits.

(** ** Properties *)

Section properties.
Context {T TD : Type} `{!PgParams} `{!SdkFactory T TD} `{!Transformer TD} `{!Validator}
  `{!OidcSources} `{!GrpcDial} `{EnvconfigLaws} `{ZapLaws} `{!Prometheus} `{!Otel}
  `{ErrGroupLaws} `{!Hydra} `{!GoRange} `{!ChiWriter} `{!Cors} `{ChiLaws} `{OtelhttpLaws}.
Context (maxChan : Z) (show_specs : EnvSpec → string).
Abbreviation setup w := (serve_setup (TD:=TD) maxChan show_specs w).

(** The pieces of a process that came up. *)
Lemma serve_setup_inv w p l t :
  setup w = (Up p, l, t) →
  Process (environment w) = Ok (p_specs p) ∧
  serve_start (p_tracer p) maxChan (p_specs p) (postgres w) (primary_db w) (replica_db w)
    (openfga_server w) = (Up (p_server p), t).
Proof.
  unfold serve_setup. destruct (Process _) as [specs|?] eqn:Hp; [|done].
  destruct (NewMonitor _ _) as [l1 m]. destruct (NewTracer _ _ _) as [[tr l2] g].
  destruct (serve_start _ _ _ _ _ _ _) as [[?|?|?|srv] t1] eqn:Hs; [done..|].
  destruct (listen _ _ _) as [[err|] l3]; [done|]. intros [= <- _ <-]. by split.
Qed.

(** C2: a process that came up, whatever its environment says otherwise, keeps its
    management APIs behind authentication when AUTHENTICATION_ENABLED is true.  What it
    answers to a request without a bearer token that is genuine for the configured
    issuer and of a configured subject or scope does not depend on the APIs; and a
    stream without such a token never reaches its handler: it ends Unauthenticated, or,
    in a process whose tracer could not be made, it panics. *)
Theorem process_guards (fuel : T → nat) w p l t authorization :
  setup w = (Up p, l, t) →
  spec_AuthenticationEnabled (p_specs p) = true →
  (∀ raw, head authorization = Some ("Bearer " +:+ raw) → ¬ accepted (p_specs p) raw) →
  (∀ info promhttp gateway gateway' e elapsed r st, r_Authorization r = authorization →
     process_handler fuel p info promhttp gateway e elapsed r st =
     process_handler fuel p info promhttp gateway' e elapsed r st) ∧
  (∀ St fullMethod stream (s : St), ∃ o,
     process_stream p fullMethod (Some authorization) stream s = (o, s) ∧
     match p_tracer p with
     | Some _ => ∃ m, o = StreamEnds (Some (mkStatus Unauthenticated m))
     | None => ∃ msg, o = StreamPanics msg
     end).
Proof.
  intros [_ Hs]%serve_setup_inv Hen Hno.
  apply serve_start_inv in Hs as (_&_&_&Hv).
  assert (¬ bearer_ok (H:=srv_verifier (p_server p)) authorization) as Hb.
  { intros (raw&Hh&Hok). apply (Hno raw Hh). by eapply verifier_accepts. }
  split.
  - intros info promhttp gateway gateway' e elapsed r st <-. unfold process_handler. rewrite Hen.
    apply gateway_guarded. by intros _.
  - intros St fullMethod stream s. unfold process_stream, mapping_stream.
    destruct (p_tracer p) as [tr|]; cbn [Start]; [|by eauto].
    destruct (StreamAuthenticate_cases (H:=srv_verifier (p_server p)) authorization)
      as [[? _]|[_ [m ->]]]; [done|eauto].
Qed.

(** The moves among some events, and whether a stream is among them. *)
Definition moves (evs : list event) : list move :=
  omap (λ e, match e with Move m => Some m | _ => None end) evs.
Definition has_stream (evs : list event) : Prop := ∃ f md h, Stream f md h ∈ evs.

Lemma has_stream_move m evs : has_stream (Move m :: evs) ↔ has_stream evs.
Proof. unfold has_stream. setoid_rewrite elem_of_cons. naive_solver. Qed.

(** A stream ends the process exactly when there is no tracer. *)
Lemma process_stream_panics {St} p fullMethod md stream (s : St) :
  (∃ msg, (process_stream (T:=T) (TD:=TD) p fullMethod md stream s).1 = StreamPanics msg) ↔
  p_tracer p = None.
Proof.
  unfold process_stream, mapping_stream. destruct (p_tracer p) as [tr|]; cbn [Start].
  - split; [|done]. intros [msg Hm]. destruct (StreamAuthenticate _); [done|].
    by destruct (StreamReplicaRoutingInterceptor _ _ _ _).
  - split; [done|]. eauto.
Qed.

Lemma live_inv (p : process T TD) evs s r :
  live p evs s = Some r →
  (p_tracer p = None ∧ has_stream evs ∧ ∃ msg, r = inl (mkEnd 2 [] [msg])) ∨
  (¬ (p_tracer p = None ∧ has_stream evs) ∧ ∃ s', r = inr s' ∧ run (moves evs) s = Some s').
Proof.
  revert s. induction evs as [|[m|f md h] evs IH]; intros s; cbn [live].
  - intros [= <-]. right. split; [|by eexists]. by intros [_ (?&?&?&?%elem_of_nil)].
  - destruct (step m s) as [s1|] eqn:Hs; [|done]. cbn [mbind option_bind]. intros Hl%IH.
    rewrite has_stream_move. destruct Hl as [?|(?&s'&->&Hr)]; [by left|right].
    split; [done|]. exists s'. split; [done|]. unfold moves. cbn. by rewrite Hs.
  - case_decide; [done|].
    pose proof (process_stream_panics p f md (λ x u, (h x, u)) tt) as Hp.
    assert (has_stream (Stream f md h :: evs)) as Hst by (exists f, md, h; by left).
    destruct (process_stream _ _ _ _ _).1 as [st|msg].
    + assert (p_tracer p ≠ None) as Htr by (intros [? ?]%Hp; done).
      intros [(?&_)|(_&s'&->&Hr)]%IH; [done|]. right. split; [tauto|]. by exists s'.
    + intros [= <-]. left. destruct Hp as [Hp _]. split; [eauto|]. split; [done|]. by eexists.
Qed.

(** C19: how the process exits, of the ways modelled.  With 2 exactly when the start
    panicked, or it came up without a tracer (the exporter could not be made) and a
    stream arrived: that panics in a goroutine nothing recovers.  With 0 exactly when it
    came up, no stream panicked, and what first ended the service, before any server
    failed, was a signal to stop, whatever then happens during the shutdown.  With 1
    otherwise, when it exits at all. *)
Theorem main_exit_code w evs e :
  main (TD:=TD) maxChan show_specs w evs = Some e →
  (exit_code e = 2 ↔ (∃ msg l t, setup w = (Panics msg, l, t)) ∨
     ∃ p l t, setup w = (Up p, l, t) ∧ p_tracer p = None ∧ has_stream evs) ∧
  (exit_code e = 0 ↔
     ∃ p l t err, setup w = (Up p, l, t) ∧ ¬ (p_tracer p = None ∧ has_stream evs) ∧
       ends_first (moves evs) err ∧ errors_is err ErrShutdownSignal = true) ∧
  (exit_code e = 0 ∨ exit_code e = 1 ∨ exit_code e = 2).
Proof.
  unfold main. destruct (setup w) as [[o l] t] eqn:Hw. cbn [fst].
  destruct o as [msg|msg|err|p]; intros Hm; [injection Hm as <-; cbn; naive_solver..|].
  destruct (live p evs start) as [r|] eqn:Hl; [|done].
  apply live_inv in Hl as [(Htr&Hst&msg&->)|(Hno&s&->&Hr)]; cbn in Hm.
  { injection Hm as <-. cbn. split_and!; [|naive_solver..]. split; [|done].
    intros _. right. by exists p, l, t. }
  case_decide as Hf; [|done]. injection Hm as <-.
  pose proof (course_run _ _ _ _ course_start Hr) as (Hwt&_&Hn). cbn [or_else] in *.
  pose proof (first_end_cases (moves evs)) as Hc.
  destruct (first_end (moves evs)) as [err|].
  2: { destruct Hn as (_&_&Hx); [done|]. destruct Hf as (_&_&Hf). congruence. }
  unfold serve_result. rewrite Hwt.
  destruct (errors_is err ErrShutdownSignal) eqn:He; cbn.
  - split_and!; [naive_solver| |by left]. split; [|done]. intros _. by exists p, l, t, err.
  - split_and!; [naive_solver| |naive_solver]. split; [done|].
    intros (p'&l'&t'&err'&_&_&Hc'%first_end_iff&He'). apply first_end_iff in Hc. congruence.
Qed.

(** C35: an environment that sets only the required variable does not start an
    unprotected server, it starts none: authentication is on by default and has no
    issuer.  Without that variable the process panics. *)
Theorem default_environment_refuses w dsn :
  environment w = {["DSN"%string := dsn]} ∨ environment w = ∅ →
  ∃ o l t, serve_setup (TD:=TD) maxChan show_specs w = (o, l, t) ∧ (∀ p, o ≠ Up p) ∧
    (environment w = ∅ → ∃ msg, o = Panics ("issues with environment sourcing: " +:+ msg)) ∧
    (environment w ≠ ∅ → (∃ msg, o = Exits msg) ∨ ∃ err, o = Fails err).
Proof.
  destruct (setup w) as [[o l] t] eqn:Hw. intros Henv. exists o, l, t. split; [done|].
  unfold serve_setup in Hw. destruct Henv as [Henv|Henv].
  - assert (environment w ≠ ∅) as Hne by (rewrite Henv; apply map_non_empty_singleton).
    rewrite Henv, (Process_default _ dsn) in Hw
      by (first [by rewrite dom_singleton_L|by rewrite lookup_singleton_eq]).
    destruct (NewMonitor _ _) as [l1 m]. destruct (NewTracer _ _ _) as [[tr l2] g].
    assert (serve_verifier (default_specs dsn) =
      Fails (errorf_v "failed to setup JWT authenticator"
               (EText "issuer is required for JWT authentication"))) as Hv by done.
    assert (serve_tenants (default_specs dsn) = Up noop_validator) as Ht by done.
    unfold serve_start in Hw. rewrite Ht, Hv in Hw.
    destruct (serve_db (default_specs dsn) _ _ _) as [msg|msg|err|c] eqn:Hd; cbn in Hw; simplify_eq.
    + split_and!; [done|by intros ?|eauto].
    + unfold serve_db in Hd. destruct (NewDBClient _ _ _ _) as [?|[?|?]]; done.
    + split_and!; [done|by intros ?|eauto].
    + split_and!; [done|by intros ?|eauto].
  - rewrite Henv in *. pose proof (Process_required ∅ ltac:(done)) as Hp.
    destruct (Process ∅) as [?|err]; [done|]. simplify_eq. split_and!; [done|eauto|done].
Qed.

(** The whole configuration, its secrets included, is logged at the start exactly
    when the level is "debug". *)
Theorem configuration_logged w specs :
  Process (environment w) = Ok specs →
  ∃ rest, (setup w).1.2 = (log_Debug (NewLogger (spec_LogLevel specs))
             ("env vars: " +:+ show_specs specs) ++ rest)%list ∧
    (log_Debug (NewLogger (spec_LogLevel specs)) ("env vars: " +:+ show_specs specs) = [] ↔
     ToLower (spec_LogLevel specs) ≠ "debug"%string).
Proof.
  intros Hp. unfold serve_setup. rewrite Hp.
  destruct (NewMonitor _ _) as [l1 m]. destruct (NewTracer _ _ _) as [[tr l2] g].
  assert (log_Debug (NewLogger (spec_LogLevel specs)) ("env vars: " +:+ show_specs specs) = [] ↔
    ToLower (spec_LogLevel specs) ≠ "debug"%string) as Hi.
  { rewrite <- service_debug. unfold log_Debug, write, NewLogger. cbn [SugaredLogger].
    destruct (decide (severity (service_level (spec_LogLevel specs)) ≤ -1)) as [Hl|Hl].
    - rewrite zap_enabled by done. naive_solver.
    - split; [done|]. intros _. apply zap_disabled. cbn. lia. }
  destruct (serve_start _ _ _ _ _ _ _) as [[?|?|?|srv] t1]; [eauto..|].
  destruct (listen _ _ _). cbn. eauto.
Qed.
End properties.

(** ** A concrete process *)

Module Witnesses.
Import TestParams StorageSpec.Witnesses DbClient.Witnesses Groups.Witnesses Hooks.Witnesses
  Logging.Witnesses Monitoring.Witnesses Tracing.Witnesses Authn.Witnesses Router.Witnesses
  Serve.Witnesses Shutdown.Witnesses.
Local Open Scope string_scope.

(** An issuer in the environment gives the configuration of [Serve.Witnesses]. *)
#[export] Instance test_envconfig : Envconfig := {|
  Process env :=
    match env !! "DSN" with
    | None => Err (EText "required key DSN missing value")
    | Some dsn =>
        match env !! "AUTHENTICATION_ISSUER" with
        | None => Ok (default_specs dsn)
        | Some _ => Ok (specs true)
        end
    end;
|}.
#[export] Instance test_envconfig_laws : EnvconfigLaws.
Proof.
  split.
  - intros env dsn Hdom Hd. cbn. rewrite Hd.
    destruct (env !! "AUTHENTICATION_ISSUER") as [?|] eqn:Hi; [|done].
    assert ("AUTHENTICATION_ISSUER" ∈ dom env) as Hx by (apply elem_of_dom; by eexists).
    rewrite Hdom in Hx. set_solver.
  - intros env Hd. cbn. by rewrite Hd.
Qed.

Definition env0 : gmap string string :=
  {[ "DSN" := "postgres://db"; "AUTHENTICATION_ISSUER" := "https://issuer" ]}.
Definition world0 (env : gmap string string) : surroundings (T:=unit) :=
  mkSurroundings env None (mkGlobals None []) no_faults empty_db empty_db tt (λ _, None).

Abbreviation up0 :=
  (serve_setup (Transformer0 := gives 8) 1000 (λ _, "&{...}") (world0 env0)).

Lemma process_guards_witness :
  ∃ p l, up0 = (Up p, l, tt) ∧
  ((∀ info promhttp gateway gateway' e elapsed r st, r_Authorization r = [] →
     process_handler (λ _, 1%nat) p info promhttp gateway e elapsed r st =
     process_handler (λ _, 1%nat) p info promhttp gateway' e elapsed r st) ∧
  (∀ St fullMethod stream (s : St), ∃ o,
     process_stream p fullMethod (Some []) stream s = (o, s) ∧
     match p_tracer p with
     | Some _ => ∃ m, o = StreamEnds (Some (mkStatus Unauthenticated m))
     | None => ∃ msg, o = StreamPanics msg
     end)).
Proof.
  do 2 eexists. split; [vm_compute; reflexivity|].
  refine (process_guards (Transformer0 := gives 8) 1000 (λ _, "&{...}") (λ _, 1%nat)
            (world0 env0) _ _ tt [] _ _ _); [vm_compute; reflexivity..|by intros raw].
Defined.

(** A stream, a signal, and the orderly end of both servers. *)
Definition stopping : list event :=
  Stream "/hook.groups.v1.GroupsMappingService/GetUsersInGroup" None (λ _, None) ::
  (Move <$> [SignalReceived; GrpcCancelled; HttpCancelled; HttpShutDown None; GrpcStopped]).

Abbreviation main0 := (Main.main (Transformer0 := gives 8) 1000 (λ _, "&{...}") (world0 env0)).

Lemma main_exit_code_witness :
  ∃ e, main0 stopping = Some e ∧
  (exit_code e = 2%Z ↔ (∃ msg l t, up0 = (Panics msg, l, t)) ∨
     ∃ p l t, up0 = (Up p, l, t) ∧ p_tracer p = None ∧ has_stream stopping) ∧
  (exit_code e = 0%Z ↔
     ∃ p l t err, up0 = (Up p, l, t) ∧ ¬ (p_tracer p = None ∧ has_stream stopping) ∧
       ends_first (moves stopping) err ∧ errors_is err ErrShutdownSignal = true) ∧
  (exit_code e = 0%Z ∨ exit_code e = 1%Z ∨ exit_code e = 2%Z).
Proof.
  eexists. split; [vm_compute; reflexivity|].
  refine (main_exit_code (Transformer0 := gives 8) 1000 (λ _, "&{...}") (world0 env0) stopping _ _).
  vm_compute. reflexivity.
Defined.

(** The HTTP port is taken: the process exits with 1 although it came up. *)
Example port_taken :
  exit_code <$> main0 (Move <$> [HttpReturns (Some (EText "address already in use"));
                       GrpcCancelled; SignalCancelled; GrpcStopped]) = Some 1%Z.
Proof. vm_compute. reflexivity. Qed.

Lemma default_environment_refuses_witness :
  let w := world0 {[ "DSN" := "postgres://db" ]} in
  ∃ o l t, serve_setup (Transformer0 := gives 8) 1000 (λ _, "&{...}") w = (o, l, t) ∧
    (∀ p, o ≠ Up p) ∧
    (environment w = ∅ → ∃ msg, o = Panics ("issues with environment sourcing: " +:+ msg)) ∧
    (environment w ≠ ∅ → (∃ msg, o = Exits msg) ∨ ∃ err, o = Fails err).
Proof.
  exact (default_environment_refuses (Transformer0 := gives 8) 1000 (λ _, "&{...}")
           (world0 {[ "DSN" := "postgres://db" ]}) "postgres://db" (or_introl eq_refl)).
Defined.
End Witnesses.
