(* ===== verification/Mapping.v ===== *)
(** * gen/hook/groups/v1 and the gRPC server: the mapping API from end to end

    What the generated code of the mapping service makes of a call (mapping_grpc.pb.go:
    receive the request, call the method of pkg/groups/mapping_grpc_handlers.go), behind
    the interceptors of the server ([Main.process_stream]) and over the server's own
    database client.  The decoding of a request is the library's: a call carries the
    request, or the status decoding it ended in. *)

From S2P Require Import Prelude Errors Config Logging Sql Storage StorageSpec Tracing DbClient Monitoring Fga AuthModel Authorizer Grpc Groups Pool Tenants Hooks Authn Serve Router Shutdown Cmd Main.
Open Scope Z_scope.

(** ** Messages (mapping.pb.go) *)

Record GetGroupsForUserReq := mkGetGroupsForUserReq {
  ggu_UserId : string; ggu_TenantId : option string }.
Record GetUsersInGroupReq := mkGetUsersInGroupReq {
  gug_GroupId : string; gug_TenantId : option string }.

Definition GetGroupsForUserReq_GetUserId (x : option GetGroupsForUserReq) : string :=
  match x with Some x => ggu_UserId x | None => "" end.
Definition GetGroupsForUserReq_GetTenantId (x : option GetGroupsForUserReq) : string :=
  match x with
  | Some (mkGetGroupsForUserReq _ (Some t)) => t
  | _ => ""
  end.
Definition GetUsersInGroupReq_GetGroupId (x : option GetUsersInGroupReq) : string :=
  match x with Some x => gug_GroupId x | None => "" end.
Definition GetUsersInGroupReq_GetTenantId (x : option GetUsersInGroupReq) : string :=
  match x with
  | Some (mkGetUsersInGroupReq _ (Some t)) => t
  | _ => ""
  end.

(** What the server sends. *)
Inductive mapping := GroupMapping (g : PbGroup) | UserMapping (id : string).

(** ** The service (mapping_grpc.pb.go) *)

Definition GetGroupsForUser_FullMethodName : string :=
  "/hook.groups.v1.GroupsMappingService/GetGroupsForUser".
Definition GetUsersInGroup_FullMethodName : string :=
  "/hook.groups.v1.GroupsMappingService/GetUsersInGroup".

Section service.
Context {S W : Type} `{!Engine S}.
(** The client's stream, and how the iteration over the rows ends. *)
Context (Send : mapping → M W unit) (broken : breaks).

Definition GetGroupsForUser_Handler (RecvMsg : status + GetGroupsForUserReq) (sw : S * W)
    : option status * (S * W) :=
  match RecvMsg with
  | inl err => (Some err, sw)
  | inr m =>
      MappingGrpcServer.GetGroupsForUser broken (Send ∘ GroupMapping)
        (GetGroupsForUserReq_GetTenantId (Some m)) (GetGroupsForUserReq_GetUserId (Some m)) sw
  end.

Definition GetUsersInGroup_Handler (RecvMsg : status + GetUsersInGroupReq) (sw : S * W)
    : option status * (S * W) :=
  match RecvMsg with
  | inl err => (Some err, sw)
  | inr m =>
      MappingGrpcServer.GetUsersInGroup broken (Send ∘ UserMapping)
        (GetUsersInGroupReq_GetTenantId (Some m)) (GetUsersInGroupReq_GetGroupId (Some m)) sw
  end.
End service.

(** A call of one of the two streams, with the request that arrives. *)
Inductive mapping_call :=
  | CallGroupsForUser (m : status + GetGroupsForUserReq)
  | CallUsersInGroup (m : status + GetUsersInGroupReq).

(** [GroupsMappingService_ServiceDesc]: the streams by name, with their handlers. *)
Definition ServiceName : string := "hook.groups.v1.GroupsMappingService".
Definition StreamName (q : mapping_call) : string :=
  match q with
  | CallGroupsForUser _ => "GetGroupsForUser"
  | CallUsersInGroup _ => "GetUsersInGroup"
  end.
Definition Handler {S W} `{!Engine S} (Send : mapping → M W unit) (broken : breaks)
    (q : mapping_call) : S * W → option status * (S * W) :=
  match q with
  | CallGroupsForUser m => GetGroupsForUser_Handler Send broken m
  | CallUsersInGroup m => GetUsersInGroup_Handler Send broken m
  end.

(** The method's name as the interceptors see it. *)
Definition FullMethod (q : mapping_call) : string := "/" +:+ ServiceName +:+ "/" +:+ StreamName q.

Lemma FullMethodNames m m' :
  FullMethod (CallGroupsForUser m) = GetGroupsForUser_FullMethodName ∧
  FullMethod (CallUsersInGroup m') = GetUsersInGroup_FullMethodName.
Proof. done. Qed.

Section process.
Context {T TD W : Type} `{!PgParams} `{!SdkFactory T TD} `{!Transformer TD} `{!Validator}
  `{!OidcSources} `{!GrpcDial} `{!Envconfig} `{!Zap} `{!Prometheus} `{!Otel} `{!ErrGroup}.

(** The stream of a process: its interceptors, then the handler on the connection of the
    context that they make. *)
Definition mapping_api (p : process T TD) (Send : mapping → M W unit) (broken : breaks)
    (authorization : list string) (q : mapping_call)
    : client * W → stream_answer * (client * W) :=
  process_stream p (FullMethod q) (Some authorization)
    (λ x, Handler (Engine0 := client_engine x) Send broken q).
End process.

(** ** Properties *)

(** What a reading stream leaves alone. *)
Record same_store (c c' : client) : Prop := {
  ss_primary : primary c' = primary c;
  ss_txs : txs c' = txs c;
  ss_lazies : lazies c' = lazies c;
  ss_replica : replicaRunner c' = replicaRunner c;
  ss_lag : replicaLagMs c' = replicaLagMs c;
}.

#[export] Instance same_store_preorder : PreOrder same_store.
Proof. split; [by split|]. intros ???[][]; split; congruence. Qed.

(** The database a reading stream sees: the replica while it is fresh enough. *)
Definition seen (c : client) : database :=
  if bool_decide (replicaLagMs c ≤ maxLagMs c)
  then default (primary c) (replicaRunner c) else primary c.

Abbreviation reading := (WithReadOnly background).
#[local] Instance reading_engine `{!PgParams} : Engine client := client_engine reading.

Section select.
Context `{!PgParams}.

(** A query of a reading context. *)
Lemma reading_exec st (c : client) r c' :
  is_query st = true → exec st c = (r, c') →
  same_store c c' ∧
  (next (stmt_faults c) = None → r = (Sql.run 0 st (seen c)).1).
Proof.
  intros Hst. destruct st as [f cols w o| | | | |]; try done.
  assert (∀ c r c', run_on RunPrimary (Select f cols w o) c = (r, c') →
    same_store c c' ∧
    (next (stmt_faults c) = None → r = (Sql.run 0 (Select f cols w o) (primary c)).1)) as Hp.
  { clear. intros c r c' Hr. unfold run_on in Hr. cbn -[Sql.run] in Hr.
    destruct (next (stmt_faults c)) as [e|]; cbn -[Sql.run] in Hr; [simplify_eq; by split|].
    destruct (Sql.run 0 _ _) as [q d] eqn:Hq. injection Hr as <- <-.
    apply run_select in Hq as ->. by split. }
  cbn -[run_on Sql.run]. unfold Statement, Statement_no_lazy, seen. cbn -[run_on Sql.run].
  destruct (replicaRunner c) as [d|] eqn:Hd; cbn -[run_on Sql.run].
  2: { intros [? Hq]%Hp. split; [done|]. intros Hn. rewrite Hq by done. by destruct (bool_decide _). }
  case_decide as Hl.
  - rewrite bool_decide_false by lia. intros [[] Hq]%Hp. by split.
  - rewrite bool_decide_true by lia. unfold run_on. cbn -[Sql.run].
    destruct (next (stmt_faults c)) as [e|]; cbn -[Sql.run]; [intros [= <- <-]; by split|].
    rewrite Hd. cbn -[Sql.run]. intros [= <- <-]. split; [by split|done].
Qed.

Lemma reading_query st (c : client) :
  is_query st = true →
  same_store c (QueryContext st c).2 ∧
  (next (stmt_faults c) = None →
   is_ok (QueryContext st c).1 = is_ok (Sql.run 0 st (seen c)).1).
Proof.
  intros Hst. unfold QueryContext. destruct (exec st c) as [r c'] eqn:Hx.
  apply reading_exec in Hx as [? Hq]; [|done]. destruct r as [[]|]; (split; [done|]); intros <-%Hq; done.
Qed.

Lemma on_stream_same_store {T} broken m0 m1 st loop (c : client) (t : T) :
  is_query st = true →
  same_store c (on_stream broken m0 (map_err (errorf_v m1) (QueryContext st)) loop (c, t)).2.1.
Proof.
  intros Hst. unfold on_stream, map_err. cbn -[QueryContext].
  pose proof (reading_query st c Hst) as [Hs _].
  destruct (QueryContext _ c) as [[rs|e] c1]; [|done]. by destruct (loop _ t).
Qed.
End select.

(** The two queries fail only for a group id that is not a UUID. *)
Lemma group_users_query_ok `{PgParams} tenant g g' d :
  uuid_in g = Some g' → is_ok (Sql.run 0 (group_users_query tenant g) d).1 = true.
Proof.
  intros Hg. cbn. unfold tenant_filter. case_decide; cbn; rewrite Hg; cbn;
    by rewrite decide_True by (repeat constructor; done).
Qed.
Lemma user_groups_query_ok `{PgParams} tenant u d :
  is_ok (Sql.run 0 (user_groups_query tenant u) d).1 = true.
Proof.
  cbn. unfold tenant_filter. case_decide; cbn;
    by rewrite decide_True by (repeat constructor; done).
Qed.

(** The elements a call is to send, of a database; what a request must be. *)
Definition listing `{PgParams} (d : database) (q : mapping_call) (all : list mapping) : Prop :=
  match q with
  | CallGroupsForUser (inr m) =>
      ∃ gs, groups_listing d (GetGroupsForUserReq_GetTenantId (Some m)) (ggu_UserId m) gs ∧
            all = GroupMapping ∘ to_pb <$> gs
  | CallUsersInGroup (inr m) =>
      ∃ us, users_listing d (GetUsersInGroupReq_GetTenantId (Some m)) (gug_GroupId m) us ∧
            all = UserMapping <$> us
  | _ => False
  end.
Definition well_formed `{PgParams} (q : mapping_call) : Prop :=
  match q with
  | CallGroupsForUser (inr m) => ggu_UserId m ≠ ""%string
  | CallUsersInGroup (inr m) => gug_GroupId m ≠ ""%string ∧ is_Some (uuid_in (gug_GroupId m))
  | _ => False
  end.

Lemma for_each_fmap {A B W} (f : A → B) (Send : B → M W unit) l w :
  for_each Send (f <$> l) w = for_each (Send ∘ f) l w.
Proof.
  revert w. induction l as [|x l IH]; intros w; [done|]. cbn.
  unfold mbind, M_bind. destruct (Send (f x) w) as [[?|?] w1]; [apply IH|done].
Qed.

Lemma streamed_fmap {A B W} (f : A → B) (Send : B → M W unit) broken l w o w' :
  streamed (Send ∘ f) broken l w o w' → streamed Send broken (f <$> l) w o w'.
Proof. unfold streamed. by rewrite rows_read_fmap, for_each_fmap. Qed.

Section handler.
Context {W : Type} `{PgLaws} (Send : mapping → M W unit) (broken : breaks).

Lemma reading_view c : view c = seen c.
Proof. done. Qed.

Lemma Handler_same_store q c w : same_store c (Handler Send broken q (c, w)).2.1.
Proof.
  destruct q as [[?|m]|[?|m]]; [done| |done|]; cbn [Handler].
  - unfold GetGroupsForUser_Handler, MappingGrpcServer.GetGroupsForUser. case_decide; [done|].
    unfold Service.StreamGroupsForUser. rewrite map_err_eq.
    match goal with |- context [StreamGroupsForUser ?b ?t ?u ?f (c, w)] =>
      assert (same_store c (StreamGroupsForUser b t u f (c, w)).2.1) as Hs
        by (by apply on_stream_same_store)
    end.
    by destruct (StreamGroupsForUser _ _ _ _ (c, w)) as [r [c1 w1]].
  - unfold GetUsersInGroup_Handler, MappingGrpcServer.GetUsersInGroup. case_decide; [done|].
    unfold Service.StreamUsersInGroup. rewrite map_err_eq.
    match goal with |- context [StreamUsersInGroup ?b ?t ?u ?f (c, w)] =>
      assert (same_store c (StreamUsersInGroup b t u f (c, w)).2.1) as Hs
        by (by apply on_stream_same_store)
    end.
    by destruct (StreamUsersInGroup _ _ _ _ (c, w)) as [r [c1 w1]].
Qed.

(** What a handler answers on a reading connection. *)
Lemma Handler_outcome q c w o c' w' :
  wf (seen c) → Handler Send broken q (c, w) = (o, (c', w')) →
  (w' = w ∧ (∃ st, o = Some st) ∧ ¬ (next (stmt_faults c) = None ∧ well_formed q)) ∨
  ∃ all, listing (seen c) q all ∧ streamed Send broken all w o w'.
Proof.
  intros Hwf. pose proof (engine_laws_of reading I : EngineLaws client (Engine0 := reading_engine)) as Hlaws.
  destruct q as [[e|m]|[e|m]]; cbn [Handler].
  - intros [= <- <- <-]. left. split_and!; [done|by eexists|by intros [_ []]].
  - unfold GetGroupsForUser_Handler. intros Hh.
    apply (GetGroupsForUser_stream (S:=client)) in Hh as [_ Hh]; [|done].
    destruct Hh as [(Hg&->&_&->)|[(->&?&Hq)|(gs&Hl&Hs)]].
    + left. split_and!; [done|by eexists|]. by intros [_ ?].
    + left. split_and!; [done..|]. intros [Hn _].
      destruct (reading_query (user_groups_query (GetGroupsForUserReq_GetTenantId (Some m))
        (GetGroupsForUserReq_GetUserId (Some m))) c eq_refl) as [_ Hx].
      rewrite Hx, user_groups_query_ok in Hq; done.
    + right. eexists. split; [by exists gs|].
      rewrite list_fmap_compose. by apply streamed_fmap, streamed_fmap.
  - intros [= <- <- <-]. left. split_and!; [done|by eexists|by intros [_ []]].
  - unfold GetUsersInGroup_Handler. intros Hh.
    apply (GetUsersInGroup_stream (S:=client)) in Hh as [_ Hh]; [|done].
    destruct Hh as [(Hg&->&_&->)|[(->&?&Hq)|(us&Hl&Hs)]].
    + left. split_and!; [done|by eexists|]. by intros [_ [? _]].
    + left. split_and!; [done..|]. intros (Hn&_&g'&Hg).
      destruct (reading_query (group_users_query (GetUsersInGroupReq_GetTenantId (Some m))
        (GetUsersInGroupReq_GetGroupId (Some m))) c eq_refl) as [_ Hx].
      rewrite Hx, (group_users_query_ok _ _ _ _ Hg) in Hq; done.
    + right. eexists. split; [by exists us|]. by apply streamed_fmap.
Qed.
End handler.

Section properties.
Context {T TD W : Type} `{PgLaws} `{!SdkFactory T TD} `{!Transformer TD} `{!Validator}
  `{!OidcSources} `{!GrpcDial} `{!Envconfig} `{!Zap} `{!Prometheus} `{!Otel} `{!ErrGroup}.
Context (maxChan : Z) (show_specs : EnvSpec → string).

(** C4: a stream of the mapping API of a process that came up, from the metadata of the
    call to the rows of a well-formed database.  It never changes the databases or leaves
    a transaction.  In a process without a tracer it panics, with nothing sent and no
    query.  Otherwise, without a bearer token that the server's verifier passes it ends
    Unauthenticated with nothing sent and no query; with authentication enabled such a
    token is genuine and of an allowed subject or scope.  With one, it sends exactly the
    groups of the user, or the users of the group, of the replica while that is fresh
    enough and of the primary otherwise, in order and up to the first failure, and ends
    well exactly when there was none; only a statement that fails or a request that is
    not well formed ends it before anything is sent. *)
Theorem mapping_end_to_end w p l t (Send : mapping → M W unit) broken authorization q
    c wst o c' wst' :
  serve_setup (TD:=TD) maxChan show_specs w = (Up p, l, t) → wf (seen c) →
  mapping_api p Send broken authorization q (c, wst) = (o, (c', wst')) →
  let passes := bearer_ok (H:=srv_verifier (p_server p)) authorization in
  same_store c c' ∧
  (p_tracer p = None → c' = c ∧ wst' = wst ∧ ∃ msg, o = StreamPanics msg) ∧
  (is_Some (p_tracer p) → ∃ st, o = StreamEnds st ∧
   (¬ passes → c' = c ∧ wst' = wst ∧ ∃ m, st = Some (mkStatus Unauthenticated m)) ∧
   (passes → spec_AuthenticationEnabled (p_specs p) = true →
    ∃ raw, head authorization = Some ("Bearer " +:+ raw) ∧ accepted (p_specs p) raw) ∧
   (passes →
    (wst' = wst ∧ is_Some st ∧ ¬ (next (stmt_faults c) = None ∧ well_formed q)) ∨
    ∃ all, listing (seen c) q all ∧ streamed Send broken all wst st wst')).
Proof.
  intros [_ Hs]%serve_setup_inv Hwf Hx passes.
  apply serve_start_inv in Hs as (_&_&_&Hv).
  assert (passes → spec_AuthenticationEnabled (p_specs p) = true →
    ∃ raw, head authorization = Some ("Bearer " +:+ raw) ∧ accepted (p_specs p) raw) as Hacc.
  { intros (raw&Hh&Hok) Hen. exists raw. split; [done|]. by eapply verifier_accepts. }
  unfold mapping_api, process_stream, mapping_stream in Hx.
  destruct (p_tracer p) as [tr|]; cbn [Start] in Hx.
  2: { injection Hx as <- <- <-. split_and!; [by split|eauto|by intros [? ?]]. }
  destruct (StreamAuthenticate_cases (H:=srv_verifier (p_server p)) authorization)
    as [[Hb Hsa]|[Hno [m Hsa]]]; rewrite Hsa in Hx.
  - destruct (StreamReplicaRoutingInterceptor _ _ _ _) as [st [c1 w1]] eqn:Hst.
    injection Hx as <- <- <-.
    assert (Handler (Engine0 := reading_engine) Send broken q (c, wst) = (st, (c1, w1))) as Hh
      by (rewrite <- Hst; by destruct q).
    split_and!; [|done|].
    + pose proof (Handler_same_store Send broken q c wst) as Hss. by rewrite Hh in Hss.
    + intros _. exists st. split_and!; [done..|]. intros _. by eapply Handler_outcome.
  - injection Hx as <- <- <-. split_and!; [by split|done|]. intros _. eexists.
    split_and!; [done| |done|done]. intros _. split_and!; eauto.
Qed.
End properties.

(** ** A concrete stream *)

Module Witnesses.
Import TestParams StorageSpec.Witnesses DbClient.Witnesses Groups.Witnesses Hooks.Witnesses
  Logging.Witnesses Monitoring.Witnesses Tracing.Witnesses Authn.Witnesses Router.Witnesses
  Serve.Witnesses Shutdown.Witnesses Main.Witnesses.
Local Open Scope string_scope.

(** A primary that lost its rows, and a replica that still has them. *)
Definition lagging (lag : Z) : client :=
  mkClient empty_db (Some d0) lag 100 0 0 ∅ ∅ [] [] [].
Definition members_of (g : string) : mapping_call :=
  CallUsersInGroup (inr (mkGetUsersInGroupReq g None)).
Definition collect (x : mapping) (sent : list mapping) : result unit * list mapping :=
  (Ok tt, (sent ++ [x])%list).

Example fresh_replica_then_primary :
  match (serve_setup (Transformer0 := gives 8) 1000 (λ _, "&{...}") (world0 env0)).1.1 with
  | Up p =>
      mapping_api p collect None ["Bearer bob"] (members_of "A1") (lagging 5, [])
        = (StreamEnds None, (count_replica (lagging 5), [UserMapping "u"; UserMapping "v"])) ∧
      (mapping_api p collect None ["Bearer bob"] (members_of "A1") (lagging 500, [])).1 = StreamEnds None ∧
      (mapping_api p collect None ["Bearer bob"] (members_of "A1") (lagging 500, [])).2.2 = []
  | _ => False
  end.
Proof. vm_compute. by split_and!. Qed.

Lemma mapping_end_to_end_witness :
  ∃ p l, up0 = (Up p, l, tt) ∧
  let passes := bearer_ok (H:=srv_verifier (p_server p)) ["Bearer bob"] in
  let c' := count_replica (lagging 5) in
  let sent := [UserMapping "u"; UserMapping "v"] in
  let o := StreamEnds None in
  same_store (lagging 5) c' ∧
  (p_tracer p = None → c' = lagging 5 ∧ sent = [] ∧ ∃ msg, o = StreamPanics msg) ∧
  (is_Some (p_tracer p) → ∃ st, o = StreamEnds st ∧
   (¬ passes → c' = lagging 5 ∧ sent = [] ∧ ∃ m, st = Some (mkStatus Unauthenticated m)) ∧
   (passes → spec_AuthenticationEnabled (p_specs p) = true →
    ∃ raw, head ["Bearer bob"] = Some ("Bearer " +:+ raw) ∧ accepted (p_specs p) raw) ∧
   (passes →
    (sent = [] ∧ is_Some st ∧
       ¬ (next (stmt_faults (lagging 5)) = None ∧ well_formed (members_of "A1"))) ∨
    ∃ all, listing (seen (lagging 5)) (members_of "A1") all ∧
           streamed collect None all [] st sent)).
Proof.
  do 2 eexists. split; [vm_compute; reflexivity|].
  refine (mapping_end_to_end (Transformer0 := gives 8) 1000 (λ _, "&{...}") (world0 env0) _ _ tt
            collect None ["Bearer bob"] (members_of "A1") (lagging 5) [] (StreamEnds None) _ _ _
            d0_wf _);
    vm_compute; reflexivity.
Defined.
End Witnesses.
