(* ===== verification/Cli.v ===== *)
(** * main.go and the [init] functions of cmd: the command line

    The commands the [init] functions register, with their flags and the check of their
    arguments, as data ([tree]); the [Run] of each, reading its flags ([run_command]); and
    the whole program over a command line ([program]), from cobra's parse to the exit code
    and the stores.  cobra and pflag are a parameter: [parse] turns the words of the
    command line into the command to run with its arguments and the flags that were set,
    and [CobraCommandLineLaws] says what cobra documents of it. *)

From S2P Require Import Prelude Errors Config Logging Types Sql Storage StorageSpec Tracing DbClient Monitoring Fga AuthModel Authorizer Grpc Groups Pool Tenants Hooks Importer Authn Serve Router Shutdown Cmd Main.
Open Scope Z_scope.

(** ** Commands and flags *)

Inductive command :=
  | CmdServe | CmdVersion | CmdImport | CmdMigrate | CmdCreateFgaModel
  | CmdUsersDelete | CmdUsersListGroups | CmdUsersSetGroups
  | CmdGroupsAddUsers | CmdGroupsRemoveUsers | CmdGroupsListUsers.

#[export] Instance command_eq_dec : EqDecision command.
Proof. solve_decision. Defined.

(** A flag's value; [StringSlice]'s default [nil] is the empty list. *)
Inductive flag_value := VString (s : string) | VBool (b : bool) | VStrings (l : list string).

Definition same_type (v w : flag_value) : bool :=
  match v, w with
  | VString _, VString _ | VBool _, VBool _ | VStrings _, VStrings _ => true
  | _, _ => false
  end.

(** [Flags().String(name, value, ...)] and the like, [StringP(name, shorthand, ...)],
    and [MarkFlagRequired]. *)
Record flag := mkFlag {
  flag_name : string; flag_short : string; flag_default : flag_value; flag_required : bool;
}.

Definition import_init : list flag := [
  mkFlag "driver" "" (VString "") true;
  mkFlag "dsn" "" (VString "") true;
  mkFlag "domain" "" (VString "") true;
  mkFlag "consumer-key" "" (VString "") true;
  mkFlag "consumer-secret" "" (VString "") true;
  mkFlag "sync" "" (VBool false) false;
  mkFlag "openfga-host" "" (VString "") false;
  mkFlag "openfga-store-id" "" (VString "") false;
  mkFlag "openfga-token" "" (VString "") false;
  mkFlag "openfga-model-id" "" (VString "") false ].

Definition migrate_init : list flag := [
  mkFlag "dsn" "" (VString "") true;
  mkFlag "format" "f" (VString "text") false ].

Definition createFgaModel_init : list flag := [
  mkFlag "fga-api-url" "" (VString "") true;
  mkFlag "fga-api-token" "" (VString "") true;
  mkFlag "fga-store-id" "" (VString "") false;
  mkFlag "format" "" (VString "text") false;
  mkFlag "verbose" "v" (VBool false) false ].

(** The loop over the three subcommands, then the flags of some. *)
Definition users_init (c : command) : list flag :=
  [ mkFlag "dsn" "" (VString "") true; mkFlag "format" "f" (VString "text") false ] ++
  match c with
  | CmdUsersSetGroups => [mkFlag "group" "g" (VStrings []) true]
  | _ => []
  end.
Definition groups_init (c : command) : list flag :=
  [ mkFlag "dsn" "" (VString "") true; mkFlag "format" "f" (VString "text") false ] ++
  match c with
  | CmdGroupsAddUsers => [mkFlag "user" "u" (VStrings []) true]
  | CmdGroupsRemoveUsers => [mkFlag "user" "u" (VStrings []) false]
  | _ => []
  end.

Definition flags (c : command) : list flag :=
  match c with
  | CmdServe | CmdVersion => []
  | CmdImport => import_init
  | CmdMigrate => migrate_init
  | CmdCreateFgaModel => createFgaModel_init
  | CmdUsersDelete | CmdUsersListGroups | CmdUsersSetGroups => users_init c
  | CmdGroupsAddUsers | CmdGroupsRemoveUsers | CmdGroupsListUsers => groups_init c
  end.

(** The words that name a command: [AddCommand] on [rootCmd], [usersCmd], [groupsCmd]. *)
Definition path (c : command) : list string :=
  match c with
  | CmdServe => ["serve"]
  | CmdVersion => ["version"]
  | CmdImport => ["import"]
  | CmdMigrate => ["migrate"]
  | CmdCreateFgaModel => ["create-fga-model"]
  | CmdUsersDelete => ["users"; "delete"]
  | CmdUsersListGroups => ["users"; "list-groups"]
  | CmdUsersSetGroups => ["users"; "set-groups"]
  | CmdGroupsAddUsers => ["groups"; "add-users"]
  | CmdGroupsRemoveUsers => ["groups"; "remove-users"]
  | CmdGroupsListUsers => ["groups"; "list-users"]
  end%string.

(** The check of a command's arguments: [Args], if it has one. *)
Inductive args_check := AnyArgs | ExactArgs (n : nat) | CustomValidArgs.
Definition Args (c : command) : args_check :=
  match c with
  | CmdServe | CmdVersion | CmdImport | CmdCreateFgaModel => AnyArgs
  | CmdMigrate => CustomValidArgs
  | _ => ExactArgs 1
  end.

Record declared := mkDeclared {
  d_command : command; d_path : list string; d_flags : list flag; d_args : args_check }.
Definition declare (c : command) : declared := mkDeclared c (path c) (flags c) (Args c).
Definition tree : list declared :=
  declare <$> [CmdServe; CmdVersion; CmdImport; CmdMigrate; CmdCreateFgaModel;
               CmdUsersDelete; CmdUsersListGroups; CmdUsersSetGroups;
               CmdGroupsAddUsers; CmdGroupsRemoveUsers; CmdGroupsListUsers].

(** ** cobra *)

(** What a command line comes to: an error, the help of a command, or a command to run
    with its arguments and the flags that were set. *)
Inductive parsed :=
  | Refused (err : goerr)
  | Helped (text : string)
  | Runs (c : declared) (args : list string) (set : gmap string flag_value).

Class CobraCommandLine := {
  parse : list declared → list string → parsed;
  (** The value of a flag of a command's flag set. *)
  flag_value_of : list flag → gmap string flag_value → string → option flag_value;
}.

(** A command runs only if it is one of the tree's, its arguments pass its check, its
    required flags were set, and each flag was set to a value of its type.  A flag has the
    value it was set to, or else its default. *)
Class CobraCommandLineLaws `{!Cobra} `{!Strconv} `{!CobraCommandLine} := {
  runs_known cs argv c args set : parse cs argv = Runs c args set → c ∈ cs;
  runs_args cs argv c args set : parse cs argv = Runs c args set →
    match d_args c with
    | AnyArgs => True
    | ExactArgs n => length args = n
    | CustomValidArgs => customValidArgs args = None
    end;
  runs_required cs argv c args set f : parse cs argv = Runs c args set →
    f ∈ d_flags c → flag_required f = true → is_Some (set !! flag_name f);
  runs_typed cs argv c args set n v : parse cs argv = Runs c args set →
    set !! n = Some v → ∃ f, f ∈ d_flags c ∧ flag_name f = n ∧ same_type v (flag_default f) = true;
  flag_set fs set n v : set !! n = Some v → flag_value_of fs set n = Some v;
  flag_unset fs set f : set !! flag_name f = None → f ∈ fs → NoDup (flag_name <$> fs) →
    flag_value_of fs set (flag_name f) = Some (flag_default f);
}.

(** [cmd.Flags().GetString(name)] and the like, the error dropped: the zero value for a
    flag of another type or none. *)
Section get.
Context `{!CobraCommandLine} (c : command) (set : gmap string flag_value).

Definition GetString (name : string) : string :=
  match flag_value_of (flags c) set name with Some (VString s) => s | _ => "" end.
Definition GetBool (name : string) : bool :=
  match flag_value_of (flags c) set name with Some (VBool b) => b | _ => false end.
Definition GetStringSlice (name : string) : list string :=
  match flag_value_of (flags c) set name with Some (VStrings l) => l | _ => [] end.
End get.

(** ** The program *)

(** What a process that ended printed, on either stream but for the error. *)
Inductive output := Printed (p : printed) | MigrateOutput {S : Type} {G : Goose S} (o : migrate_output (S:=S)).
Record process_end := mkProcessEnd {
  pe_code : Z; pe_printed : list output; pe_errors : list string }.

Definition of_run_end (e : run_end) : process_end :=
  mkProcessEnd (exit_code e) (Printed <$> stdout e) (stderr e).

Section program.
Context {T TD G : Type} `{!PgParams} `{!SdkFactory T TD} `{!Transformer TD} `{!Validator}
  `{!OidcSources} `{!GrpcDial} `{!Envconfig} `{!Zap} `{!Prometheus} `{!Otel} `{!ErrGroup}
  `{!GoRange} `{!Strconv} `{!Goose G} `{!Cobra} `{!CobraCommandLine}.

(** What surrounds a run: the answers of PostgreSQL, how the migrations are reached, the
    clock and the ids, the fuel of the authorizer's loops; the parts of a server. *)
Record machine {URL} := mkMachine {
  m_pgx : pgx_answers; m_migrations : string → migrate_answers;
  m_now : time; m_clock : string → time; m_uuid : string → result string;
  m_fuel : T → nat;
  m_salesforce : string → string → string →
    result (string → result (list SalesforceDriver.TeamMemberRecord));
  m_url_Parse : string → result URL; m_Scheme : URL → string; m_Host : URL → string;
  m_maxChan : Z; m_show_specs : EnvSpec → string;
  m_surroundings : surroundings (T:=T); m_events : list event;
}.
Context {URL : Type} (w : machine (URL:=URL)).

(** The stores a command works on: the database, the OpenFGA server, the schema. *)
Abbreviation stores := (database * (T * G))%type.

(** A command ends with what it printed and left; a server with its exit, if it exits,
    having served what came. *)
Inductive ran := Ended (e : process_end) (st : database * (T * G)) | Serving (e : option process_end).

(** [runX(cmd, args[0])] with the flags of the command. *)
Definition subcommand_of (c : command) (set : gmap string flag_value) (arg : string)
    : option subcommand :=
  match c with
  | CmdUsersDelete => Some (UsersDelete arg)
  | CmdUsersListGroups => Some (UsersListGroups arg)
  | CmdUsersSetGroups => Some (UsersSetGroups arg (GetStringSlice c set "group"))
  | CmdGroupsAddUsers => Some (GroupsAddUsers arg (GetStringSlice c set "user"))
  | CmdGroupsRemoveUsers => Some (GroupsRemoveUsers arg (GetStringSlice c set "user"))
  | CmdGroupsListUsers => Some (GroupsListUsers arg)
  | _ => None
  end.

Definition import_flags_of (set : gmap string flag_value) : import_flags :=
  let get := GetString CmdImport set in
  mkImportFlags (get "driver") (get "domain") (get "consumer-key") (get "consumer-secret")
    (GetBool CmdImport set "sync") (get "openfga-host") (get "openfga-store-id")
    (get "openfga-token") (get "openfga-model-id").

(** [args[0]] of no arguments panics. *)
Definition index_out_of_range : process_end :=
  mkProcessEnd 2 [] ["panic: runtime error: index out of range"%string].

Definition migrate_end (r : result (list (migrate_output (S:=G)))) : process_end :=
  match r with
  | Ok out => mkProcessEnd 0 (MigrateOutput <$> out) []
  | Err err => mkProcessEnd 1 [] [Error err]
  end.

(** The [Run] field of each command. *)
Definition run_command (c : command) (args : list string) (set : gmap string flag_value)
    (st : stores) : ran :=
  let '(d, (t, g)) := st in
  match c with
  | CmdServe =>
      Serving (of_run_end <$> Main.main (TD:=TD) (m_maxChan w) (m_show_specs w) (m_surroundings w)
                                (m_events w))
  | CmdVersion => Ended (of_run_end run_version) st
  | CmdImport =>
      let '(e, (d, t)) := runImport (TD:=TD) (m_fuel w) (m_clock w) (m_uuid w) (m_salesforce w)
                            (GetString c set "dsn") (m_pgx w) (import_flags_of set) d t in
      Ended (of_run_end e) (d, (t, g))
  | CmdMigrate =>
      let '(r, g) := runMigrate (GetString c set "format")
                       (migrate_setup (m_migrations w (GetString c set "dsn"))) args g in
      Ended (migrate_end r) (d, (t, g))
  | CmdCreateFgaModel =>
      let '(e, t) := create_fga_model (TD:=TD) (m_url_Parse w) (m_Scheme w) (m_Host w)
                       (GetString c set "fga-api-url") (GetString c set "fga-api-token")
                       (GetString c set "fga-store-id") (GetString c set "format")
                       (GetBool c set "verbose") t in
      Ended (of_run_end e) (d, (t, g))
  | _ =>
      match head args ≫= subcommand_of c set with
      | None => Ended index_out_of_range st
      | Some sub =>
          let '(e, d) := run_subcommand (m_now w) (GetString c set "dsn")
                           (GetString c set "format") (m_pgx w) sub d in
          Ended (of_run_end e) (d, (t, g))
      end
  end.

(** main.go: [cmd.Execute()]; the words after the program's name. *)
Definition program (argv : list string) (st : stores) : ran :=
  match parse tree argv with
  | Refused err => Ended (mkProcessEnd 1 [] ["Error: " +:+ Error err]) st
  | Helped text => Ended (mkProcessEnd 0 [Printed (Line text)] []) st
  | Runs c args set => run_command (d_command c) args set st
  end.
End program.

(** ** Properties *)

Section properties.
Context {T TD G URL : Type} `{PgLaws} `{!SdkFactory T TD} `{!Transformer TD} `{!Validator}
  `{!OidcSources} `{!GrpcDial} `{!Envconfig} `{!Zap} `{!Prometheus} `{!Otel} `{!ErrGroup}
  `{GoRangeLaws} `{!Strconv} `{!Goose G} `{CobraLaws} `{!CobraCommandLine} `{!CobraCommandLineLaws}.
Context (w : machine (T:=T) (URL:=URL)).
Implicit Types (d : database) (t : T) (g : G).

(** The flags a command requires were set on its command line. *)
Definition required_set (c : command) (set : gmap string flag_value) : Prop :=
  ∀ f, f ∈ flags c → flag_required f = true → is_Some (set !! flag_name f).

Lemma parse_tree argv dc args set :
  parse tree argv = Runs dc args set →
  ∃ c, dc = declare c ∧ required_set c set ∧
    match Args c with
    | AnyArgs => True
    | ExactArgs n => length args = n
    | CustomValidArgs => ∃ r, spells args r
    end.
Proof.
  intros Hp. pose proof (runs_known _ _ _ _ _ Hp) as (c&->&_)%list_elem_of_fmap.
  exists c. split_and!; [done|..].
  - intros f. by apply (runs_required tree argv (declare c) args).
  - pose proof (runs_args _ _ _ _ _ Hp) as Ha. cbn [declare d_args] in Ha.
    destruct (Args c); [done..|]. by apply valid_args.
Qed.

(** An import that does not reconcile leaves the OpenFGA server alone. *)
Lemma import_without_sync fuel clock uuid Init dsn a f d t e d' t' :
  flag_sync f = false →
  runImport (TD:=TD) fuel clock uuid Init dsn a f d t = (e, (d', t')) → t' = t.
Proof.
  intros Hs. unfold runImport, run_importer. rewrite Hs.
  destruct (NewDBClient _ _ _ _) as [?|[s|?]]; [naive_solver| |naive_solver].
  destruct (import_driver _ _) as [drv|?]; [|naive_solver].
  destruct (buildAuthorizer _ _) as [az|?]; [|naive_solver]. cbn [fst snd].
  destruct (Importer.Run _ _ _ _) as [[?|?] s']; naive_solver.
Qed.

(** What a membership command line does. *)
Lemma membership_run c set arg sub d e d' :
  wf d → subcommand_of c set arg = Some sub → required_set c set →
  run_subcommand (m_now w) (GetString c set "dsn") (GetString c set "format") (m_pgx w) sub d
    = (e, d') →
  memberships d' ≠ memberships d →
  is_Some (set !! "dsn"%string) ∧
  (exit_code e = 0 → effect sub (memberships d) (memberships d')) ∧
  (exit_code e ≠ 0 → partial_effect sub (memberships d) (memberships d')) ∧
  match c with
  | CmdUsersDelete => True
  | CmdUsersSetGroups => is_Some (set !! "group"%string)
  | CmdGroupsAddUsers | CmdGroupsRemoveUsers => is_Some (set !! "user"%string)
  | _ => False
  end.
Proof.
  intros Hwf Hsub Hreq [_ Hr]%run_subcommand_inv Hne; [|done].
  assert (is_Some (set !! "dsn"%string)) as Hdsn.
  { apply (Hreq (mkFlag "dsn" "" (VString "") true)); [|done]. by destruct c; try done; left. }
  assert (c = CmdUsersSetGroups → is_Some (set !! "group"%string)) as Hgroup.
  { intros ->. apply (Hreq (mkFlag "group" "g" (VStrings []) true)); [|done].
    cbn. rewrite !elem_of_cons. auto. }
  assert (c = CmdGroupsAddUsers → is_Some (set !! "user"%string)) as Huser.
  { intros ->. apply (Hreq (mkFlag "user" "u" (VStrings []) true)); [|done].
    cbn. rewrite !elem_of_cons. auto. }
  destruct Hr as [(out&->&He&_)|(?&_&[->|[Hp _]])]; [|done|].
  - split_and!; [done..|]. destruct c; try done; simplify_eq/=; auto.
    destruct He as (g'&_&HM). destruct (set !! "user"%string) as [v|] eqn:Hu; [by eexists|].
    destruct Hne. rewrite HM. unfold GetStringSlice.
    rewrite (flag_unset _ _ (mkFlag "user" "u" (VStrings []) false) Hu);
      [cbn; set_solver|cbn; rewrite !elem_of_cons; auto|]. by apply (bool_decide_unpack _).
  - split_and!; [done..|]. destruct c; try done; simplify_eq/=; auto.
Qed.

(** A command line that serves is one of "serve". *)
Lemma serving_line argv d t g e :
  program w argv (d, (t, g)) = Serving e →
  ∃ args set, parse tree argv = Runs (declare CmdServe) args set.
Proof.
  unfold program. destruct (parse tree argv) as [?|?|dc args set] eqn:Hparse; [done..|].
  destruct (parse_tree _ _ _ _ Hparse) as (c&->&_). cbn [declare d_command]. intros Hp.
  destruct c; cbn [run_command] in Hp; [by do 2 eexists|..];
    repeat match type of Hp with
      | (let '(_, _) := ?x in _) = _ => destruct x as [? ?]
      | match ?x with _ => _ end = _ => destruct x
      end; done.
Qed.

End properties.

(** ** Concrete command lines *)

Module Witnesses.
Import TestParams StorageSpec.Witnesses DbClient.Witnesses Groups.Witnesses Hooks.Witnesses
  Logging.Witnesses Monitoring.Witnesses Tracing.Witnesses Authn.Witnesses Router.Witnesses
  Serve.Witnesses Shutdown.Witnesses Main.Witnesses.
Local Open Scope string_scope.

#[export] Instance flag_value_eq_dec : EqDecision flag_value.
Proof. solve_decision. Defined.
#[export] Instance flag_eq_dec : EqDecision flag.
Proof. solve_decision. Defined.
#[export] Instance args_check_eq_dec : EqDecision args_check.
Proof. solve_decision. Defined.
#[export] Instance declared_eq_dec : EqDecision declared.
Proof. solve_decision. Defined.

#[export] Instance quoting : Strconv := {| Quote s := s |}.
#[export] Instance ranges : Cobra := {|
  RangeArgs min max args :=
    if decide (min ≤ length args ≤ max)%nat then None else Some (EText "accepts between");
|}.
#[export] Instance ranges_laws : CobraLaws.
Proof. split. intros. cbn. case_decide; naive_solver. Qed.

(** A command line that understands "users set-groups ID --dsn DSN --group IDS" and
    "groups remove-users ID --dsn DSN". *)
#[export] Instance two_lines : CobraCommandLine := {|
  parse cs argv :=
    match argv with
    | [a; b; u; o1; dsn; o2; gs] =>
        if decide ([a; b; o1; o2] = ["users"; "set-groups"; "--dsn"; "--group"] ∧
                   declare CmdUsersSetGroups ∈ cs)
        then Runs (declare CmdUsersSetGroups) [u]
               {[ "dsn" := VString dsn; "group" := VStrings (Split ","%char gs) ]}
        else Refused (EText "unknown command")
    | [a; b; g; o1; dsn] =>
        if decide ([a; b; o1] = ["groups"; "remove-users"; "--dsn"] ∧
                   declare CmdGroupsRemoveUsers ∈ cs)
        then Runs (declare CmdGroupsRemoveUsers) [g] {[ "dsn" := VString dsn ]}
        else Refused (EText "unknown command")
    | _ => Refused (EText "unknown command")
    end;
  flag_value_of fs set name :=
    match set !! name with
    | Some v => Some v
    | None => flag_default <$> list.head (filter (λ f, flag_name f = name) fs)
    end;
|}.

Lemma two_lines_runs cs argv c args set :
  parse cs argv = Runs c args set → c ∈ cs ∧ length args = 1%nat ∧
  ((c = declare CmdUsersSetGroups ∧
    ∃ dsn gs, set = {[ "dsn" := VString dsn; "group" := VStrings (Split ","%char gs) ]}) ∨
   (c = declare CmdGroupsRemoveUsers ∧ ∃ dsn, set = {[ "dsn" := VString dsn ]})).
Proof.
  cbn. repeat case_match; try done; destruct_and?; intros [= <- <- <-];
    split_and!; try done; eauto.
Qed.

#[export] Instance two_lines_laws : CobraCommandLineLaws.
Proof.
  split; [intros * (Hc&Hl&Hs)%two_lines_runs..| |]; [done|..].
  - by destruct Hs as [[-> _]|[-> _]].
  - intros Hf Hr. destruct Hs as [[-> (dsn&gs&->)]|[-> (dsn&->)]]; cbn in Hf;
      rewrite !elem_of_cons in Hf; destruct_or?; simplify_eq/=;
      try (by apply not_elem_of_nil in Hf); by eexists.
  - destruct Hs as [[-> (dsn&gs&->)]|[-> (dsn&->)]]; intros Hn.
    + apply lookup_insert_Some in Hn as [[<- <-]|[_ [<- <-]%lookup_singleton_Some]].
      * exists (mkFlag "dsn" "" (VString "") true). split_and!; [left|done..].
      * exists (mkFlag "group" "g" (VStrings []) true). split_and!; [|done..].
        cbn. rewrite !elem_of_cons. auto.
    + apply lookup_singleton_Some in Hn as [<- <-].
      exists (mkFlag "dsn" "" (VString "") true). split_and!; [left|done..].
  - intros * Hn. cbn. by rewrite Hn.
  - intros fs set f Hn Hf Hnd. cbn. rewrite Hn. clear Hn.
    induction fs as [|f0 fs IH]; [by apply not_elem_of_nil in Hf|].
    cbn in Hnd. apply list.NoDup_cons in Hnd as [Hf0 Hnd]. rewrite filter_cons.
    apply elem_of_cons in Hf as [->|Hf]; [by rewrite decide_True|].
    rewrite decide_False by (intros He; rewrite He in Hf0; by destruct Hf0; apply list_elem_of_fmap_2).
    by apply IH.
Qed.

#[export] Existing Instance Cmd.Witnesses.three.

Definition here : machine (T:=unit) (URL:=unit) :=
  mkMachine unit Cmd.Witnesses.healthy (λ _, mkMigrateAnswers None None None None) 6 (λ _, 6) (λ _, Ok "c3") (λ _, 1%nat)
    (λ _ _ _, Ok (λ _, Ok [])) (λ _, Ok tt) (λ _, "http") (λ _, "fga") 1000 (λ _, "&{...}")
    (world0 env0) [].
Abbreviation run_line := (program (TD:=nat) (Transformer0 := gives 8) (G:=Z) here).

Definition set_line : list string :=
  ["users"; "set-groups"; "u"; "--dsn"; "postgres://db"; "--group"; "B2"].

Example set_line_runs :
  match run_line set_line (d0, (tt, 3%Z)) with
  | Ended e (d, _) => pe_code e = 0%Z ∧ ("b2", "u") ∈ memberships d ∧ (("a1", "u") ∉ memberships d)
  | Serving _ => False
  end.
Proof. vm_compute (program _ _ _). split_and!; [reflexivity|compute_done..]. Qed.

(** Without --user the command succeeds and removes no one. *)
Example remove_no_one :
  run_line ["groups"; "remove-users"; "a1"; "--dsn"; "postgres://db"] (d0, (tt, 3%Z))
    = Ended (mkProcessEnd 0 [Printed (Line "Removed 0 users from group a1")] []) (d0, (tt, 3%Z)).
Proof. vm_compute. reflexivity. Qed.

End Witnesses.
