(* ===== verification/Api.v ===== *)
(** * The management APIs from end to end

    A request of pkg/authorization's or pkg/groups' API through the whole handler of the
    HTTP server ([Router.NewRouter]): the middlewares, the transaction, authentication,
    grpc-gateway, and the handler on the transaction's connection ([Management]).
    grpc-gateway is a parameter: the request it decodes, and what it writes. *)

From Stdlib Require Import SpecFloat.
From S2P Require Import Prelude Errors Logging Types Sql Storage StorageSpec Tracing DbClient Monitoring Authorizer Grpc Groups AppAuthz Management Pool Tenants Hooks Authn Config Serve Router.
Open Scope Z_scope.

(** A request that changes something, of either API. *)
Inductive api_request := OfApps (q : app_request) | OfGroups (q : group_request).

Class GrpcGateway := {
  decode : http_request → option api_request;
  reply_body : served → list body;
}.

Section api.
Context {T : Type} `{!PgParams} `{!AuthorizerOps T} `{!GatewayCodes} `{!GoRange} `{!GrpcGateway}.

Definition api_handler (q : api_request) : http_handler T :=
  match q with OfApps q => app_route q | OfGroups q => group_route q end.

(** The handlers registered on the mux of grpc-gateway (router.go); [rest] are the
    requests that change nothing. *)
Definition gateway (rest : http_request → http_handler (T * list body))
    : http_request → http_handler (T * list body) := λ r x st,
  match decode r with
  | Some q =>
      let '(out, (c, t)) := api_handler q x (st.1, st.2.1) in
      (out, (c, (t, st.2.2 ++ reply_body out)))
  | None => rest r x st
  end.
End api.

(** ** Properties *)

(** A handler that works on part of the state, in the middleware. *)
Lemma TransactionMiddleware_part {W V} method (h : http_handler W) (g : served → V → V) x c t v :
  TransactionMiddleware method
    (λ x st, let '(out, (c, t)) := h x (st.1, st.2.1) in (out, (c, (t, g out st.2.2)))) x (c, (t, v))
  = let '(out, (c', t')) := TransactionMiddleware method h x (c, t) in (out, (c', (t', g out v))).
Proof.
  unfold TransactionMiddleware. cbn [fst snd]. case_decide.
  { by destruct (h _ (c, t)) as [out [c' t']]. }
  destruct (WithTx_enter c) as [l c0]. cbn [fst snd].
  destruct (h _ (c0, t)) as [out [c1 t1]]. destruct out; [| |done];
    unfold WithTx_return; destruct (request_failed _); cbn [snd];
    by try destruct (WithTx_commit _ _).
Qed.

(** A handler that answers an error at once. *)
Lemma TransactionMiddleware_refuses `{PgParams} {W} method out0 x (c c' : client) (v v' : W) out :
  (method ≠ "GET" ∧ method ≠ "HEAD")%string → next (begin_faults c) = None →
  (∀ codes, out0 = Wrote codes → 400 ≤ statusCode codes) →
  TransactionMiddleware method (λ _ st, (out0, st)) x (c, v) = (out, (c', v')) →
  out = out0 ∧ primary c' = primary c ∧ v' = v.
Proof.
  intros Hm Hb Hcode Hx.
  assert (∀ l, handler_confined (W:=W) (contextWithLazyTx x l) (λ _ st, (out0, st))) as Hc
    by (by intros l ????? [= _ <- _]).
  destruct (TransactionMiddleware_outcome _ _ _ _ _ _ _ _ Hm Hb Hc Hx) as (l&c0&c1&Hr&Hv&Hp).
  injection Hr as <- -> <-. split_and!; [done| |done].
  destruct Hp as [?|[(codes&->&?) _]]; [done|]. specialize (Hcode _ eq_refl). lia.
Qed.

Section properties.
Context {T Mon : Type} `{PgLaws} `{AuthorizerLaws T} {VT : TenantValidator} `{!Hydra} `{GoRangeLaws}
  `{!MonitorInterface Mon} `{!ChiWriter} `{CorsLaws} `{ChiLaws} `{!Otel} `{OtelhttpLaws}
  `{GatewayCodesLaws} `{!GrpcGateway}.
Context (promhttp rest : http_request → http_handler (T * list body)).

(** The client's view of an answer: the codes, or the panic of the monitor that observes
    them. *)
Definition answered (elapsed : spec_float) (r : http_request) (m : Mon) (codes : list Z)
    (out : served) : Prop :=
  out = Wrote codes ∨
  ∃ msg, (SetResponseTimeMetric (response_tags (r_Method r) (r_Path r) codes) elapsed m).1
           = Err (EPanic msg) ∧ out = Panicked msg.

(** A request that is not a preflight runs in the transaction middleware, and the monitor
    observes its answer. *)
Lemma NewRouter_answer gw token en v tracer info e elapsed r cw (m : Mon) out cw' m' :
  r_Method r ≠ "OPTIONS"%string →
  NewRouter promhttp gw token en v tracer info e elapsed r (cw, m) = (out, (cw', m')) →
  ∃ out1, TransactionMiddleware (r_Method r)
      (route_request (routes promhttp gw token en v tracer info e) r) background cw = (out1, cw') ∧
    (∀ codes, out1 = Wrote codes → answered elapsed r m codes out).
Proof.
  intros Hm. unfold NewRouter, OpenTelemetry. rewrite otelhttp_law. unfold ResponseTime.
  cbn [fst snd].
  destruct (preflight _ r) as [?|] eqn:Hpre; [by apply preflight_options in Hpre|].
  destruct (TransactionMiddleware _ _ _ _) as [[cs|?|] st]; [|by intros [= <- <- <-]; eexists..].
  intros Hx. exists (Wrote cs). unfold answered.
  destruct (SetResponseTimeMetric _ _ _) as [[?|[]] ?] eqn:Hset; simplify_eq;
    (split; [done|]); intros ? [= <-]; try by left. right. eexists. by rewrite Hset.
Qed.

(** A path under the prefix of the management APIs goes to their handler. *)
Lemma routed_to_gateway gw token en v tracer info e r x st :
  admits (Mount "/api/v0/authz") (r_Method r) (r_Path r) →
  route_request (routes promhttp gw token en v tracer info e) r x st =
  authz_route en v tracer gw r x st.
Proof.
  intros Ha. unfold route_request.
  erewrite (find_route_unique _ _ _ 4%nat (Mount "/api/v0/authz")); [done|done|done|].
  intros j q Hq Hj. destruct j as [|[|[|[|[|j]]]]]; cbn in Hq; try done; simplify_eq;
    destruct Hj as [_ Hj]; destruct Ha as [Ha|[rest0 Ha]]; rewrite Ha in Hj; done.
Qed.

(** The guard in front of them. *)
Lemma authz_route_cases gw en v tracer r :
  tracer ≠ None →
  (en = true ∧ ¬ bearer_ok (H:=v) (r_Authorization r) ∧
   ∀ x (st : client * (T * list body)), authz_route en v tracer gw r x st = (Wrote [401], st)) ∨
  ((en = true → bearer_ok (H:=v) (r_Authorization r)) ∧
   ∀ x (st : client * (T * list body)), authz_route en v tracer gw r x st = gw r x st).
Proof.
  intros Htr. destruct tracer as [tr|]; [|done]. unfold authz_route, authzRouter.
  destruct en; [|by right].
  destruct (Authenticate_cases (H:=v) (r_Authorization r)) as [[Hb Ha]|[Hb [msg Ha]]];
    rewrite Ha; [by right|by left].
Qed.

(** The group's id is written as PostgreSQL writes it. *)
Definition canonical_request (q : api_request) : Prop :=
  match q with OfApps q => canonical_id q | OfGroups q => spelled q end.

(** What a request that succeeded has made of the database [d], and of OpenFGA. *)
Definition request_done (q : api_request) (d d' : database) (t' : T) : Prop :=
  match q with
  | OfApps q => ∃ ch, asks q = Some ch ∧ allowed d' = effect ch (allowed d) ∧
      same_but_apps d d' ∧ granted t' (authz_effect ch (allowed d))
  | OfGroups q => stored q d d' ∧ granted t' (allowed d')
  end.

(** The rights [A'] that a request that failed may leave of [A]: only those it is about
    can have been added or taken away. *)
Definition rights_left (q : api_request) (A A' : gset (string * string)) : Prop :=
  match q with
  | OfApps q =>
      match asks q with
      | Some ch => effect ch A ∩ A ⊆ A' ∧ A' ⊆ effect ch A ∪ A
      | None => A' = A
      end
  | OfGroups q => kept_rights q A ⊆ A' ∧ A' ⊆ A
  end.

End properties.

(** ** Concrete requests *)

Module Witnesses.
Import TestParams StorageSpec.Witnesses TestServer Groups.Witnesses DbClient.Witnesses
  Management.Witnesses Hooks.Witnesses Monitoring.Witnesses Tracing.Witnesses Router.Witnesses.
Local Open Scope string_scope.

(** Two routes of the real APIs. *)
#[export] Instance two_routes : GrpcGateway := {|
  decode r :=
    if decide (r_Path r = "/api/v0/authz/groups/b2/apps") then Some (OfApps allow)
    else if decide (r_Path r = "/api/v0/authz/users/u/groups") then Some (OfGroups replace)
    else None;
  reply_body _ := [OtherBody "{}"];
|}.

Abbreviation serve_api r st :=
  (NewRouter (T:=server) (Mon:=Monitor) (VT:=acme) page (gateway page) "s3cret" true noop_verifier
     tracer0 None served (S754_zero false) r st).
Definition put (path : string) (auth : list string) : http_request := mkReq "PUT" path auth (Ok "{}").
Abbreviation start0 := ((client0 [] [], (t0, [])), monitor0).

Example allowed_through_the_server :
  let '(out, ((c, (t, _)), _)) := serve_api (put "/api/v0/authz/groups/b2/apps" ["Bearer bob"]) start0 in
  out = Wrote [200%Z] ∧ ("b2", "vault") ∈ allowed (primary c) ∧
  (authz_CanAccess "w" "vault" ["b2"] t).1 = Ok true.
Proof.
  vm_compute (NewRouter _ _ _ _ _ _ _ _ _ _ _). split; [reflexivity|].
  split; [compute_done|]. vm_compute. reflexivity.
Qed.

Example unauthenticated :
  let '(out, ((c, (t, _)), _)) := serve_api (put "/api/v0/authz/groups/b2/apps" []) start0 in
  out = Wrote [401%Z] ∧ primary c = d0 ∧ t = t0.
Proof. vm_compute. by split_and!. Qed.

End Witnesses.
